(* ===== verification/_CoqProject ===== *)
-Q . S2P
Prelude.v
CLib.v
Bytes.v
Heap.v
System.v
Genconfig.v
GenconfigSpec.v
GenconfigOps.v
GenconfigFile.v
Cconfig.v
ConfigProps.v
SystemApi.v
Syslog.v
Userland.v
UserlandProps.v
LibEnds.v
Dhcp.v
DhcpOptions.v
DhcpPacket.v
DhcpLeases.v
DhcpTable.v
DhcpFiles.v
DhcpServer.v
DhcpSettings.v
SettingsSpec.v
SettingsServer.v
SettingsProps.v
Reservations.v
ClientPacket.v
DhcpScript.v
Dhcpc.v
ClientWire.v
Dhcpd.v
DhcpInv.v
DhcpReply.v
DhcpChoice.v
DhcpEvents.v
DhcpLoop.v
DhcpStart.v
DhcpLeaseFile.v
DhcpLive.v
DhcpSample.v
DhcpProps.v
ClientMessages.v
ClientEnds.v
ClientCheck.v
DhcpcInv.v
ClientRun.v
ClientLive.v
ClientEnv.v
ClientSample.v
ClientServer.v
ClientProps.v
Callout.v
CalloutSpec.v
Igmp.v
McSwitch.v
RouteTable.v
IgmpProxy.v
IgmpConfig.v
IgmpFrame.v
McInv.v
McOps.v
McGroups.v
McSpec.v
RouteInv.v
RouteOps.v
IgmpInv.v
IgmpWire.v
IgmpSteady.v
IgmpAge.v
IgmpConfigFacts.v
IgmpSample.v
IgmpProps.v
