(* ===== verification/Prelude.v ===== *)
(** * The userland of the ipTIME T24000 router

    A verification of the programs that the product itself brings to its firmware:
    the configuration store that every program uses (lib/ul_lib), the DHCP server
    and the DHCP client (udhcp-0.9.8) and the IGMP proxy (igmpproxy).  The sources are modelled as the
    mv6281 configuration compiles them (configs/mv6281 and misc_config:
    USE_NEW_LIB, USE_MV6281, USE_REAL_IPCLONE, USE_SYSTEM_LOG, USE_SYSINFO,
    USE_DHCPD_PATCH_FOR_EXTENDER, USE_DHCP_ACCESS_POLICY, USE_DHCP_AUTO_DETECT,
    USE_DHCPCLIENT_BLOCK_PRIVATE_IP_SERVER, USE_DHCP_CHECK_SAME_SUBNET,
    USE_CONFIG_WIZARD, USE_ISYSD, USE_IPTIME_SERVICE_NETWORK_CALLBACK,
    USE_ROUTER_DNS_STATIC, USE_NAT_ONOFF and USE_FS_OPTIMIZED,
    and in the proxy's own files IGMP_PROXY_REALTEK_METHOD and USE_EFM_PATCH are
    defined; USE_WIRELESS_CGI, USE_11N_SUPPORT, USE_DUAL_WAN, USE_WL_IPTIME_HELPER
    and the variants of other products are not).  The processor is an ARM:
    little endian, [char] without sign, [int] of 32 bits.

    ** The parts and how they interact

    The store keeps text files of lines [tag=value].  A program that changes a
    value locks the file, reads it into a doubly linked list, changes the list,
    writes the file and frees the list (genconfig_api.c); cconfig_api.c gives the
    files names (configuration, status, process ids, hardware).  passwd.c,
    network.c, ipclone.c, syslog.c and others keep their state in these files.
    The DHCP server reads its own configuration file, keeps a table of leases in
    memory and in a file, and uses the library for the log, the switch of the
    server and twin IP.  new_dhcplib.c is what the web pages call to change the
    server: it keeps the settings in the store, writes the server's configuration
    file and its file of reserved addresses, and restarts it.  The DHCP client gets
    the address of the WAN side: it talks to a server of the provider through raw and
    UDP sockets (dhcpc.c, clientpacket.c), and puts what it is given into the
    interface, the routes, the name servers and, by new_dhcplib.c, into the settings
    of the router's own server (script.c).  The IGMP proxy listens to the membership reports of the
    local network; it keeps the hosts of each multicast group (mc_switch.c), opens
    the ports of the switch for them (salsa2.c), keeps a sorted table of routes
    that it hands to the kernel and joins upstream (rttable.c), and asks, ages and
    sweeps by a queue of timeouts (callout.c).

    ** Files of the development

    - Prelude (this file): C strings, the result type with the faults of C, the
      state monad [M] and its rules [wp], machine integers; CLib: the functions of
      the C library on strings; Bytes: bytes, byte order, inet_aton and
      inet_ntoa, strtoul; Heap: the heap; System: the state [sys] of a process
      (heap, files, locks) and the operations on files.
    - Genconfig: genconfig_api.c, one definition per function.  GenconfigSpec:
      the representation predicate [owns] of the list and the specifications of
      reading and of the list operations; GenconfigOps: the ones of the
      operations on entries and groups; GenconfigFile: files, locks, sessions.
      Cconfig: cconfig_api.c and hwinfo.c.  ConfigProps: the theorems about the
      store.
    - SystemApi: functions of system_api.c, ipclone.c, network.c, passwd.c,
      ezupdate_api.c, pppoe_api.c and wizard.c; Syslog: syslog.c; Userland:
      userland_lib.c, and UserlandProps: base64, netmasks and numbers with commas.
      LibEnds: the class [Ends]; every call of the library that the server makes
      returns or faults from every state of the system.
    - Dhcp: messages and options (dhcpd.h, packet.h, options.h, the tables of
      options.c); DhcpOptions: options.c; DhcpPacket: packet.c; DhcpLeases:
      leases.c and the state [srv] of the server; DhcpFiles: files.c; DhcpServer:
      serverpacket.c; Dhcpd: dhcpd.c, main() as [startup] and [serve] over the
      inputs of its passes.
    - DhcpTable, DhcpInv, DhcpReply, DhcpChoice, DhcpEvents, DhcpLoop, DhcpStart:
      the invariant [srv_ok] and the specifications of the handlers, bottom up;
      DhcpLeaseFile: writing and reading the lease file; DhcpLive: progress.
      DhcpSample: a configured server for the witnesses; DhcpProps: the theorems.
    - DhcpSettings: new_dhcplib.c.  SettingsSpec: what its calls do to the store and
      to the file; SettingsServer: what the server reads of the file; SettingsProps
      and Reservations: the theorems about settings and reserved addresses.
    - ClientPacket: clientpacket.c, the state [world] around the client and its calls
      of the kernel as [event]s; DhcpScript: script.c and the functions of network.c
      it calls; Dhcpc: dhcpc.c, udhcpc_main as [client_start] and [client] over the
      passes of its loop, the state [cli] with the [machine] of the static variables.
    - ClientWire: datagrams and get_raw_packet; ClientMessages: the options of the
      client's messages; ClientEnds: every call of the client returns; ClientCheck:
      the search of a network in check_private_ip; DhcpcInv, ClientRun: the invariant
      [cli_ok] of the timeouts, the messages, the signals and the start; ClientLive:
      the timeouts of a client with a silent server; ClientEnv: the texts of the
      environment; ClientSample: a client of the sample server; ClientServer: the
      client and the server together; ClientProps: the other theorems.
    - Callout: callout.c over any type of functions to call; Igmp: the data of the
      proxy, its state [igmpd], the look-ups of ifvc.c, checksum and messages
      (lib.c, igmp.c), the calls of the kernel as a trace of [effect]s; McSwitch:
      mc_switch.c and salsa2.c; RouteTable: rttable.c; IgmpProxy: request.c,
      acceptIgmp and the main loop of igmpproxy.c; IgmpConfig: confread.c,
      config.c, buildIfVc, addVIF and main().
    - CalloutSpec: deadlines as the specification of the queue; IgmpFrame: which
      tables an operation leaves alone ([Runs], its instances by structure);
      McInv, McOps, McGroups: the representation [groups_ok] of the lists of groups
      and members and the operations on them; McSpec: the directory of hosts;
      RouteInv, RouteOps: the same for the routes ([routes_ok]); IgmpInv: the
      invariant [igmp_ok] and the class [Keeps]; IgmpSteady: the class [Steady] of
      operations that only a bad pointer can stop; IgmpWire, IgmpAge,
      IgmpConfigFacts: packets and kernel entries, ageing and sweeps, the
      configuration.  IgmpSample: a small network for the witnesses; IgmpProps:
      the theorems.

    ** What is a parameter

    Code outside the sources is a class: [Net] (the clock, the answers to ARP
    probes, the results of sending), [Interfaces] (addresses of interfaces),
    [Resolver] (gethostbyname), [Services] (functions of the closed libcgi and of
    product libraries), [Multicast] (the link of the WAN port, the ARP table, the
    kernel's multicast cache, the port of a hardware address), [Kernel] (the clock, the
    random numbers and the answers of the kernel to the client) and [Router] (the
    WAN side's settings and texts of closed libraries).  The answers of the
    environment are functions of the number of the question, so that they may
    change at any time.  What a pass of a main loop gets from select(), the signals,
    the clock and the socket is its argument; so is what ioctl() says about the
    interfaces.

    ** What the theorems show

    - The store (ConfigProps): a value that was set is read back, as text and as a
      number; writing and reading a list is the identity on what a file can hold;
      the operations refine updates of an association list, for entries, groups
      and prefixes; and the ways in which they overflow, leave dangling pointers
      or lose values.
    - The server (DhcpProps): over whole runs the table never has two entries for
      an address or a client, and an entry is lost only for one of four reasons;
      each answer is one message of the right kind with an address that the server
      may give to that client, bound in the table for the time it states; a renewing
      client is served, a foreign request refused, a free address found; the
      lease file, the option field and the datagrams say what they should;
      checksum is the Internet checksum.
    - The settings (SettingsProps, Reservations): what is committed is read back, and
      the server that starts from the file has these settings and reservations; when
      changing the name servers restarts the server; and two places where the code
      reads or writes outside its structures.
    - The client (ClientProps, ClientCheck, ClientWire, ClientEnv): whole runs keep
      the socket, the counter, the buffer and the times of the lease in step with the
      state; a silent server costs the lease within 30 timeouts; the search of a
      network for the router's services ends with one that is free; datagrams of
      the server are read as they were sent, and no other datagram but a short one
      leads out of the buffers; the texts of addresses fit their blocks, but for the
      short options and long addresses that the theorems name.
    - The client and the server (ClientServer): a request for an offered address and
      a renewal, from the client's message over the wire to the server's table and
      back, end with the client bound to its address for the time that the server
      granted, exactly when script.c can apply the settings.
    - The proxy (IgmpProps): whole runs of the main loop keep the tables well
      formed, and the end frees them; no packet leads to a NULL or dangling
      pointer; the lists of groups implement a directory of hosts, the queue
      implements deadlines; what a report and a leave do to the directory, the
      routes, the packets and the timers; what the kernel and the wire get; and
      three places where the code faults on ordinary input, with the fault (a route
      that expires and a silent last member are used after their free, the name of
      a downstream interface in the configuration overflows its block).

    [wp any_fault] in a statement allows the run to stop at an operation that C
    leaves undefined, never to run forever; [wp memory_safe] forbids NULL and
    dangling pointers as well; the progress theorems and the ones about faults state
    the result [Ok] or the fault itself, and name what it depends on.

    ** Fuel

    Loops that are not structural take fuel, computed from their input where they
    are called: the length of the file or buffer for the loops over text, the 500
    bytes of the three fields for get_option, the size of the pool for
    find_address (enough when the pool ends below 255.255.255.255; the source
    does not end for that pool), three rounds for folding a 32-bit sum, one more
    than the blocks in the heap for the walks along the lists of the proxy, the
    clock readings of a pass for its loop over timeouts, four rounds for the search of
    a network in check_private_ip, the length of the proxy's configuration file for
    the loops over its tokens (enough for files without NUL bytes; in front of one the
    source does not end, IgmpConfigFacts.nul_never_ends).  The outcome [NoFuel]
    satisfies no [wp], so each theorem about such a function shows that the fuel
    suffices.

    ** What is not modelled

    The variants of other products, the programs of other
    projects (busybox, iptables, ppp, ...), the web pages, the functions of
    lib/ul_lib that only run ioctl or external programs, and of the proxy the
    setting of socket options (kern.c, enableMRouter) and the drivers of the
    switches of other boards.  Output for debugging (LOG, DEBUG, log, the dumps of
    the proxy) is left out. *)

From Stdlib Require Export Ascii ZArith Lia.
From stdpp Require Export base numbers strings sets fin_maps gmap list.

#[global] Open Scope Z_scope.

(** ** C strings

    A C string is the list of its bytes without the terminating NUL. *)
Abbreviation str := (list ascii).

(** String literals of the sources. *)
Definition lit (s : string) : str := String.list_ascii_of_string s.
Arguments lit _%_string.

(** [slen] is strlen, as an integer. *)
Definition slen (s : str) : Z := Z.of_nat (length s).

Definition NUL : ascii := ascii_of_nat 0.
Definition LF : ascii := ascii_of_nat 10.
Definition CR : ascii := ascii_of_nat 13.

#[export] Instance ascii_eq_decision : EqDecision ascii := ascii_dec.

(** Evaluates a decidable side condition. *)
Ltac decided := refine (bool_decide_unpack _ _); vm_compute; exact I.

(** ** Outcomes of C code

    A run either returns a value, or reaches a fault that the C standard
    leaves undefined (or that blocks the process forever), or runs out of
    the fuel of the model.  The last one is never a result of the program:
    the theorems about loops show that it does not happen, but for the two
    loops that the header names, which do not end in the source either. *)
Inductive fault :=
  | NullDeref          (** a null pointer is dereferenced *)
  | Dangling           (** a block that is not allocated is used *)
  | Overflow           (** an array is written or read beyond its size *)
  | Uninit             (** an uninitialised variable is used *)
  | BadShift           (** a shift by the width of the type or more *)
  | DivZero            (** an integer is divided by zero *)
  | Deadlock.          (** a lock the process holds is acquired again *)

Inductive res (A : Type) :=
  | Ok (a : A)
  | Fault (f : fault)
  | NoFuel.
Arguments Ok {A} a.
Arguments Fault {A} f.
Arguments NoFuel {A}.

#[export] Instance fault_eq_decision : EqDecision fault.
Proof. solve_decision. Defined.

(** ** The state-and-fault monad of the stateful components *)
Definition M (S A : Type) : Type := S → res (A * S).

#[export] Instance M_ret S : MRet (M S) := λ A a σ, Ok (a, σ).
#[export] Instance M_bind S : MBind (M S) := λ A B f m σ,
  match m σ with
  | Ok (a, σ') => f a σ'
  | Fault e => Fault e
  | NoFuel => NoFuel
  end.

Definition fail {S A} (e : fault) : M S A := λ _, Fault e.
Definition nofuel {S A} : M S A := λ _, NoFuel.
Definition gets {S A} (f : S → A) : M S A := λ σ, Ok (f σ, σ).
Definition modify {S} (f : S → S) : M S unit := λ σ, Ok (tt, f σ).
Definition of_res {S A} (r : res A) : M S A := λ σ,
  match r with
  | Ok a => Ok (a, σ)
  | Fault e => Fault e
  | NoFuel => NoFuel
  end.
(** [when b m]: an [if] without [else]. *)
Definition when {S} (b : bool) (m : M S unit) : M S unit :=
  if b then m else mret tt.

#[export] Instance res_ret : MRet res := λ A a, Ok a.
#[export] Instance res_bind : MBind res := λ A B f r,
  match r with Ok a => f a | Fault e => Fault e | NoFuel => NoFuel end.

Section monad_laws.
Context {S : Type}.

Lemma bind_Ok {A B} (f : A → M S B) m σ a σ' :
  m σ = Ok (a, σ') → (m ≫= f) σ = f a σ'.
Proof. intros H. unfold mbind, M_bind. by rewrite H. Qed.

Lemma bind_ret {A B} (f : A → M S B) a σ : (mret a ≫= f) σ = f a σ.
Proof. done. Qed.

Lemma bind_of_res {A B} (f : A → M S B) a σ : (of_res (Ok a) ≫= f) σ = f a σ.
Proof. done. Qed.

Lemma bind_gets {A B} (g : S → A) (f : A → M S B) σ : (gets g ≫= f) σ = f (g σ) σ.
Proof. done. Qed.

Lemma bind_inv {A B} (f : A → M S B) m σ b σ' :
  (m ≫= f) σ = Ok (b, σ') →
  ∃ a σ1, m σ = Ok (a, σ1) ∧ f a σ1 = Ok (b, σ').
Proof.
  unfold mbind, M_bind. destruct (m σ) as [[a σ1]|e|] eqn:E; [|done|done].
  eauto.
Qed.

Lemma bind_assoc {A B C} (m : M S A) (f : A → M S B) (g : B → M S C) σ :
  ((m ≫= f) ≫= g) σ = (m ≫= λ a, f a ≫= g) σ.
Proof. unfold mbind, M_bind. by destruct (m σ) as [[a σ1]|e|]. Qed.
End monad_laws.

(** ** Weakest preconditions

    [wp E m Q s]: the run of [m] from [s] ends, with a fault in [E] or with a
    result and a state that satisfy [Q]. *)
Definition wp {S A} (E : fault → Prop) (m : M S A) (Q : A → S → Prop) (s : S) : Prop :=
  match m s with
  | Ok (a, s') => Q a s'
  | Fault e => E e
  | NoFuel => False
  end.
Definition no_fault : fault → Prop := λ _, False.
Definition any_fault : fault → Prop := λ _, True.

Create HintDb wp.

Section wp.
Context {S : Type} {E : fault → Prop}.
Implicit Types s : S.

Lemma wp_ret {A} (a : A) (Q : A → S → Prop) s : Q a s → wp E (mret a) Q s.
Proof. done. Qed.

Lemma wp_bind {A B} (m : M S A) (f : A → M S B) (Q : B → S → Prop) s :
  wp E m (λ a, wp E (f a) Q) s → wp E (m ≫= f) Q s.
Proof. unfold wp, mbind, M_bind. by destruct (m s) as [[a s']|e|]. Qed.

Lemma wp_assoc {A B C} (m : M S A) (f : A → M S B) (g : B → M S C) (Q : C → S → Prop) s :
  wp E ((m ≫= f) ≫= g) Q s → wp E (m ≫= λ a, f a ≫= g) Q s.
Proof. unfold wp. by rewrite bind_assoc. Qed.

Lemma wp_mono {A} (m : M S A) (Q R : A → S → Prop) s :
  wp E m Q s → (∀ a s', Q a s' → R a s') → wp E m R s.
Proof. unfold wp. destruct (m s) as [[a s']|e|]; auto. Qed.

(** The rule of consequence at the head of a sequence. *)
Lemma wp_seq {A B} (m : M S A) (f : A → M S B) (P : A → S → Prop) (Q : B → S → Prop) s :
  wp E m P s → (∀ a s', P a s' → wp E (f a) Q s') → wp E (m ≫= f) Q s.
Proof. intros Hm Hf. apply wp_bind. by eapply wp_mono. Qed.

(** The rule for a first step whose outcome is known. *)
Lemma wp_step {A B} (m : M S A) (f : A → M S B) (Q : B → S → Prop) s a s' :
  m s = Ok (a, s') → wp E (f a) Q s' → wp E (m ≫= f) Q s.
Proof. unfold wp. intros H. by rewrite (bind_Ok _ _ _ _ _ H). Qed.

Lemma wp_gets {A B} (g : S → A) (f : A → M S B) (Q : B → S → Prop) s :
  wp E (f (g s)) Q s → wp E (gets g ≫= f) Q s.
Proof. done. Qed.

Lemma wp_modify {B} (g : S → S) (f : unit → M S B) (Q : B → S → Prop) s :
  wp E (f tt) Q (g s) → wp E (modify g ≫= f) Q s.
Proof. done. Qed.

Lemma wp_fail {A} (e : fault) (Q : A → S → Prop) s : E e → wp E (fail e) Q s.
Proof. done. Qed.

Lemma wp_of_res {A B} (r : res A) (f : A → M S B) (Q : B → S → Prop) s :
  match r with Ok a => wp E (f a) Q s | Fault e => E e | NoFuel => False end →
  wp E (of_res r ≫= f) Q s.
Proof. unfold wp, of_res, mbind, M_bind. by destruct r. Qed.

Lemma wp_Ok {A} (m : M S A) (Q : A → S → Prop) s a s' : m s = Ok (a, s') → Q a s' → wp E m Q s.
Proof. unfold wp. by intros ->. Qed.

Lemma wp_inv {A} (m : M S A) (Q : A → S → Prop) s :
  wp E m Q s → (∃ a s', m s = Ok (a, s') ∧ Q a s') ∨ (∃ e, m s = Fault e ∧ E e).
Proof. unfold wp. destruct (m s) as [[a s']|e|]; naive_solver. Qed.

Lemma wp_conj {A} (m : M S A) (Q R : A → S → Prop) s :
  wp E m Q s → wp E m R s → wp E m (λ a s', Q a s' ∧ R a s') s.
Proof. unfold wp. by destruct (m s) as [[a s']|e|]. Qed.
End wp.
Arguments wp : simpl never.

#[export] Hint Resolve wp_ret wp_fail : wp.
#[export] Hint Unfold no_fault any_fault : wp.

(** ** Machine integers *)
Definition u8 (z : Z) : Z := z mod 2 ^ 8.
Definition u16 (z : Z) : Z := z mod 2 ^ 16.
Definition u32 (z : Z) : Z := z mod 2 ^ 32.
Definition u64 (z : Z) : Z := z mod 2 ^ 64.
(** Two's complement reading of the low 16 and of the low 32 bits: C's [short] and
    [int] on the target. *)
Definition i16 (z : Z) : Z := (z + 2 ^ 15) mod 2 ^ 16 - 2 ^ 15.
Definition i32 (z : Z) : Z := (z + 2 ^ 31) mod 2 ^ 32 - 2 ^ 31.

Definition is_u32 (z : Z) : Prop := 0 ≤ z < 2 ^ 32.
Definition is_i32 (z : Z) : Prop := - 2 ^ 31 ≤ z < 2 ^ 31.

(** ** Generic lemmas *)
Lemma i32_id z : - 2 ^ 31 ≤ z < 2 ^ 31 → i32 z = z.
Proof. intros H. unfold i32. rewrite Z.mod_small by lia. lia. Qed.

Lemma elem_of_option_list {A} (x : A) (o : option A) : x ∈ option_list o ↔ o = Some x.
Proof.
  destruct o; simpl; [|set_solver]. rewrite list_elem_of_singleton. naive_solver.
Qed.

Section filter.
Context {A : Type} (P : A → Prop) `{!∀ x, Decision (P x)}.

Lemma filter_none l : Forall (λ x, ¬ P x) l → filter P l = [].
Proof. induction 1; [done|]. by rewrite filter_cons_False. Qed.

Lemma filter_all l : Forall P l → filter P l = l.
Proof. induction 1; [done|]. rewrite filter_cons_True by done. by f_equal. Qed.
End filter.
