(* ===== verification/CLib.v ===== *)
(** * The C library functions the sources call

    Executable models of the string, stdio and conversion functions of the C
    library that [lib/ul_lib] and the daemons use, on strings without their
    terminating NUL, with the lemmas the components share. *)
From S2P Require Import Prelude.

(** ** Searching and cutting *)

(** Bytes up to the first one that satisfies [p], and the rest from it on. *)
Fixpoint span (p : ascii → bool) (s : str) : str * str :=
  match s with
  | [] => ([], [])
  | c :: s' => if p c then let '(a, b) := span p s' in (c :: a, b) else ([], s)
  end.

Definition is_char (c d : ascii) : bool := bool_decide (c = d).
Definition one_of (ds : str) (c : ascii) : bool := existsb (is_char c) ds.

(** [cut c s]: [if ((p = strchr(s, c))) *p = 0;] *)
Definition cut (c : ascii) (s : str) : str := (span (λ d, negb (is_char c d)) s).1.

(** [after c s]: the string at [strchr(s, c) + 1], if [c] occurs. *)
Definition after (c : ascii) (s : str) : option str :=
  match (span (λ d, negb (is_char c d)) s).2 with
  | [] => None
  | _ :: r => Some r
  end.

(** What a [char *] into a buffer with this content denotes. *)
Definition cstr (s : str) : str := cut NUL s.

(** [strcmp(a, b) == 0] and [strncmp(s, p, strlen(p)) == 0]. *)
Definition streq (a b : str) : bool := bool_decide (a = b).
Fixpoint prefixb (p s : str) : bool :=
  match p, s with
  | [], _ => true
  | c :: p', d :: s' => is_char c d && prefixb p' s'
  | _ :: _, [] => false
  end.

(** One call of strtok: the token, if any, and the saved position. *)
Definition strtok (delims s : str) : option str * str :=
  let '(_, s1) := span (one_of delims) s in
  match s1 with
  | [] => (None, [])
  | _ => let '(tok, r) := span (λ c, negb (one_of delims c)) s1 in (Some tok, tail r)
  end.

(** ** Buffered input: fgets with a buffer of [n] bytes

    At most [n - 1] bytes are taken, up to and including a newline; [None] at
    the end of the file. *)
Fixpoint fgets_take (n : nat) (s : str) : str * str :=
  match n, s with
  | O, _ => ([], s)
  | _, [] => ([], [])
  | S n', c :: s' =>
      if is_char LF c then ([c], s')
      else let '(a, b) := fgets_take n' s' in (c :: a, b)
  end.

Definition fgets (n : nat) (s : str) : option (str * str) :=
  match s with
  | [] => None
  | _ => Some (fgets_take (n - 1) s)
  end.

(** ** Decimal conversions *)
Definition digit (z : Z) : ascii := ascii_of_N (Z.to_N (48 + z)).
Definition digit_val (c : ascii) : Z := Z.of_N (N_of_ascii c) - 48.
Definition is_digit (c : ascii) : bool := (0 <=? digit_val c) && (digit_val c <=? 9).
Definition is_space (c : ascii) : bool :=
  let n := Z.of_N (N_of_ascii c) in (n =? 32) || ((9 <=? n) && (n <=? 13)).

Fixpoint udec (fuel : nat) (z : Z) : str :=
  match fuel with
  | O => []
  | S f => if z <? 10 then [digit z] else udec f (z / 10) ++ [digit (z mod 10)]
  end.

(** [%u] and [%d]; the fuel is the number of binary digits. *)
Definition fmt_u (z : Z) : str := udec (S (Z.to_nat (Z.log2 z))) z.
Definition fmt_d (z : Z) : str := if z <? 0 then lit "-" ++ fmt_u (- z) else fmt_u z.

Fixpoint parse_udec (acc : Z) (s : str) : Z :=
  match s with
  | c :: s' => if is_digit c then parse_udec (acc * 10 + digit_val c) s' else acc
  | [] => acc
  end.

(** strtol saturates; [int] and [long] have 32 bits on the target. *)
Definition clamp_i32 (z : Z) : Z := Z.max (- 2 ^ 31) (Z.min (2 ^ 31 - 1) z).

Definition atoi (s : str) : Z :=
  let s1 := (span is_space s).2 in
  clamp_i32
    match s1 with
    | c :: r =>
        if is_char "-"%char c then - parse_udec 0 r
        else if is_char "+"%char c then parse_udec 0 r
        else parse_udec 0 s1
    | [] => 0
    end.

(** [snprintf(buf, n, ...)] of a text: what the buffer holds afterwards. *)
Definition snprintf (n : nat) (text : str) : str := take (n - 1) text.

(** ** Hexadecimal input *)
Definition hex_val (c : ascii) : option Z :=
  let n := Z.of_N (N_of_ascii c) in
  if (48 <=? n) && (n <=? 57) then Some (n - 48)
  else if (65 <=? n) && (n <=? 70) then Some (n - 55)
  else if (97 <=? n) && (n <=? 102) then Some (n - 87)
  else None.

(** The longest run of hexadecimal digits, at most [w] of them. *)
Fixpoint scan_digits (w : nat) (acc : Z) (got : bool) (s : str) : option (Z * str) :=
  match w, s with
  | S w', c :: s' =>
      match hex_val c with
      | Some d => scan_digits w' (acc * 16 + d) true s'
      | None => if got then Some (acc, s) else None
      end
  | _, _ => if got then Some (acc, s) else None
  end.

(** The conversion [%wX] of sscanf on an unsigned int: white space is skipped,
    a sign and a prefix "0x" are accepted within the width [w], and a value
    that does not fit is clamped as strtoul does. *)
Definition scan_hex (w : nat) (s : str) : option (Z * str) :=
  let s1 := (span is_space s).2 in
  let '(neg, w, s2) :=
    match w, s1 with
    | S w', c :: r => if is_char "-" c then (true, w', r)
                      else if is_char "+" c then (false, w', r) else (false, w, s1)
    | _, _ => (false, w, s1)
    end in
  let '(got, w, s3) :=
    match w, s2 with
    | S (S w'), a :: b :: r =>
        if is_char "0" a && (is_char "x" b || is_char "X" b) then (true, w', r) else (false, w, s2)
    | _, _ => (false, w, s2)
    end in
  '(z, r) ← scan_digits w 0 got s3;
  let m := Z.min z (2 ^ 32 - 1) in
  Some (if neg then u32 (- m) else m, r).
Definition scan_X (s : str) : option (Z * str) := scan_hex (length s) s.

(** One [%s] of sscanf: white space is skipped, then the longest run without
    white space is taken; [None] at the end of the string. *)
Definition scan_word (s : str) : option (str * str) :=
  let s1 := (span is_space s).2 in
  match s1 with
  | [] => None
  | _ => Some (span (λ c, negb (is_space c)) s1)
  end.

(** ** Lemmas *)
Lemma streq_spec s t : streq s t = true ↔ s = t.
Proof. apply bool_decide_eq_true. Qed.

Lemma snprintf_short n s : (length s < n)%nat → snprintf n s = s.
Proof. intros H. apply take_ge. lia. Qed.

Lemma is_char_true c d : is_char c d = true ↔ c = d.
Proof. unfold is_char. by rewrite bool_decide_eq_true. Qed.

Lemma is_char_refl c : is_char c c = true.
Proof. by apply is_char_true. Qed.

Lemma is_char_false c d : is_char c d = false ↔ c ≠ d.
Proof. unfold is_char. by rewrite bool_decide_eq_false. Qed.

Lemma streq_true a b : streq a b = true ↔ a = b.
Proof. unfold streq. by rewrite bool_decide_eq_true. Qed.

Lemma streq_refl a : streq a a = true.
Proof. by apply streq_true. Qed.

Lemma streq_false a b : streq a b = false ↔ a ≠ b.
Proof. unfold streq. by rewrite bool_decide_eq_false. Qed.

Lemma span_app p s : (span p s).1 ++ (span p s).2 = s.
Proof.
  induction s as [|c s IH]; [done|]. simpl.
  destruct (p c); [|done]. destruct (span p s). simpl in *. by rewrite IH.
Qed.

(** A run of bytes that all satisfy [p], followed by one that does not. *)
Lemma span_forall p a b :
  Forall (λ c, p c = true) a →
  match b with [] => True | c :: _ => p c = false end →
  span p (a ++ b) = (a, b).
Proof.
  intros Ha Hb. induction Ha as [|c a Hc _ IH]; simpl.
  - destruct b as [|c b]; simpl; [done|]. by rewrite Hb.
  - by rewrite Hc, IH.
Qed.

Lemma span_all p a : Forall (λ c, p c = true) a → span p a = (a, []).
Proof. intros H. rewrite <- (app_nil_r a) at 1. by apply span_forall. Qed.

Lemma notin_Forall c s : c ∉ s → Forall (λ d, negb (is_char c d) = true) s.
Proof.
  intros H. apply Forall_forall. intros d Hd.
  apply negb_true_iff, is_char_false. by intros ->.
Qed.

Lemma cut_notin c s : c ∉ s → cut c s = s.
Proof.
  intros H. unfold cut. rewrite span_all; [done|].
  by apply notin_Forall.
Qed.

Lemma cut_app c a b : c ∉ a → cut c (a ++ c :: b) = a.
Proof.
  intros H. unfold cut. rewrite span_forall; [done| |].
  - by apply notin_Forall.
  - by rewrite is_char_refl.
Qed.

Lemma after_app c a b : c ∉ a → after c (a ++ c :: b) = Some b.
Proof.
  intros H. unfold after. rewrite span_forall; [done| |].
  - by apply notin_Forall.
  - by rewrite is_char_refl.
Qed.

Lemma cut_prefix c s : ∃ r, s = cut c s ++ r.
Proof. exists (span (λ d, negb (is_char c d)) s).2. unfold cut. by rewrite span_app. Qed.

Lemma cut_clean c s : c ∉ cut c s.
Proof.
  unfold cut. induction s as [|d s IH]; simpl; [set_solver|].
  destruct (is_char c d) eqn:E; simpl; [set_solver|].
  destruct (span _ s). simpl in *. apply is_char_false in E. set_solver.
Qed.

Lemma cut_length c s : (length (cut c s) ≤ length s)%nat.
Proof. destruct (cut_prefix c s) as [r Hr]. rewrite Hr at 2. rewrite length_app. lia. Qed.

Lemma cut_incl c d s : d ∈ cut c s → d ∈ s.
Proof. destruct (cut_prefix c s) as [r Hr]. rewrite Hr at 2. set_solver. Qed.

Lemma prefixb_app p s : prefixb p (p ++ s) = true.
Proof. induction p; simpl; [done|]. by rewrite is_char_refl. Qed.

Lemma prefixb_spec p s : prefixb p s = true ↔ p `prefix_of` s.
Proof.
  revert s. induction p as [|c p IH]; intros s; simpl.
  - split; [intros _; by exists s|done].
  - destruct s as [|d s].
    + split; [done|]. intros H. by apply prefix_nil_not in H.
    + rewrite andb_true_iff, is_char_true, IH. split.
      * intros [-> H]. by apply prefix_cons.
      * intros H. split; [by eapply prefix_cons_inv_1|by eapply prefix_cons_inv_2].
Qed.

Lemma one_of_true ds c : one_of ds c = true ↔ c ∈ ds.
Proof.
  unfold one_of. rewrite existsb_exists. split.
  - intros (d & Hd & E). apply is_char_true in E. subst. by apply list_elem_of_In.
  - intros H. exists c. split; [by apply list_elem_of_In|apply is_char_refl].
Qed.

Lemma one_of_false ds c : one_of ds c = false ↔ c ∉ ds.
Proof. rewrite <- one_of_true. by destruct (one_of ds c). Qed.

(** *** strtok *)
Lemma strtok_tok ds tok d r :
  tok ≠ [] → Forall (λ c, c ∉ ds) tok → d ∈ ds →
  strtok ds (tok ++ d :: r) = (Some tok, r).
Proof.
  intros Hne Htok Hd. unfold strtok.
  destruct tok as [|t tok]; [done|]. simpl.
  pose proof (Forall_inv Htok) as Ht. simpl in Ht.
  rewrite (proj2 (one_of_false ds t) Ht). simpl.
  rewrite (proj2 (one_of_false ds t) Ht). simpl.
  rewrite span_forall; [done| |].
  - apply Forall_inv_tail in Htok. eapply Forall_impl; [done|].
    intros c Hc. by apply negb_true_iff, one_of_false.
  - by apply negb_false_iff, one_of_true.
Qed.

Lemma strtok_end ds tok :
  tok ≠ [] → Forall (λ c, c ∉ ds) tok → strtok ds tok = (Some tok, []).
Proof.
  intros Hne Htok. unfold strtok.
  destruct tok as [|t tok]; [done|]. simpl.
  pose proof (Forall_inv Htok) as Ht. simpl in Ht.
  rewrite (proj2 (one_of_false ds t) Ht). simpl.
  rewrite (proj2 (one_of_false ds t) Ht). simpl.
  rewrite span_all; [done|].
  apply Forall_inv_tail in Htok. eapply Forall_impl; [done|].
  intros c Hc. by apply negb_true_iff, one_of_false.
Qed.

Lemma strtok_none ds s : Forall (λ c, c ∈ ds) s → strtok ds s = (None, []).
Proof.
  intros H. unfold strtok. rewrite span_all; [done|].
  eapply Forall_impl; [done|]. intros c Hc. by apply one_of_true.
Qed.

(** *** fgets *)
Lemma fgets_take_line n l r :
  LF ∉ l → (length l < n)%nat → fgets_take n (l ++ LF :: r) = (l ++ [LF], r).
Proof.
  revert n. induction l as [|c l IH]; intros [|n] Hl Hn; simpl in *; try lia.
  - done.
  - apply not_elem_of_cons in Hl as [Hc Hl].
    rewrite (proj2 (is_char_false LF c) Hc). rewrite IH; [done|done|lia].
Qed.

Lemma fgets_line n l r :
  LF ∉ l → (length l + 1 < n)%nat →
  fgets n (l ++ LF :: r) = Some (l ++ [LF], r).
Proof.
  intros Hl Hn. unfold fgets.
  destruct (l ++ LF :: r) eqn:E; [by destruct l|]. rewrite <- E.
  by rewrite fgets_take_line by (done || lia).
Qed.

Lemma fgets_take_app n s : (fgets_take n s).1 ++ (fgets_take n s).2 = s.
Proof.
  revert n. induction s as [|c s IH]; intros [|n]; simpl; try done.
  destruct (is_char LF c); [done|].
  specialize (IH n). destruct (fgets_take n s). simpl in *. by rewrite IH.
Qed.

Lemma fgets_shorter n s l r :
  (1 < n)%nat → fgets n s = Some (l, r) → (length r < length s)%nat.
Proof.
  intros Hn. unfold fgets. destruct s as [|c s]; [done|]. intros [= E].
  destruct n as [|[|n]]; [lia|lia|]. simpl in E.
  pose proof (fgets_take_app n s) as Happ.
  destruct (is_char LF c); [simplify_eq; simpl; lia|].
  destruct (fgets_take n s) as [a b]. simplify_eq/=.
  rewrite length_app. lia.
Qed.

(** *** Decimal conversions *)
Lemma digit_val_digit z : 0 ≤ z ≤ 9 → digit_val (digit z) = z.
Proof.
  intros H. unfold digit_val, digit. rewrite N_ascii_embedding by lia.
  rewrite Z2N.id; lia.
Qed.

Lemma is_digit_digit z : 0 ≤ z ≤ 9 → is_digit (digit z) = true.
Proof. intros H. unfold is_digit. rewrite digit_val_digit by done. lia. Qed.

Lemma udec_parse fuel z r :
  0 ≤ z < 2 ^ Z.of_nat fuel → parse_udec 0 (udec fuel z ++ r) = parse_udec z r.
Proof.
  revert z r. induction fuel as [|f IH]; intros z r Hz.
  - change (2 ^ Z.of_nat 0) with 1 in Hz. assert (z = 0) by lia. by subst.
  - rewrite Nat2Z.inj_succ, Z.pow_succ_r in Hz by lia. simpl.
    destruct (Z.ltb_spec z 10).
    + simpl. rewrite is_digit_digit, digit_val_digit by lia. f_equal; lia.
    + rewrite <- app_assoc. rewrite IH by (split; [apply Z.div_pos; lia|];
        apply Z.div_lt_upper_bound; lia).
      simpl. pose proof (Z.mod_pos_bound z 10).
      rewrite is_digit_digit, digit_val_digit by lia.
      f_equal. rewrite (Z.div_mod z 10) at 3 by lia. lia.
Qed.

Lemma fmt_u_parse z r : 0 ≤ z → parse_udec 0 (fmt_u z ++ r) = parse_udec z r.
Proof.
  intros Hz. apply udec_parse. split; [done|].
  destruct (decide (z = 0)) as [->|]; [done|].
  rewrite Nat2Z.inj_succ, Z2Nat.id by apply Z.log2_nonneg.
  apply Z.log2_spec. lia.
Qed.

Lemma udec_digits fuel z : 0 ≤ z → Forall (λ c, is_digit c = true) (udec fuel z).
Proof.
  revert z. induction fuel as [|f IH]; intros z Hz; simpl; [constructor|].
  destruct (Z.ltb_spec z 10).
  - constructor; [|constructor]. apply is_digit_digit. lia.
  - apply Forall_app. split; [apply IH; apply Z.div_pos; lia|].
    constructor; [|constructor]. apply is_digit_digit.
    pose proof (Z.mod_pos_bound z 10). lia.
Qed.

Lemma fmt_u_digits z : 0 ≤ z → Forall (λ c, is_digit c = true) (fmt_u z).
Proof. apply udec_digits. Qed.

Lemma udec_S_nonempty fuel z : udec (S fuel) z ≠ [].
Proof. simpl. destruct (z <? 10); [done|]. by destruct (udec fuel (z / 10)). Qed.

Lemma fmt_u_nonempty z : fmt_u z ≠ [].
Proof. apply udec_S_nonempty. Qed.

Lemma is_digit_range c : is_digit c = true → 48 ≤ Z.of_N (N_of_ascii c) ≤ 57.
Proof. unfold is_digit, digit_val. lia. Qed.

Lemma is_digit_not_space c : is_digit c = true → is_space c = false.
Proof. intros H%is_digit_range. unfold is_space. lia. Qed.

Lemma is_digit_neq c d :
  is_digit c = true → Z.of_N (N_of_ascii d) < 48 → is_char d c = false.
Proof. intros H%is_digit_range Hd. apply is_char_false. intros ->. lia. Qed.

(** Reading back with atoi what sprintf printed with [%d]. *)
Lemma atoi_fmt_d z : is_i32 z → atoi (fmt_d z) = z.
Proof.
  unfold is_i32. intros Hz. unfold fmt_d, atoi.
  assert (Hc : ∀ y, y = z → clamp_i32 y = z)
    by (intros y ->; unfold clamp_i32; lia).
  destruct (Z.ltb_spec z 0).
  - simpl. apply Hc. rewrite <- (app_nil_r (fmt_u (- z))), fmt_u_parse by lia.
    simpl. lia.
  - pose proof (fmt_u_digits z ltac:(lia)) as Hd.
    destruct (fmt_u z) as [|c r] eqn:E; [by apply fmt_u_nonempty in E|].
    pose proof (Forall_inv Hd) as Hc0. simpl in Hc0. simpl.
    rewrite is_digit_not_space by done. simpl.
    rewrite !is_digit_neq by done. apply Hc.
    change (parse_udec 0 (c :: r) = z).
    rewrite <- E, <- (app_nil_r (fmt_u z)), fmt_u_parse by lia. done.
Qed.

Lemma fmt_d_nonempty z : fmt_d z ≠ [].
Proof. unfold fmt_d. destruct (z <? 0); [done|]. apply fmt_u_nonempty. Qed.

(** A printed integer holds digits and a minus sign only. *)
Lemma fmt_d_chars z c :
  c ∈ fmt_d z → is_digit c = true ∨ c = "-"%char.
Proof.
  unfold fmt_d. intros H. destruct (Z.ltb_spec z 0).
  - apply elem_of_cons in H as [->|H]; [by right|].
    left. eapply Forall_forall in H; [|apply (fmt_u_digits (- z)); lia]. done.
  - left. eapply Forall_forall in H; [|apply (fmt_u_digits z); lia]. done.
Qed.

Lemma udec_length fuel z k :
  0 ≤ z < 10 ^ Z.of_nat k → (0 < k)%nat → (length (udec fuel z) ≤ k)%nat.
Proof.
  revert z k. induction fuel as [|f IH]; intros z k Hz Hk; simpl; [lia|].
  destruct (Z.ltb_spec z 10); [simpl; lia|].
  destruct k as [|k]; [lia|].
  rewrite Nat2Z.inj_succ, Z.pow_succ_r in Hz by lia.
  rewrite length_app. simpl.
  destruct k as [|k]; [change (10 ^ Z.of_nat 0) with 1 in Hz; lia|].
  enough (0 ≤ z / 10 < 10 ^ Z.of_nat (S k)) as Hq
    by (specialize (IH (z / 10) (S k) Hq); lia).
  split; [apply Z.div_pos; lia|]. apply Z.div_lt_upper_bound; lia.
Qed.

Lemma fmt_d_length z : is_i32 z → (length (fmt_d z) ≤ 11)%nat.
Proof.
  unfold is_i32, fmt_d, fmt_u. intros Hz. destruct (Z.ltb_spec z 0).
  - rewrite length_app. simpl length at 1.
    pose proof (udec_length (S (Z.to_nat (Z.log2 (- z)))) (- z) 10). lia.
  - pose proof (udec_length (S (Z.to_nat (Z.log2 z))) z 10). lia.
Qed.
