(* ===== verification/Bytes.v ===== *)
(** * Bytes, byte order and Internet addresses

    A byte is an integer below 256; a 32-bit field is the integer the
    little-endian processor reads from its four bytes, so that the addresses of
    the wire, which are in network order, go through [ntohl] as they do in the
    code.  The second part models the conversions of the C library between
    addresses and text: strtoul with base 0, inet_aton, inet_addr, inet_ntoa. *)
From S2P Require Import Prelude CLib.

(** ** Arrays of bytes *)
Abbreviation bytes := (list Z).

Definition is_byte (b : Z) : Prop := 0 ≤ b < 256.
Definition is_bytes (a : bytes) : Prop := Forall is_byte a.

(** [a[i]] and [a[i] = b] with the bounds of the array. *)
Definition rd (a : bytes) (i : Z) : res Z :=
  if i <? 0 then Fault Overflow
  else match a !! Z.to_nat i with Some b => Ok b | None => Fault Overflow end.

Definition wr (a : bytes) (i : Z) (b : Z) : res bytes :=
  if (i <? 0) || (Z.of_nat (length a) <=? i) then Fault Overflow
  else Ok (<[Z.to_nat i := b]> a).

(** memcpy(a + i, src, n) with the bounds of both arrays. *)
Definition blit (a : bytes) (i : Z) (src : bytes) (n : Z) : res bytes :=
  if (i <? 0) || (n <? 0) || (Z.of_nat (length src) <? n) || (Z.of_nat (length a) <? i + n)
  then Fault Overflow
  else Ok (take (Z.to_nat i) a ++ take (Z.to_nat n) src ++ drop (Z.to_nat (i + n)) a).

(** Characters and their codes: what fread and fwrite do. *)
Definition char_byte (c : ascii) : Z := Z.of_N (N_of_ascii c).
Definition byte_char (b : Z) : ascii := ascii_of_N (Z.to_N b).
Definition put_bytes (bs : bytes) : str := byte_char <$> bs.
Definition get_bytes (s : str) : bytes := char_byte <$> s.

(** ** Byte order *)
Definition le_bytes (n : nat) (z : Z) : bytes :=
  (λ k, Z.land (Z.shiftr z (8 * Z.of_nat k)) 255) <$> seq 0 n.
Fixpoint of_le (a : bytes) : Z :=
  match a with [] => 0 | b :: a' => b + 256 * of_le a' end.

Definition ntohl (z : Z) : Z := of_le (rev (le_bytes 4 z)).
Definition htonl (z : Z) : Z := ntohl z.
Definition ntohs (z : Z) : Z := of_le (rev (le_bytes 2 z)).
Definition htons (z : Z) : Z := ntohs z.

(** ** Numbers and addresses as text *)

(** The digits of a base at the head of a string: their value and the rest. *)
Fixpoint scan_base (base acc : Z) (s : str) : Z * str :=
  match s with
  | c :: s' =>
      match hex_val c with
      | Some d => if d <? base then scan_base base (acc * base + d) s' else (acc, s)
      | None => (acc, s)
      end
  | [] => (acc, [])
  end.

Definition digit_of (base : Z) (c : ascii) : bool :=
  match hex_val c with Some d => d <? base | None => false end.

(** The number that strtoul and strtol with base 0 read: its sign, its digits'
    value and the string behind it; [None] when there is no digit. *)
Definition number0 (s : str) : option (bool * Z * str) :=
  let s1 := (span is_space s).2 in
  let '(neg, s2) := match s1 with
                    | c :: r => if is_char "-" c then (true, r)
                                else if is_char "+" c then (false, r) else (false, s1)
                    | [] => (false, s1)
                    end in
  let '(base, s3) :=
    match s2 with
    | a :: r =>
        if is_char "0" a then
          match r with
          | b :: c :: _ => if (is_char "x" b || is_char "X" b) && digit_of 16 c
                           then (16, drop 1 r) else (8, s2)
          | _ => (8, s2)
          end
        else (10, s2)
    | [] => (10, s2)
    end in
  if match s3 with c :: _ => digit_of base c | [] => false end then
    let '(z, r) := scan_base base 0 s3 in Some (neg, z, r)
  else None.

(** strtoul(s, &end, 0) with 32-bit long: the value, saturated, whether it was
    out of range, and the string at [end]. *)
Definition strtoul0 (s : str) : Z * bool * str :=
  match number0 s with
  | Some (neg, z, r) =>
      if z <? 2 ^ 32 then (if neg then u32 (- z) else z, false, r) else (2 ^ 32 - 1, true, r)
  | None => (0, false, s)
  end.

(** strtol(s, &end, 0) *)
Definition strtol0 (s : str) : Z * str :=
  match number0 s with
  | Some (neg, z, r) => (clamp_i32 (if neg then - z else z), r)
  | None => (0, s)
  end.

(** The last part of an address fills the bytes that the others leave. *)
Definition aton_end (parts : bytes) (val : Z) : option Z :=
  if 256 ^ Z.of_nat (4 - length parts) <=? val then None
  else Some (of_le (parts ++ rev (le_bytes (4 - length parts) val))).

(** inet_aton: at most three parts below 256, then the last one; the fuel is
    the number of parts. *)
Fixpoint aton_parts (fuel : nat) (parts : bytes) (s : str) : option Z :=
  match fuel, s with
  | S fuel, c :: _ =>
      if negb (is_digit c) then None
      else
        let '(val, range, r) := strtoul0 s in
        if range then None
        else match r with
             | d :: r' =>
                 if is_char "." d then
                   if (2 <? length parts)%nat || (255 <? val) then None
                   else aton_parts fuel (parts ++ [val]) r'
                 else if is_space d then aton_end parts val else None
             | [] => aton_end parts val
             end
  | _, _ => None
  end.
Definition inet_aton (s : str) : option Z := aton_parts 4 [] s.

Definition INADDR_NONE : Z := 2 ^ 32 - 1.
Definition inet_addr (s : str) : Z := default INADDR_NONE (inet_aton s).

Definition inet_ntoa (a : Z) : str :=
  match le_bytes 4 a with
  | [b0; b1; b2; b3] =>
      fmt_u b0 ++ lit "." ++ fmt_u b1 ++ lit "." ++ fmt_u b2 ++ lit "." ++ fmt_u b3
  | _ => []
  end.

(** Proves that a list of known length holds bytes. *)
Ltac byte_list :=
  repeat (apply Forall_cons_2; [try done; unfold is_byte; lia|]); apply Forall_nil_2.

(** ** Lemmas *)
Lemma byte_char_inv b : is_byte b → char_byte (byte_char b) = b.
Proof.
  intros Hb. unfold is_byte in Hb. unfold char_byte, byte_char.
  rewrite N_ascii_embedding by lia. lia.
Qed.

Lemma get_put_bytes bs : is_bytes bs → get_bytes (put_bytes bs) = bs.
Proof.
  unfold get_bytes, put_bytes. induction 1 as [|b bs Hb _ IH]; [done|].
  rewrite !fmap_cons, IH. by rewrite byte_char_inv.
Qed.

Lemma get_bytes_is_bytes t : is_bytes (get_bytes t).
Proof.
  apply Forall_fmap, Forall_true. intros c. unfold is_byte, char_byte. simpl.
  pose proof (N_ascii_bounded c). lia.
Qed.

Lemma rd_ok a i b : 0 ≤ i → a !! Z.to_nat i = Some b → rd a i = Ok b.
Proof. intros Hi H. unfold rd. by rewrite (proj2 (Z.ltb_ge _ _)), H by lia. Qed.

Lemma rd_total a i : 0 ≤ i < Z.of_nat (length a) → ∃ b, rd a i = Ok b ∧ a !! Z.to_nat i = Some b.
Proof.
  intros Hi. destruct (lookup_lt_is_Some_2 a (Z.to_nat i)) as [b Hb]; [lia|].
  exists b. split; [|done]. by apply rd_ok; [lia|].
Qed.

Lemma rd_cases a i : (∃ b, rd a i = Ok b ∧ a !! Z.to_nat i = Some b ∧ 0 ≤ i) ∨ rd a i = Fault Overflow.
Proof.
  unfold rd. destruct (Z.ltb_spec i 0); [by right|].
  destruct (a !! Z.to_nat i) eqn:E; [left; eauto|by right].
Qed.

Lemma rd_byte a i b : is_bytes a → rd a i = Ok b → is_byte b.
Proof.
  intros Ha H. destruct (rd_cases a i) as [(b' & E & Hb & _)|E]; [|congruence].
  assert (b' = b) as -> by congruence. by eapply Forall_lookup_1.
Qed.

Lemma rd_app a b c : rd (a ++ c :: b) (Z.of_nat (length a)) = Ok c.
Proof.
  apply rd_ok; [lia|]. rewrite Nat2Z.id, lookup_app_r by lia.
  by rewrite Nat.sub_diag.
Qed.

Lemma is_bytes_app a b : is_bytes (a ++ b) ↔ is_bytes a ∧ is_bytes b.
Proof. apply Forall_app. Qed.

(** *** Byte order *)
Lemma le_bytes_length n z : length (le_bytes n z) = n.
Proof. unfold le_bytes. by rewrite length_fmap, length_seq. Qed.

Lemma land_255 z : Z.land z 255 = z mod 256.
Proof. exact (Z.land_ones z 8 ltac:(lia)). Qed.

Lemma le_bytes_is_bytes n z : is_bytes (le_bytes n z).
Proof.
  apply Forall_fmap, Forall_forall. intros k _. simpl. rewrite land_255.
  apply Z.mod_pos_bound. lia.
Qed.

Lemma le_bytes_S n z : le_bytes (S n) z = z mod 256 :: le_bytes n (Z.shiftr z 8).
Proof.
  unfold le_bytes. cbn [seq]. rewrite fmap_cons. f_equal.
  - by rewrite land_255, Z.shiftr_0_r.
  - rewrite <- seq_shift, <- list_fmap_compose. apply list_fmap_ext. intros _ k _. simpl.
    rewrite Z.shiftr_shiftr by lia. do 2 f_equal. lia.
Qed.

Lemma of_le_bytes n z : of_le (le_bytes n z) = z mod 256 ^ Z.of_nat n.
Proof.
  revert z. induction n as [|n IH]; intros z; [by rewrite Z.mod_1_r|].
  rewrite le_bytes_S. cbn [of_le]. rewrite IH, Z.shiftr_div_pow2 by lia.
  rewrite Nat2Z.inj_succ, Z.pow_succ_r by lia. change (2 ^ 8) with 256.
  rewrite Z.rem_mul_r by lia. done.
Qed.

Lemma le_bytes_of_le a : is_bytes a → le_bytes (length a) (of_le a) = a.
Proof.
  induction 1 as [|b a Hb Ha IH]; [done|]. cbn [length of_le]. rewrite le_bytes_S.
  unfold is_byte in Hb. rewrite Z.shiftr_div_pow2 by lia. change (2 ^ 8) with 256.
  replace (b + 256 * of_le a) with (of_le a * 256 + b) by lia.
  rewrite Z.add_comm, Z.mod_add, Z.mod_small, Z.div_add, Z.div_small by lia.
  by rewrite Z.add_0_l, IH.
Qed.

Lemma of_le_range a : is_bytes a → 0 ≤ of_le a < 256 ^ Z.of_nat (length a).
Proof.
  induction 1 as [|b a Hb Ha IH]; cbn [of_le length]; [done|].
  rewrite Nat2Z.inj_succ, Z.pow_succ_r by lia. unfold is_byte in Hb. nia.
Qed.

Lemma ntohl_range z : is_u32 (ntohl z).
Proof.
  unfold ntohl, is_u32. pose proof (of_le_range (rev (le_bytes 4 z))) as H.
  rewrite length_rev, le_bytes_length in H. apply H.
  apply Forall_rev. apply le_bytes_is_bytes.
Qed.

(** Swapping twice gives the value back. *)
Lemma ntohl_htonl z : is_u32 z → ntohl (htonl z) = z.
Proof.
  intros Hz. unfold htonl, ntohl at 1. unfold ntohl.
  set (a := rev (le_bytes 4 z)).
  replace (le_bytes 4 (of_le a)) with a.
  - unfold a. rewrite rev_involutive, of_le_bytes. apply Z.mod_small. exact Hz.
  - symmetry. assert (length a = 4%nat) as Hl by (unfold a; by rewrite length_rev, le_bytes_length).
    rewrite <- Hl. apply le_bytes_of_le. apply Forall_rev, le_bytes_is_bytes.
Qed.

Lemma ntohl_inj z z' : is_u32 z → is_u32 z' → ntohl z = ntohl z' → z = z'.
Proof.
  intros Hz Hz' E. rewrite <- (ntohl_htonl z Hz), <- (ntohl_htonl z' Hz').
  unfold htonl. by rewrite E.
Qed.

(** *** Addresses as text *)
Lemma hex_val_digit c : is_digit c = true → hex_val c = Some (digit_val c).
Proof.
  intros H. apply is_digit_range in H as Hr. unfold hex_val, digit_val.
  rewrite (proj2 (Z.leb_le _ _)), (proj2 (Z.leb_le _ _)) by lia. done.
Qed.

Lemma digit_val_range c : is_digit c = true → 0 ≤ digit_val c ≤ 9.
Proof. unfold is_digit. intros [?%Z.leb_le ?%Z.leb_le]%andb_true_iff. lia. Qed.

Lemma scan_base_dec acc ds r :
  Forall (λ c, is_digit c = true) ds →
  match r with c :: _ => hex_val c = None | [] => True end →
  scan_base 10 acc (ds ++ r) = (parse_udec acc ds, r).
Proof.
  intros Hds Hr. revert acc. induction Hds as [|c ds Hc Hds IH]; intros acc; cbn [app].
  - destruct r as [|c r]; [done|]. simpl. by rewrite Hr.
  - cbn [scan_base parse_udec]. rewrite hex_val_digit, Hc by done.
    pose proof (digit_val_range c Hc). rewrite (proj2 (Z.ltb_lt _ _)) by lia. apply IH.
Qed.

(** A printed number does not begin with a zero, unless it is zero. *)
Lemma udec_head fuel z : 0 < z → z < 2 ^ Z.of_nat fuel →
  ∃ c r, udec fuel z = c :: r ∧ is_digit c = true ∧ c ≠ "0"%char.
Proof.
  revert z. induction fuel as [|fuel IH]; intros z Hz Hlt; [simpl in Hlt; lia|].
  cbn [udec]. destruct (Z.ltb_spec z 10).
  - exists (digit z), []. split; [done|]. split; [apply is_digit_digit; lia|].
    intros E. pose proof (digit_val_digit z ltac:(lia)) as Hd. rewrite E in Hd.
    vm_compute in Hd. lia.
  - destruct (IH (z / 10)) as (c & r & -> & Hc & Hne).
    + apply Z.div_str_pos. lia.
    + rewrite Nat2Z.inj_succ, Z.pow_succ_r in Hlt by lia. apply Z.div_lt_upper_bound; lia.
    + exists c, (r ++ [digit (z mod 10)]). done.
Qed.

Lemma fmt_u_head z : 0 < z → ∃ c r, fmt_u z = c :: r ∧ is_digit c = true ∧ c ≠ "0"%char.
Proof.
  intros Hz. unfold fmt_u. apply udec_head; [done|].
  pose proof (Z.log2_spec z Hz). rewrite Nat2Z.inj_succ, Z2Nat.id by apply Z.log2_nonneg. lia.
Qed.

Lemma strtoul0_fmt_u z r :
  0 ≤ z < 2 ^ 32 → match r with c :: _ => hex_val c = None ∧ c ≠ "x"%char ∧ c ≠ "X"%char | [] => True end →
  strtoul0 (fmt_u z ++ r) = (z, false, r).
Proof.
  intros Hz Hr. unfold strtoul0, number0.
  assert (∃ c s, fmt_u z ++ r = c :: s ∧ is_digit c = true) as (c & s & Es & Hc).
  { pose proof (fmt_u_nonempty z). pose proof (fmt_u_digits z ltac:(lia)) as Hd.
    destruct (fmt_u z) as [|c s]; [done|]. exists c, (s ++ r). split; [done|].
    by apply Forall_cons in Hd as [? _]. }
  assert (scan_base 10 0 (fmt_u z ++ r) = (z, r)) as Hscan.
  { rewrite scan_base_dec; [|apply fmt_u_digits; lia|by destruct r; [|apply Hr]].
    pose proof (fmt_u_parse z [] ltac:(lia)) as Hp. rewrite app_nil_r in Hp. by rewrite Hp. }
  destruct (decide (z = 0)) as [->|Hnz].
  { change (fmt_u 0) with (lit "0"). simpl. destruct r as [|x r]; [done|].
    destruct Hr as (Hx & Hx1 & Hx2). destruct r as [|y r].
    - simpl. by rewrite Hx.
    - rewrite !(proj2 (is_char_false _ _)) by done. simpl. by rewrite Hx. }
  destruct (fmt_u_head z ltac:(lia)) as (c' & s' & Ez & _ & Hne0).
  assert (c' = c) as -> by (rewrite Ez in Es; simpl in Es; congruence).
  rewrite Es in *. simpl span. rewrite (is_digit_not_space c) by done. cbn [snd].
  rewrite !(proj2 (is_char_false _ _)); [| | |].
  - unfold digit_of. rewrite hex_val_digit by done. pose proof (digit_val_range c Hc).
    rewrite (proj2 (Z.ltb_lt _ _)) by lia. rewrite Hscan.
    by rewrite (proj2 (Z.ltb_lt _ _)) by lia.
  - by intros <-.
  - by intros <-.
  - by intros <-.
Qed.

Lemma fmt_u_first z r :
  0 ≤ z → ∃ c s, fmt_u z ++ r = c :: s ∧ is_digit c = true.
Proof.
  intros Hz. pose proof (fmt_u_nonempty z). pose proof (fmt_u_digits z Hz) as Hd.
  destruct (fmt_u z) as [|c s]; [done|]. exists c, (s ++ r). split; [done|].
  by apply Forall_cons in Hd as [? _].
Qed.

(** One part of a printed address, followed by a dot. *)
Lemma aton_parts_dot fuel parts b r :
  is_byte b → (length parts ≤ 2)%nat →
  aton_parts (S fuel) parts (fmt_u b ++ lit "." ++ r) = aton_parts fuel (parts ++ [b]) r.
Proof.
  intros Hb Hp. unfold is_byte in Hb. cbn [aton_parts].
  destruct (fmt_u_first b (lit "." ++ r)) as (c & s & Es & Hc); [lia|].
  rewrite Es, Hc, <- Es. cbn [negb].
  rewrite strtoul0_fmt_u by (done || lia). cbn [lit String.list_ascii_of_string app].
  rewrite is_char_refl, (proj2 (Nat.ltb_ge _ _)), (proj2 (Z.ltb_ge _ _)) by lia. done.
Qed.

Lemma aton_parts_last fuel parts b :
  is_byte b → length parts = 3%nat →
  aton_parts (S fuel) parts (fmt_u b) = Some (of_le (parts ++ [b])).
Proof.
  intros Hb Hp. unfold is_byte in Hb. cbn [aton_parts].
  destruct (fmt_u_first b []) as (c & s & Es & Hc); [lia|]. rewrite app_nil_r in Es.
  rewrite Es, Hc, <- Es. cbn [negb]. rewrite <- (app_nil_r (fmt_u b)).
  rewrite strtoul0_fmt_u by (done || lia). unfold aton_end. rewrite Hp.
  change (256 ^ Z.of_nat (4 - 3)) with 256. rewrite (proj2 (Z.leb_gt _ _)) by lia.
  change (4 - 3)%nat with 1%nat. rewrite le_bytes_S, Z.mod_small by lia. done.
Qed.

Lemma inet_aton_ntoa a : is_u32 a → inet_aton (inet_ntoa a) = Some a.
Proof.
  intros Ha. unfold inet_aton, inet_ntoa.
  pose proof (le_bytes_is_bytes 4 a) as Hb. pose proof (of_le_bytes 4 a) as Ho.
  rewrite Z.mod_small in Ho by exact Ha. pose proof (le_bytes_length 4 a) as Hl.
  destruct (le_bytes 4 a) as [|b0 [|b1 [|b2 [|b3 [|]]]]]; try done. rewrite <- Ho.
  repeat (apply Forall_cons in Hb as [? Hb]).
  rewrite aton_parts_dot by (done || simpl; lia). cbn [app].
  rewrite aton_parts_dot by (done || simpl; lia). cbn [app].
  rewrite aton_parts_dot by (done || simpl; lia). cbn [app].
  by rewrite aton_parts_last.
Qed.

Lemma inet_addr_ntoa a : is_u32 a → inet_addr (inet_ntoa a) = a.
Proof. intros Ha. unfold inet_addr. by rewrite inet_aton_ntoa. Qed.
