(* ===== verification/Heap.v ===== *)
(** * Typed heaps and doubly linked lists

    The heap of a component is a finite map from locations to the blocks of
    one C type (the blocks of different types never overlap).  [Heap] is the
    interface through which the monadic code reaches the heap it works on in
    the state of its component; malloc, free, load and store are defined once
    against it.  The second part is the representation predicate of the
    [next]/[prev] lists that genconfig_api.c and rttable.c maintain, with the
    lemmas on insertion, removal and update that both components use. *)
From S2P Require Import Prelude.

Abbreviation loc := positive.
(** A C pointer: NULL or the location of a block. *)
Abbreviation ptr := (option positive).

Class Heap (S V : Type) := {
  hget : S → gmap loc V;
  hset : gmap loc V → S → S;
  hget_hset h σ : hget (hset h σ) = h;
  hset_hset h h' σ : hset h (hset h' σ) = hset h σ;
  hset_hget σ : hset (hget σ) σ = σ
}.

Section heap_ops.
Context {S V : Type} `{!Heap S V}.

(** malloc followed by the initialisation of the block.  Allocation is
    assumed to succeed, as the sources do not test it. *)
Definition malloc (v : V) : M S loc := λ σ,
  let l := fresh (dom (hget σ)) in Ok (l, hset (<[l:=v]> (hget σ)) σ).

Definition load (p : ptr) : M S V := λ σ,
  match p with
  | None => Fault NullDeref
  | Some l => match hget σ !! l with
              | Some v => Ok (v, σ)
              | None => Fault Dangling
              end
  end.

Definition store (p : ptr) (v : V) : M S unit := λ σ,
  match p with
  | None => Fault NullDeref
  | Some l => match hget σ !! l with
              | Some _ => Ok (tt, hset (<[l:=v]> (hget σ)) σ)
              | None => Fault Dangling
              end
  end.

(** free(NULL) does nothing. *)
Definition free (p : ptr) : M S unit := λ σ,
  match p with
  | None => Ok (tt, σ)
  | Some l => match hget σ !! l with
              | Some _ => Ok (tt, hset (delete l (hget σ)) σ)
              | None => Fault Dangling
              end
  end.

(** Read-modify-write of one block: [p->field = e]. *)
Definition update (p : ptr) (f : V → V) : M S unit :=
  v ← load p; store p (f v).

Lemma load_Some l v σ : hget σ !! l = Some v → load (Some l) σ = Ok (v, σ).
Proof. unfold load. by intros ->. Qed.

Lemma store_Some l v w σ :
  hget σ !! l = Some w → store (Some l) v σ = Ok (tt, hset (<[l:=v]> (hget σ)) σ).
Proof. unfold store. by intros ->. Qed.

Lemma free_Some l v σ :
  hget σ !! l = Some v → free (Some l) σ = Ok (tt, hset (delete l (hget σ)) σ).
Proof. unfold free. by intros ->. Qed.

Lemma update_Some l v f σ :
  hget σ !! l = Some v →
  update (Some l) f σ = Ok (tt, hset (alter f l (hget σ)) σ).
Proof.
  intros H. unfold update. rewrite (bind_Ok _ _ _ v σ) by by apply load_Some.
  rewrite (store_Some l _ v) by done. do 3 f_equal.
  apply map_eq. intros i. rewrite lookup_insert, lookup_alter.
  case_decide; subst; [by rewrite H|done].
Qed.

Lemma update_at l v f σ :
  hget σ !! l = Some v → update (Some l) f σ = Ok (tt, hset (<[l := f v]> (hget σ)) σ).
Proof.
  intros H. unfold update. rewrite (bind_Ok _ _ _ v σ) by by apply load_Some.
  by apply (store_Some l _ v).
Qed.
End heap_ops.

(** ** Doubly linked lists *)
Record node (A : Type) := Node { nval : A; nnext : ptr; nprev : ptr }.
Arguments Node {A} nval nnext nprev.
Arguments nval {A} _.
Arguments nnext {A} _.
Arguments nprev {A} _.

Definition set_val {A} (v : A) (n : node A) : node A := Node v (nnext n) (nprev n).
Definition set_next {A} (p : ptr) (n : node A) : node A := Node (nval n) p (nprev n).
Definition set_prev {A} (p : ptr) (n : node A) : node A := Node (nval n) (nnext n) p.

Section dll.
Context {A : Type}.
Implicit Types h : gmap loc (node A).
Implicit Types cs a b : list (loc * A).

Definition first_loc cs (nn : ptr) : ptr :=
  match cs with [] => nn | (l, _) :: _ => Some l end.
Fixpoint last_loc (pp : ptr) cs : ptr :=
  match cs with [] => pp | (l, _) :: cs' => last_loc (Some l) cs' end.

(** The blocks [cs] in order, the first one reached from [pp], the last one
    pointing to [nn]. *)
Fixpoint seg h (pp : ptr) cs (nn : ptr) : Prop :=
  match cs with
  | [] => True
  | (l, v) :: cs' =>
      h !! l = Some (Node v (first_loc cs' nn) pp) ∧ seg h (Some l) cs' nn
  end.

Record dll h (hd tl : ptr) cs : Prop := {
  dll_nodup : NoDup cs.*1;
  dll_seg : seg h None cs None;
  dll_head : hd = first_loc cs None;
  dll_tail : tl = last_loc None cs
}.

Lemma first_loc_app a b nn : first_loc (a ++ b) nn = first_loc a (first_loc b nn).
Proof. by destruct a as [|[]]. Qed.

Lemma last_loc_app pp a b : last_loc pp (a ++ b) = last_loc (last_loc pp a) b.
Proof. revert pp. induction a as [|[l v] a IH]; intros pp; [done|]. apply IH. Qed.

Lemma seg_app h pp a b nn :
  seg h pp (a ++ b) nn ↔ seg h pp a (first_loc b nn) ∧ seg h (last_loc pp a) b nn.
Proof.
  revert pp. induction a as [|[l v] a IH]; intros pp; simpl; [tauto|].
  rewrite first_loc_app, IH. tauto.
Qed.

Lemma seg_frame h h' pp cs nn :
  (∀ l, l ∈ cs.*1 → h' !! l = h !! l) → seg h pp cs nn → seg h' pp cs nn.
Proof.
  revert pp. induction cs as [|[l v] cs IH]; intros pp Hh; simpl; [done|].
  intros [Hl Hs]. split.
  - rewrite Hh; [done|]. simpl. set_solver.
  - apply IH; [|done]. intros k Hk. apply Hh. simpl. set_solver.
Qed.

Lemma seg_lookup h pp a l v b nn :
  seg h pp (a ++ (l, v) :: b) nn →
  h !! l = Some (Node v (first_loc b nn) (last_loc pp a)).
Proof. rewrite seg_app. simpl. tauto. Qed.

Lemma seg_dom h pp cs nn l : seg h pp cs nn → l ∈ cs.*1 → is_Some (h !! l).
Proof.
  intros Hs Hl. apply list_elem_of_fmap in Hl as ([l' v] & -> & Hl).
  apply list_elem_of_split in Hl as (a & b & ->).
  simpl. rewrite (seg_lookup _ _ _ _ _ _ _ Hs). by eexists.
Qed.

Lemma last_loc_snoc pp a l v : last_loc pp (a ++ [(l, v)]) = Some l.
Proof. by rewrite last_loc_app. Qed.

(** The last block of a segment is either [pp] or one of the segment. *)
Lemma last_loc_cases pp a :
  (a = [] ∧ last_loc pp a = pp) ∨
  (∃ a' l v, a = a' ++ [(l, v)] ∧ last_loc pp a = Some l).
Proof.
  destruct a as [|[l v] a' _] using rev_ind; [by left|right].
  exists a', l, v. by rewrite last_loc_snoc.
Qed.

Lemma seg_alter_ne h pp cs nn f l :
  l ∉ cs.*1 → seg h pp cs nn → seg (alter f l h) pp cs nn.
Proof.
  intros Hl. apply seg_frame. intros k Hk. apply lookup_alter_ne. by intros ->.
Qed.

Lemma seg_insert_ne h pp cs nn n l :
  l ∉ cs.*1 → seg h pp cs nn → seg (<[l:=n]> h) pp cs nn.
Proof.
  intros Hl. apply seg_frame. intros k Hk. apply lookup_insert_ne. by intros ->.
Qed.

Lemma seg_delete_ne h pp cs nn l :
  l ∉ cs.*1 → seg h pp cs nn → seg (delete l h) pp cs nn.
Proof.
  intros Hl. apply seg_frame. intros k Hk. apply lookup_delete_ne. by intros ->.
Qed.

Lemma seg_set_next h pp a l v nn x :
  l ∉ a.*1 → seg h pp (a ++ [(l, v)]) nn →
  seg (alter (set_next x) l h) pp (a ++ [(l, v)]) x.
Proof.
  intros Hl. rewrite !seg_app. simpl. intros (Ha & Hlv & _).
  repeat split; [by apply seg_alter_ne|].
  by rewrite lookup_alter_eq, Hlv.
Qed.

Lemma seg_set_prev h pp l v b nn x :
  l ∉ b.*1 → seg h pp ((l, v) :: b) nn →
  seg (alter (set_prev x) l h) x ((l, v) :: b) nn.
Proof.
  intros Hl. simpl. intros (Hlv & Hb).
  split; [by rewrite lookup_alter_eq, Hlv|by apply seg_alter_ne].
Qed.

Lemma seg_set_val h pp a l v b nn w :
  NoDup (a ++ (l, v) :: b).*1 → seg h pp (a ++ (l, v) :: b) nn →
  seg (alter (set_val w) l h) pp (a ++ (l, w) :: b) nn.
Proof.
  rewrite fmap_app, fmap_cons, NoDup_app, NoDup_cons. simpl.
  intros (_ & Hab & Hl & _). rewrite !seg_app. simpl.
  intros (Ha & Hlv & Hb). repeat split.
  - apply seg_alter_ne; [|done]. set_solver.
  - by rewrite lookup_alter_eq, Hlv.
  - by apply seg_alter_ne.
Qed.

(** Linking the two ends of a gap: [p->next = x] when there is a [p] and
    [q->prev = y] when there is a [q]. *)
Definition relink (p q : ptr) (x y : ptr) h : gmap loc (node A) :=
  let h1 := match p with Some l => alter (set_next x) l h | None => h end in
  match q with Some l => alter (set_prev y) l h1 | None => h1 end.

Lemma relink_seg h pp a b nn m m' x y :
  NoDup (a ++ b).*1 → (a = [] → last_loc pp a = None) → (b = [] → first_loc b nn = None) →
  seg h pp a m → seg h m' b nn →
  seg (relink (last_loc pp a) (first_loc b nn) x y h) pp a x ∧
  seg (relink (last_loc pp a) (first_loc b nn) x y h) y b nn.
Proof.
  intros Hnd Hpp Hnn Ha Hb. unfold relink.
  rewrite fmap_app, NoDup_app in Hnd. destruct Hnd as (Hnda & Hab & Hndb).
  set (h1 := match last_loc pp a with Some l => _ | None => h end).
  assert (seg h1 pp a x ∧ seg h1 m' b nn) as [Ha1 Hb1].
  { subst h1. destruct (last_loc_cases pp a) as [[-> _]|(a' & l & v & -> & E)].
    - simpl in *. by rewrite (Hpp eq_refl).
    - rewrite E. rewrite fmap_app in Hnda, Hab. simpl in *.
      apply NoDup_app in Hnda as (_ & Hl & _).
      split; [eapply seg_set_next; [|done]; set_solver|].
      apply seg_alter_ne; [|done]. set_solver. }
  destruct b as [|[l v] b]; simpl in *.
  { by rewrite (Hnn eq_refl). }
  apply NoDup_cons in Hndb as [Hl Hndb]. split.
  - apply seg_alter_ne; [|done]. set_solver.
  - destruct Hb1 as [Hlv Hb1]. split; [by rewrite lookup_alter_eq, Hlv|].
    by apply seg_alter_ne.
Qed.

(** Insertion of a fresh block between [a] and [b]. *)
Lemma dll_insert h hd tl a b l v :
  dll h hd tl (a ++ b) → l ∉ (a ++ b).*1 →
  dll (<[l := Node v (first_loc b None) (last_loc None a)]>
         (relink (last_loc None a) (first_loc b None) (Some l) (Some l) h))
      (first_loc (a ++ (l, v) :: b) None) (last_loc None (a ++ (l, v) :: b))
      (a ++ (l, v) :: b).
Proof.
  intros [Hnd Hs _ _] Hl. apply seg_app in Hs as [Ha Hb].
  destruct (relink_seg h None a b None _ _ (Some l) (Some l) Hnd
    ltac:(by intros ->) ltac:(by intros ->) Ha Hb) as [Ha' Hb'].
  rewrite fmap_app in Hnd, Hl. apply not_elem_of_app in Hl as [Hla Hlb].
  apply NoDup_app in Hnd as (Hna & Hab & Hnb).
  split; [| |done|done].
  - rewrite fmap_app, fmap_cons. apply NoDup_app. rewrite NoDup_cons.
    simpl. set_solver.
  - apply seg_app. simpl. rewrite lookup_insert_eq.
    repeat split; by apply seg_insert_ne.
Qed.

(** Removal of a block. *)
Lemma dll_remove h hd tl a b l v :
  dll h hd tl (a ++ (l, v) :: b) →
  dll (delete l (relink (last_loc None a) (first_loc b None)
                    (first_loc b None) (last_loc None a) h))
      (first_loc (a ++ b) None) (last_loc None (a ++ b)) (a ++ b).
Proof.
  intros [Hnd Hs _ _]. apply seg_app in Hs as [Ha [_ Hb]].
  rewrite fmap_app, fmap_cons in Hnd. apply NoDup_app in Hnd as (Hna & Hab & Hnb).
  apply NoDup_cons in Hnb as [Hlb Hnb]. simpl in *.
  assert (NoDup (a ++ b).*1) as Hnd.
  { rewrite fmap_app. apply NoDup_app. set_solver. }
  destruct (relink_seg h None a b None _ _ (first_loc b None) (last_loc None a) Hnd
    ltac:(by intros ->) ltac:(by intros ->) Ha Hb) as [Ha' Hb'].
  split; [done| |done|done].
  apply seg_app. split; apply seg_delete_ne; try done. set_solver.
Qed.

Lemma dll_set_val h hd tl a l v b w :
  dll h hd tl (a ++ (l, v) :: b) →
  dll (alter (set_val w) l h) hd tl (a ++ (l, w) :: b).
Proof.
  intros [Hnd Hs -> ->]. split.
  - rewrite fmap_app in *. done.
  - by eapply seg_set_val.
  - by rewrite !first_loc_app.
  - by rewrite !last_loc_app.
Qed.

(** [relink] touches the blocks of the two ends only. *)
Lemma relink_lookup_ne p q x y h l :
  p ≠ Some l → q ≠ Some l → relink p q x y h !! l = h !! l.
Proof.
  intros Hp Hq. unfold relink. destruct p as [p|], q as [q|]; simpl;
    rewrite ?lookup_alter_ne; congruence.
Qed.
End dll.
Arguments relink {A} p q x y h : simpl never.
