(* ===== verification/System.v ===== *)
(** * The state of a process that uses lib/ul_lib

    The blocks the configuration library allocates, and what the library
    reaches outside the process: the files, the advisory locks, and the
    commands given to system(). *)
From S2P Require Import Prelude CLib Heap.

(** The payload of a genconfig_item_t: the [tag] and [value] arrays up to
    their NUL and the [long_value] pointer ([next] and [prev] are the node's,
    include/lib/libdeclare.h:1200). *)
Record item := Item { it_tag : str; it_value : str; it_long : ptr }.

Definition set_tag (t : str) (i : item) : item := Item t (it_value i) (it_long i).
Definition set_value (v : str) (i : item) : item := Item (it_tag i) v (it_long i).
Definition set_long (p : ptr) (i : item) : item := Item (it_tag i) (it_value i) p.
(** The same on the list node that holds the item. *)
Definition on_item (f : item → item) (n : node item) : node item := set_val (f (nval n)) n.

(** The environment of the process. *)
Record osenv := Env {
  files : gmap str str;      (** file contents by path *)
  unwritable : gset str;     (** paths that open() refuses for writing *)
  locks : gset str;          (** lock files on which the process holds flock() *)
  shell : list str           (** commands given to system(), oldest first *)
}.

Record sys := Sys {
  items : gmap loc (node item);
  strs : gmap loc str;
  env : osenv
}.

#[export] Program Instance items_heap : Heap sys (node item) := {|
  hget := items;
  hset h σ := Sys h (strs σ) (env σ)
|}.
Solve All Obligations with (by intros; try match goal with σ : sys |- _ => destruct σ end).

#[export] Program Instance strs_heap : Heap sys str := {|
  hget := strs;
  hset h σ := Sys (items σ) h (env σ)
|}.
Solve All Obligations with (by intros; try match goal with σ : sys |- _ => destruct σ end).

(** ** The environment's operations *)
Definition on_env (f : osenv → osenv) : M sys unit :=
  modify (λ σ, Sys (items σ) (strs σ) (f (env σ))).

Definition set_file (path content : str) (e : osenv) : osenv :=
  Env (<[path := content]> (files e)) (unwritable e) (locks e) (shell e).
Definition del_file (path : str) (e : osenv) : osenv :=
  Env (delete path (files e)) (unwritable e) (locks e) (shell e).
Definition set_locks (ls : gset str) (e : osenv) : osenv :=
  Env (files e) (unwritable e) ls (shell e).
Definition add_cmd (cmd : str) (e : osenv) : osenv :=
  Env (files e) (unwritable e) (locks e) (shell e ++ [cmd]).

(** fopen(path, "r"): the content to read, or NULL. *)
Definition fopen_r (path : str) : M sys (option str) := gets (λ σ, files (env σ) !! path).

(** fopen(path, "w+"): truncates or creates the file; false for NULL. *)
Definition fopen_w (path : str) : M sys bool :=
  e ← gets env;
  if bool_decide (path ∈ unwritable e) then mret false
  else on_env (set_file path []);; mret true.

(** fprintf to a file opened for writing. *)
Definition fprintf (path text : str) : M sys unit :=
  on_env (λ e, set_file path (default [] (files e !! path) ++ text) e).

Definition unlink (path : str) : M sys unit := on_env (del_file path).

Definition system (cmd : str) : M sys unit := on_env (add_cmd cmd).

(** strcpy into an array of [cap] bytes. *)
Definition strcpy {S} (cap : nat) (s : str) : M S str :=
  if (length s <? cap)%nat then mret s else fail Overflow.

Lemma strcpy_ok {S} cap s (σ : S) : (length s < cap)%nat → strcpy cap s σ = Ok (s, σ).
Proof. intros H. unfold strcpy. by rewrite (proj2 (Nat.ltb_lt _ _) H). Qed.

Lemma strcpy_overflow {S} cap s (σ : S) :
  (cap ≤ length s)%nat → strcpy cap s σ = Fault Overflow.
Proof. intros H. unfold strcpy. by rewrite (proj2 (Nat.ltb_ge _ _) H). Qed.
