(* ===== verification/Genconfig.v ===== *)
(** * lib/ul_lib/genconfig_api.c: the configuration store

    A configuration file is a sequence of [tag=value] lines.  The library
    reads it into a doubly linked list of genconfig_item_t blocks, updates the
    list, writes it back and frees it, under an advisory lock per file.  The
    definitions follow the C functions one by one on the typed heaps of
    [System]. *)
From S2P Require Import Prelude CLib Heap System.

Definition GENCONFIG_MAX_ITEM_LEN : nat := 64.
Definition GENCONFIG_MAX_VALUE_LEN : nat := 180.

(** genconfig_ll_t *)
Record genconfig_ll := LL { gl_head : ptr; gl_tail : ptr }.
Definition ll_empty : genconfig_ll := LL None None.

(** The two heaps by name. *)
Definition load_item (p : ptr) : M sys (node item) := load p.
Definition update_item (p : ptr) (f : node item → node item) : M sys unit := update p f.
Definition load_str (p : ptr) : M sys str := load p.
Definition malloc_item : M sys loc := malloc (Node (Item [] [] None) None None).
Definition malloc_str (s : str) : M sys loc := malloc s.
Definition free_str (p : ptr) : M sys unit := free (V:=str) p.
Definition free_item_block (p : ptr) : M sys unit := free (V:=node item) p.

Arguments load_item _ : simpl never.
Arguments update_item _ _ : simpl never.
Arguments load_str _ : simpl never.
Arguments free_str _ : simpl never.
Arguments free_item_block _ : simpl never.

(** Enough iterations for a walk over any acyclic list of the heap. *)
Definition list_fuel : M sys nat := gets (λ σ, S (size (items σ))).

(** ** Locks *)

(** The part after the last '/', if there is one. *)
Fixpoint strrchr_after (c : ascii) (s : str) : option str :=
  match s with
  | [] => None
  | d :: s' => match strrchr_after c s' with
               | Some r => Some r
               | None => if is_char c d then Some s' else None
               end
  end.

Definition lock_name (lockfile : str) : str :=
  snprintf 256 (lit "/var/run/" ++ default lockfile (strrchr_after "/" lockfile)
                ++ lit ".lock").

(** The descriptor is the name of the lock file; [None] is -1. *)
Definition lock_file (lockfile : str) : M sys (option str) :=
  let filename := lock_name lockfile in
  e ← gets env;
  if bool_decide (filename ∈ unwritable e) then mret None
  else
    on_env (λ e, set_file filename (default [] (files e !! filename)) e);;
    if bool_decide (filename ∈ locks e) then fail Deadlock
    else on_env (λ e, set_locks ({[filename]} ∪ locks e) e);; mret (Some filename).

Definition unlock_file (fd : option str) : M sys unit :=
  match fd with
  | Some filename => on_env (λ e, set_locks (locks e ∖ {[filename]}) e)
  | None => mret tt
  end.

(** ** Items and lists *)
Definition genconfig_free_item (p : ptr) : M sys Z :=
  n ← load_item p;
  (match it_long (nval n) with
   | Some _ => free_str (it_long (nval n))
   | None => mret tt
   end);;
  free_item_block p;;
  mret 0.

(** The test [strlen(value) > GENCONFIG_MAX_VALUE_LEN - 1]. *)
Definition is_long (v : str) : bool := (GENCONFIG_MAX_VALUE_LEN - 1 <? length v)%nat.

Definition additem_ll (gen_ll : genconfig_ll) (tag : str) (value : option str)
    : M sys (Z * genconfig_ll) :=
  l ← malloc_item;
  let citem := Some l in
  t ← strcpy GENCONFIG_MAX_ITEM_LEN tag;
  update_item citem (on_item (set_tag t));;
  (match value with
   | Some value =>
       if is_long value then
         p ← malloc_str value;
         update_item citem (on_item (set_long (Some p)))
       else
         v ← strcpy GENCONFIG_MAX_VALUE_LEN value;
         update_item citem (on_item (set_value v));;
         update_item citem (on_item (set_long None))
   | None =>
       update_item citem (on_item (set_value []));;
       update_item citem (on_item (set_long None))
   end);;
  match gl_head gen_ll with
  | None => mret (1, LL citem citem)
  | Some _ =>
      update_item citem (set_prev (gl_tail gen_ll));;
      update_item citem (set_next None);;
      update_item (gl_tail gen_ll) (set_next citem);;
      mret (1, LL (gl_head gen_ll) citem)
  end.

(** The fgets loop of genconfig_read_file; the fuel bounds the number of
    chunks, of which each takes at least a byte. *)
Fixpoint read_loop (fuel : nat) (content : str) (gen_ll : genconfig_ll) (item_count : Z)
    : M sys (Z * genconfig_ll) :=
  match fuel with
  | O => nofuel
  | S fuel =>
      match fgets 4096 content with
      | None => mret (item_count, gen_ll)
      | Some (buffer, rest) =>
          if match buffer with c :: _ => is_char "#" c | [] => false end then
            read_loop fuel rest gen_ll item_count
          else
            match strtok (lit "=" ++ [LF]) (cstr buffer) with
            | (None, _) => read_loop fuel rest gen_ll item_count
            | (Some pa, saved) =>
                tag ← strcpy GENCONFIG_MAX_ITEM_LEN pa;
                let value := (strtok [LF] saved).1 in
                '(r, gen_ll') ← additem_ll gen_ll tag value;
                read_loop fuel rest gen_ll'
                  (if bool_decide (r ≠ 0) then item_count + 1 else item_count)
            end
      end
  end.

Definition genconfig_read_file (filename : str) (gen_ll : genconfig_ll)
    : M sys (Z * genconfig_ll) :=
  fp ← fopen_r filename;
  match fp with
  | None => mret (-1, ll_empty)
  | Some content => read_loop (S (length content)) content gen_ll 0
  end.

(** The text an item holds: [long_value ? long_value : value]. *)
Definition item_text (n : node item) : M sys str :=
  match it_long (nval n) with
  | Some _ => load_str (it_long (nval n))
  | None => mret (it_value (nval n))
  end.

Fixpoint write_loop (fuel : nat) (filename : str) (citem : ptr) : M sys unit :=
  match fuel with
  | O => nofuel
  | S fuel =>
      match citem with
      | None => mret tt
      | Some _ =>
          n ← load_item citem;
          text ← item_text n;
          fprintf filename (it_tag (nval n) ++ lit "=" ++ text ++ [LF]);;
          write_loop fuel filename (nnext n)
      end
  end.

Definition genconfig_write_file (filename : str) (gen_ll : genconfig_ll) : M sys Z :=
  ok ← fopen_w filename;
  if negb ok then mret (-1)
  else
    fuel ← list_fuel;
    write_loop fuel filename (gl_head gen_ll);;
    mret 0.

Fixpoint free_loop (fuel : nat) (citem : ptr) : M sys unit :=
  match fuel with
  | O => nofuel
  | S fuel =>
      match citem with
      | None => mret tt
      | Some _ =>
          n ← load_item citem;
          genconfig_free_item citem;;
          free_loop fuel (nnext n)
      end
  end.

Definition genconfig_free_ll (gen_ll : genconfig_ll) : M sys Z :=
  fuel ← list_fuel;
  free_loop fuel (gl_head gen_ll);;
  mret 0.

(** [for (citem = p; citem; citem = citem->next) if (test) break;] *)
Fixpoint find_loop (fuel : nat) (test : str → bool) (citem : ptr) : M sys ptr :=
  match fuel with
  | O => nofuel
  | S fuel =>
      match citem with
      | None => mret None
      | Some _ =>
          n ← load_item citem;
          if test (it_tag (nval n)) then mret citem
          else find_loop fuel test (nnext n)
      end
  end.

Definition find_item (test : str → bool) (gen_ll : genconfig_ll) : M sys ptr :=
  fuel ← list_fuel;
  find_loop fuel test (gl_head gen_ll).

(** The two branches that overwrite the value of an item. *)
Definition put_value (citem : ptr) (value : str) : M sys unit :=
  if is_long value then
    p ← malloc_str value;
    update_item citem (on_item (set_long (Some p)))
  else
    v ← strcpy GENCONFIG_MAX_VALUE_LEN value;
    update_item citem (on_item (set_value v));;
    n ← load_item citem;
    match it_long (nval n) with
    | Some _ =>
        free_str (it_long (nval n));;
        update_item citem (on_item (set_long None))
    | None => mret tt
    end.

(** Returns the result, the list and the caller's buffer [value], which is
    cut at its first CR and LF. *)
Definition genconfig_set_value (gen_ll : genconfig_ll) (tag : str) (value : option str)
    : M sys (Z * genconfig_ll * option str) :=
  match value with
  | None => mret (-1, gen_ll, None)
  | Some value =>
      let value := cut LF (cut CR value) in
      citem ← find_item (λ t, streq t tag) gen_ll;
      match citem with
      | Some _ => put_value citem value;; mret (1, gen_ll, Some value)
      | None =>
          '(_, gen_ll') ← additem_ll gen_ll tag (Some value);
          mret (0, gen_ll', Some value)
      end
  end.

Definition genconfig_set_intvalue (gen_ll : genconfig_ll) (tag : str) (value : Z)
    : M sys (Z * genconfig_ll) :=
  citem ← find_item (λ t, streq t tag) gen_ll;
  match citem with
  | Some _ =>
      v ← strcpy GENCONFIG_MAX_VALUE_LEN (fmt_d value);
      update_item citem (on_item (set_value v));;
      mret (1, gen_ll)
  | None =>
      let buf := snprintf GENCONFIG_MAX_VALUE_LEN (fmt_d value) in
      '(_, gen_ll') ← additem_ll gen_ll tag (Some buf);
      mret (0, gen_ll')
  end.

(** [cap] is the size of the caller's buffer; the second result is what the
    buffer holds afterwards. *)
Definition genconfig_get_value (gen_ll : genconfig_ll) (tag : str) (cap : nat)
    : M sys (Z * str) :=
  citem ← find_item (λ t, streq t tag) gen_ll;
  match citem with
  | Some _ =>
      n ← load_item citem;
      text ← item_text n;
      v ← strcpy cap text;
      mret (1, v)
  | None => v ← strcpy cap []; mret (0, v)
  end.

(** The result is the string behind the returned pointer, or NULL. *)
Definition genconfig_get_pvalue (gen_ll : genconfig_ll) (tag : str) : M sys (option str) :=
  citem ← find_item (λ t, streq t tag) gen_ll;
  match citem with
  | Some _ => n ← load_item citem; text ← item_text n; mret (Some text)
  | None => mret None
  end.

(** ** Operations on a file *)
Definition genconfig_set_value_direct (filename tag : str) (value : option str) : M sys Z :=
  fd ← lock_file filename;
  '(_, gen_ll) ← genconfig_read_file filename ll_empty;
  '(_, gen_ll, _) ← genconfig_set_value gen_ll tag value;
  genconfig_write_file filename gen_ll;;
  unlock_file fd;;
  genconfig_free_ll gen_ll;;
  mret 0.

Definition genconfig_set_intvalue_direct (filename tag : str) (value : Z) : M sys Z :=
  str_value ← strcpy 128 (fmt_d value);
  genconfig_set_value_direct filename tag (Some str_value);;
  mret 0.

Definition genconfig_get_value_direct (filename tag : str) (cap : nat) : M sys (Z * str) :=
  fd ← lock_file filename;
  '(_, gen_ll) ← genconfig_read_file filename ll_empty;
  '(ret, value) ← genconfig_get_value gen_ll tag cap;
  unlock_file fd;;
  genconfig_free_ll gen_ll;;
  mret (ret, value).

Definition genconfig_get_intvalue_direct (filename tag : str) : M sys Z :=
  '(ret, value) ← genconfig_get_value_direct filename tag 1024;
  if streq value [] || (ret =? -1) then mret (-1) else mret (atoi value).

(** The pointer updates that take [citem] out of the list and free it. *)
Definition unlink_item (gen_ll : genconfig_ll) (citem : ptr) : M sys genconfig_ll :=
  n ← load_item citem;
  let pitem := nprev n in
  let nitem := nnext n in
  head ← (match pitem with
          | Some _ => update_item pitem (set_next nitem);; mret (gl_head gen_ll)
          | None => mret nitem
          end);
  tail ← (match nitem with
          | Some _ => update_item nitem (set_prev pitem);; mret (gl_tail gen_ll)
          | None => mret pitem
          end);
  genconfig_free_item citem;;
  mret (LL head tail).

Definition genconfig_remove_item (filename tag : str) : M sys Z :=
  fd ← lock_file filename;
  '(_, gen_ll) ← genconfig_read_file filename ll_empty;
  citem ← find_item (λ t, streq t tag) gen_ll;
  match citem with
  | None => unlock_file fd;; genconfig_free_ll gen_ll;; mret 0
  | Some _ =>
      gen_ll ← unlink_item gen_ll citem;
      genconfig_write_file filename gen_ll;;
      unlock_file fd;;
      genconfig_free_ll gen_ll;;
      mret 1
  end.

(** ** Indexed items

    Items whose tags agree up to the first '+' form a group; the functions
    below address the [idx]-th item of a group. *)
Definition base_tag (t : str) : str := cut "+" t.

(** Walks of the indexed functions.  [find_index_brk] leaves the loop once the
    counter passes [idx] (genconfig_get_index_value and its likes),
    [find_index_all] does not (genconfig_remove_index_item), and
    [find_index_ge] tests [i++ >= idx] (genconfig_get_index_info). *)
Fixpoint find_index_brk (fuel : nat) (tag : str) (i idx : Z) (citem : ptr) : M sys ptr :=
  match fuel with
  | O => nofuel
  | S fuel =>
      match citem with
      | None => mret None
      | Some _ =>
          n ← load_item citem;
          if streq (base_tag (it_tag (nval n))) tag then
            if i =? idx then mret citem
            else if idx <? i + 1 then mret None
            else find_index_brk fuel tag (i + 1) idx (nnext n)
          else find_index_brk fuel tag i idx (nnext n)
      end
  end.

Fixpoint find_index_all (fuel : nat) (tag : str) (i idx : Z) (citem : ptr) : M sys ptr :=
  match fuel with
  | O => nofuel
  | S fuel =>
      match citem with
      | None => mret None
      | Some _ =>
          n ← load_item citem;
          if streq (base_tag (it_tag (nval n))) tag then
            if i =? idx then mret citem
            else find_index_all fuel tag (i + 1) idx (nnext n)
          else find_index_all fuel tag i idx (nnext n)
      end
  end.

Fixpoint find_index_ge (fuel : nat) (tag : str) (i idx : Z) (citem : ptr) : M sys ptr :=
  match fuel with
  | O => nofuel
  | S fuel =>
      match citem with
      | None => mret None
      | Some _ =>
          n ← load_item citem;
          if negb (streq (base_tag (it_tag (nval n))) tag) then
            find_index_ge fuel tag i idx (nnext n)
          else if idx <=? i then mret citem
          else find_index_ge fuel tag (i + 1) idx (nnext n)
      end
  end.

(** [info] is the caller's structure; the result holds what it is afterwards,
    [None] when it was not written. *)
Definition genconfig_get_index_info (gen_ll : genconfig_ll) (itag : str) (idx : Z)
    : M sys (Z * option item) :=
  if idx <? 0 then mret (0, None)
  else
    t ← strcpy GENCONFIG_MAX_ITEM_LEN itag;
    fuel ← list_fuel;
    citem ← find_index_ge fuel (base_tag t) 0 idx (gl_head gen_ll);
    match citem with
    | Some _ => n ← load_item citem; mret (1, Some (nval n))
    | None => mret (0, Some (Item [] [] None))
    end.

Definition genconfig_get_index_value (gen_ll : genconfig_ll) (itag : str) (idx : Z) (cap : nat)
    : M sys (Z * str) :=
  t ← strcpy GENCONFIG_MAX_ITEM_LEN itag;
  fuel ← list_fuel;
  citem ← find_index_brk fuel (base_tag t) 0 idx (gl_head gen_ll);
  match citem with
  | Some _ =>
      n ← load_item citem;
      text ← item_text n;
      v ← strcpy cap text;
      mret (1, v)
  | None => v ← strcpy cap []; mret (0, v)
  end.

Definition genconfig_get_index_pvalue (gen_ll : genconfig_ll) (itag : str) (idx : Z)
    : M sys (option str) :=
  t ← strcpy GENCONFIG_MAX_ITEM_LEN itag;
  fuel ← list_fuel;
  citem ← find_index_brk fuel (base_tag t) 0 idx (gl_head gen_ll);
  match citem with
  | Some _ => n ← load_item citem; text ← item_text n; mret (Some text)
  | None => mret None
  end.

Definition genconfig_set_index_value (gen_ll : genconfig_ll) (itag : str) (idx : Z)
    (value : option str) : M sys (Z * genconfig_ll) :=
  match value with
  | None => mret (-1, gen_ll)
  | Some value =>
      t ← strcpy GENCONFIG_MAX_ITEM_LEN itag;
      fuel ← list_fuel;
      citem ← find_index_brk fuel (base_tag t) 0 idx (gl_head gen_ll);
      match citem with
      | Some _ => put_value citem value;; mret (1, gen_ll)
      | None =>
          '(_, gen_ll') ← additem_ll gen_ll (base_tag t) (Some value);
          mret (0, gen_ll')
      end
  end.

Definition genconfig_remove_index_item (filename : str) (idx : Z) (itag : str) : M sys Z :=
  fd ← lock_file filename;
  '(_, gen_ll) ← genconfig_read_file filename ll_empty;
  t ← strcpy GENCONFIG_MAX_ITEM_LEN itag;
  fuel ← list_fuel;
  citem ← find_index_all fuel (base_tag t) 0 idx (gl_head gen_ll);
  match citem with
  | None => unlock_file fd;; genconfig_free_ll gen_ll;; mret 0
  | Some _ =>
      gen_ll ← unlink_item gen_ll citem;
      genconfig_write_file filename gen_ll;;
      unlock_file fd;;
      genconfig_free_ll gen_ll;;
      mret 1
  end.

(** The [while (1)] of genconfig_remove_index_allitem. *)
Fixpoint remove_all_loop (fuel : nat) (tag : str) (gen_ll : genconfig_ll) (rmcount : Z)
    : M sys (Z * genconfig_ll) :=
  match fuel with
  | O => nofuel
  | S fuel =>
      citem ← find_item (λ t, streq (base_tag t) tag) gen_ll;
      match citem with
      | None => mret (rmcount, gen_ll)
      | Some _ =>
          gen_ll' ← unlink_item gen_ll citem;
          remove_all_loop fuel tag gen_ll' (rmcount + 1)
      end
  end.

Definition genconfig_remove_index_allitem (filename tag : str) : M sys Z :=
  fd ← lock_file filename;
  '(_, gen_ll) ← genconfig_read_file filename ll_empty;
  fuel ← list_fuel;
  '(rmcount, gen_ll) ← remove_all_loop fuel tag gen_ll 0;
  genconfig_write_file filename gen_ll;;
  unlock_file fd;;
  genconfig_free_ll gen_ll;;
  mret rmcount.

(** ** Examples *)
Definition empty_env : osenv := Env ∅ ∅ ∅ [].
Definition sys0 (fs : gmap str str) : sys := Sys ∅ ∅ (Env fs ∅ ∅ []).

(** The value of a run and the final content of a file. *)
Definition run_file {A} (m : M sys A) (σ : sys) (path : str) : option (A * option str) :=
  match m σ with
  | Ok (a, σ') => Some (a, files (env σ') !! path)
  | _ => None
  end.

Example set_direct_ex :
  run_file (genconfig_set_value_direct (lit "/etc/f") (lit "b") (Some (lit "9")))
    (sys0 {[ lit "/etc/f" := lit "a=1" ++ [LF] ++ lit "b=2" ++ [LF] ]}) (lit "/etc/f")
  = Some (0, Some (lit "a=1" ++ [LF] ++ lit "b=9" ++ [LF])).
Proof. vm_compute. reflexivity. Qed.

Example remove_all_ex :
  run_file (genconfig_remove_index_allitem (lit "/etc/f") (lit "b"))
    (sys0 {[ lit "/etc/f" := lit "b+1=1" ++ [LF] ++ lit "a=2" ++ [LF] ++ lit "b+2=3" ]})
    (lit "/etc/f")
  = Some (2, Some (lit "a=2" ++ [LF])).
Proof. vm_compute. reflexivity. Qed.
