(* ===== verification/GenconfigSpec.v ===== *)
(** * The configuration store: abstract specification and refinement

    The abstract store is the list of its (tag, value) entries.  The theorems
    show that every function of genconfig_api.c, run on a well-formed list,
    does not fault, does not run out of fuel, computes the abstract
    operation, and touches no other block of the heap. *)
From S2P Require Import Prelude CLib Heap System Genconfig.

Abbreviation entry := (prod str str).
Abbreviation entries := (list entry).

(** ** Abstract operations *)
Fixpoint sp_lookup (test : str → bool) (kv : entries) : option str :=
  match kv with
  | [] => None
  | (t, v) :: kv' => if test t then Some v else sp_lookup test kv'
  end.

(** The value of the first entry with the tag, replaced; a new last entry when
    there is none. *)
Fixpoint sp_set (tag v : str) (kv : entries) : entries :=
  match kv with
  | [] => [(tag, v)]
  | (t, w) :: kv' => if streq t tag then (t, v) :: kv' else (t, w) :: sp_set tag v kv'
  end.

Fixpoint sp_remove (test : str → bool) (kv : entries) : entries :=
  match kv with
  | [] => []
  | (t, v) :: kv' => if test t then kv' else (t, v) :: sp_remove test kv'
  end.

(** The content of a file and its entries. *)
Definition print_entry (e : entry) : str := e.1 ++ lit "=" ++ e.2 ++ [LF].
Definition print_config (kv : entries) : str := concat (print_entry <$> kv).

Definition parse_line (buffer : str) : option entry :=
  if match buffer with c :: _ => is_char "#" c | [] => false end then None
  else match strtok (lit "=" ++ [LF]) (cstr buffer) with
       | (None, _) => None
       | (Some pa, saved) => Some (pa, default [] (strtok [LF] saved).1)
       end.

Fixpoint parse_lines (fuel : nat) (content : str) : entries :=
  match fuel with
  | O => []
  | S fuel =>
      match fgets 4096 content with
      | None => []
      | Some (buffer, rest) => option_list (parse_line buffer) ++ parse_lines fuel rest
      end
  end.
Definition parse_config (content : str) : entries := parse_lines (S (length content)) content.

(** The entries whose tags fit the [tag] array. *)
Definition tags_fit (kv : entries) : Prop :=
  Forall (λ e : entry, (length e.1 < GENCONFIG_MAX_ITEM_LEN)%nat) kv.

(** ** The representation of a list in the heap *)
Definition text_of (ss : gmap loc str) (i : item) : option str :=
  match it_long i with Some p => ss !! p | None => Some (it_value i) end.
Definition long_locs (cs : list (loc * item)) : list loc := omap (λ c, it_long c.2) cs.
Arguments long_locs : simpl never.
(** An item holds an entry; its value is out of line when it is long. *)
Definition shows (ss : gmap loc str) (c : loc * item) (e : entry) : Prop :=
  it_tag c.2 = e.1 ∧ text_of ss c.2 = Some e.2 ∧ (is_Some (it_long c.2) ↔ is_long e.2 = true).

(** [gen_ll] is the list of the entries [kv], made of the blocks [cs] and
    their long values, and the rest of the heaps is [h0] and [s0]. *)
Record owns_cells (h0 : gmap loc (node item)) (s0 : gmap loc str) (σ : sys)
    (gen_ll : genconfig_ll) (cs : list (loc * item)) (kv : entries) : Prop := {
  ow_dll : dll (items σ) (gl_head gen_ll) (gl_tail gen_ll) cs;
  ow_frame l : l ∉ cs.*1 → items σ !! l = h0 !! l;
  ow_fresh l : l ∈ cs.*1 → h0 !! l = None;
  ow_sframe p : p ∉ long_locs cs → strs σ !! p = s0 !! p;
  ow_sfresh p : p ∈ long_locs cs → s0 !! p = None;
  ow_snodup : NoDup (long_locs cs);
  ow_shows : Forall2 (shows (strs σ)) cs kv
}.

Definition owns h0 s0 σ gen_ll kv : Prop := ∃ cs, owns_cells h0 s0 σ gen_ll cs kv.

(** ** Single steps *)
Section steps.
Implicit Types (σ : sys) (l : loc).

Lemma update_item_ok l n f σ :
  items σ !! l = Some n →
  update_item (Some l) f σ = Ok (tt, Sys (alter f l (items σ)) (strs σ) (env σ)).
Proof. intros H. unfold update_item. by rewrite (update_Some l n) by done. Qed.

Lemma update_item_new l n f h ss e :
  update_item (Some l) f (Sys (<[l := n]> h) ss e) = Ok (tt, Sys (<[l := f n]> h) ss e).
Proof.
  rewrite (update_item_ok l n) by apply lookup_insert_eq. simpl.
  by rewrite alter_insert_eq.
Qed.

Lemma load_item_ok l n σ :
  items σ !! l = Some n → load_item (Some l) σ = Ok (n, σ).
Proof. exact (load_Some (V:=node item) l n σ). Qed.

Lemma load_str_ok l s σ : strs σ !! l = Some s → load_str (Some l) σ = Ok (s, σ).
Proof. exact (load_Some (V:=str) l s σ). Qed.

Lemma free_item_block_ok l n σ :
  items σ !! l = Some n →
  free_item_block (Some l) σ = Ok (tt, Sys (delete l (items σ)) (strs σ) (env σ)).
Proof. intros H. unfold free_item_block. by rewrite (free_Some l n) by done. Qed.

Lemma free_str_ok l s σ :
  strs σ !! l = Some s →
  free_str (Some l) σ = Ok (tt, Sys (items σ) (delete l (strs σ)) (env σ)).
Proof. intros H. unfold free_str. by rewrite (free_Some l s) by done. Qed.

Lemma item_text_ok n s σ :
  text_of (strs σ) (nval n) = Some s → item_text n σ = Ok (s, σ).
Proof.
  unfold text_of, item_text. destruct (it_long (nval n)) as [p|].
  - apply load_str_ok.
  - by intros [= ->].
Qed.
End steps.

(** Runs a monadic step whose outcome is known. *)
Ltac mstep H := rewrite (bind_Ok _ _ _ _ _ H); simpl.

(** ** The blocks of a represented list *)
Lemma long_locs_app a b : long_locs (a ++ b) = long_locs a ++ long_locs b.
Proof. apply omap_app. Qed.

Lemma long_locs_cons c cs :
  long_locs (c :: cs) = option_list (it_long c.2) ++ long_locs cs.
Proof. unfold long_locs, omap. simpl. by destruct (it_long c.2). Qed.

Lemma shows_frame ss ss' cs kv :
  (∀ p, p ∈ long_locs cs → ss' !! p = ss !! p) →
  Forall2 (shows ss) cs kv → Forall2 (shows ss') cs kv.
Proof.
  intros Hf H. induction H as [|[l i] e cs kv (Ht & Hx & Hlg) H IH]; [constructor|].
  constructor.
  - split; [done|]. split; [|done]. unfold text_of in *. simpl in *.
    destruct (it_long i) as [p|] eqn:E; [|done].
    rewrite Hf; [done|]. rewrite long_locs_cons. simpl. rewrite E. set_solver.
  - apply IH. intros p Hp. apply Hf. rewrite long_locs_cons. set_solver.
Qed.

Section owns_facts.
Context {h0 : gmap loc (node item)} {s0 : gmap loc str}.

Lemma owns_empty σ : owns (items σ) (strs σ) σ ll_empty [].
Proof.
  exists []. split; try done; try set_solver.
  - split; try done. constructor.
  - constructor.
Qed.

(** A block that malloc returns is new. *)
Lemma fresh_items σ l : l = fresh (dom (items σ)) → items σ !! l = None.
Proof. intros ->. apply not_elem_of_dom, is_fresh. Qed.

Lemma fresh_strs σ l : l = fresh (dom (strs σ)) → strs σ !! l = None.
Proof. intros ->. apply not_elem_of_dom, is_fresh. Qed.

Lemma owns_new_item σ ll cs kv l :
  owns_cells h0 s0 σ ll cs kv → items σ !! l = None → l ∉ cs.*1 ∧ h0 !! l = None.
Proof.
  intros H Hl. assert (l ∉ cs.*1) as Hn.
  { intros Hin. destruct (seg_dom _ _ _ _ l (dll_seg _ _ _ _ (ow_dll _ _ _ _ _ _ H)) Hin).
    congruence. }
  split; [done|]. rewrite <- (ow_frame _ _ _ _ _ _ H) by done. done.
Qed.

Lemma long_locs_alloc σ ll cs kv p :
  owns_cells h0 s0 σ ll cs kv → p ∈ long_locs cs → is_Some (strs σ !! p).
Proof.
  intros H Hp. unfold long_locs in Hp. apply list_elem_of_omap in Hp as ([l i] & Hin & Hi).
  simpl in Hi. apply list_elem_of_lookup in Hin as [k Hk].
  destruct (Forall2_lookup_l _ _ _ _ _ (ow_shows _ _ _ _ _ _ H) Hk) as (e & _ & _ & Hx & _).
  unfold text_of in Hx. simpl in Hx. rewrite Hi in Hx. by eexists.
Qed.

Lemma owns_new_str σ ll cs kv p :
  owns_cells h0 s0 σ ll cs kv → strs σ !! p = None → p ∉ long_locs cs ∧ s0 !! p = None.
Proof.
  intros H Hp. assert (p ∉ long_locs cs) as Hn.
  { intros Hin. destruct (long_locs_alloc _ _ _ _ _ H Hin). congruence. }
  split; [done|]. rewrite <- (ow_sframe _ _ _ _ _ _ H) by done. done.
Qed.
End owns_facts.

(** ** additem_ll *)
Section additem.
Context {h0 : gmap loc (node item)} {s0 : gmap loc str}.

(** The strings heap after an item got its long value, if any. *)
Definition with_long (i : item) (v : str) (ss : gmap loc str) : gmap loc str :=
  match it_long i with Some p => <[p := v]> ss | None => ss end.

Lemma owns_append σ ll cs kv l i v :
  owns_cells h0 s0 σ ll cs kv →
  items σ !! l = None →
  (∀ p, it_long i = Some p → strs σ !! p = None) →
  text_of (with_long i v (strs σ)) i = Some v →
  (is_Some (it_long i) ↔ is_long v = true) →
  owns_cells h0 s0
    (Sys (<[l := Node i None (gl_tail ll)]>
            (relink (gl_tail ll) None (Some l) (Some l) (items σ)))
         (with_long i v (strs σ)) (env σ))
    (LL (first_loc (cs ++ [(l, i)]) None) (Some l)) (cs ++ [(l, i)]) (kv ++ [(it_tag i, v)]).
Proof.
  intros H Hl Hp Htext Hlg. pose proof (ow_dll _ _ _ _ _ _ H) as Hd.
  destruct (owns_new_item _ _ _ _ _ H Hl) as [Hlcs Hl0].
  assert (∀ p, it_long i = Some p → p ∉ long_locs cs ∧ s0 !! p = None) as Hp0.
  { intros p E. eapply owns_new_str; eauto. }
  assert (long_locs (cs ++ [(l, i)]) = long_locs cs ++ option_list (it_long i)) as Hlong.
  { rewrite long_locs_app, long_locs_cons. simpl. by rewrite app_nil_r. }
  split; simpl; rewrite ?Hlong.
  - pose proof (dll_insert _ _ _ cs [] l i (eq_ind_r (dll _ _ _) Hd (app_nil_r cs))) as Hi.
    rewrite app_nil_r in Hi. simpl in Hi. specialize (Hi Hlcs).
    rewrite <- (dll_tail _ _ _ _ Hd) in Hi.
    by rewrite last_loc_app in Hi.
  - intros k Hk. rewrite fmap_app in Hk. simpl in Hk.
    rewrite lookup_insert_ne by set_solver.
    rewrite relink_lookup_ne; [|rewrite (dll_tail _ _ _ _ Hd)|done].
    + apply (ow_frame _ _ _ _ _ _ H). set_solver.
    + destruct (last_loc_cases None cs) as [[-> E]|(a & k' & w & -> & E)];
        rewrite E; [done|]. rewrite !fmap_app in Hk. simpl in Hk.
      intros [= ->]. set_solver.
  - intros k. rewrite fmap_app. simpl. intros [Hk|Hk]%elem_of_app.
    + by apply (ow_fresh _ _ _ _ _ _ H).
    + by apply list_elem_of_singleton in Hk as ->.
  - intros p Hn. unfold with_long. destruct (it_long i) as [q|]; simpl in *.
    + rewrite lookup_insert_ne by set_solver. apply (ow_sframe _ _ _ _ _ _ H). set_solver.
    + apply (ow_sframe _ _ _ _ _ _ H). set_solver.
  - intros p [Hn|Hn]%elem_of_app; [by apply (ow_sfresh _ _ _ _ _ _ H)|].
    apply elem_of_option_list in Hn. by apply Hp0.
  - apply NoDup_app. split; [apply (ow_snodup _ _ _ _ _ _ H)|]. split.
    + intros p Hn Hin. apply elem_of_option_list in Hin. by destruct (Hp0 p Hin).
    + destruct (it_long i); simpl; [apply NoDup_singleton|constructor].
  - apply Forall2_app.
    + eapply shows_frame; [|apply (ow_shows _ _ _ _ _ _ H)]. intros p Hn.
      unfold with_long. destruct (it_long i) as [q|] eqn:E; [|done].
      apply lookup_insert_ne. intros ->. by destruct (Hp0 p eq_refl).
    + constructor; [done|constructor].
Qed.

(** The item that additem_ll builds, [p] being the block of a long value. *)
Definition new_item (tag v : str) (p : loc) : item :=
  if is_long v then Item tag [] (Some p) else Item tag v None.

Lemma is_long_false v : is_long v = false → (length v < GENCONFIG_MAX_VALUE_LEN)%nat.
Proof. unfold is_long, GENCONFIG_MAX_VALUE_LEN. rewrite Nat.ltb_ge. lia. Qed.

Lemma new_item_text tag v p ss :
  text_of (with_long (new_item tag v p) v ss) (new_item tag v p) = Some v.
Proof.
  unfold new_item, with_long, text_of. destruct (is_long v); simpl; [|done].
  by rewrite lookup_insert_eq.
Qed.

Lemma new_item_long tag v p : is_Some (it_long (new_item tag v p)) ↔ is_long v = true.
Proof.
  unfold new_item. destruct (is_long v); simpl; split; try done; by intros [].
Qed.

(** The head and tail tests of additem_ll agree. *)
Lemma owns_tail σ ll cs kv :
  owns_cells h0 s0 σ ll cs kv →
  (cs = [] ∧ gl_head ll = None ∧ gl_tail ll = None) ∨
  (∃ t n, gl_head ll = first_loc cs None ∧ is_Some (gl_head ll) ∧
          gl_tail ll = Some t ∧ t ∈ cs.*1 ∧ items σ !! t = Some n).
Proof.
  intros H. destruct (ow_dll _ _ _ _ _ _ H) as [_ Hs Hh Ht].
  destruct (last_loc_cases None cs) as [[-> _]|(a & t & i & -> & E)].
  - left. by rewrite Hh, Ht.
  - right. rewrite E in Ht. exists t. pose proof (seg_lookup _ _ a t i [] _ Hs) as Hl.
    eexists. repeat split; eauto.
    + rewrite Hh. destruct a as [|[]]; by eexists.
    + rewrite fmap_app. set_solver.
Qed.

(** additem_ll appends an entry. *)
Lemma additem_ll_ok σ ll kv tag value :
  owns h0 s0 σ ll kv → (length tag < GENCONFIG_MAX_ITEM_LEN)%nat →
  ∃ σ' ll', additem_ll ll tag value σ = Ok ((1, ll'), σ') ∧
    owns h0 s0 σ' ll' (kv ++ [(tag, default [] value)]) ∧ env σ' = env σ.
Proof.
  intros [cs H] Htag. set (l := fresh (dom (items σ))).
  assert (items σ !! l = None) as Hl by by apply fresh_items.
  set (p := fresh (dom (strs σ))).
  assert (strs σ !! p = None) as Hp by by apply fresh_strs.
  set (v := default [] value). set (i := new_item tag v p).
  pose proof (owns_append σ ll cs kv l i v H Hl) as Happ.
  assert (∀ q, it_long i = Some q → strs σ !! q = None) as Hq.
  { intros q. unfold i, new_item. destruct (is_long v); naive_solver. }
  specialize (Happ Hq (new_item_text tag v p (strs σ)) (new_item_long tag v p)).
  assert (it_tag i = tag) as Hit by (unfold i, new_item; by destruct (is_long v)).
  rewrite Hit in Happ.
  eexists _, _. split; [|split; [eexists; exact Happ|done]].
  unfold additem_ll, malloc_item, malloc. unfold mbind, M_bind. simpl.
  fold l. rewrite strcpy_ok by done. rewrite update_item_new. simpl.
  set (mid := match value with Some _ => _ | None => _ end).
  assert (mid (Sys (<[l := Node (Item tag [] None) None None]> (items σ)) (strs σ) (env σ))
    = Ok (tt, Sys (<[l := Node i None None]> (items σ)) (with_long i v (strs σ)) (env σ)))
    as Hmid.
  { subst mid i v. unfold new_item, with_long. destruct value as [v|]; simpl.
    - destruct (is_long v) eqn:E; unfold mbind, M_bind, malloc_str, malloc; simpl.
      + by rewrite update_item_new.
      + rewrite strcpy_ok by by apply is_long_false. by rewrite !update_item_new.
    - unfold mbind, M_bind. by rewrite !update_item_new. }
  change (on_item _ _) with (Node (Item tag [] None) None None). rewrite Hmid.
  destruct (owns_tail _ _ _ _ H) as [(-> & -> & ->)|(t & n & Eh & [hd Hhd] & Et & Ht & Htn)].
  - done.
  - assert (first_loc (cs ++ [(l, i)]) None = Some hd) as ->
      by (destruct cs as [|[]]; simpl in *; congruence).
    rewrite Et, Hhd.
    rewrite !update_item_new. unfold relink.
    assert (t ≠ l) by congruence.
    rewrite (update_item_ok t n) by (simpl; by rewrite lookup_insert_ne). simpl.
    by rewrite alter_insert_ne.
Qed.
End additem.

(** ** Reading a file *)
Section reading.
Context {h0 : gmap loc (node item)} {s0 : gmap loc str}.

Lemma read_loop_ok fuel content σ ll kv count :
  (length content < fuel)%nat → owns h0 s0 σ ll kv →
  tags_fit (parse_lines fuel content) →
  ∃ σ' ll', read_loop fuel content ll count σ =
      Ok ((count + Z.of_nat (length (parse_lines fuel content)), ll'), σ') ∧
    owns h0 s0 σ' ll' (kv ++ parse_lines fuel content) ∧ env σ' = env σ.
Proof.
  revert content σ ll kv count.
  induction fuel as [|fuel IH]; intros content σ ll kv count Hf Hown Hfit; [lia|].
  cbn [read_loop parse_lines] in *.
  destruct (fgets 4096 content) as [[buffer rest]|] eqn:E.
  2:{ eexists σ, ll. rewrite app_nil_r, Z.add_0_r. done. }
  apply fgets_shorter in E as Hs; [|lia].
  apply Forall_app in Hfit as [Hfit1 Hfit]. unfold parse_line in *.
  destruct (match buffer with c :: _ => is_char "#" c | [] => false end).
  { apply IH; [lia|done|done]. }
  destruct (strtok (lit "=" ++ [LF]) (cstr buffer)) as [[pa|] saved]; simpl in *;
    [|apply IH; [lia|done|done]].
  apply Forall_inv in Hfit1. simpl in Hfit1.
  unfold mbind, M_bind. rewrite strcpy_ok by done.
  destruct (additem_ll_ok σ ll kv pa (strtok [LF] saved).1 Hown Hfit1)
    as (σ1 & ll1 & -> & Hown1 & Henv1).
  destruct (IH rest σ1 ll1 _ (count + 1) ltac:(lia) Hown1 Hfit)
    as (σ2 & ll2 & Hrun & Hown2 & Henv2).
  exists σ2, ll2. simpl. rewrite Hrun. split; [do 3 f_equal; lia|].
  rewrite <- app_assoc in Hown2. split; [done|congruence].
Qed.

Lemma read_loop_overflow fuel content σ ll kv count :
  (length content < fuel)%nat → owns h0 s0 σ ll kv →
  ¬ tags_fit (parse_lines fuel content) →
  read_loop fuel content ll count σ = Fault Overflow.
Proof.
  revert content σ ll kv count.
  induction fuel as [|fuel IH]; intros content σ ll kv count Hf Hown Hfit; [lia|].
  cbn [read_loop parse_lines] in *.
  destruct (fgets 4096 content) as [[buffer rest]|] eqn:E.
  2:{ destruct Hfit. constructor. }
  apply fgets_shorter in E as Hs; [|lia].
  unfold tags_fit in *. rewrite Forall_app in Hfit. unfold parse_line in *.
  destruct (match buffer with c :: _ => is_char "#" c | [] => false end).
  { eapply IH; [lia|done|]. intros Hx. by apply Hfit. }
  destruct (strtok (lit "=" ++ [LF]) (cstr buffer)) as [[pa|] saved]; simpl in *.
  2:{ eapply IH; [lia|done|]. intros Hx. by apply Hfit. }
  rewrite Forall_singleton in Hfit. unfold mbind, M_bind.
  destruct (decide (length pa < GENCONFIG_MAX_ITEM_LEN)%nat) as [Hpa|Hpa].
  - rewrite strcpy_ok by done.
    destruct (additem_ll_ok σ ll kv pa (strtok [LF] saved).1 Hown Hpa)
      as (σ1 & ll1 & -> & Hown1 & Henv1).
    eapply IH; [lia|done|]. intros Hx. by apply Hfit.
  - by rewrite strcpy_overflow by lia.
Qed.
End reading.

Lemma genconfig_read_file_ok σ filename content :
  files (env σ) !! filename = Some content → tags_fit (parse_config content) →
  ∃ σ' ll, genconfig_read_file filename ll_empty σ =
      Ok ((Z.of_nat (length (parse_config content)), ll), σ') ∧
    owns (items σ) (strs σ) σ' ll (parse_config content) ∧ env σ' = env σ.
Proof.
  intros Hfile Hfit.
  unfold genconfig_read_file, fopen_r, gets, mbind, M_bind. rewrite Hfile.
  apply (read_loop_ok (S (length content)) content σ ll_empty [] 0 ltac:(lia)
    (owns_empty σ) Hfit).
Qed.

Lemma genconfig_read_file_missing σ filename ll :
  files (env σ) !! filename = None →
  genconfig_read_file filename ll σ = Ok ((-1, ll_empty), σ).
Proof.
  intros Hfile. unfold genconfig_read_file, fopen_r, gets, mbind, M_bind.
  by rewrite Hfile.
Qed.

(** ** Walks over a list *)
Section walks.
Context {h0 : gmap loc (node item)} {s0 : gmap loc str}.

(** The fuel of the walks is enough. *)
Lemma owns_fuel σ ll cs kv :
  owns_cells h0 s0 σ ll cs kv → (length cs < S (size (items σ)))%nat.
Proof.
  intros H. destruct (ow_dll _ _ _ _ _ _ H) as [Hnd Hs _ _].
  rewrite <- (length_fmap fst), <- (size_list_to_set (C:=gset loc)) by done.
  rewrite <- size_dom. apply Nat.lt_succ_r, subseteq_size.
  intros l Hl. apply elem_of_list_to_set in Hl. apply elem_of_dom.
  by eapply seg_dom.
Qed.

(** What the search loops find in a segment. *)
Inductive found (test : str → bool) : list (loc * item) → ptr → Prop :=
  | found_none cs :
      Forall (λ c, test (it_tag c.2) = false) cs → found test cs None
  | found_some a l i b :
      Forall (λ c, test (it_tag c.2) = false) a → test (it_tag i) = true →
      found test (a ++ (l, i) :: b) (Some l).

Lemma found_cons test c cs p :
  test (it_tag c.2) = false → found test cs p → found test (c :: cs) p.
Proof.
  intros Hc H. destruct H as [cs H|a l i b Ha Hi].
  - constructor. by constructor.
  - change (c :: a ++ (l, i) :: b) with ((c :: a) ++ (l, i) :: b).
    constructor; [by constructor|done].
Qed.

Lemma find_loop_ok fuel test σ pp cs :
  seg (items σ) pp cs None → (length cs < fuel)%nat →
  ∃ p, find_loop fuel test (first_loc cs None) σ = Ok (p, σ) ∧ found test cs p.
Proof.
  revert pp cs. induction fuel as [|fuel IH]; intros pp cs Hs Hf; [lia|].
  destruct cs as [|[l i] cs]; simpl in *.
  - eexists. split; [done|]. by constructor.
  - destruct Hs as [Hl Hs]. unfold mbind, M_bind.
    rewrite (load_item_ok l _ σ Hl). simpl.
    destruct (test (it_tag i)) eqn:E.
    + eexists. split; [done|]. by apply (found_some test [] l i cs).
    + destruct (IH _ cs Hs ltac:(lia)) as (p & -> & Hp).
      eexists. split; [done|]. by apply found_cons.
Qed.

Lemma find_item_ok test σ ll cs kv :
  owns_cells h0 s0 σ ll cs kv →
  ∃ p, find_item test ll σ = Ok (p, σ) ∧ found test cs p.
Proof.
  intros H. pose proof (owns_fuel _ _ _ _ H) as Hf.
  destruct (ow_dll _ _ _ _ _ _ H) as [_ Hs Hh _].
  unfold find_item, list_fuel, gets, mbind, M_bind. rewrite Hh.
  by eapply find_loop_ok.
Qed.

(** In the same terms, the abstract list. *)
Lemma found_entries test ss cs kv p :
  found test cs p → Forall2 (shows ss) cs kv →
  (p = None ∧ sp_lookup test kv = None ∧ Forall (λ e : entry, test e.1 = false) kv) ∨
  (∃ a l i b ka t v kb, p = Some l ∧ cs = a ++ (l, i) :: b ∧
     kv = ka ++ (t, v) :: kb ∧ Forall2 (shows ss) a ka ∧ shows ss (l, i) (t, v) ∧
     Forall2 (shows ss) b kb ∧ Forall (λ e : entry, test e.1 = false) ka ∧
     test t = true ∧ sp_lookup test kv = Some v).
Proof.
  assert (∀ cs kv, Forall (λ c, test (it_tag c.2) = false) cs →
    Forall2 (shows ss) cs kv → Forall (λ e : entry, test e.1 = false) kv) as Htests.
  { intros cs' kv' Hc Hk. induction Hk as [|c e cs' kv' (Ht & _) _ IH]; [constructor|].
    apply Forall_cons in Hc as [Hc Hcs]. constructor; [by rewrite <- Ht|by apply IH]. }
  assert (∀ kv, Forall (λ e : entry, test e.1 = false) kv → ∀ kb,
    sp_lookup test (kv ++ kb) = sp_lookup test kb) as Hskip.
  { intros kv' Hk kb. induction Hk as [|[t v] kv' Ht _ IH]; [done|].
    simpl in *. by rewrite Ht. }
  intros Hfound Hk. destruct Hfound as [cs Hcs|a l i b Ha Hi].
  - left. pose proof (Htests _ _ Hcs Hk) as Hf.
    pose proof (Hskip _ Hf []) as E. rewrite app_nil_r in E. done.
  - right. apply Forall2_app_inv_l in Hk as (ka & kb & Hka & Hkb & ->).
    apply Forall2_cons_inv_l in Hkb as ([t v] & kb' & Hsh & Hkb & ->).
    exists a, l, i, b, ka, t, v, kb'.
    pose proof (Htests _ _ Ha Hka) as Hf. rewrite Hskip by done. simpl.
    destruct Hsh as (Ht & Hx & Hlg). simpl in Ht. rewrite <- Ht in *. rewrite Hi.
    by split_and!.
Qed.

Lemma write_loop_ok fuel filename content σ pp cs kv :
  seg (items σ) pp cs None → Forall2 (shows (strs σ)) cs kv → (length cs < fuel)%nat →
  files (env σ) !! filename = Some content →
  write_loop fuel filename (first_loc cs None) σ =
    Ok (tt, Sys (items σ) (strs σ)
                (set_file filename (content ++ print_config kv) (env σ))).
Proof.
  revert pp cs kv content σ.
  induction fuel as [|fuel IH]; intros pp cs kv content σ Hs Hk Hf Hfile; [lia|].
  destruct Hk as [|[l i] [t v] cs kv (Ht & Hx & _) Hk]; simpl in *.
  - unfold print_config. simpl. rewrite app_nil_r.
    unfold mret, M_ret, set_file. rewrite insert_id by done.
    by destruct σ as [? ? []].
  - destruct Hs as [Hl Hs]. unfold mbind, M_bind.
    rewrite (load_item_ok l _ σ Hl). simpl.
    rewrite (item_text_ok _ v σ) by done.
    unfold fprintf, on_env, modify. rewrite Hfile. simpl.
    set (line := it_tag i ++ _).
    rewrite (IH (Some l) cs kv (content ++ line));
      [|done|done|lia|simpl; apply lookup_insert_eq].
    simpl. unfold set_file, print_config. simpl. rewrite insert_insert_eq.
    do 5 f_equal. rewrite <- app_assoc. f_equal. subst line.
    unfold print_entry. by rewrite Ht.
Qed.

Lemma genconfig_write_file_ok σ ll kv filename :
  owns h0 s0 σ ll kv → filename ∉ unwritable (env σ) →
  genconfig_write_file filename ll σ =
    Ok (0, Sys (items σ) (strs σ) (set_file filename (print_config kv) (env σ))).
Proof.
  intros [cs H] Hw. pose proof (owns_fuel _ _ _ _ H) as Hf.
  destruct (ow_dll _ _ _ _ _ _ H) as [_ Hs Hh _].
  unfold genconfig_write_file, fopen_w, list_fuel, on_env, modify, gets, mret, M_ret,
    mbind, M_bind.
  rewrite bool_decide_eq_false_2 by done. cbn [items strs env negb]. rewrite Hh.
  erewrite (write_loop_ok _ _ [] _ None cs kv); [|done|apply H|done|apply lookup_insert_eq].
  simpl. unfold set_file. simpl. by rewrite insert_insert_eq.
Qed.

Lemma genconfig_write_file_refused σ ll filename :
  filename ∈ unwritable (env σ) →
  genconfig_write_file filename ll σ = Ok (-1, σ).
Proof.
  intros Hw. unfold genconfig_write_file, fopen_w, gets, mbind, M_bind.
  by rewrite bool_decide_eq_true_2.
Qed.
End walks.

(** ** Freeing *)
Definition delete_all {V} (h : gmap loc V) (ls : list loc) : gmap loc V :=
  foldl (λ h l, delete l h) h ls.

Lemma lookup_delete_all {V} (h : gmap loc V) ls k :
  delete_all h ls !! k = if decide (k ∈ ls) then None else h !! k.
Proof.
  unfold delete_all. revert h. induction ls as [|l ls IH]; intros h; cbn [foldl].
  - by rewrite decide_False by set_solver.
  - rewrite IH. destruct (decide (k ∈ ls)) as [Hk|Hk].
    + by rewrite decide_True by set_solver.
    + rewrite lookup_delete. case_decide; subst.
      * by rewrite decide_True by set_solver.
      * by rewrite decide_False by set_solver.
Qed.

(** Freeing everything a list owns gives the frame back. *)
Lemma delete_all_frame {V} (h h0 : gmap loc V) ls :
  (∀ l, l ∉ ls → h !! l = h0 !! l) → (∀ l, l ∈ ls → h0 !! l = None) →
  delete_all h ls = h0.
Proof.
  intros Hf Hn. apply map_eq. intros k. rewrite lookup_delete_all.
  case_decide; [by rewrite Hn|by apply Hf].
Qed.

Lemma genconfig_free_item_ok σ l n :
  items σ !! l = Some n →
  (∀ p, it_long (nval n) = Some p → is_Some (strs σ !! p)) →
  genconfig_free_item (Some l) σ =
    Ok (0, Sys (delete l (items σ))
               (delete_all (strs σ) (option_list (it_long (nval n)))) (env σ)).
Proof.
  intros Hl Hp. unfold genconfig_free_item, mbind, M_bind.
  rewrite (load_item_ok l n σ Hl).
  destruct (it_long (nval n)) as [p|]; simpl.
  - destruct (Hp p eq_refl) as [s Hs]. rewrite (free_str_ok p s σ Hs).
    by rewrite (free_item_block_ok l n) by done.
  - rewrite (free_item_block_ok l n) by done. by destruct σ.
Qed.

Lemma free_loop_ok fuel σ pp cs :
  seg (items σ) pp cs None → NoDup cs.*1 → NoDup (long_locs cs) →
  (∀ p, p ∈ long_locs cs → is_Some (strs σ !! p)) → (length cs < fuel)%nat →
  free_loop fuel (first_loc cs None) σ =
    Ok (tt, Sys (delete_all (items σ) cs.*1) (delete_all (strs σ) (long_locs cs)) (env σ)).
Proof.
  revert σ pp cs. induction fuel as [|fuel IH]; intros σ pp cs Hs Hnd Hln Hal Hf; [lia|].
  destruct cs as [|[l i] cs]; simpl in *.
  { by destruct σ. }
  destruct Hs as [Hl Hs]. unfold mbind, M_bind.
  rewrite (load_item_ok l _ σ Hl). rewrite long_locs_cons in *. simpl in *.
  apply NoDup_cons in Hnd as [Hlcs Hnd]. apply NoDup_app in Hln as (_ & Hln1 & Hln).
  rewrite (genconfig_free_item_ok _ _ _ Hl); simpl.
  2:{ intros p Hp. apply Hal. apply elem_of_app. left. by apply elem_of_option_list. }
  rewrite (IH _ (Some l) cs); simpl.
  - do 3 f_equal. unfold delete_all. by rewrite foldl_app.
  - by apply seg_delete_ne.
  - done.
  - done.
  - intros p Hp. rewrite lookup_delete_all, decide_False; [|set_solver].
    apply Hal. set_solver.
  - lia.
Qed.

Lemma genconfig_free_ll_ok h0 s0 σ ll kv :
  owns h0 s0 σ ll kv → genconfig_free_ll ll σ = Ok (0, Sys h0 s0 (env σ)).
Proof.
  intros [cs H]. pose proof (owns_fuel _ _ _ _ H) as Hf.
  destruct (ow_dll _ _ _ _ _ _ H) as [Hnd Hs Hh _].
  unfold genconfig_free_ll, list_fuel, gets, mret, M_ret, mbind, M_bind. rewrite Hh.
  rewrite (free_loop_ok _ _ None cs Hs Hnd); [|apply H| |done].
  - rewrite (delete_all_frame _ h0), (delete_all_frame _ s0); [done|apply H..].
  - intros p Hp. by eapply long_locs_alloc.
Qed.

(** ** Replacing the value of an item *)
Lemma long_locs_mid a l i b :
  long_locs (a ++ (l, i) :: b) = long_locs a ++ option_list (it_long i) ++ long_locs b.
Proof. by rewrite long_locs_app, long_locs_cons. Qed.

(** The strings heap that nothing refers to after [put_value] of [v] on an
    item [i] with text [w]: a long value that replaces a long value. *)
Definition leaked (i : item) (w v : str) : gmap loc str :=
  match it_long i with
  | Some q => if is_long v then {[ q := w ]} else ∅
  | None => ∅
  end.

Section replacing.
Context {h0 : gmap loc (node item)} {s0 : gmap loc str}.
(** A list with an item [i] in the middle, at [l], that holds [(t, w)]. *)
Context {σ : sys} {ll : genconfig_ll} {a b : list (loc * item)} {l : loc} {i : item}.
Context {ka kb : entries} {t w : str}.
Hypothesis Hown : owns_cells h0 s0 σ ll (a ++ (l, i) :: b) (ka ++ (t, w) :: kb).
Hypothesis Ha : Forall2 (shows (strs σ)) a ka.
Hypothesis Hi : shows (strs σ) (l, i) (t, w).
Hypothesis Hb : Forall2 (shows (strs σ)) b kb.

Lemma mid_lookup : items σ !! l = Some (Node i (first_loc b None) (last_loc None a)).
Proof. eapply seg_lookup, dll_seg, Hown. Qed.

Lemma owns_replace kv' i' ss' s0' :
  Forall2 (shows ss') (a ++ (l, i') :: b) kv' →
  (∀ p, p ∉ long_locs (a ++ (l, i') :: b) → ss' !! p = s0' !! p) →
  (∀ p, p ∈ long_locs (a ++ (l, i') :: b) → s0' !! p = None) →
  NoDup (long_locs (a ++ (l, i') :: b)) →
  owns_cells h0 s0' (Sys (alter (set_val i') l (items σ)) ss' (env σ)) ll
    (a ++ (l, i') :: b) kv'.
Proof.
  clear Ha Hi Hb. intros Hsh Hf Hn Hnd.
  assert ((a ++ (l, i') :: b).*1 = (a ++ (l, i) :: b).*1) as Hlocs
    by by rewrite !fmap_app.
  split; rewrite ?Hlocs; try done.
  - simpl. eapply dll_set_val. apply Hown.
  - simpl. intros k Hk. rewrite lookup_alter_ne.
    + by apply (ow_frame _ _ _ _ _ _ Hown).
    + intros ->. rewrite fmap_app in Hk. set_solver.
  - apply Hown.
Qed.

(** The long values of the other items. *)
Lemma mid_long :
  NoDup (long_locs a ++ long_locs b) ∧
  (∀ q, it_long i = Some q → q ∉ long_locs a ++ long_locs b).
Proof.
  pose proof (ow_snodup _ _ _ _ _ _ Hown) as Hnd. rewrite long_locs_mid in Hnd.
  rewrite (Permutation_app_swap_app (long_locs a)), NoDup_app in Hnd.
  destruct Hnd as (_ & Hq & Hnd). split; [done|].
  intros q E. apply Hq. by apply elem_of_option_list.
Qed.

Lemma mid_frame p :
  p ∉ long_locs a ++ long_locs b → it_long i ≠ Some p → strs σ !! p = s0 !! p.
Proof.
  intros Hp Hne. apply (ow_sframe _ _ _ _ _ _ Hown). rewrite long_locs_mid.
  rewrite !elem_of_app, elem_of_option_list. clear Ha Hi Hb. set_solver.
Qed.

Lemma mid_fresh p :
  p ∈ long_locs a ++ long_locs b ∨ it_long i = Some p → s0 !! p = None.
Proof.
  intros Hp. apply (ow_sfresh _ _ _ _ _ _ Hown). rewrite long_locs_mid.
  rewrite !elem_of_app, elem_of_option_list. clear Ha Hi Hb. set_solver.
Qed.

(** The other items do not change when their long values do not. *)
Lemma mid_shows ss i' v :
  (∀ p, p ∈ long_locs a ++ long_locs b → ss !! p = strs σ !! p) →
  shows ss (l, i') (t, v) →
  Forall2 (shows ss) (a ++ (l, i') :: b) (ka ++ (t, v) :: kb).
Proof.
  intros Hss Hi'. apply Forall2_app; [|constructor; [done|]];
    (eapply shows_frame; [|eassumption]); set_solver.
Qed.

Lemma mid_text : text_of (strs σ) i = Some w.
Proof. apply Hi. Qed.

Lemma put_value_long v :
  is_long v = true →
  ∃ σ', put_value (Some l) v σ = Ok (tt, σ') ∧
    owns h0 (leaked i w v ∪ s0) σ' ll (ka ++ (t, v) :: kb) ∧ env σ' = env σ.
Proof.
  intros Ev. unfold put_value, leaked. rewrite Ev.
  set (p := fresh (dom (strs σ))).
  assert (strs σ !! p = None) as Hp by by apply fresh_strs.
  destruct (owns_new_str _ _ _ _ _ Hown Hp) as [Hpl Hp0]. rewrite long_locs_mid in Hpl.
  destruct mid_long as [Hnd Hq].
  exists (Sys (alter (set_val (set_long (Some p) i)) l (items σ))
              (<[p := v]> (strs σ)) (env σ)). split; [|split; [|done]].
  { unfold mbind, M_bind, malloc_str, malloc. simpl. fold p.
    rewrite (update_item_ok l _) by exact mid_lookup. simpl.
    do 3 f_equal. apply alter_ext. rewrite mid_lookup. by intros ? [= <-]. }
  pose proof mid_text as Hw. unfold text_of in Hw.
  eexists. apply owns_replace; rewrite ?long_locs_mid; simpl.
  - apply mid_shows.
    + intros q Hin. apply lookup_insert_ne. set_solver.
    + split; [apply Hi|]. unfold text_of. simpl. by rewrite lookup_insert_eq.
  - intros q Hin. rewrite lookup_insert_ne by set_solver.
    destruct (it_long i) as [r|] eqn:Er; [destruct (decide (q = r)) as [->|]|].
    + rewrite Hw. symmetry. apply lookup_union_Some_l, lookup_singleton_eq.
    + rewrite lookup_union_r by by apply lookup_singleton_ne.
      apply mid_frame; [set_solver|congruence].
    + rewrite (left_id_L ∅ (∪)). apply mid_frame; [set_solver|congruence].
  - intros q Hin. assert (s0 !! q = None) as H0.
    { destruct (decide (q = p)) as [->|]; [done|]. apply mid_fresh. set_solver. }
    destruct (it_long i) as [r|] eqn:Er; [|by rewrite (left_id_L ∅ (∪))].
    rewrite lookup_union_r; [done|]. apply lookup_singleton_ne.
    specialize (Hq r eq_refl). set_solver.
  - rewrite <- Permutation_middle. apply NoDup_cons. split; [set_solver|done].
Qed.

Lemma put_value_short v :
  is_long v = false →
  ∃ σ', put_value (Some l) v σ = Ok (tt, σ') ∧
    owns h0 s0 σ' ll (ka ++ (t, v) :: kb) ∧ env σ' = env σ.
Proof.
  intros Ev. unfold put_value. rewrite Ev. destruct mid_long as [Hnd Hq].
  set (ss := delete_all (strs σ) (option_list (it_long i))).
  assert (∀ p, it_long i ≠ Some p → ss !! p = strs σ !! p) as Hss.
  { intros p Hp. unfold ss. rewrite lookup_delete_all, decide_False; [done|].
    by rewrite elem_of_option_list. }
  exists (Sys (alter (set_val (Item (it_tag i) v None)) l (items σ)) ss (env σ)).
  split; [|split; [|done]].
  { unfold mbind, M_bind. rewrite strcpy_ok by by apply is_long_false.
    rewrite (update_item_ok l _) by exact mid_lookup.
    rewrite (load_item_ok l (on_item (set_value v) (Node i (first_loc b None)
      (last_loc None a)))) by (simpl; by rewrite lookup_alter_eq, mid_lookup).
    subst ss. pose proof mid_text as Hw. pose proof mid_lookup as Hl.
    clear - Hw Hl. unfold text_of in Hw. destruct i as [ti vi [q|]]; simpl in *.
    - rewrite (free_str_ok q w) by exact Hw. simpl.
      erewrite update_item_ok by (simpl; by rewrite lookup_alter_eq, Hl). simpl.
      do 3 f_equal. rewrite alter_alter_eq. apply alter_ext.
      rewrite Hl. by intros ? [= <-].
    - unfold mret, M_ret. do 3 f_equal. apply alter_ext.
      rewrite Hl. by intros ? [= <-]. }
  eexists. apply owns_replace; rewrite ?long_locs_mid; simpl.
  - apply mid_shows.
    + intros q Hin. apply Hss. intros E. by apply (Hq q).
    + repeat split; [apply Hi|by intros []|simpl; congruence].
  - intros p Hin. destruct (decide (it_long i = Some p)) as [E|E].
    + unfold ss. rewrite lookup_delete_all, decide_True by by apply elem_of_option_list.
      symmetry. apply mid_fresh. by right.
    + rewrite Hss by done. by apply mid_frame.
  - intros p Hin. apply mid_fresh. by left.
  - done.
Qed.

Lemma put_value_ok v :
  ∃ σ', put_value (Some l) v σ = Ok (tt, σ') ∧
    owns h0 (leaked i w v ∪ s0) σ' ll (ka ++ (t, v) :: kb) ∧ env σ' = env σ.
Proof.
  destruct (is_long v) eqn:Ev; [by apply put_value_long|].
  replace (leaked i w v ∪ s0) with s0; [by apply put_value_short|].
  unfold leaked. rewrite Ev. by destruct (it_long i); rewrite (left_id_L ∅ (∪)).
Qed.

(** What is lost, in terms of the entries. *)
Lemma leaked_cases v :
  leaked i w v = ∅ ∨
  (is_long w = true ∧ is_long v = true ∧ ∃ q, leaked i w v = {[ q := w ]}).
Proof.
  unfold leaked. destruct Hi as (_ & _ & Hlg). simpl in Hlg.
  destruct (it_long i) as [q|]; [|by left].
  destruct (is_long v); [right|by left]. rewrite <- Hlg. eauto.
Qed.
End replacing.

(** ** Taking an item out of the list *)
Section unlinking.
Context {h0 : gmap loc (node item)} {s0 : gmap loc str}.
Context {σ : sys} {ll : genconfig_ll} {a b : list (loc * item)} {l : loc} {i : item}.
Context {ka kb : entries} {t w : str}.
Hypothesis Hown : owns_cells h0 s0 σ ll (a ++ (l, i) :: b) (ka ++ (t, w) :: kb).
Hypothesis Ha : Forall2 (shows (strs σ)) a ka.
Hypothesis Hi : shows (strs σ) (l, i) (t, w).
Hypothesis Hb : Forall2 (shows (strs σ)) b kb.

Let h1 := relink (last_loc None a) (first_loc b None) (first_loc b None)
            (last_loc None a) (items σ).
Let σ1 := Sys (delete l h1) (delete_all (strs σ) (option_list (it_long i))) (env σ).

(** The neighbours are other blocks. *)
Lemma mid_ne : last_loc None a ≠ Some l ∧ first_loc b None ≠ Some l.
Proof.
  destruct (ow_dll _ _ _ _ _ _ Hown) as [Hnd _ _ _].
  rewrite fmap_app, fmap_cons in Hnd. apply NoDup_app in Hnd as (_ & Hab & Hnb).
  apply NoDup_cons in Hnb as [Hlb _]. split.
  - destruct (last_loc_cases None a) as [[-> E]|(a' & k & v & -> & ->)]; [done|].
    intros [= ->]. apply (Hab l); rewrite ?fmap_app; set_solver.
  - destruct b as [|[k v] b']; [done|]. simpl in *. intros [= ->]. set_solver.
Qed.

Lemma mid_prev_alloc k : last_loc None a = Some k → is_Some (items σ !! k).
Proof.
  intros E. eapply seg_dom; [apply (ow_dll _ _ _ _ _ _ Hown)|].
  destruct (last_loc_cases None a) as [[_ E']|(a' & k' & v & -> & E')]; [congruence|].
  rewrite !fmap_app. assert (k = k') as -> by congruence. set_solver.
Qed.

Lemma mid_next_alloc k : first_loc b None = Some k → is_Some (items σ !! k).
Proof.
  intros E. eapply seg_dom; [apply (ow_dll _ _ _ _ _ _ Hown)|].
  rewrite fmap_app, fmap_cons. destruct b as [|[k' v] b']; [done|].
  simplify_eq/=. set_solver.
Qed.

Lemma unlink_free_ok :
  genconfig_free_item (Some l) (Sys h1 (strs σ) (env σ)) = Ok (0, σ1).
Proof.
  destruct mid_ne. rewrite (genconfig_free_item_ok _ l
    (Node i (first_loc b None) (last_loc None a))); [done| |].
  - simpl. subst h1. rewrite relink_lookup_ne by done. apply (mid_lookup Hown).
  - simpl. intros p E. pose proof (mid_text Hi) as Hw.
    unfold text_of in Hw. rewrite E in Hw. by rewrite Hw.
Qed.

(** The new ends of the list, as the code computes them. *)
Lemma unlink_head :
  first_loc (a ++ b) None =
    match last_loc None a with Some _ => gl_head ll | None => first_loc b None end.
Proof.
  rewrite (dll_head _ _ _ _ (ow_dll _ _ _ _ _ _ Hown)), !first_loc_app.
  destruct (last_loc_cases None a) as [[-> E]|(a' & k & v & -> & ->)]; [done|].
  by destruct a' as [|[]].
Qed.

Lemma unlink_tail :
  last_loc None (a ++ b) =
    match first_loc b None with Some _ => gl_tail ll | None => last_loc None a end.
Proof.
  rewrite (dll_tail _ _ _ _ (ow_dll _ _ _ _ _ _ Hown)), !last_loc_app.
  by destruct b as [|[]].
Qed.

Lemma unlink_item_run :
  unlink_item ll (Some l) σ =
    Ok (LL (first_loc (a ++ b) None) (last_loc None (a ++ b)), σ1).
Proof.
  pose proof unlink_free_ok as Hfree. pose proof mid_prev_alloc as Hpk.
  pose proof mid_next_alloc as Hnk.
  unfold unlink_item, mbind, M_bind. rewrite (load_item_ok l _ _ (mid_lookup Hown)).
  cbn [nprev nnext]. rewrite unlink_head, unlink_tail.
  unfold h1, relink in Hfree. clearbody σ1. clear h1.
  destruct (last_loc None a) as [k|].
  - destruct (Hpk k eq_refl) as [n En]. rewrite (update_item_ok k n) by exact En.
    unfold mret, M_ret. destruct (first_loc b None) as [k'|]; [|by rewrite Hfree].
    destruct (Hnk k' eq_refl) as [n' En'].
    assert (is_Some (alter (set_next (Some k')) k (items σ) !! k')) as [n'' En''].
    { by apply lookup_alter_is_Some. }
    rewrite (update_item_ok k' n'') by exact En''. cbn [items strs env].
    by rewrite Hfree.
  - unfold mret, M_ret. destruct (first_loc b None) as [k'|].
    + destruct (Hnk k' eq_refl) as [n' En'].
      rewrite (update_item_ok k' n') by exact En'. by rewrite Hfree.
    + replace σ with (Sys (items σ) (strs σ) (env σ)) at 1 by by destruct σ.
      by rewrite Hfree.
Qed.

Lemma unlink_item_owns :
  owns_cells h0 s0 σ1 (LL (first_loc (a ++ b) None) (last_loc None (a ++ b)))
    (a ++ b) (ka ++ kb).
Proof.
  destruct (mid_long Hown) as [Hnd Hq].
  pose proof (ow_dll _ _ _ _ _ _ Hown) as Hd.
  assert (∀ p, it_long i ≠ Some p → strs σ1 !! p = strs σ !! p) as Hss.
  { intros p Hp. simpl. rewrite lookup_delete_all, decide_False; [done|].
    by rewrite elem_of_option_list. }
  split; rewrite ?long_locs_app.
  - simpl. by eapply dll_remove.
  - intros k Hk. simpl. destruct (decide (k = l)) as [->|Hne].
    + rewrite lookup_delete_eq. symmetry. apply (ow_fresh _ _ _ _ _ _ Hown).
      rewrite fmap_app. set_solver.
    + rewrite lookup_delete_ne by done. subst h1. rewrite fmap_app in Hk.
      rewrite relink_lookup_ne.
      * apply (ow_frame _ _ _ _ _ _ Hown). rewrite fmap_app, fmap_cons. set_solver.
      * destruct (last_loc_cases None a) as [[_ ->]|(a' & k' & v & -> & ->)]; [done|].
        rewrite fmap_app in Hk. set_solver.
      * destruct b as [|[k' v] b']; set_solver.
  - intros k Hk. apply (ow_fresh _ _ _ _ _ _ Hown).
    rewrite fmap_app in Hk. rewrite fmap_app. set_solver.
  - intros p Hp. destruct (decide (it_long i = Some p)) as [E|E].
    + simpl. rewrite lookup_delete_all, decide_True by by apply elem_of_option_list.
      symmetry. apply (mid_fresh Hown). by right.
    + rewrite Hss by done. by apply (mid_frame Hown).
  - intros p Hp. apply (mid_fresh Hown). by left.
  - done.
  - apply Forall2_app; (eapply shows_frame; [|eassumption]); intros p Hp;
      apply Hss; intros E; apply (Hq p E); set_solver.
Qed.

Lemma unlink_item_ok :
  ∃ σ' ll', unlink_item ll (Some l) σ = Ok (ll', σ') ∧
    owns h0 s0 σ' ll' (ka ++ kb) ∧ env σ' = env σ.
Proof.
  rewrite unlink_item_run. do 2 eexists. split; [done|].
  split; [|done]. eexists. exact unlink_item_owns.
Qed.
End unlinking.
