(* ===== verification/GenconfigOps.v ===== *)
(** * The configuration store: operations on lists and on files

    The refinement theorems of genconfig_api.c: the list operations compute
    [sp_lookup], [sp_set], [sp_remove] and their indexed variants; the
    operations on files are a locked read-modify-write of the file's entries,
    give every block back to the heap (up to the one long value that a long
    value replaces) and leave the set of held locks as it was. *)
From S2P Require Import Prelude CLib Heap System Genconfig GenconfigSpec.

(** ** Abstract operations on groups

    The group of a tag are the entries whose tags agree with it up to '+'. *)
Definition in_group (tag t : str) : bool := streq (base_tag t) tag.

Fixpoint sp_nth (tag : str) (n : nat) (kv : entries) : option str :=
  match kv with
  | [] => None
  | (t, v) :: kv' =>
      if in_group tag t then match n with O => Some v | S n => sp_nth tag n kv' end
      else sp_nth tag n kv'
  end.

Fixpoint sp_set_nth (tag : str) (n : nat) (v : str) (kv : entries) : entries :=
  match kv with
  | [] => [(tag, v)]
  | (t, w) :: kv' =>
      if in_group tag t then
        match n with O => (t, v) :: kv' | S n => (t, w) :: sp_set_nth tag n v kv' end
      else (t, w) :: sp_set_nth tag n v kv'
  end.

Fixpoint sp_remove_nth (tag : str) (n : nat) (kv : entries) : entries :=
  match kv with
  | [] => []
  | (t, w) :: kv' =>
      if in_group tag t then
        match n with O => kv' | S n => (t, w) :: sp_remove_nth tag n kv' end
      else (t, w) :: sp_remove_nth tag n kv'
  end.

Definition sp_remove_all (test : str → bool) (kv : entries) : entries :=
  filter (λ e, test e.1 = false) kv.

(** The strings heap after [v] has replaced [old]: a long value that replaces a
    long value leaves the block of the old one behind, nothing else does. *)
Definition leak_of (old : option str) (v : str) (s s' : gmap loc str) : Prop :=
  match old with
  | Some w => if is_long w && is_long v
              then ∃ q, s !! q = None ∧ s' = <[q := w]> s
              else s' = s
  | None => s' = s
  end.

(** genconfig_set_intvalue writes the inline value only. *)
Definition sp_set_int (tag v : str) (kv : entries) : entries :=
  match sp_lookup (λ t, streq t tag) kv with
  | Some w => if is_long w then kv else sp_set tag v kv
  | None => sp_set tag v kv
  end.

(** The text that genconfig_set_value stores. *)
Definition line_of (v : str) : str := cut LF (cut CR v).

(** ** Files *)
Definition entries_of (filename : str) (e : osenv) : entries :=
  parse_config (default [] (files e !! filename)).

(** The environment while the lock is held and after it has been released:
    the lock file has been created if it was not there. *)
Definition touch_env (filename : str) (e : osenv) : osenv :=
  if bool_decide (lock_name filename ∈ unwritable e) then e
  else set_file (lock_name filename) (default [] (files e !! lock_name filename)) e.
Definition lock_env (filename : str) (e : osenv) : osenv :=
  if bool_decide (lock_name filename ∈ unwritable e) then e
  else set_locks ({[lock_name filename]} ∪ locks e) (touch_env filename e).
Definition write_env (filename : str) (kv : entries) (e : osenv) : osenv :=
  if bool_decide (filename ∈ unwritable e) then e
  else set_file filename (print_config kv) e.

(** A file on which the library can work: the process does not hold its lock,
    the lock is another file, and the tags fit the array of an item. *)
Record usable (filename : str) (e : osenv) : Prop := {
  us_lock : lock_name filename ∉ locks e;
  us_other : lock_name filename ≠ filename;
  us_tags : tags_fit (entries_of filename e)
}.

(** ** Lemmas on the abstract operations *)
Lemma sp_set_split tag v ka t w kb :
  Forall (λ e : entry, streq e.1 tag = false) ka → streq t tag = true →
  sp_set tag v (ka ++ (t, w) :: kb) = ka ++ (t, v) :: kb.
Proof.
  intros Hka Ht. induction Hka as [|[t' w'] ka Ht' _ IH]; simpl in *; [by rewrite Ht|].
  by rewrite Ht', IH.
Qed.

Lemma sp_set_new tag v kv :
  Forall (λ e : entry, streq e.1 tag = false) kv → sp_set tag v kv = kv ++ [(tag, v)].
Proof.
  intros Hkv. induction Hkv as [|[t' w'] ka Ht' _ IH]; simpl in *; [done|].
  by rewrite Ht', IH.
Qed.

Lemma sp_remove_split test ka t w kb :
  Forall (λ e : entry, test e.1 = false) ka → test t = true →
  sp_remove test (ka ++ (t, w) :: kb) = ka ++ kb.
Proof.
  intros Hka Ht. induction Hka as [|[t' w'] ka Ht' _ IH]; simpl in *; [by rewrite Ht|].
  by rewrite Ht', IH.
Qed.

Lemma sp_remove_none test kv :
  Forall (λ e : entry, test e.1 = false) kv → sp_remove test kv = kv.
Proof.
  intros Hkv. induction Hkv as [|[t' w'] ka Ht' _ IH]; simpl in *; [done|].
  by rewrite Ht', IH.
Qed.

Lemma sp_remove_all_none test kv :
  Forall (λ e : entry, test e.1 = false) kv → sp_remove_all test kv = kv.
Proof.
  unfold sp_remove_all. induction 1 as [|e kv He _ IH]; [done|].
  by rewrite filter_cons_True, IH.
Qed.

Lemma sp_remove_all_split test ka t w kb :
  Forall (λ e : entry, test e.1 = false) ka → test t = true →
  sp_remove_all test (ka ++ (t, w) :: kb) = ka ++ sp_remove_all test kb ∧
  sp_remove_all test (ka ++ kb) = ka ++ sp_remove_all test kb.
Proof.
  intros Hka Ht. unfold sp_remove_all.
  rewrite !filter_app. fold (sp_remove_all test ka). rewrite filter_cons_False by (simpl; by rewrite Ht).
  by rewrite (sp_remove_all_none test ka Hka).
Qed.

Lemma sp_lookup_set_eq tag v kv : sp_lookup (λ t, streq t tag) (sp_set tag v kv) = Some v.
Proof.
  induction kv as [|[t w] kv IH]; simpl.
  - by rewrite (proj2 (streq_spec tag tag)).
  - destruct (streq t tag) eqn:E; simpl; by rewrite E.
Qed.

Lemma sp_lookup_set_ne tag tag' v kv :
  tag' ≠ tag →
  sp_lookup (λ t, streq t tag') (sp_set tag v kv) = sp_lookup (λ t, streq t tag') kv.
Proof.
  intros Hne. induction kv as [|[t w] kv IH]; simpl.
  - destruct (streq tag tag') eqn:E; [|done]. apply streq_spec in E. congruence.
  - destruct (streq t tag) eqn:E; simpl; [|by rewrite IH].
    apply streq_spec in E as ->. destruct (streq tag tag') eqn:E'; [|done].
    apply streq_spec in E'. congruence.
Qed.

Lemma sp_nth_set tag n v kv m w :
  sp_nth tag n kv = Some w →
  sp_nth tag m (sp_set_nth tag n v kv) = if decide (m = n) then Some v else sp_nth tag m kv.
Proof.
  revert n m. induction kv as [|[t x] kv IH]; intros n m Hn; simpl in *; [done|].
  destruct (in_group tag t) eqn:E.
  - destruct n as [|n]; simpl; rewrite E; [by destruct m|].
    destruct m as [|m]; [by rewrite decide_False|]. rewrite (IH n m Hn).
    destruct (decide (m = n)), (decide (S m = S n)); congruence.
  - simpl. rewrite E. by apply IH.
Qed.

Lemma sp_set_tags_fit tag v kv :
  (length tag < GENCONFIG_MAX_ITEM_LEN)%nat → tags_fit kv → tags_fit (sp_set tag v kv).
Proof.
  intros Ht Hkv. induction Hkv as [|[t w] kv Htw Hkv IH]; simpl; [by apply Forall_singleton|].
  destruct (streq t tag); (constructor; [exact Htw|done]).
Qed.

(** ** Operations on a list *)
Lemma bind_list_fuel {B} (f : nat → M sys B) σ :
  (list_fuel ≫= f) σ = f (S (size (items σ))) σ.
Proof. done. Qed.

Section search.
Context {h0 : gmap loc (node item)} {s0 : gmap loc str}.
Implicit Types (σ : sys) (ll : genconfig_ll) (kv : entries).

(** The two outcomes of a search. *)
Lemma find_item_cases test σ ll kv :
  owns h0 s0 σ ll kv →
  (find_item test ll σ = Ok (None, σ) ∧ sp_lookup test kv = None ∧
     Forall (λ e : entry, test e.1 = false) kv) ∨
  (∃ a l i b ka t w kb, find_item test ll σ = Ok (Some l, σ) ∧
     owns_cells h0 s0 σ ll (a ++ (l, i) :: b) (ka ++ (t, w) :: kb) ∧
     kv = ka ++ (t, w) :: kb ∧ Forall2 (shows (strs σ)) a ka ∧
     shows (strs σ) (l, i) (t, w) ∧ Forall2 (shows (strs σ)) b kb ∧
     Forall (λ e : entry, test e.1 = false) ka ∧
     test t = true ∧ sp_lookup test kv = Some w).
Proof.
  intros [cs H]. destruct (find_item_ok test _ _ _ _ H) as (p & Hp & Hfound).
  destruct (found_entries _ _ _ _ _ Hfound (ow_shows _ _ _ _ _ _ H))
    as [(-> & ? & ?)|(a & l & i & b & ka & t & w & kb & -> & -> & -> & ?)];
    [by left|right].
  exists a, l, i, b, ka, t, w, kb. naive_solver.
Qed.

End search.

(** Runs the search at the head of the goal and takes its two outcomes. *)
Ltac find_cases test H :=
  match type of H with
  | owns ?h0 ?s0 ?σ ?ll ?kv =>
      destruct (find_item_cases test σ ll kv H)
        as [(Hf & Hlk & Hkv)
           |(a & l & i & b & ka & t & w & kb & Hf & Hc & -> & Ha & Hi & Hb & Hka & Ht & Hlk)];
      rewrite (bind_Ok _ _ _ _ _ Hf)
  end.

Section list_ops.
Context {h0 : gmap loc (node item)} {s0 : gmap loc str}.
Implicit Types (σ : sys) (ll : genconfig_ll) (kv : entries).

Lemma put_value_leak σ ll a l i b ka t w kb v :
  owns_cells h0 s0 σ ll (a ++ (l, i) :: b) (ka ++ (t, w) :: kb) →
  Forall2 (shows (strs σ)) a ka → shows (strs σ) (l, i) (t, w) →
  Forall2 (shows (strs σ)) b kb →
  ∃ σ' s', put_value (Some l) v σ = Ok (tt, σ') ∧
    owns h0 s' σ' ll (ka ++ (t, v) :: kb) ∧ env σ' = env σ ∧ leak_of (Some w) v s0 s'.
Proof.
  intros H Ha Hi Hb. destruct (put_value_ok H Ha Hi Hb v) as (σ' & Hrun & Hown & He).
  exists σ', (leaked i w v ∪ s0). repeat split; [done..|].
  unfold leaked, leak_of. destruct Hi as (_ & Hw & Hlg). simpl in Hlg.
  destruct (it_long i) as [q|] eqn:Eq.
  - assert (is_long w = true) as -> by by apply Hlg. simpl.
    destruct (is_long v); [|by rewrite (left_id_L ∅ (∪))].
    exists q. split; [apply (mid_fresh H); by right|].
    by rewrite insert_union_singleton_l.
  - destruct (is_long w); simpl; [|by rewrite (left_id_L ∅ (∪))].
    destruct Hlg as [_ Hlg]. destruct (Hlg eq_refl). done.
Qed.

Lemma genconfig_set_value_ok σ ll kv tag v :
  owns h0 s0 σ ll kv → (length tag < GENCONFIG_MAX_ITEM_LEN)%nat →
  ∃ σ' ll' s', genconfig_set_value ll tag (Some v) σ =
      Ok ((if sp_lookup (λ t, streq t tag) kv then 1 else 0, ll', Some (line_of v)), σ') ∧
    owns h0 s' σ' ll' (sp_set tag (line_of v) kv) ∧ env σ' = env σ ∧
    leak_of (sp_lookup (λ t, streq t tag) kv) (line_of v) s0 s'.
Proof.
  intros H Htag. unfold genconfig_set_value. fold (line_of v).
  find_cases (λ t, streq t tag) H; rewrite Hlk.
  - destruct (additem_ll_ok σ ll kv tag (Some (line_of v)) H Htag)
      as (σ' & ll' & Hadd & Hown & He).
    rewrite (bind_Ok _ _ _ _ _ Hadd), sp_set_new by done. by exists σ', ll', s0.
  - destruct (put_value_leak _ _ _ _ _ _ _ _ _ _ (line_of v) Hc Ha Hi Hb)
      as (σ' & s' & Hput & Hown & He & Hleak).
    rewrite (bind_Ok _ _ _ _ _ Hput), sp_set_split by done. by exists σ', ll, s'.
Qed.

Lemma genconfig_set_value_null σ ll tag :
  genconfig_set_value ll tag None σ = Ok ((-1, ll, None), σ).
Proof. done. Qed.

(** The item that [find_item] or an indexed search returns, read. *)
Lemma read_item_ok σ ll a l i b ka t w kb :
  owns_cells h0 s0 σ ll (a ++ (l, i) :: b) (ka ++ (t, w) :: kb) →
  shows (strs σ) (l, i) (t, w) →
  (n ← load_item (Some l); item_text n) σ = Ok (w, σ).
Proof.
  intros Hc (_ & Hw & _). rewrite (bind_Ok _ _ _ _ _ (load_item_ok l _ _ (mid_lookup Hc))).
  by apply item_text_ok.
Qed.

Lemma genconfig_get_value_ok σ ll kv tag cap :
  owns h0 s0 σ ll kv →
  (length (default [] (sp_lookup (λ t, streq t tag) kv)) < cap)%nat →
  genconfig_get_value ll tag cap σ =
    Ok (match sp_lookup (λ t, streq t tag) kv with
        | Some w => (1, w) | None => (0, [])
        end, σ).
Proof.
  intros H Hcap. unfold genconfig_get_value.
  find_cases (λ t, streq t tag) H; rewrite Hlk in *; simpl in Hcap.
  - by rewrite (bind_Ok _ _ _ _ _ (strcpy_ok cap [] σ Hcap)).
  - rewrite <- bind_assoc, (bind_Ok _ _ _ _ _ (read_item_ok _ _ _ _ _ _ _ _ _ _ Hc Hi)).
    by rewrite (bind_Ok _ _ _ _ _ (strcpy_ok cap w σ Hcap)).
Qed.

Lemma genconfig_get_value_overflow σ ll kv tag cap :
  owns h0 s0 σ ll kv →
  (cap ≤ length (default [] (sp_lookup (λ t, streq t tag) kv)))%nat →
  genconfig_get_value ll tag cap σ = Fault Overflow.
Proof.
  intros H Hcap. unfold genconfig_get_value.
  find_cases (λ t, streq t tag) H; rewrite Hlk in *; simpl in Hcap; unfold mbind, M_bind.
  - by rewrite strcpy_overflow.
  - pose proof (read_item_ok _ _ _ _ _ _ _ _ _ _ Hc Hi) as Hr.
    unfold mbind, M_bind in Hr. destruct (load_item (Some l) σ) as [[n σ1]|e|]; [|done..].
    rewrite Hr. by rewrite strcpy_overflow.
Qed.

Lemma genconfig_get_pvalue_ok σ ll kv tag :
  owns h0 s0 σ ll kv →
  genconfig_get_pvalue ll tag σ = Ok (sp_lookup (λ t, streq t tag) kv, σ).
Proof.
  intros H. unfold genconfig_get_pvalue.
  find_cases (λ t, streq t tag) H; rewrite Hlk in *; [done|].
  by rewrite <- bind_assoc, (bind_Ok _ _ _ _ _ (read_item_ok _ _ _ _ _ _ _ _ _ _ Hc Hi)).
Qed.

(** An int over a long value is not seen: the long value stays. *)
Lemma genconfig_set_intvalue_ok σ ll kv tag z :
  owns h0 s0 σ ll kv → (length tag < GENCONFIG_MAX_ITEM_LEN)%nat → is_i32 z →
  ∃ σ' ll', genconfig_set_intvalue ll tag z σ =
      Ok ((if sp_lookup (λ t, streq t tag) kv then 1 else 0, ll'), σ') ∧
    owns h0 s0 σ' ll' (sp_set_int tag (fmt_d z) kv) ∧ env σ' = env σ.
Proof.
  intros H Htag Hz. unfold genconfig_set_intvalue, sp_set_int.
  pose proof (fmt_d_length z Hz) as Hlen.
  find_cases (λ t, streq t tag) H; rewrite Hlk.
  - rewrite snprintf_short by (unfold GENCONFIG_MAX_VALUE_LEN; lia).
    destruct (additem_ll_ok σ ll kv tag (Some (fmt_d z)) H Htag)
      as (σ' & ll' & Hadd & Hown & He).
    rewrite (bind_Ok _ _ _ _ _ Hadd), sp_set_new by done. by exists σ', ll'.
  - assert (is_long (fmt_d z) = false) as Hz'.
    { apply Nat.ltb_ge. unfold GENCONFIG_MAX_VALUE_LEN. lia. }
    assert (length (fmt_d z) < GENCONFIG_MAX_VALUE_LEN)%nat as Hl180
      by (unfold GENCONFIG_MAX_VALUE_LEN; lia).
    rewrite (bind_Ok _ _ _ _ _ (strcpy_ok _ _ σ Hl180)).
    rewrite (bind_Ok _ _ _ _ _ (update_item_ok l _ _ σ (mid_lookup Hc))).
    eexists _, ll. split; [done|]. split; [|done]. eexists.
    rewrite sp_set_split by done.
    replace (alter (on_item (set_value (fmt_d z))) l (items σ))
      with (alter (set_val (set_value (fmt_d z) i)) l (items σ)).
    2:{ apply alter_ext. rewrite (mid_lookup Hc). by intros ? [= <-]. }
    apply (owns_replace Hc).
    + assert (shows (strs σ) (l, set_value (fmt_d z) i)
                (t, if is_long w then w else fmt_d z)) as Hi'.
      { destruct Hi as (Hti & Hwi & Hlg). unfold shows, text_of in *. simpl in *.
        destruct (it_long i) as [q|]; simpl in *.
        - assert (is_long w = true) as -> by by apply Hlg. done.
        - destruct (is_long w); [by destruct (proj2 Hlg eq_refl)|].
          repeat split; [done|by intros []|by rewrite Hz']. }
      destruct (is_long w); (apply Forall2_app; [done|by constructor]).
    + intros p. rewrite long_locs_mid. intros Hp. apply (ow_sframe _ _ _ _ _ _ Hc).
      by rewrite long_locs_mid.
    + intros p. rewrite long_locs_mid. intros Hp. apply (ow_sfresh _ _ _ _ _ _ Hc).
      by rewrite long_locs_mid.
    + pose proof (ow_snodup _ _ _ _ _ _ Hc) as Hnd. by rewrite long_locs_mid in *.
Qed.
End list_ops.

(** ** Indexed operations *)
Inductive found_nth (tag : str) : nat → list (loc * item) → ptr → Prop :=
  | FN_nil n : found_nth tag n [] None
  | FN_skip n c cs p :
      in_group tag (it_tag c.2) = false → found_nth tag n cs p → found_nth tag n (c :: cs) p
  | FN_here l i cs :
      in_group tag (it_tag i) = true → found_nth tag 0 ((l, i) :: cs) (Some l)
  | FN_next n c cs p :
      in_group tag (it_tag c.2) = true → found_nth tag n cs p → found_nth tag (S n) (c :: cs) p.

(** The three walks agree on an index that is not negative. *)
Lemma find_index_ok fuel tag σ pp cs (i n : nat) :
  seg (items σ) pp cs None → (length cs < fuel)%nat →
  ∃ p, found_nth tag n cs p ∧
    let z := Z.of_nat i in let idx := Z.of_nat (i + n) in
    find_index_brk fuel tag z idx (first_loc cs None) σ = Ok (p, σ) ∧
    find_index_all fuel tag z idx (first_loc cs None) σ = Ok (p, σ) ∧
    find_index_ge fuel tag z idx (first_loc cs None) σ = Ok (p, σ).
Proof.
  revert pp cs i n. induction fuel as [|fuel IH]; intros pp cs i n Hs Hf; [lia|].
  destruct cs as [|[l v] cs]; cbn [length] in *.
  { exists None. by split; [constructor|]. }
  destruct Hs as [Hl Hs]. cbn [first_loc find_index_brk find_index_all find_index_ge].
  pose proof (load_item_ok l _ σ Hl) as Hload.
  rewrite !(bind_Ok _ _ _ _ _ Hload). cbn [nval nnext].
  fold (in_group tag (it_tag v)). destruct (in_group tag (it_tag v)) eqn:Eg; simpl negb.
  - destruct n as [|n].
    + exists (Some l). rewrite Nat.add_0_r, Z.eqb_refl, Z.leb_refl.
      by split; [constructor|].
    + destruct (IH _ cs (S i) n Hs ltac:(lia)) as (p & Hp & Hbrk & Hall & Hge).
      exists p. split; [by apply FN_next|].
      rewrite (proj2 (Z.eqb_neq _ _)), (proj2 (Z.ltb_ge _ _)), (proj2 (Z.leb_gt _ _)) by lia.
      replace (i + S n)%nat with (S i + n)%nat by lia.
      by replace (Z.of_nat i + 1) with (Z.of_nat (S i)) by lia.
  - destruct (IH _ cs i n Hs ltac:(lia)) as (p & Hp & Hruns).
    exists p. split; [by apply FN_skip|done].
Qed.

Lemma found_nth_entries tag ss n cs kv p :
  found_nth tag n cs p → Forall2 (shows ss) cs kv →
  (p = None ∧ sp_nth tag n kv = None ∧ (∀ v, sp_set_nth tag n v kv = kv ++ [(tag, v)]) ∧
     sp_remove_nth tag n kv = kv) ∨
  (∃ a l i b ka t w kb, p = Some l ∧ cs = a ++ (l, i) :: b ∧ kv = ka ++ (t, w) :: kb ∧
     Forall2 (shows ss) a ka ∧ shows ss (l, i) (t, w) ∧ Forall2 (shows ss) b kb ∧
     sp_nth tag n kv = Some w ∧ (∀ v, sp_set_nth tag n v kv = ka ++ (t, v) :: kb) ∧
     sp_remove_nth tag n kv = ka ++ kb).
Proof.
  intros Hf. revert kv. induction Hf as [n|n c cs p Hg Hf IH|l i cs Hg|n c cs p Hg Hf IH];
    intros kv Hk; inversion Hk as [|? [t w] ? kv' Hsh Hk']; subst; simpl; [by left|..];
    pose proof (proj1 Hsh) as Ht; simpl in Ht; rewrite ?Ht in Hg; simpl in Hg; rewrite ?Hg.
  1, 3: destruct (IH kv' Hk') as [(-> & Hn & Hset & Hrm)
      |(a & l & i & b & ka & t' & w' & kb & -> & -> & -> & Ha & Hi & Hb & Hn & Hset & Hrm)];
    [left; rewrite Hrm; split_and!; [done..| |done]; intros v; by rewrite Hset
    |right; exists (c :: a), l, i, b, ((t, w) :: ka), t', w', kb; rewrite Hrm;
     split_and!; try done; [by constructor|intros v; by rewrite Hset]].
  right. by exists [], l, i, cs, [], t, w, kv'.
Qed.

Section index_ops.
Context {h0 : gmap loc (node item)} {s0 : gmap loc str}.
Implicit Types (σ : sys) (ll : genconfig_ll) (kv : entries).

Lemma find_index_cases σ ll kv tag n :
  owns h0 s0 σ ll kv →
  ∃ p, (∀ fuel, fuel = S (size (items σ)) →
     find_index_brk fuel tag 0 (Z.of_nat n) (gl_head ll) σ = Ok (p, σ) ∧
     find_index_all fuel tag 0 (Z.of_nat n) (gl_head ll) σ = Ok (p, σ) ∧
     find_index_ge fuel tag 0 (Z.of_nat n) (gl_head ll) σ = Ok (p, σ)) ∧
  ((p = None ∧ sp_nth tag n kv = None ∧ (∀ v, sp_set_nth tag n v kv = kv ++ [(tag, v)]) ∧
      sp_remove_nth tag n kv = kv) ∨
   (∃ a l i b ka t w kb, p = Some l ∧
      owns_cells h0 s0 σ ll (a ++ (l, i) :: b) (ka ++ (t, w) :: kb) ∧
      kv = ka ++ (t, w) :: kb ∧ Forall2 (shows (strs σ)) a ka ∧
      shows (strs σ) (l, i) (t, w) ∧ Forall2 (shows (strs σ)) b kb ∧
      sp_nth tag n kv = Some w ∧ (∀ v, sp_set_nth tag n v kv = ka ++ (t, v) :: kb) ∧
      sp_remove_nth tag n kv = ka ++ kb)).
Proof.
  intros [cs H]. pose proof (owns_fuel _ _ _ _ H) as Hfuel.
  destruct (ow_dll _ _ _ _ _ _ H) as [_ Hs Hh _].
  destruct (find_index_ok _ tag σ None cs 0 n Hs Hfuel) as (p & Hp & Hruns).
  exists p. rewrite Hh. split; [by intros ? ->|].
  destruct (found_nth_entries _ _ _ _ _ _ Hp (ow_shows _ _ _ _ _ _ H))
    as [?|(a & l & i & b & ka & t & w & kb & -> & -> & -> & ?)]; [by left|right].
  exists a, l, i, b, ka, t, w, kb. naive_solver.
Qed.

Lemma genconfig_get_index_value_ok σ ll kv itag n cap :
  owns h0 s0 σ ll kv → (length itag < GENCONFIG_MAX_ITEM_LEN)%nat →
  (length (default [] (sp_nth (base_tag itag) n kv)) < cap)%nat →
  genconfig_get_index_value ll itag (Z.of_nat n) cap σ =
    Ok (match sp_nth (base_tag itag) n kv with Some w => (1, w) | None => (0, []) end, σ).
Proof.
  intros H Htag Hcap. unfold genconfig_get_index_value.
  rewrite (bind_Ok _ _ _ _ _ (strcpy_ok _ _ σ Htag)), bind_list_fuel.
  destruct (find_index_cases σ ll kv (base_tag itag) n H) as (p & Hp & Hcases).
  rewrite (bind_Ok _ _ _ _ _ (proj1 (Hp _ eq_refl))).
  destruct Hcases as [(-> & Hn & _)
    |(a & l & i & b & ka & t & w & kb & -> & Hc & -> & Ha & Hi & Hb & Hn & _)];
    rewrite Hn in *; simpl in Hcap.
  - by rewrite (bind_Ok _ _ _ _ _ (strcpy_ok cap [] σ Hcap)).
  - rewrite <- bind_assoc, (bind_Ok _ _ _ _ _ (read_item_ok _ _ _ _ _ _ _ _ _ _ Hc Hi)).
    by rewrite (bind_Ok _ _ _ _ _ (strcpy_ok cap w σ Hcap)).
Qed.

Lemma genconfig_get_index_pvalue_ok σ ll kv itag n :
  owns h0 s0 σ ll kv → (length itag < GENCONFIG_MAX_ITEM_LEN)%nat →
  genconfig_get_index_pvalue ll itag (Z.of_nat n) σ = Ok (sp_nth (base_tag itag) n kv, σ).
Proof.
  intros H Htag. unfold genconfig_get_index_pvalue.
  rewrite (bind_Ok _ _ _ _ _ (strcpy_ok _ _ σ Htag)), bind_list_fuel.
  destruct (find_index_cases σ ll kv (base_tag itag) n H) as (p & Hp & Hcases).
  rewrite (bind_Ok _ _ _ _ _ (proj1 (Hp _ eq_refl))).
  destruct Hcases as [(-> & Hn & _)
    |(a & l & i & b & ka & t & w & kb & -> & Hc & -> & Ha & Hi & Hb & Hn & _)];
    rewrite Hn; [done|].
  by rewrite <- bind_assoc, (bind_Ok _ _ _ _ _ (read_item_ok _ _ _ _ _ _ _ _ _ _ Hc Hi)).
Qed.

Lemma base_tag_length t : (length (base_tag t) ≤ length t)%nat.
Proof. apply cut_length. Qed.

Lemma genconfig_set_index_value_ok σ ll kv itag n v :
  owns h0 s0 σ ll kv → (length itag < GENCONFIG_MAX_ITEM_LEN)%nat →
  ∃ σ' ll' s', genconfig_set_index_value ll itag (Z.of_nat n) (Some v) σ =
      Ok ((if sp_nth (base_tag itag) n kv then 1 else 0, ll'), σ') ∧
    owns h0 s' σ' ll' (sp_set_nth (base_tag itag) n v kv) ∧ env σ' = env σ ∧
    leak_of (sp_nth (base_tag itag) n kv) v s0 s'.
Proof.
  intros H Htag. unfold genconfig_set_index_value. pose proof (base_tag_length itag).
  rewrite (bind_Ok _ _ _ _ _ (strcpy_ok _ _ σ Htag)), bind_list_fuel.
  destruct (find_index_cases σ ll kv (base_tag itag) n H) as (p & Hp & Hcases).
  rewrite (bind_Ok _ _ _ _ _ (proj1 (Hp _ eq_refl))).
  destruct Hcases as [(-> & Hn & Hset & _)
    |(a & l & i & b & ka & t & w & kb & -> & Hc & -> & Ha & Hi & Hb & Hn & Hset & _)];
    rewrite Hn, Hset.
  - destruct (additem_ll_ok σ ll kv (base_tag itag) (Some v) H ltac:(lia))
      as (σ' & ll' & Hadd & Hown & He).
    rewrite (bind_Ok _ _ _ _ _ Hadd). by exists σ', ll', s0.
  - destruct (put_value_leak _ _ _ _ _ _ _ _ _ _ v Hc Ha Hi Hb)
      as (σ' & s' & Hput & Hown & He & Hleak).
    rewrite (bind_Ok _ _ _ _ _ Hput). by exists σ', ll, s'.
Qed.
End index_ops.
