(* ===== verification/GenconfigFile.v ===== *)
(** * The configuration store: operations on files

    Every operation of genconfig_api.c that names a file takes the lock of the
    file, reads the entries, works on the list, writes it back where it
    changed, releases the lock and frees the list.  The session lemmas prove
    these steps once; the theorems give the final state of each operation.
    The second part is the round trip between the entries and the file. *)
From S2P Require Import Prelude CLib Heap System Genconfig GenconfigSpec GenconfigOps.

(** The descriptor [fd] releases the lock of [filename] that was taken in [e]. *)
Definition closes (filename : str) (fd : option str) (e : osenv) : Prop :=
  ∀ h ss e', locks e' = locks (lock_env filename e) →
    unlock_file fd (Sys h ss e') = Ok (tt, Sys h ss (set_locks (locks e) e')).

(** An entry that survives a write and a read. *)
Definition clean_tag (t : str) : Prop :=
  t ≠ [] ∧ "="%char ∉ t ∧ LF ∉ t ∧ NUL ∉ t ∧ head t ≠ Some "#"%char.
Definition clean_value (v : str) : Prop := LF ∉ v ∧ NUL ∉ v.
Definition clean_entry (e : entry) : Prop :=
  clean_tag e.1 ∧ clean_value e.2 ∧ (length e.1 + length e.2 + 2 < 4096)%nat ∧
  (length e.1 < GENCONFIG_MAX_ITEM_LEN)%nat.

(** ** Sessions *)
Section session.
Implicit Types (σ : sys) (e : osenv) (f : str).

Lemma lock_file_ok f σ :
  lock_name f ∉ locks (env σ) →
  ∃ fd, lock_file f σ = Ok (fd, Sys (items σ) (strs σ) (lock_env f (env σ))) ∧
    closes f fd (env σ).
Proof.
  intros Hl. unfold lock_file, closes, lock_env, touch_env. rewrite bind_gets.
  destruct σ as [h ss e]. simpl. case_bool_decide as Hw.
  - exists None. split; [done|]. intros ? ? [] E. simpl in *. by rewrite <- E.
  - exists (Some (lock_name f)). unfold on_env, modify, mbind, M_bind. simpl.
    rewrite bool_decide_eq_false_2 by done. split; [done|].
    intros ? ? e' E. simpl in *. unfold on_env, modify. simpl.
    replace (locks e' ∖ {[lock_name f]}) with (locks e); [done|]. set_solver.
Qed.

(** A process that asks for a lock it holds never returns. *)
Lemma lock_file_deadlock f σ :
  lock_name f ∈ locks (env σ) → lock_name f ∉ unwritable (env σ) →
  lock_file f σ = Fault Deadlock.
Proof.
  intros Hl Hw. unfold lock_file. rewrite bind_gets.
  rewrite bool_decide_eq_false_2 by done. unfold on_env, modify, mbind, M_bind. simpl.
  by rewrite bool_decide_eq_true_2.
Qed.

Lemma lock_env_fields f e :
  unwritable (lock_env f e) = unwritable e ∧ unwritable (touch_env f e) = unwritable e ∧
  files (lock_env f e) = files (touch_env f e) ∧ shell (lock_env f e) = shell e ∧
  locks (touch_env f e) = locks e.
Proof. unfold lock_env, touch_env. by case_bool_decide. Qed.

Lemma unlock_lock_env f e : set_locks (locks e) (lock_env f e) = touch_env f e.
Proof. unfold lock_env, touch_env. by case_bool_decide; destruct e. Qed.

Lemma touch_env_lookup f g e : lock_name f ≠ g → files (touch_env f e) !! g = files e !! g.
Proof.
  intros Hne. unfold touch_env. case_bool_decide; [done|]. simpl.
  by rewrite lookup_insert_ne.
Qed.

Lemma unlock_write_env f kv e :
  set_locks (locks e) (write_env f kv (lock_env f e)) = write_env f kv (touch_env f e).
Proof.
  destruct (lock_env_fields f e) as (Hu & Hu' & _).
  unfold write_env. rewrite Hu, Hu'. case_bool_decide; [apply unlock_lock_env|].
  rewrite <- unlock_lock_env. done.
Qed.

Lemma owns_env h0 s0 h ss e e' ll kv :
  owns h0 s0 (Sys h ss e) ll kv → owns h0 s0 (Sys h ss e') ll kv.
Proof. intros [cs []]. exists cs. by split. Qed.

Lemma genconfig_read_file_any f σ :
  tags_fit (entries_of f (env σ)) →
  ∃ r ll σ', genconfig_read_file f ll_empty σ = Ok ((r, ll), σ') ∧
    owns (items σ) (strs σ) σ' ll (entries_of f (env σ)) ∧ env σ' = env σ.
Proof.
  unfold entries_of. intros Hfit. destruct (files (env σ) !! f) as [c|] eqn:Ef; simpl in *.
  - destruct (genconfig_read_file_ok σ f c Ef Hfit) as (σ' & ll & ?). by eexists _, _, _.
  - eexists _, _, _. split; [by apply genconfig_read_file_missing|].
    split; [|done]. apply owns_empty.
Qed.

Lemma genconfig_write_file_any h0 s0 f σ ll kv :
  owns h0 s0 σ ll kv →
  ∃ r, genconfig_write_file f ll σ =
    Ok (r, Sys (items σ) (strs σ) (write_env f kv (env σ))).
Proof.
  intros H. unfold write_env. case_bool_decide as Hw.
  - exists (-1). rewrite genconfig_write_file_refused by done. by destruct σ.
  - exists 0. by eapply genconfig_write_file_ok.
Qed.

Lemma session_open f σ :
  usable f (env σ) →
  ∃ fd r ll σ1, lock_file f σ = Ok (fd, Sys (items σ) (strs σ) (lock_env f (env σ))) ∧
    genconfig_read_file f ll_empty (Sys (items σ) (strs σ) (lock_env f (env σ))) =
      Ok ((r, ll), σ1) ∧
    owns (items σ) (strs σ) σ1 ll (entries_of f (env σ)) ∧
    env σ1 = lock_env f (env σ) ∧ closes f fd (env σ).
Proof.
  intros [Hl Ho Ht]. destruct (lock_file_ok f σ Hl) as (fd & Hlock & Hcl).
  assert (entries_of f (lock_env f (env σ)) = entries_of f (env σ)) as Hent.
  { unfold entries_of. destruct (lock_env_fields f (env σ)) as (_ & _ & -> & _).
    by rewrite touch_env_lookup. }
  rewrite <- Hent in *.
  destruct (genconfig_read_file_any f (Sys (items σ) (strs σ) (lock_env f (env σ))) Ht)
    as (r & ll & σ1 & ? & ? & ?). by exists fd, r, ll, σ1.
Qed.

Lemma session_abort {A} h0 s0 f fd e σ ll kv (a : A) :
  owns h0 s0 σ ll kv → env σ = lock_env f e → closes f fd e →
  (unlock_file fd;; genconfig_free_ll ll;; mret a) σ = Ok (a, Sys h0 s0 (touch_env f e)).
Proof.
  intros H He Hcl. destruct σ as [h ss e1]. simpl in He. subst e1.
  rewrite (bind_Ok _ _ _ _ _ (Hcl h ss _ eq_refl)), unlock_lock_env.
  by rewrite (bind_Ok _ _ _ _ _ (genconfig_free_ll_ok _ _ _ _ _ (owns_env _ _ _ _ _ _ _ _ H))).
Qed.

Lemma session_commit {A} h0 s0 f fd e σ ll kv (a : A) :
  owns h0 s0 σ ll kv → env σ = lock_env f e → closes f fd e →
  (genconfig_write_file f ll;; unlock_file fd;; genconfig_free_ll ll;; mret a) σ =
    Ok (a, Sys h0 s0 (write_env f kv (touch_env f e))) ∧
  (genconfig_write_file f ll;; genconfig_free_ll ll;; unlock_file fd;; mret a) σ =
    Ok (a, Sys h0 s0 (write_env f kv (touch_env f e))).
Proof.
  intros H He Hcl. destruct σ as [h ss e1]. simpl in He. subst e1.
  destruct (genconfig_write_file_any h0 s0 f _ ll kv H) as [r Hw].
  assert (locks (write_env f kv (lock_env f e)) = locks (lock_env f e)) as Hlk.
  { unfold write_env. by case_bool_decide. }
  pose proof (genconfig_free_ll_ok _ _ _ _ _ (owns_env _ _ _ _ _
    (write_env f kv (lock_env f e)) _ _ H)) as Hfree.
  pose proof (genconfig_free_ll_ok _ _ _ _ _ (owns_env _ _ _ _ _
    (write_env f kv (touch_env f e)) _ _ H)) as Hfree'.
  rewrite !(bind_Ok _ _ _ _ _ Hw). cbn [items strs env] in *. split.
  - rewrite (bind_Ok _ _ _ _ _ (Hcl _ _ _ Hlk)), unlock_write_env.
    by rewrite (bind_Ok _ _ _ _ _ Hfree').
  - rewrite (bind_Ok _ _ _ _ _ Hfree), (bind_Ok _ _ _ _ _ (Hcl _ _ _ Hlk)).
    by rewrite unlock_write_env.
Qed.
End session.

(** Opens the session at the head of the goal. *)
Ltac session_open f σ Hus :=
  destruct (session_open f σ Hus) as (fd & r & ll & σ1 & Hlock & Hread & Hown & Henv & Hcl);
  rewrite (bind_Ok _ _ _ _ _ Hlock), (bind_Ok _ _ _ _ _ Hread).

(** ** Operations on files *)
Definition look (tag : str) (kv : entries) : option str := sp_lookup (λ t, streq t tag) kv.
Definition group_size (tag : str) (kv : entries) : Z :=
  Z.of_nat (length (filter (λ e, in_group tag e.1 = true) kv)).

Lemma look_set tag tag' v kv :
  look tag' (sp_set tag v kv) = if streq tag' tag then Some v else look tag' kv.
Proof.
  unfold look. destruct (streq tag' tag) eqn:E.
  - apply streq_spec in E as ->. apply sp_lookup_set_eq.
  - apply sp_lookup_set_ne. intros ->. by rewrite (proj2 (streq_spec tag tag)) in E.
Qed.

Section direct.
Context {f : str} {σ : sys}.
Hypothesis Hus : usable f (env σ).
Let kv := entries_of f (env σ).

Lemma genconfig_set_value_direct_ok tag v :
  (length tag < GENCONFIG_MAX_ITEM_LEN)%nat →
  ∃ s', genconfig_set_value_direct f tag (Some v) σ =
      Ok (0, Sys (items σ) s' (write_env f (sp_set tag (line_of v) kv) (touch_env f (env σ)))) ∧
    leak_of (look tag kv) (line_of v) (strs σ) s'.
Proof.
  intros Htag. unfold genconfig_set_value_direct. session_open f σ Hus.
  destruct (genconfig_set_value_ok σ1 ll _ tag v Hown Htag)
    as (σ2 & ll' & s' & Hset & Hown' & Henv' & Hleak).
  rewrite (bind_Ok _ _ _ _ _ Hset). rewrite Henv in Henv'.
  exists s'. split; [|done]. by eapply session_commit.
Qed.

(** A tag that does not fit is not in the list: it is added, and overflows. *)
Lemma genconfig_set_value_direct_overflow tag v :
  (GENCONFIG_MAX_ITEM_LEN ≤ length tag)%nat →
  genconfig_set_value_direct f tag (Some v) σ = Fault Overflow.
Proof.
  intros Htag. unfold genconfig_set_value_direct. session_open f σ Hus.
  pose proof (us_tags _ _ Hus) as Hfit. fold kv in Hown, Hfit. clearbody kv.
  unfold genconfig_set_value. rewrite bind_assoc.
  find_cases (λ t, streq t tag) Hown.
  - unfold additem_ll, mbind, M_bind, malloc_item, malloc. simpl.
    by rewrite strcpy_overflow.
  - apply streq_spec in Ht as ->. apply Forall_app in Hfit as [_ Hfit]. apply Forall_cons in Hfit as [Hfit _].
    simpl in Hfit. lia.
Qed.

Lemma genconfig_set_value_direct_null tag :
  genconfig_set_value_direct f tag None σ =
    Ok (0, Sys (items σ) (strs σ) (write_env f kv (touch_env f (env σ)))).
Proof.
  unfold genconfig_set_value_direct. session_open f σ Hus.
  rewrite (bind_Ok _ _ _ _ _ (genconfig_set_value_null σ1 ll tag)).
  by eapply session_commit.
Qed.

Lemma genconfig_get_value_direct_ok tag cap :
  (length (default [] (look tag kv)) < cap)%nat →
  genconfig_get_value_direct f tag cap σ =
    Ok (match look tag kv with Some w => (1, w) | None => (0, []) end,
        Sys (items σ) (strs σ) (touch_env f (env σ))).
Proof.
  intros Hcap. unfold genconfig_get_value_direct. session_open f σ Hus.
  rewrite (bind_Ok _ _ _ _ _ (genconfig_get_value_ok σ1 ll _ tag cap Hown Hcap)).
  fold kv (look tag kv). destruct (look tag kv); by eapply session_abort.
Qed.

Lemma genconfig_get_value_direct_overflow tag cap :
  (cap ≤ length (default [] (look tag kv)))%nat →
  genconfig_get_value_direct f tag cap σ = Fault Overflow.
Proof.
  intros Hcap. unfold genconfig_get_value_direct. session_open f σ Hus.
  unfold mbind, M_bind. by rewrite (genconfig_get_value_overflow σ1 ll _ tag cap Hown Hcap).
Qed.

Lemma genconfig_remove_item_ok tag :
  genconfig_remove_item f tag σ =
    Ok (match look tag kv with Some _ => 1 | None => 0 end,
        Sys (items σ) (strs σ)
          (match look tag kv with
           | Some _ => write_env f (sp_remove (λ t, streq t tag) kv) (touch_env f (env σ))
           | None => touch_env f (env σ)
           end)).
Proof.
  unfold genconfig_remove_item, look. session_open f σ Hus. fold kv in Hown.
  clearbody kv. find_cases (λ t, streq t tag) Hown; rewrite Hlk.
  - by eapply session_abort.
  - destruct (unlink_item_ok Hc Ha Hi Hb) as (σ' & ll' & Hun & Hown' & He').
    rewrite (bind_Ok _ _ _ _ _ Hun), sp_remove_split by done. rewrite Henv in He'.
    by eapply session_commit.
Qed.

Lemma genconfig_remove_index_item_ok n itag :
  (length itag < GENCONFIG_MAX_ITEM_LEN)%nat →
  genconfig_remove_index_item f (Z.of_nat n) itag σ =
    Ok (match sp_nth (base_tag itag) n kv with Some _ => 1 | None => 0 end,
        Sys (items σ) (strs σ)
          (match sp_nth (base_tag itag) n kv with
           | Some _ => write_env f (sp_remove_nth (base_tag itag) n kv) (touch_env f (env σ))
           | None => touch_env f (env σ)
           end)).
Proof.
  intros Htag. unfold genconfig_remove_index_item. session_open f σ Hus.
  fold kv in Hown. clearbody kv.
  rewrite (bind_Ok _ _ _ _ _ (strcpy_ok _ _ σ1 Htag)), bind_list_fuel.
  destruct (find_index_cases σ1 ll kv (base_tag itag) n Hown) as (p & Hp & Hcases).
  rewrite (bind_Ok _ _ _ _ _ (proj1 (proj2 (Hp _ eq_refl)))).
  destruct Hcases as [(-> & Hn & _)
    |(a & l & i & b & ka & t & w & kb & -> & Hc & -> & Ha & Hi & Hb & Hn & _ & Hrm)];
    rewrite Hn; [by eapply session_abort|].
  destruct (unlink_item_ok Hc Ha Hi Hb) as (σ' & ll' & Hun & Hown' & He').
  rewrite (bind_Ok _ _ _ _ _ Hun), Hrm. rewrite Henv in He'. by eapply session_commit.
Qed.
End direct.

(** ** Removal of a group *)
Lemma remove_all_loop_ok h0 s0 fuel tag σ ll kv n :
  owns h0 s0 σ ll kv → (length kv < fuel)%nat →
  ∃ σ' ll', remove_all_loop fuel tag ll n σ = Ok ((n + group_size tag kv, ll'), σ') ∧
    owns h0 s0 σ' ll' (sp_remove_all (in_group tag) kv) ∧ env σ' = env σ.
Proof.
  revert σ ll kv n. induction fuel as [|fuel IH]; intros σ ll kv n Hown Hfuel; [lia|].
  cbn [remove_all_loop]. change (λ t, streq (base_tag t) tag) with (in_group tag).
  unfold group_size. find_cases (in_group tag) Hown.
  - exists σ, ll. rewrite sp_remove_all_none by done. split; [|done].
    replace (filter _ kv) with ([] : entries); [simpl; by rewrite Z.add_0_r|].
    clear - Hkv. induction Hkv as [|e kv He _ IH]; [done|].
    by rewrite filter_cons_False by (rewrite He; done).
  - destruct (unlink_item_ok Hc Ha Hi Hb) as (σ1 & ll1 & Hun & Hown1 & He1).
    rewrite (bind_Ok _ _ _ _ _ Hun). rewrite length_app in Hfuel. simpl in Hfuel.
    destruct (IH σ1 ll1 (ka ++ kb) (n + 1) Hown1) as (σ' & ll' & Hrun & Hown' & He').
    { rewrite length_app. lia. }
    exists σ', ll'. rewrite Hrun. destruct (sp_remove_all_split _ _ _ w kb Hka Ht) as [-> E].
    rewrite E in Hown'. split; [|split; [done|by rewrite He']].
    do 3 f_equal. unfold group_size. rewrite !filter_app, filter_cons_True by done.
    rewrite !length_app. simpl. lia.
Qed.

Lemma genconfig_remove_index_allitem_ok f σ tag :
  usable f (env σ) →
  let kv := entries_of f (env σ) in
  genconfig_remove_index_allitem f tag σ =
    Ok (group_size tag kv,
        Sys (items σ) (strs σ)
          (write_env f (sp_remove_all (in_group tag) kv) (touch_env f (env σ)))).
Proof.
  intros Hus kv. unfold genconfig_remove_index_allitem. session_open f σ Hus.
  rewrite bind_list_fuel.
  destruct (remove_all_loop_ok _ _ (S (size (items σ1))) tag _ _ _ 0 Hown)
    as (σ2 & ll' & Hrun & Hown' & He').
  { destruct Hown as [cs Hcs]. rewrite <- (Forall2_length _ _ _ (ow_shows _ _ _ _ _ _ Hcs)).
    by eapply owns_fuel. }
  rewrite (bind_Ok _ _ _ _ _ Hrun), Z.add_0_l. rewrite Henv in He'.
  by eapply session_commit.
Qed.

(** ** The round trip between entries and files *)
Lemma parse_line_print e : clean_entry e → parse_line (print_entry e) = Some e.
Proof.
  destruct e as [t v]. intros ((Hne & Heq & Hlf & Hnul & Hhash) & (Hvl & Hvn) & _). simpl in *.
  unfold parse_line, print_entry. cbn [fst snd].
  destruct (match t ++ _ with c :: _ => _ | [] => _ end) eqn:Eh.
  { destruct t as [|c t]; [done|]. simpl in *. apply is_char_true in Eh as <-. done. }
  rewrite (cut_notin NUL : ∀ s, NUL ∉ s → cstr s = s); last first.
  { rewrite !elem_of_app. intros [?|[E|[?|E]]]; try done;
      by apply list_elem_of_singleton in E. }
  change (lit "=" ++ v ++ [LF]) with ("="%char :: v ++ [LF]).
  rewrite strtok_tok; [|done| |set_solver]; last first.
  { apply Forall_forall. intros c Hc [->|[->|[]%elem_of_nil]%elem_of_cons]%elem_of_cons; done. }
  destruct v as [|c v]; [by rewrite strtok_none by by repeat constructor|].
  rewrite strtok_tok; [done|done| |set_solver].
  apply Forall_forall. intros d Hd ->%list_elem_of_singleton. done.
Qed.

Lemma print_entry_line e :
  clean_entry e → print_entry e = (e.1 ++ lit "=" ++ e.2) ++ [LF] ∧
    LF ∉ e.1 ++ lit "=" ++ e.2 ∧ (length (e.1 ++ lit "=" ++ e.2) + 1 < 4096)%nat.
Proof.
  intros ((_ & _ & Hlf & _) & (Hvl & _) & Hlen & _). split_and!.
  - unfold print_entry. by rewrite <- !(assoc_L (++)).
  - rewrite !elem_of_app. intros [?|[E|?]]; try done. by apply list_elem_of_singleton in E.
  - rewrite !length_app. simpl. lia.
Qed.

Lemma parse_lines_print fuel kv :
  Forall clean_entry kv → (length (print_config kv) < fuel)%nat →
  parse_lines fuel (print_config kv) = kv.
Proof.
  intros Hkv. revert fuel. unfold print_config.
  induction Hkv as [|e kv He Hkv IH]; intros [|fuel] Hf; try (simpl in *; lia); [done|].
  rewrite fmap_cons. cbn [concat parse_lines]. destruct (print_entry_line e He) as (Ep & Hlf & Hlen).
  rewrite Ep, <- (assoc_L (++)). change ([LF] ++ concat (print_entry <$> kv))
    with (LF :: concat (print_entry <$> kv)).
  rewrite fgets_line by done. rewrite <- Ep, parse_line_print by done. simpl.
  rewrite IH; [done|]. rewrite fmap_cons in Hf. cbn [concat] in Hf.
  rewrite Ep, !length_app in Hf. simpl in Hf. lia.
Qed.

Lemma parse_print_config kv : Forall clean_entry kv → parse_config (print_config kv) = kv.
Proof. intros Hkv. apply parse_lines_print; [done|lia]. Qed.

Lemma clean_tags_fit kv : Forall clean_entry kv → tags_fit kv.
Proof. intros H. eapply Forall_impl; [done|]. intros e He. apply He. Qed.

Lemma sp_set_clean tag v kv :
  clean_entry (tag, v) → Forall clean_entry kv → Forall clean_entry (sp_set tag v kv).
Proof.
  intros He Hkv. induction Hkv as [|[t w] kv Htw Hkv IH]; simpl; [by apply Forall_singleton|].
  destruct (streq t tag) eqn:E; constructor; try done. by apply streq_spec in E as ->.
Qed.

Lemma sp_remove_clean test kv : Forall clean_entry kv → Forall clean_entry (sp_remove test kv).
Proof.
  intros Hkv. induction Hkv as [|[t w] kv Htw Hkv IH]; simpl; [done|].
  destruct (test t); [done|by constructor].
Qed.

Lemma line_of_clean v : NUL ∉ v → clean_value (line_of v).
Proof.
  intros Hv. split; unfold line_of; [apply cut_clean|].
  intros H. by apply cut_incl, cut_incl in H.
Qed.

Lemma line_of_length v : (length (line_of v) ≤ length v)%nat.
Proof. unfold line_of. etrans; apply cut_length. Qed.

(** Writing clean entries to a writable file and reading them back. *)
Lemma entries_of_write f kv e :
  f ∉ unwritable e → Forall clean_entry kv → entries_of f (write_env f kv e) = kv.
Proof.
  intros Hw Hkv. unfold entries_of, write_env. rewrite bool_decide_eq_false_2 by done.
  simpl. rewrite lookup_insert_eq. by apply parse_print_config.
Qed.

(** The file stays usable. *)
Lemma usable_write f kv e :
  usable f e → f ∉ unwritable e → Forall clean_entry kv →
  usable f (write_env f kv (touch_env f e)).
Proof.
  intros [Hl Ho Ht] Hw Hkv. destruct (lock_env_fields f e) as (_ & Hu & _ & _ & Hlk).
  split; [|done|].
  - unfold write_env. case_bool_decide; simpl; by rewrite Hlk.
  - rewrite entries_of_write; [by apply clean_tags_fit|by rewrite Hu|done].
Qed.
