(* ===== verification/Cconfig.v ===== *)
(** * lib/ul_lib/cconfig_api.c and hwinfo.c: the system's configuration files

    The persistent configuration (iconfig), the volatile status (istatus), the
    process table (pid_db) and the hardware description (hwinfo) are four files
    of the store of [Genconfig].  [Store] is the interface on which the other
    components rely; the two read-write files implement it. *)
From S2P Require Import Prelude CLib Heap System Genconfig GenconfigSpec GenconfigOps.
From S2P Require Import GenconfigFile.

Definition INTEGRATED_CONFIG_FILE : str := lit "/etc/iconfig.cfg".
Definition INTEGRATED_DEFAULT_FILE : str := lit "/default/etc/iconfig.cfg".
Definition INTEGRATED_STATUS_FILE : str := lit "/var/run/istatus".
Definition INTEGRATED_PID_FILE : str := lit "/var/run/pidstatus".
Definition HARDWAREINFO_FILENAME : str := lit "/var/run/hwinfo".

(** ** iconfig *)
Definition iconfig_set_value_direct (tag : str) (value : option str) : M sys Z :=
  fd ← lock_file INTEGRATED_CONFIG_FILE;
  '(_, gen_ll) ← genconfig_read_file INTEGRATED_CONFIG_FILE ll_empty;
  '(_, gen_ll, _) ← genconfig_set_value gen_ll tag value;
  genconfig_write_file INTEGRATED_CONFIG_FILE gen_ll;;
  genconfig_free_ll gen_ll;;
  unlock_file fd;;
  mret 0.

Definition iconfig_set_intvalue_direct (tag : str) (value : Z) : M sys Z :=
  str_value ← strcpy 32 (fmt_d value);
  iconfig_set_value_direct tag (Some str_value);;
  mret 0.

Definition iconfig_get_value_direct (tag : str) (cap : nat) : M sys (Z * str) :=
  fd ← lock_file INTEGRATED_CONFIG_FILE;
  '(_, gen_ll) ← genconfig_read_file INTEGRATED_CONFIG_FILE ll_empty;
  '(found, value) ← genconfig_get_value gen_ll tag cap;
  if found =? 0 then
    unlock_file fd;;
    genconfig_free_ll gen_ll;;
    mret (-1, value)
  else
    unlock_file fd;;
    genconfig_free_ll gen_ll;;
    mret (0, value).

Definition iconfig_get_default_value_direct (tag : str) (cap : nat) : M sys (Z * str) :=
  '(_, gen_ll) ← genconfig_read_file INTEGRATED_DEFAULT_FILE ll_empty;
  '(found, value) ← genconfig_get_value gen_ll tag cap;
  let ret := if found =? 0 then -1 else 0 in
  genconfig_free_ll gen_ll;;
  mret (ret, value).

Definition iconfig_get_intvalue_direct (tag : str) : M sys Z :=
  '(ret, value) ← iconfig_get_value_direct tag 32;
  if ret =? -1 then mret (-1) else mret (atoi value).

Definition iconfig_make_default (tag : str) : M sys Z :=
  fd ← lock_file INTEGRATED_CONFIG_FILE;
  '(_, gen_ll) ← genconfig_read_file INTEGRATED_CONFIG_FILE ll_empty;
  citem ← find_item (λ t, streq t tag) gen_ll;
  match citem with
  | None => genconfig_free_ll gen_ll;; unlock_file fd;; mret 0
  | Some _ =>
      gen_ll ← unlink_item gen_ll citem;
      genconfig_write_file INTEGRATED_CONFIG_FILE gen_ll;;
      unlock_file fd;;
      genconfig_free_ll gen_ll;;
      mret 1
  end.

Definition iconfig_is_changed (tag : str) : M sys Z :=
  '(_, def_value) ← iconfig_get_default_value_direct tag 512;
  '(_, value) ← iconfig_get_value_direct tag 512;
  mret (if streq value def_value then 0 else 1).

Definition iconfig_remove_config_tag (tag : str) : M sys Z :=
  genconfig_remove_item INTEGRATED_CONFIG_FILE tag.

(** The loop of the two remove_tag_prefix functions. *)
Fixpoint remove_prefix_loop (fuel : nat) (tag_prefix : str) (gen_ll : genconfig_ll)
    (citem : ptr) : M sys genconfig_ll :=
  match fuel with
  | O => nofuel
  | S fuel =>
      match citem with
      | None => mret gen_ll
      | Some _ =>
          n ← load_item citem;
          if prefixb tag_prefix (it_tag (nval n)) then
            gen_ll' ← unlink_item gen_ll citem;
            remove_prefix_loop fuel tag_prefix gen_ll' (nnext n)
          else remove_prefix_loop fuel tag_prefix gen_ll (nnext n)
      end
  end.

Definition iconfig_remove_tag_prefix (tag_prefix : str) : M sys Z :=
  fd ← lock_file INTEGRATED_CONFIG_FILE;
  '(_, gen_ll) ← genconfig_read_file INTEGRATED_CONFIG_FILE ll_empty;
  fuel ← list_fuel;
  gen_ll ← remove_prefix_loop fuel tag_prefix gen_ll (gl_head gen_ll);
  genconfig_write_file INTEGRATED_CONFIG_FILE gen_ll;;
  unlock_file fd;;
  genconfig_free_ll gen_ll;;
  mret 0.

(** ** istatus *)
Definition istatus_set_value_direct (tag : str) (value : option str) : M sys Z :=
  fd ← lock_file INTEGRATED_STATUS_FILE;
  '(_, gen_ll) ← genconfig_read_file INTEGRATED_STATUS_FILE ll_empty;
  '(_, gen_ll, _) ← genconfig_set_value gen_ll tag value;
  genconfig_write_file INTEGRATED_STATUS_FILE gen_ll;;
  unlock_file fd;;
  genconfig_free_ll gen_ll;;
  mret 0.

Definition istatus_set_intvalue_direct (tag : str) (value : Z) : M sys Z :=
  str_value ← strcpy 32 (fmt_d value);
  istatus_set_value_direct tag (Some str_value);;
  mret 0.

Definition istatus_get_value_direct (tag : str) (cap : nat) : M sys (Z * str) :=
  fd ← lock_file INTEGRATED_STATUS_FILE;
  '(_, gen_ll) ← genconfig_read_file INTEGRATED_STATUS_FILE ll_empty;
  '(found, value) ← genconfig_get_value gen_ll tag cap;
  '(ret, value) ← (if found =? 0 then v ← strcpy cap []; mret (-1, v) else mret (0, value));
  unlock_file fd;;
  genconfig_free_ll gen_ll;;
  mret (ret, value).

Definition istatus_get_intvalue_direct (tag : str) : M sys Z :=
  '(ret, value) ← istatus_get_value_direct tag 32;
  if ret =? -1 then mret (-1) else mret (atoi value).

Definition istatus_remove_status_tag (tag : str) : M sys Z :=
  genconfig_remove_item INTEGRATED_STATUS_FILE tag.

Definition istatus_remove_tag_prefix (tag_prefix : str) : M sys Z :=
  fd ← lock_file INTEGRATED_STATUS_FILE;
  '(_, gen_ll) ← genconfig_read_file INTEGRATED_STATUS_FILE ll_empty;
  fuel ← list_fuel;
  gen_ll ← remove_prefix_loop fuel tag_prefix gen_ll (gl_head gen_ll);
  genconfig_write_file INTEGRATED_STATUS_FILE gen_ll;;
  unlock_file fd;;
  genconfig_free_ll gen_ll;;
  mret 0.

(** ** The process table *)
Definition pid_db_set_value (tag : str) (value : Z) : M sys Z :=
  fd ← lock_file INTEGRATED_PID_FILE;
  '(_, gen_ll) ← genconfig_read_file INTEGRATED_PID_FILE ll_empty;
  strval ← strcpy 64 (fmt_d value);
  '(_, gen_ll, _) ← genconfig_set_value gen_ll tag (Some strval);
  genconfig_write_file INTEGRATED_PID_FILE gen_ll;;
  unlock_file fd;;
  genconfig_free_ll gen_ll;;
  mret 0.

Definition pid_db_get_value (tag : str) : M sys Z :=
  fd ← lock_file INTEGRATED_PID_FILE;
  '(_, gen_ll) ← genconfig_read_file INTEGRATED_PID_FILE ll_empty;
  '(found, value) ← genconfig_get_value gen_ll tag 64;
  let ret := if found =? 0 then -1 else atoi value in
  unlock_file fd;;
  genconfig_free_ll gen_ll;;
  mret ret.

Definition pid_db_remove_value (tag : str) : M sys Z :=
  genconfig_remove_item INTEGRATED_PID_FILE tag.

(** ** The hardware description, which is not locked *)
Definition hwinfo_get_value_direct (tag : str) (cap : nat) : M sys (Z * str) :=
  '(_, gen_ll) ← genconfig_read_file HARDWAREINFO_FILENAME ll_empty;
  '(found, value) ← genconfig_get_value gen_ll tag cap;
  '(ret, value) ← (if found =? 0 then v ← strcpy cap []; mret (-1, v) else mret (0, value));
  genconfig_free_ll gen_ll;;
  mret (ret, value).

Definition hwinfo_get_intvalue_direct (tag : str) : M sys Z :=
  '(ret, value) ← hwinfo_get_value_direct tag 32;
  if ret =? -1 then mret (-1) else mret (atoi value).

(** The result of sscanf is not tested: [val] stays uninitialised when the text
    does not match. *)
Definition hwinfo_get_hexvalue_direct (tag : str) : M sys Z :=
  '(ret, value) ← hwinfo_get_value_direct tag 32;
  if ret =? -1 then mret (-1)
  else if prefixb (lit "0x") value then
    match scan_X (drop 2 value) with
    | Some (val, _) => mret (i32 val)
    | None => fail Uninit
    end
  else fail Uninit.

Definition hwinfo_get_max_firmware_size : M sys Z :=
  size ← hwinfo_get_hexvalue_direct (lit "max_firmware_size");
  mret (if size =? -1 then 0x1F0000 else size).

Definition hwinfo_get_max_syslog : M sys Z :=
  max ← hwinfo_get_intvalue_direct (lit "max_syslog");
  mret (if max =? -1 then 400 else max).

Definition IF_WIRELESS : str := lit "eth0".
Definition hwinfo_get_wireless_ifname (cap : nat) : M sys (Z * str) :=
  '(ret, ifname) ← hwinfo_get_value_direct (lit "wireless_ifname") cap;
  if ret =? -1 then v ← strcpy cap IF_WIRELESS; mret (0, v) else mret (0, ifname).

Definition hwinfo_get_product_code (cap : nat) : M sys (Z * str) :=
  '(_, code) ← hwinfo_get_value_direct (lit "product_alias") cap;
  mret (0, code).

(** ** Indexed items of the two files *)
Definition iconfig_get_index_info_direct (tag : str) (idx : Z) : M sys (Z * option item) :=
  fd ← lock_file INTEGRATED_CONFIG_FILE;
  '(_, gen_ll) ← genconfig_read_file INTEGRATED_CONFIG_FILE ll_empty;
  '(found, info) ← genconfig_get_index_info gen_ll tag idx;
  let ret := if found =? 0 then -1 else 0 in
  unlock_file fd;;
  genconfig_free_ll gen_ll;;
  mret (ret, info).

Definition iconfig_get_index_value_direct (tag : str) (idx : Z) (cap : nat) : M sys (Z * str) :=
  fd ← lock_file INTEGRATED_CONFIG_FILE;
  '(_, gen_ll) ← genconfig_read_file INTEGRATED_CONFIG_FILE ll_empty;
  '(found, value) ← genconfig_get_index_value gen_ll tag idx cap;
  let ret := if found =? 0 then -1 else 0 in
  unlock_file fd;;
  genconfig_free_ll gen_ll;;
  mret (ret, value).

Definition iconfig_set_index_value_direct (tag : str) (idx : Z) (value : option str) : M sys Z :=
  fd ← lock_file INTEGRATED_CONFIG_FILE;
  '(_, gen_ll) ← genconfig_read_file INTEGRATED_CONFIG_FILE ll_empty;
  '(_, gen_ll) ← genconfig_set_index_value gen_ll tag idx value;
  genconfig_write_file INTEGRATED_CONFIG_FILE gen_ll;;
  unlock_file fd;;
  genconfig_free_ll gen_ll;;
  mret 0.

Definition iconfig_remove_index_tag (tag : str) (idx : Z) : M sys Z :=
  genconfig_remove_index_item INTEGRATED_CONFIG_FILE idx tag.

Definition iconfig_remove_index_alltag (tag : str) : M sys Z :=
  genconfig_remove_index_allitem INTEGRATED_CONFIG_FILE tag.

Definition istatus_get_index_info_direct (tag : str) (idx : Z) : M sys (Z * option item) :=
  fd ← lock_file INTEGRATED_STATUS_FILE;
  '(_, gen_ll) ← genconfig_read_file INTEGRATED_STATUS_FILE ll_empty;
  '(found, info) ← genconfig_get_index_info gen_ll tag idx;
  let ret := if found =? 0 then -1 else 0 in
  unlock_file fd;;
  genconfig_free_ll gen_ll;;
  mret (ret, info).

Definition istatus_get_index_value_direct (tag : str) (idx : Z) (cap : nat) : M sys (Z * str) :=
  fd ← lock_file INTEGRATED_STATUS_FILE;
  '(_, gen_ll) ← genconfig_read_file INTEGRATED_STATUS_FILE ll_empty;
  '(found, value) ← genconfig_get_index_value gen_ll tag idx cap;
  let ret := if found =? 0 then -1 else 0 in
  unlock_file fd;;
  genconfig_free_ll gen_ll;;
  mret (ret, value).

Definition istatus_set_index_value_direct (tag : str) (idx : Z) (value : option str) : M sys Z :=
  fd ← lock_file INTEGRATED_STATUS_FILE;
  '(_, gen_ll) ← genconfig_read_file INTEGRATED_STATUS_FILE ll_empty;
  '(_, gen_ll) ← genconfig_set_index_value gen_ll tag idx value;
  genconfig_write_file INTEGRATED_STATUS_FILE gen_ll;;
  unlock_file fd;;
  genconfig_free_ll gen_ll;;
  mret 0.

Definition istatus_remove_index_tag (tag : str) (idx : Z) : M sys Z :=
  genconfig_remove_index_item INTEGRATED_STATUS_FILE idx tag.

Definition istatus_remove_index_alltag (tag : str) : M sys Z :=
  genconfig_remove_index_allitem INTEGRATED_STATUS_FILE tag.

(** ** The interface of a read-write file

    What a client of [get] and [set] relies on: reads give the value of the
    first entry with the tag, writes replace it, both leave the heap (up to a
    replaced long value) and the locks as they were. *)
Class Store (f : str) (get : str → nat → M sys (Z * str))
    (set : str → option str → M sys Z) : Prop := {
  store_get tag cap σ :
    usable f (env σ) →
    (length (default [] (look tag (entries_of f (env σ)))) < cap)%nat →
    get tag cap σ =
      Ok (match look tag (entries_of f (env σ)) with Some w => (0, w) | None => (-1, []) end,
          Sys (items σ) (strs σ) (touch_env f (env σ)));
  store_get_overflow tag cap σ :
    usable f (env σ) →
    (cap ≤ length (default [] (look tag (entries_of f (env σ)))))%nat →
    get tag cap σ = Fault Overflow;
  store_set tag v σ :
    usable f (env σ) → (length tag < GENCONFIG_MAX_ITEM_LEN)%nat →
    ∃ s', set tag (Some v) σ =
        Ok (0, Sys (items σ) s' (write_env f (sp_set tag (line_of v) (entries_of f (env σ)))
                                           (touch_env f (env σ)))) ∧
      leak_of (look tag (entries_of f (env σ))) (line_of v) (strs σ) s'
}.

#[export] Instance iconfig_store :
  Store INTEGRATED_CONFIG_FILE iconfig_get_value_direct iconfig_set_value_direct.
Proof.
  split; intros tag x σ Hus.
  - intros Hcap. unfold iconfig_get_value_direct.
    session_open INTEGRATED_CONFIG_FILE σ Hus.
    rewrite (bind_Ok _ _ _ _ _ (genconfig_get_value_ok σ1 ll _ tag x Hown Hcap)).
    fold (look tag (entries_of INTEGRATED_CONFIG_FILE (env σ))).
    destruct (look _ _); by eapply session_abort.
  - intros Hcap. unfold iconfig_get_value_direct.
    session_open INTEGRATED_CONFIG_FILE σ Hus. unfold mbind, M_bind.
    by rewrite (genconfig_get_value_overflow σ1 ll _ tag x Hown Hcap).
  - intros Htag. unfold iconfig_set_value_direct.
    session_open INTEGRATED_CONFIG_FILE σ Hus.
    destruct (genconfig_set_value_ok σ1 ll _ tag x Hown Htag)
      as (σ2 & ll' & s' & Hset & Hown' & Henv' & Hleak).
    rewrite (bind_Ok _ _ _ _ _ Hset). rewrite Henv in Henv'.
    exists s'. split; [|done]. by eapply session_commit.
Qed.

#[export] Instance istatus_store :
  Store INTEGRATED_STATUS_FILE istatus_get_value_direct istatus_set_value_direct.
Proof.
  split; intros tag x σ Hus.
  - intros Hcap. unfold istatus_get_value_direct.
    session_open INTEGRATED_STATUS_FILE σ Hus.
    rewrite (bind_Ok _ _ _ _ _ (genconfig_get_value_ok σ1 ll _ tag x Hown Hcap)).
    fold (look tag (entries_of INTEGRATED_STATUS_FILE (env σ))).
    destruct (look _ _); simpl in *.
    + by eapply session_abort.
    + rewrite bind_assoc, (bind_Ok _ _ _ _ _ (strcpy_ok x [] σ1 Hcap)).
      by eapply session_abort.
  - intros Hcap. unfold istatus_get_value_direct.
    session_open INTEGRATED_STATUS_FILE σ Hus. unfold mbind, M_bind.
    by rewrite (genconfig_get_value_overflow σ1 ll _ tag x Hown Hcap).
  - apply (genconfig_set_value_direct_ok Hus).
Qed.

Lemma fmt_d_line z : line_of (fmt_d z) = fmt_d z.
Proof.
  unfold line_of. rewrite (cut_notin CR), (cut_notin LF); [done|..];
    by intros [|]%fmt_d_chars.
Qed.

Lemma clean_int_entry tag z :
  clean_tag tag → (length tag < GENCONFIG_MAX_ITEM_LEN)%nat → is_i32 z →
  clean_entry (tag, fmt_d z).
Proof.
  intros Htag Hlen Hz. pose proof (fmt_d_length z Hz). unfold GENCONFIG_MAX_ITEM_LEN in *.
  split_and!; simpl; [done|..|lia|done].
  split; by intros [|]%fmt_d_chars.
Qed.

(** ** Consequences for the clients, proved once *)
Section store.
Context {f : str} {get : str → nat → M sys (Z * str)} {set : str → option str → M sys Z}.
Context `{!Store f get set}.

(** The file can be written and holds clean entries: the state in which the
    operations keep it. *)
Record sound (e : osenv) : Prop := {
  so_lock : lock_name f ∉ locks e;
  so_other : lock_name f ≠ f;
  so_write : f ∉ unwritable e;
  so_clean : Forall clean_entry (entries_of f e)
}.

Lemma sound_usable e : sound e → usable f e.
Proof. intros [Hl Ho Hw Hc]. split; [done..|by apply clean_tags_fit]. Qed.

Lemma sound_write e kv :
  sound e → Forall clean_entry kv → sound (write_env f kv (touch_env f e)).
Proof.
  intros [Hl Ho Hw Hc] Hkv. destruct (lock_env_fields f e) as (_ & Hu & _ & _ & Hlk).
  split; [| done | |].
  - unfold write_env. case_bool_decide; simpl; by rewrite Hlk.
  - unfold write_env. case_bool_decide; simpl; by rewrite Hu.
  - by rewrite entries_of_write by by rewrite ?Hu.
Qed.

Lemma store_set_sound tag v σ :
  sound (env σ) → clean_entry (tag, line_of v) →
  ∃ σ', set tag (Some v) σ = Ok (0, σ') ∧ sound (env σ') ∧ items σ' = items σ ∧
    entries_of f (env σ') = sp_set tag (line_of v) (entries_of f (env σ)) ∧
    leak_of (look tag (entries_of f (env σ))) (line_of v) (strs σ) (strs σ').
Proof.
  intros Hs He. pose proof (so_clean _ Hs) as Hc.
  destruct (store_set tag v σ (sound_usable _ Hs)) as (s' & Hset & Hleak).
  { apply He. }
  pose proof (sp_set_clean _ _ _ He Hc) as Hc'.
  eexists. split; [exact Hset|]. simpl. split_and!; [by apply sound_write|done| |done].
  rewrite entries_of_write; [done| |done].
  destruct (lock_env_fields f (env σ)) as (_ & -> & _). apply Hs.
Qed.

Lemma store_get_sound tag cap σ :
  sound (env σ) → (length (default [] (look tag (entries_of f (env σ)))) < cap)%nat →
  ∃ σ', get tag cap σ =
      Ok (match look tag (entries_of f (env σ)) with Some w => (0, w) | None => (-1, []) end, σ')
    ∧ sound (env σ') ∧ items σ' = items σ ∧ strs σ' = strs σ ∧
    entries_of f (env σ') = entries_of f (env σ).
Proof.
  intros Hs Hcap. rewrite store_get by (done || by apply sound_usable).
  eexists. split; [done|]. simpl. destruct Hs as [Hl Ho Hw Hc].
  assert (entries_of f (touch_env f (env σ)) = entries_of f (env σ)) as He.
  { unfold entries_of. by rewrite touch_env_lookup. }
  destruct (lock_env_fields f (env σ)) as (_ & Hu & _ & _ & Hlk).
  split_and!; try done. split; rewrite ?Hlk, ?Hu, ?He; done.
Qed.

(** The locks are balanced. *)
Lemma store_set_locks tag v σ :
  sound (env σ) → clean_entry (tag, line_of v) →
  ∃ σ', set tag (Some v) σ = Ok (0, σ') ∧ sound (env σ') ∧ items σ' = items σ ∧
    entries_of f (env σ') = sp_set tag (line_of v) (entries_of f (env σ)) ∧
    locks (env σ') = locks (env σ).
Proof.
  intros Hs He. destruct (store_set_sound tag v σ Hs He) as (σ' & Hset & ? & ? & ? & _).
  exists σ'. split_and!; try done.
  destruct (store_set tag v σ (sound_usable _ Hs)) as (s' & Hset' & _); [apply He|].
  rewrite Hset' in Hset. simplify_eq/=.
  destruct (lock_env_fields f (env σ)) as (_ & _ & _ & _ & <-).
  unfold write_env. by case_bool_decide.
Qed.

Lemma store_get_locks tag cap σ :
  sound (env σ) → (length (default [] (look tag (entries_of f (env σ)))) < cap)%nat →
  ∃ σ', get tag cap σ =
      Ok (match look tag (entries_of f (env σ)) with Some w => (0, w) | None => (-1, []) end, σ')
    ∧ sound (env σ') ∧ items σ' = items σ ∧ locks (env σ') = locks (env σ).
Proof.
  intros Hs Hcap. destruct (store_get_sound tag cap σ Hs Hcap) as (σ' & Hget & ? & ? & _).
  exists σ'. split_and!; try done.
  rewrite store_get in Hget by (done || by apply sound_usable).
  simplify_eq/=. by destruct (lock_env_fields f (env σ)) as (_ & _ & _ & _ & ?).
Qed.
End store.
Arguments sound f e : clear implicits.

(** ** Removal by prefix *)
Lemma remove_prefix_loop_ok h0 s0 fuel pre σ ll a b ka kb :
  owns_cells h0 s0 σ ll (a ++ b) (ka ++ kb) →
  Forall2 (shows (strs σ)) a ka → Forall2 (shows (strs σ)) b kb → (length b < fuel)%nat →
  ∃ σ' ll', remove_prefix_loop fuel pre ll (first_loc b None) σ = Ok (ll', σ') ∧
    owns h0 s0 σ' ll' (ka ++ sp_remove_all (prefixb pre) kb) ∧ env σ' = env σ.
Proof.
  revert σ ll a b ka kb. induction fuel as [|fuel IH]; intros σ ll a b ka kb Hc Ha Hb Hf; [lia|].
  destruct Hb as [|[l i] [t w] b kb Hi Hb]; cbn [remove_prefix_loop first_loc length] in *.
  { exists σ, ll. split; [done|]. split; [by eexists|done]. }
  rewrite (bind_Ok _ _ _ _ _ (load_item_ok l _ _ (mid_lookup Hc))). cbn [nval nnext].
  assert (it_tag i = t) as -> by apply Hi. unfold sp_remove_all.
  destruct (prefixb pre t) eqn:Et.
  - rewrite (bind_Ok _ _ _ _ _ (unlink_item_run Hc Ha Hi Hb)).
    rewrite filter_cons_False by (simpl; by rewrite Et).
    pose proof (unlink_item_owns Hc Ha Hi Hb) as Hc'.
    pose proof (ow_shows _ _ _ _ _ _ Hc') as Hsh.
    apply Forall2_app_inv in Hsh as [Ha' Hb']; [|by eapply Forall2_length].
    destruct (IH _ _ _ _ _ _ Hc' Ha' Hb' ltac:(lia)) as (σ' & ll' & Hrun & Hown' & He').
    by exists σ', ll'.
  - rewrite filter_cons_True by done.
    replace (a ++ (l, i) :: b) with ((a ++ [(l, i)]) ++ b) in Hc by by rewrite <- (assoc_L (++)).
    replace (ka ++ (t, w) :: kb) with ((ka ++ [(t, w)]) ++ kb) in Hc
      by by rewrite <- (assoc_L (++)).
    destruct (IH _ _ _ _ _ _ Hc) as (σ' & ll' & Hrun & Hown' & He'); [|done|lia|].
    { apply Forall2_app; [done|]. constructor; [done|constructor]. }
    exists σ', ll'. rewrite <- (assoc_L (++)) in Hown'. done.
Qed.

Lemma remove_prefix_list_ok h0 s0 pre σ ll kv :
  owns h0 s0 σ ll kv →
  ∃ σ' ll', remove_prefix_loop (S (size (items σ))) pre ll (gl_head ll) σ = Ok (ll', σ') ∧
    owns h0 s0 σ' ll' (sp_remove_all (prefixb pre) kv) ∧ env σ' = env σ.
Proof.
  intros [cs Hc]. rewrite (dll_head _ _ _ _ (ow_dll _ _ _ _ _ _ Hc)).
  eapply (remove_prefix_loop_ok h0 s0 _ pre σ ll [] cs [] kv); [done|constructor|apply Hc|].
  by eapply owns_fuel.
Qed.

Lemma remove_tag_prefix_run f pre σ :
  usable f (env σ) →
  (fd ← lock_file f;
   '(_, gen_ll) ← genconfig_read_file f ll_empty;
   fuel ← list_fuel;
   gen_ll ← remove_prefix_loop fuel pre gen_ll (gl_head gen_ll);
   genconfig_write_file f gen_ll;;
   unlock_file fd;;
   genconfig_free_ll gen_ll;;
   mret 0) σ =
  Ok (0, Sys (items σ) (strs σ)
           (write_env f (sp_remove_all (prefixb pre) (entries_of f (env σ)))
              (touch_env f (env σ)))).
Proof.
  intros Hus. session_open f σ Hus. rewrite bind_list_fuel.
  destruct (remove_prefix_list_ok _ _ pre _ _ _ Hown) as (σ2 & ll' & Hrun & Hown' & He').
  rewrite (bind_Ok _ _ _ _ _ Hrun). rewrite Henv in He'. by eapply session_commit.
Qed.

Lemma sp_remove_all_clean test kv :
  Forall clean_entry kv → Forall clean_entry (sp_remove_all test kv).
Proof.
  rewrite !Forall_forall. intros H e He. apply H. by apply list_elem_of_filter in He as [_ ?].
Qed.

(** ** The process table *)
Lemma pid_db_set_value_ok tag z σ :
  usable INTEGRATED_PID_FILE (env σ) → (length tag < GENCONFIG_MAX_ITEM_LEN)%nat → is_i32 z →
  ∃ s', pid_db_set_value tag z σ =
      Ok (0, Sys (items σ) s' (write_env INTEGRATED_PID_FILE
            (sp_set tag (fmt_d z) (entries_of INTEGRATED_PID_FILE (env σ)))
            (touch_env INTEGRATED_PID_FILE (env σ)))) ∧
    leak_of (look tag (entries_of INTEGRATED_PID_FILE (env σ))) (fmt_d z) (strs σ) s'.
Proof.
  intros Hus Htag Hz. unfold pid_db_set_value. session_open INTEGRATED_PID_FILE σ Hus.
  assert (length (fmt_d z) < 64)%nat as H64 by (pose proof (fmt_d_length z Hz); lia).
  rewrite (bind_Ok _ _ _ _ _ (strcpy_ok _ _ σ1 H64)).
  destruct (genconfig_set_value_ok σ1 ll _ tag (fmt_d z) Hown Htag)
    as (σ2 & ll' & s' & Hset & Hown' & Henv' & Hleak).
  rewrite (bind_Ok _ _ _ _ _ Hset). rewrite Henv in Henv'. rewrite fmt_d_line in *.
  exists s'. split; [|done]. by eapply session_commit.
Qed.

Lemma pid_db_get_value_ok tag σ :
  usable INTEGRATED_PID_FILE (env σ) →
  (length (default [] (look tag (entries_of INTEGRATED_PID_FILE (env σ)))) < 64)%nat →
  pid_db_get_value tag σ =
    Ok (match look tag (entries_of INTEGRATED_PID_FILE (env σ)) with
        | Some w => atoi w | None => -1 end,
        Sys (items σ) (strs σ) (touch_env INTEGRATED_PID_FILE (env σ))).
Proof.
  intros Hus Hcap. unfold pid_db_get_value. session_open INTEGRATED_PID_FILE σ Hus.
  rewrite (bind_Ok _ _ _ _ _ (genconfig_get_value_ok σ1 ll _ tag 64 Hown Hcap)).
  fold (look tag (entries_of INTEGRATED_PID_FILE (env σ))).
  destruct (look _ _); by eapply session_abort.
Qed.

(** ** The hardware description *)
Lemma hwinfo_get_value_direct_ok tag cap σ :
  tags_fit (entries_of HARDWAREINFO_FILENAME (env σ)) →
  (length (default [] (look tag (entries_of HARDWAREINFO_FILENAME (env σ)))) < cap)%nat →
  hwinfo_get_value_direct tag cap σ =
    Ok (match look tag (entries_of HARDWAREINFO_FILENAME (env σ)) with
        | Some w => (0, w) | None => (-1, []) end, σ).
Proof.
  intros Hfit Hcap. unfold hwinfo_get_value_direct.
  destruct (genconfig_read_file_any _ σ Hfit) as (r & ll & σ1 & Hread & Hown & Henv).
  rewrite (bind_Ok _ _ _ _ _ Hread).
  rewrite (bind_Ok _ _ _ _ _ (genconfig_get_value_ok σ1 ll _ tag cap Hown Hcap)).
  fold (look tag (entries_of HARDWAREINFO_FILENAME (env σ))).
  pose proof (genconfig_free_ll_ok _ _ _ _ _ Hown) as Hfree. rewrite Henv in Hfree.
  destruct σ as [h ss e]. destruct (look _ _); simpl in *.
  - by rewrite bind_ret, (bind_Ok _ _ _ _ _ Hfree).
  - rewrite bind_assoc, (bind_Ok _ _ _ _ _ (strcpy_ok cap [] σ1 Hcap)), bind_ret.
    by rewrite (bind_Ok _ _ _ _ _ Hfree).
Qed.

(** ** Indexed items *)

(** genconfig_get_index_info copies the item, with the address of its long
    value. *)
Lemma genconfig_get_index_info_ok h0 s0 σ ll kv itag n :
  owns h0 s0 σ ll kv → (length itag < GENCONFIG_MAX_ITEM_LEN)%nat →
  match sp_nth (base_tag itag) n kv with
  | Some w => ∃ i, genconfig_get_index_info ll itag (Z.of_nat n) σ = Ok ((1, Some i), σ) ∧
      text_of (strs σ) i = Some w ∧ (is_Some (it_long i) ↔ is_long w = true) ∧
      (∀ p, it_long i = Some p → s0 !! p = None)
  | None => genconfig_get_index_info ll itag (Z.of_nat n) σ =
      Ok ((0, Some (Item [] [] None)), σ)
  end.
Proof.
  intros Hown Htag. unfold genconfig_get_index_info.
  rewrite (proj2 (Z.ltb_ge _ _)) by lia.
  rewrite (bind_Ok _ _ _ _ _ (strcpy_ok _ _ σ Htag)), bind_list_fuel.
  destruct (find_index_cases σ ll kv (base_tag itag) n Hown) as (p & Hp & Hcases).
  rewrite (bind_Ok _ _ _ _ _ (proj2 (proj2 (Hp _ eq_refl)))).
  destruct Hcases as [(-> & Hn & _)
    |(a & l & i & b & ka & t & w & kb & -> & Hc & -> & Ha & Hi & Hb & Hn & _)];
    rewrite Hn; [done|].
  exists i. rewrite (bind_Ok _ _ _ _ _ (load_item_ok l _ _ (mid_lookup Hc))).
  split_and!; [done|apply Hi..|]. intros p E. apply (mid_fresh Hc). by right.
Qed.
