(* ===== verification/ConfigProps.v ===== *)
(** * The configuration store: properties

    The theorems a caller of the store relies on, for genconfig_api.c and the
    files of cconfig_api.c. *)
From S2P Require Import Prelude CLib Heap System Genconfig GenconfigSpec GenconfigOps.
From S2P Require Import GenconfigFile Cconfig.

#[export] Instance clean_entry_dec e : Decision (clean_entry e).
Proof. unfold clean_entry, clean_tag, clean_value. apply _. Defined.
#[export] Instance tags_fit_dec kv : Decision (tags_fit kv).
Proof. unfold tags_fit. apply _. Defined.

(** A system with a configuration of three entries. *)
Definition demo : sys :=
  sys0 {[ INTEGRATED_CONFIG_FILE := lit "login=admin" ++ [LF] ++ lit "wan+1=a" ++ [LF]
            ++ lit "wan+2=b" ++ [LF] ]}.

Lemma demo_sound : sound INTEGRATED_CONFIG_FILE (env demo).
Proof. split; decided. Qed.

(** ** Round trips *)

(** C19: on the configuration file, a write is seen by the next read of the same
    tag, cut at its first CR or LF; a read of another tag gives what it gave
    before; the two operations return the heap of the items and the set of
    held locks as they found them. *)
Theorem iconfig_set_get (σ : sys) (tag v tag' : str) (cap : nat) :
  sound INTEGRATED_CONFIG_FILE (env σ) → clean_entry (tag, line_of v) →
  let old := look tag' (entries_of INTEGRATED_CONFIG_FILE (env σ)) in
  let new := if streq tag' tag then Some (line_of v) else old in
  (length (default [] new) < cap)%nat →
  ∃ σ1 σ2, iconfig_set_value_direct tag (Some v) σ = Ok (0, σ1) ∧
    iconfig_get_value_direct tag' cap σ1 =
      Ok (match new with Some w => (0, w) | None => (-1, []) end, σ2) ∧
    items σ2 = items σ ∧ locks (env σ2) = locks (env σ) ∧
    sound INTEGRATED_CONFIG_FILE (env σ2).
Proof.
  intros Hs He old new Hcap.
  destruct (store_set_locks tag v σ Hs He) as (σ1 & Hset & Hs1 & Hi1 & He1 & Hl1).
  assert (look tag' (entries_of INTEGRATED_CONFIG_FILE (env σ1)) = new) as Hnew.
  { rewrite He1. apply look_set. }
  rewrite <- Hnew in *.
  destruct (store_get_locks tag' cap σ1 Hs1 Hcap) as (σ2 & Hget & Hs2 & Hi2 & Hl2).
  exists σ1, σ2. split_and!; try done; congruence.
Qed.

Lemma iconfig_set_get_witness :
  ∃ σ1 σ2, iconfig_set_value_direct (lit "login") (Some (lit "root")) demo = Ok (0, σ1) ∧
    iconfig_get_value_direct (lit "login") 32 σ1 = Ok ((0, lit "root"), σ2) ∧
    items σ2 = items demo ∧ locks (env σ2) = locks (env demo) ∧
    sound INTEGRATED_CONFIG_FILE (env σ2).
Proof.
  apply (iconfig_set_get demo (lit "login") (lit "root") (lit "login") 32);
    [exact demo_sound|decided|decided].
Defined.

(** an int written to the status file is read back: the decimal printed by
    sprintf parses to the same number under atoi, for every 32-bit value. *)
Theorem istatus_int_roundtrip (σ : sys) (tag : str) (z : Z) :
  sound INTEGRATED_STATUS_FILE (env σ) → clean_tag tag →
  (length tag < GENCONFIG_MAX_ITEM_LEN)%nat → is_i32 z →
  ∃ σ1 σ2, istatus_set_intvalue_direct tag z σ = Ok (0, σ1) ∧
    istatus_get_intvalue_direct tag σ1 = Ok (z, σ2) ∧
    sound INTEGRATED_STATUS_FILE (env σ2).
Proof.
  intros Hs Htag Hlen Hz. pose proof (fmt_d_length z Hz) as Hzl.
  unfold istatus_set_intvalue_direct, istatus_get_intvalue_direct.
  rewrite (bind_Ok _ _ _ _ _ (strcpy_ok 32 (fmt_d z) σ ltac:(lia))).
  destruct (store_set_locks tag (fmt_d z) σ Hs) as (σ1 & Hset & Hs1 & _ & He1 & _).
  { rewrite fmt_d_line. by apply clean_int_entry. }
  rewrite (bind_Ok _ _ _ _ _ Hset). exists σ1. rewrite fmt_d_line in He1.
  assert (look tag (entries_of INTEGRATED_STATUS_FILE (env σ1)) = Some (fmt_d z)) as Hl.
  { rewrite He1, look_set. by rewrite (proj2 (streq_spec tag tag)). }
  destruct (store_get_locks tag 32 σ1 Hs1) as (σ2 & Hget & Hs2 & _).
  { rewrite Hl. simpl. lia. }
  rewrite Hl in Hget. exists σ2. rewrite (bind_Ok _ _ _ _ _ Hget). simpl.
  by rewrite atoi_fmt_d.
Qed.

Lemma istatus_int_roundtrip_witness :
  ∃ σ1 σ2, istatus_set_intvalue_direct (lit "time_response") (-7) demo = Ok (0, σ1) ∧
    istatus_get_intvalue_direct (lit "time_response") σ1 = Ok (-7, σ2) ∧
    sound INTEGRATED_STATUS_FILE (env σ2).
Proof.
  apply (istatus_int_roundtrip demo (lit "time_response") (-7)); [|decided..|split; lia].
  split; decided.
Defined.

(** C22: entries whose tags and values have no separators survive a write and a
    read of the file: the list that genconfig_read_file builds from what
    genconfig_write_file printed holds the same entries, in the same order. *)
Theorem genconfig_write_read (h0 : gmap loc (node item)) (s0 : gmap loc str)
    (σ : sys) (ll : genconfig_ll) (kv : entries) (f : str) :
  owns h0 s0 σ ll kv → f ∉ unwritable (env σ) → Forall clean_entry kv →
  ∃ σ1 σ2 ll2, genconfig_write_file f ll σ = Ok (0, σ1) ∧
    genconfig_read_file f ll_empty σ1 = Ok ((Z.of_nat (length kv), ll2), σ2) ∧
    owns (items σ) (strs σ) σ2 ll2 kv.
Proof.
  intros Hown Hw Hkv. rewrite (genconfig_write_file_ok σ ll kv f Hown Hw).
  set (σ1 := Sys _ _ _). exists σ1.
  destruct (genconfig_read_file_ok σ1 f (print_config kv)) as (σ2 & ll2 & Hread & Hown2 & _).
  - apply lookup_insert_eq.
  - rewrite parse_print_config by done. by apply clean_tags_fit.
  - rewrite parse_print_config in Hread, Hown2 by done. by exists σ2, ll2.
Qed.

Lemma genconfig_write_read_witness :
  ∃ σ ll, genconfig_read_file INTEGRATED_CONFIG_FILE ll_empty demo = Ok ((3, ll), σ) ∧
  ∃ σ1 σ2 ll2, genconfig_write_file (lit "/tmp/x") ll σ = Ok (0, σ1) ∧
    genconfig_read_file (lit "/tmp/x") ll_empty σ1 = Ok ((3, ll2), σ2) ∧
    owns (items σ) (strs σ) σ2 ll2 (entries_of INTEGRATED_CONFIG_FILE (env demo)).
Proof.
  destruct (genconfig_read_file_ok demo INTEGRATED_CONFIG_FILE _ eq_refl)
    as (σ & ll & Hread & Hown & Henv); [decided|].
  exists σ, ll. split; [exact Hread|].
  apply (genconfig_write_read (items demo) (strs demo) σ ll _ (lit "/tmp/x") Hown);
    [rewrite Henv; decided|decided].
Defined.

(** ** The operations on a file as updates of its entries *)

(** C23: genconfig_set_value_direct is one locked update of the file: the entries
    become [sp_set] of the old ones, every item block is given back, and the
    heap of strings grows by exactly the old value when a value of 180 bytes or
    more replaces another one, which the code forgets to free. *)
Theorem genconfig_set_value_direct_refines (f : str) (σ : sys) (tag v : str) :
  usable f (env σ) → (length tag < GENCONFIG_MAX_ITEM_LEN)%nat →
  let kv := entries_of f (env σ) in
  ∃ s', genconfig_set_value_direct f tag (Some v) σ =
      Ok (0, Sys (items σ) s'
               (write_env f (sp_set tag (line_of v) kv) (touch_env f (env σ)))) ∧
    leak_of (look tag kv) (line_of v) (strs σ) s'.
Proof. intros Hus Htag kv. by apply genconfig_set_value_direct_ok. Qed.

(** A configuration with a long value. *)
Definition demo_long : sys :=
  sys0 {[ lit "/etc/f" := lit "k=" ++ repeat "x"%char 200 ++ [LF] ]}.

Lemma genconfig_set_value_direct_refines_witness :
  ∃ s', genconfig_set_value_direct (lit "/etc/f") (lit "k") (Some (repeat "y"%char 200))
      demo_long = Ok (0, Sys ∅ s' (write_env (lit "/etc/f")
          (sp_set (lit "k") (line_of (repeat "y"%char 200)) (entries_of (lit "/etc/f") (env demo_long)))
          (touch_env (lit "/etc/f") (env demo_long)))) ∧
    leak_of (look (lit "k") (entries_of (lit "/etc/f") (env demo_long)))
      (line_of (repeat "y"%char 200)) ∅ s'.
Proof.
  apply (genconfig_set_value_direct_refines (lit "/etc/f") demo_long (lit "k")
           (repeat "y"%char 200)); [split; decided|decided].
Defined.

(** genconfig_remove_index_allitem terminates and removes exactly the
    entries of the group, whose number it returns; heap and locks are restored. *)
Theorem genconfig_remove_index_allitem_refines (f : str) (σ : sys) (tag : str) :
  usable f (env σ) →
  let kv := entries_of f (env σ) in
  ∃ e', genconfig_remove_index_allitem f tag σ =
      Ok (group_size tag kv, Sys (items σ) (strs σ) e') ∧
    locks e' = locks (env σ) ∧
    (f ∉ unwritable (env σ) → Forall clean_entry kv →
     entries_of f e' = filter (λ e, streq (base_tag e.1) tag = false) kv).
Proof.
  intros Hus kv. eexists. split; [by apply genconfig_remove_index_allitem_ok|].
  destruct (lock_env_fields f (env σ)) as (_ & Hu & _ & _ & Hlk). split.
  - unfold write_env. case_bool_decide; simpl; by rewrite Hlk.
  - intros Hw Hkv. rewrite entries_of_write; [done|by rewrite Hu|].
    by apply sp_remove_all_clean.
Qed.

Lemma genconfig_remove_index_allitem_refines_witness :
  ∃ e', genconfig_remove_index_allitem INTEGRATED_CONFIG_FILE (lit "wan") demo =
      Ok (2, Sys ∅ ∅ e') ∧ locks e' = ∅ ∧
    (INTEGRATED_CONFIG_FILE ∉ unwritable (env demo) →
     Forall clean_entry (entries_of INTEGRATED_CONFIG_FILE (env demo)) →
     entries_of INTEGRATED_CONFIG_FILE e' =
       filter (λ e, streq (base_tag e.1) (lit "wan") = false)
         (entries_of INTEGRATED_CONFIG_FILE (env demo))).
Proof.
  apply (genconfig_remove_index_allitem_refines INTEGRATED_CONFIG_FILE demo (lit "wan")).
  apply sound_usable, demo_sound.
Defined.

(** iconfig_remove_tag_prefix removes exactly the entries whose tags begin
    with the prefix, in one pass that frees every block it unlinks. *)
Theorem iconfig_remove_tag_prefix_refines (σ : sys) (pre : str) :
  sound INTEGRATED_CONFIG_FILE (env σ) →
  ∃ e', iconfig_remove_tag_prefix pre σ = Ok (0, Sys (items σ) (strs σ) e') ∧
    locks e' = locks (env σ) ∧ sound INTEGRATED_CONFIG_FILE e' ∧
    entries_of INTEGRATED_CONFIG_FILE e' =
      filter (λ e, prefixb pre e.1 = false) (entries_of INTEGRATED_CONFIG_FILE (env σ)).
Proof.
  intros Hs. pose proof (sp_remove_all_clean (prefixb pre) _ (so_clean _ Hs)) as Hc.
  eexists. split; [by apply remove_tag_prefix_run, sound_usable|].
  destruct (lock_env_fields INTEGRATED_CONFIG_FILE (env σ)) as (_ & Hu & _ & _ & Hlk).
  split_and!.
  - unfold write_env. case_bool_decide; simpl; by rewrite Hlk.
  - by apply sound_write.
  - rewrite entries_of_write; [done|rewrite Hu; apply Hs|done].
Qed.

Lemma iconfig_remove_tag_prefix_refines_witness :
  ∃ e', iconfig_remove_tag_prefix (lit "wan") demo = Ok (0, Sys ∅ ∅ e') ∧
    locks e' = ∅ ∧ sound INTEGRATED_CONFIG_FILE e' ∧
    entries_of INTEGRATED_CONFIG_FILE e' =
      filter (λ e, prefixb (lit "wan") e.1 = false)
        (entries_of INTEGRATED_CONFIG_FILE (env demo)).
Proof. apply (iconfig_remove_tag_prefix_refines demo (lit "wan") demo_sound). Defined.

(** a write faults exactly for a tag that does not fit the array of an item:
    64 bytes or more overflow it, shorter tags are stored. *)
Theorem genconfig_set_value_direct_faults (f : str) (σ : sys) (tag v : str) :
  usable f (env σ) →
  (genconfig_set_value_direct f tag (Some v) σ = Fault Overflow ↔
   (GENCONFIG_MAX_ITEM_LEN ≤ length tag)%nat).
Proof.
  intros Hus. split; [|by apply genconfig_set_value_direct_overflow].
  intros Hf. destruct (decide (GENCONFIG_MAX_ITEM_LEN ≤ length tag)%nat) as [|Hlt]; [done|].
  destruct (genconfig_set_value_direct_ok Hus tag v ltac:(lia)) as (s' & Hok & _). congruence.
Qed.

Lemma genconfig_set_value_direct_faults_witness :
  genconfig_set_value_direct INTEGRATED_CONFIG_FILE (repeat "t"%char 64) (Some (lit "v")) demo
    = Fault Overflow ↔ (GENCONFIG_MAX_ITEM_LEN ≤ length (repeat "t"%char 64))%nat.
Proof.
  apply (genconfig_set_value_direct_faults INTEGRATED_CONFIG_FILE demo).
  apply sound_usable, demo_sound.
Defined.

(** iconfig_get_intvalue_direct reads into an array of 32 bytes: it returns
    the number that the entry denotes (or -1) when the text has fewer than 32
    bytes and overflows the array otherwise. *)
Theorem iconfig_get_intvalue_direct_total (σ : sys) (tag : str) :
  sound INTEGRATED_CONFIG_FILE (env σ) →
  let old := look tag (entries_of INTEGRATED_CONFIG_FILE (env σ)) in
  if (length (default [] old) <? 32)%nat
  then ∃ σ', iconfig_get_intvalue_direct tag σ =
         Ok (match old with Some w => atoi w | None => -1 end, σ') ∧
         sound INTEGRATED_CONFIG_FILE (env σ')
  else iconfig_get_intvalue_direct tag σ = Fault Overflow.
Proof.
  intros Hs old. unfold iconfig_get_intvalue_direct. destruct (Nat.ltb_spec (length (default [] old)) 32).
  - destruct (store_get_locks tag 32 σ Hs) as (σ' & Hget & Hs' & _); [done|].
    exists σ'. rewrite (bind_Ok _ _ _ _ _ Hget). fold old. by destruct old.
  - unfold mbind, M_bind. by rewrite store_get_overflow by (done || by apply sound_usable).
Qed.

Lemma iconfig_get_intvalue_direct_total_witness :
  ∃ σ', iconfig_get_intvalue_direct (lit "login") demo = Ok (0, σ') ∧
    sound INTEGRATED_CONFIG_FILE (env σ').
Proof. exact (iconfig_get_intvalue_direct_total demo (lit "login") demo_sound). Defined.

(** the indexed accessors address the n-th entry of a group: what
    genconfig_set_index_value stores at an index is what
    genconfig_get_index_pvalue finds there, when the group has such an entry. *)
Theorem genconfig_index_set_get (h0 : gmap loc (node item)) (s0 : gmap loc str)
    (σ : sys) (ll : genconfig_ll) (kv : entries) (itag v : str) (n : nat) :
  owns h0 s0 σ ll kv → (length itag < GENCONFIG_MAX_ITEM_LEN)%nat →
  is_Some (sp_nth (base_tag itag) n kv) →
  ∃ σ1 ll1, genconfig_set_index_value ll itag (Z.of_nat n) (Some v) σ = Ok ((1, ll1), σ1) ∧
    genconfig_get_index_pvalue ll1 itag (Z.of_nat n) σ1 = Ok (Some v, σ1) ∧
    (∀ m, m ≠ n → genconfig_get_index_pvalue ll1 itag (Z.of_nat m) σ1 =
      Ok (sp_nth (base_tag itag) m kv, σ1)).
Proof.
  intros Hown Htag [w Hw].
  destruct (genconfig_set_index_value_ok σ ll kv itag n v Hown Htag)
    as (σ1 & ll1 & s' & Hset & Hown1 & _). rewrite Hw in Hset.
  exists σ1, ll1. split; [done|]. split; [|intros m Hm];
    rewrite (genconfig_get_index_pvalue_ok σ1 ll1 _ itag _ Hown1 Htag), (sp_nth_set _ _ _ _ _ w Hw);
    by case_decide.
Qed.

Lemma genconfig_index_set_get_witness :
  ∃ σ ll, genconfig_read_file INTEGRATED_CONFIG_FILE ll_empty demo = Ok ((3, ll), σ) ∧
  ∃ σ1 ll1, genconfig_set_index_value ll (lit "wan+9") 1 (Some (lit "c")) σ = Ok ((1, ll1), σ1) ∧
    genconfig_get_index_pvalue ll1 (lit "wan+9") 1 σ1 = Ok (Some (lit "c"), σ1) ∧
    (∀ m, m ≠ 1%nat → genconfig_get_index_pvalue ll1 (lit "wan+9") (Z.of_nat m) σ1 =
      Ok (sp_nth (lit "wan") m (entries_of INTEGRATED_CONFIG_FILE (env demo)), σ1)).
Proof.
  destruct (genconfig_read_file_ok demo INTEGRATED_CONFIG_FILE _ eq_refl)
    as (σ & ll & Hread & Hown & Henv); [decided|].
  exists σ, ll. split; [exact Hread|].
  apply (genconfig_index_set_get _ _ σ ll _ (lit "wan+9") (lit "c") 1 Hown); [decided|decided].
Defined.

(** ** Defects of the store *)

(** iconfig_get_index_info_direct copies the item of the list and then
    frees the list: for a long value the caller gets the address of a freed
    block, and reading through it is a use after free. *)
Theorem iconfig_get_index_info_dangling (σ : sys) (itag w : str) (n : nat) :
  usable INTEGRATED_CONFIG_FILE (env σ) → (length itag < GENCONFIG_MAX_ITEM_LEN)%nat →
  sp_nth (base_tag itag) n (entries_of INTEGRATED_CONFIG_FILE (env σ)) = Some w →
  is_long w = true →
  ∃ σ' i, iconfig_get_index_info_direct itag (Z.of_nat n) σ = Ok ((0, Some i), σ') ∧
    is_Some (it_long i) ∧ load_str (it_long i) σ' = Fault Dangling.
Proof.
  intros Hus Htag Hn Hlong. unfold iconfig_get_index_info_direct.
  session_open INTEGRATED_CONFIG_FILE σ Hus.
  pose proof (genconfig_get_index_info_ok _ _ _ _ _ itag n Hown Htag) as Hinfo.
  rewrite Hn in Hinfo. destruct Hinfo as (i & Hinfo & Hw & Hlg & Hfresh).
  rewrite (bind_Ok _ _ _ _ _ Hinfo). eexists _, i. split; [by eapply session_abort|].
  apply Hlg in Hlong as [p Hp]. rewrite Hp. split; [done|].
  unfold load_str, load. simpl. by rewrite (Hfresh p Hp).
Qed.

Definition demo_long_config : sys :=
  sys0 {[ INTEGRATED_CONFIG_FILE := lit "k+1=" ++ repeat "x"%char 200 ++ [LF] ]}.

Lemma iconfig_get_index_info_dangling_witness :
  ∃ σ' i, iconfig_get_index_info_direct (lit "k") 0 demo_long_config = Ok ((0, Some i), σ') ∧
    is_Some (it_long i) ∧ load_str (it_long i) σ' = Fault Dangling.
Proof.
  apply (iconfig_get_index_info_dangling demo_long_config (lit "k") (repeat "x"%char 200) 0);
    [split; decided|decided|decided|decided].
Defined.

(** genconfig_set_intvalue over a value of 180 bytes or more returns 1 but
    has no effect on the value that the store holds: the long value is neither
    freed nor cleared, and stays the one that is read. *)
Theorem genconfig_set_intvalue_stale (h0 : gmap loc (node item)) (s0 : gmap loc str)
    (σ : sys) (ll : genconfig_ll) (kv : entries) (tag w : str) (z : Z) :
  owns h0 s0 σ ll kv → (length tag < GENCONFIG_MAX_ITEM_LEN)%nat → is_i32 z →
  look tag kv = Some w → is_long w = true →
  ∃ σ1 ll1, genconfig_set_intvalue ll tag z σ = Ok ((1, ll1), σ1) ∧
    genconfig_get_pvalue ll1 tag σ1 = Ok (Some w, σ1).
Proof.
  intros Hown Htag Hz Hw Hlong.
  destruct (genconfig_set_intvalue_ok σ ll kv tag z Hown Htag Hz) as (σ1 & ll1 & Hset & Hown1 & _).
  unfold look in Hw. rewrite Hw in Hset. unfold sp_set_int in Hown1.
  rewrite Hw, Hlong in Hown1. exists σ1, ll1. split; [done|].
  by rewrite (genconfig_get_pvalue_ok σ1 ll1 kv tag Hown1), Hw.
Qed.

Lemma genconfig_set_intvalue_stale_witness :
  ∃ σ ll, genconfig_read_file INTEGRATED_CONFIG_FILE ll_empty demo_long_config
            = Ok ((1, ll), σ) ∧
  ∃ σ1 ll1, genconfig_set_intvalue ll (lit "k+1") 5 σ = Ok ((1, ll1), σ1) ∧
    genconfig_get_pvalue ll1 (lit "k+1") σ1 = Ok (Some (repeat "x"%char 200), σ1).
Proof.
  destruct (genconfig_read_file_ok demo_long_config INTEGRATED_CONFIG_FILE _ eq_refl)
    as (σ & ll & Hread & Hown & Henv); [decided|].
  exists σ, ll. split; [exact Hread|].
  apply (genconfig_set_intvalue_stale _ _ σ ll _ (lit "k+1") (repeat "x"%char 200) 5 Hown);
    [decided|split; lia|decided|decided].
Defined.

(** genconfig_set_index_value does not cut its value at a line end, as
    genconfig_set_value does: one call with a newline in the value adds an
    entry with a tag of the caller's choice to the file. *)
Theorem iconfig_set_index_value_injects :
  match iconfig_set_index_value_direct (lit "wan") 0
          (Some (lit "a" ++ [LF] ++ lit "password=x")) demo with
  | Ok (_, σ') =>
      look (lit "password") (entries_of INTEGRATED_CONFIG_FILE (env demo)) = None ∧
      look (lit "password") (entries_of INTEGRATED_CONFIG_FILE (env σ')) = Some (lit "x")
  | _ => False
  end.
Proof. vm_compute. done. Qed.
