(* ===== verification/SystemApi.v ===== *)
(** * lib/ul_lib: accounts, processes, twin IP, dynamic DNS, routes

    passwd.c, system_api.c, ipclone.c, ezupdate_api.c and the parts of network.c
    that work on the configuration store.  What the code asks of the kernel
    (interface addresses, processes, the clock) is an argument. *)
From S2P Require Import Prelude CLib Heap System Bytes Genconfig GenconfigSpec GenconfigOps.
From S2P Require Import GenconfigFile Cconfig.

Definition WAN1_NAME : str := lit "wan1".
Definition WAN2_NAME : str := lit "wan2".
Definition IF_LOCAL : str := lit "br0".
Definition IF_WAN : str := lit "eth1".
Definition IF_WAN2 : str := lit "eth3".
Definition TAGLEN : nat := GENCONFIG_MAX_ITEM_LEN.

(** ** passwd.c *)

(** [cap] is the size of the two buffers of the caller. *)
Definition get_id_password (cap : nat) : M sys (Z * str * str) :=
  '(_, id) ← iconfig_get_value_direct (lit "login") cap;
  '(_, passwd) ← iconfig_get_value_direct (lit "password") cap;
  if streq id [] && streq passwd [] then mret (0, id, passwd) else mret (1, id, passwd).

Definition get_default_id_password (cap : nat) : M sys (Z * str * str) :=
  '(_, id) ← iconfig_get_default_value_direct (lit "login") cap;
  '(_, passwd) ← iconfig_get_default_value_direct (lit "password") cap;
  if streq id [] && streq passwd [] then mret (0, id, passwd) else mret (1, id, passwd).

(** 0: accepted, 1: refused *)
Definition check_password (id passwd : str) : M sys Z :=
  '(r, s_id, s_passwd) ← get_id_password 64;
  if r =? 0 then mret 0
  else if negb (streq id s_id) then mret 1
  else if streq s_passwd [] && streq passwd [] then mret 0
  else if streq passwd s_passwd then mret 0
  else mret 1.

Definition check_default_pass : M sys Z :=
  '(r, id, passwd) ← get_id_password 64;
  if r =? 0 then mret 0
  else
    '(_, default_id, default_passwd) ← get_default_id_password 64;
    if streq id default_id && streq passwd default_passwd then mret 1 else mret 0.

Definition check_valid_account : M sys Z :=
  '(r, id, passwd) ← get_id_password 64;
  if r =? 0 then mret 0
  else
    '(_, default_id, default_passwd) ← get_default_id_password 64;
    if streq id default_id && streq passwd default_passwd then mret 0 else mret 1.

Definition exist_passwd : M sys Z :=
  '(r, _, _) ← get_id_password 128;
  mret r.

(** ** system_api.c: processes *)
Definition SIGKILL : Z := 9.
Definition SIGTERM : Z := 15.
Definition KILL_PROCESS_REMOVE_PID_FLAG : Z := 1.
Definition KILL_PROCESS_SIGTERM_FLAG : Z := 2.

Definition create_pid (process_name : str) (getpid : Z) : M sys Z :=
  if streq process_name [] then mret (-1) else pid_db_set_value process_name getpid.

Definition delete_pid (process_name : str) : M sys Z :=
  if streq process_name [] then mret (-1) else pid_db_remove_value process_name.

(** [alive pid] is the answer of kill(pid, 0) == 0 after the SIGTERM; the second
    result are the signals that were sent, in order. *)
Definition kill_process (alive : Z → bool) (process_name : str) (flag : Z)
    : M sys (Z * list (Z * Z)) :=
  pid ← pid_db_get_value process_name;
  let sent :=
    if negb (pid =? -1) then
      if negb (Z.land flag KILL_PROCESS_SIGTERM_FLAG =? 0)
      then (pid, SIGTERM) :: if alive pid then [(pid, SIGKILL)] else []
      else [(pid, SIGKILL)]
    else [] in
  when (negb (Z.land flag KILL_PROCESS_REMOVE_PID_FLAG =? 0))
    (pid_db_remove_value process_name;; mret tt);;
  mret (0, sent).

Definition check_process (alive : Z → bool) (process_name : str) : M sys Z :=
  pid ← pid_db_get_value process_name;
  mret (if pid =? -1 then 0 else if alive pid then 1 else 0).

(** system2: the formatted command, cut to leave room for the redirection. *)
Definition system2 (text : str) : M sys unit :=
  cmd ← strcpy 1024 (snprintf (1024 - 17) text ++ lit " >/dev/null 2>&1");
  system cmd.

Definition get_hwaddr_org (ifname : option str) (cap : nat) : M sys (Z * str) :=
  let tag := match ifname with
             | Some ifname => snprintf 64 (lit "org_hwaddr." ++ ifname)
             | None => lit "org_hwaddr"
             end in
  '(r, value) ← iconfig_get_value_direct tag 512;
  if r =? -1 then v ← strcpy cap []; mret (0, v) else v ← strcpy cap value; mret (1, v).

Definition get_timed_status : M sys Z :=
  status ← istatus_get_intvalue_direct (lit "time_response");
  mret (if status =? -1 then 0 else status).

(** ** Twin IP *)
Record dmztwinip := Twin { opmode : Z; hwaddr : str; ipaddr : str; leasetime : Z }.
Definition DMZTWINIP_MODE_TWINIP : Z := 2.

(** [if (ptr) strcpy(field, ptr);] on a field that is empty. *)
Definition strcpy_field (cap : nat) (ptr : option str) : M sys str :=
  match ptr with Some p => strcpy cap p | None => mret [] end.
Definition atoi_field (ptr : option str) : Z := match ptr with Some p => atoi p | None => 0 end.

Definition dmztwinip_read_config (wanname : str) : M sys (Z * dmztwinip) :=
  let tag := snprintf 20 (lit "dmztwinip_" ++ wanname) in
  '(r, value) ← iconfig_get_value_direct tag 256;
  if negb (r =? -1) then
    let '(p1, s1) := strtok (lit ",") value in
    let '(p2, s2) := strtok (lit ",") s1 in
    let '(p3, s3) := strtok (lit ",") s2 in
    let '(p4, _) := strtok (lit ",") s3 in
    hw ← strcpy_field 20 p2;
    ip ← strcpy_field 16 p3;
    mret (1, Twin (atoi_field p1) hw ip (atoi_field p4))
  else mret (0, Twin 0 [] [] 0).

Definition read_real_ipclone_leasetime (wan_name : str) (leasetime_ : Z) : M sys (Z * Z) :=
  '(r, config) ← dmztwinip_read_config wan_name;
  if r =? 0 then mret (0, leasetime_) else mret (1, leasetime config).

(** sscanf(s, "%02x-%02x-...") with the separator [sep]: the values that were
    converted, in order. *)
Fixpoint scan_mac (sep : ascii) (n : nat) (s : str) : list Z :=
  match n with
  | O => []
  | S n =>
      match scan_hex 2 s with
      | Some (z, r) =>
          z :: match r with
               | c :: r' => if is_char sep c then scan_mac sep n r' else []
               | [] => []
               end
      | None => []
      end
  end.

(** [mac] is the array of the caller, [None] where it is not initialised. *)
Definition read_real_ipclone (wan_name : str) (mac : list (option Z))
    : M sys (Z * list (option Z)) :=
  '(_, config) ← dmztwinip_read_config wan_name;
  if opmode config =? DMZTWINIP_MODE_TWINIP then
    let got := Some <$> scan_mac "-" 6 (hwaddr config) in
    mret (1, got ++ drop (length got) mac)
  else mret (0, mac).

(** [chaddr[0] == (unsigned char)(cur_mac[0] & 0377) && ...] *)
Fixpoint mac_matches (chaddr : bytes) (mac : list (option Z)) : M sys bool :=
  match mac with
  | [] => mret true
  | m :: mac' =>
      match chaddr, m with
      | c :: chaddr', Some z => if c =? Z.land z 255 then mac_matches chaddr' mac' else mret false
      | _ :: _, None => fail Uninit
      | [], _ => fail Overflow
      end
  end.

Definition check_ipclone_ipaddr (chaddr : bytes) : M sys (Z * str) :=
  '(r1, mac) ← read_real_ipclone WAN1_NAME (replicate 6 None);
  m1 ← (if r1 =? 0 then mret false else mac_matches chaddr mac);
  if m1 : bool then mret (1, WAN1_NAME)
  else
    '(r2, mac) ← read_real_ipclone WAN2_NAME mac;
    m2 ← (if r2 =? 0 then mret false else mac_matches chaddr mac);
    if m2 : bool then mret (1, WAN2_NAME) else mret (0, []).

(** ** ezupdate_api.c: dynamic DNS *)
Record ezddns_status := Ddns {
  d_code : Z; d_ip : str; d_timestamp : Z; d_remaintime : Z; d_msg : str
}.
Definition DDNS_SUCCESS_UPDATE : Z := 1.
Definition DDNS_RETRY : Z := 2.
Definition FORCE_UPDATE_TIMEOUT : Z := 1440000.

(** snprintf(value, 1024, "%d,%u,%u,%s,%s", ...) *)
Definition ddns_value (code timestamp remaintime : Z) (ip msg : str) : str :=
  snprintf 1024 (fmt_d code ++ lit "," ++ fmt_u timestamp ++ lit "," ++ fmt_u remaintime
                 ++ lit "," ++ ip ++ lit "," ++ msg).
Definition ddns_tag (hostname : str) : str := snprintf TAGLEN (lit "ddns+" ++ hostname).

(** Returns the result and the caller's structure. *)
Definition ddnsapi_set_status2 (now : Z) (hostname : str) (st : ezddns_status)
    : M sys (Z * ezddns_status) :=
  let ts := if d_code st =? DDNS_SUCCESS_UPDATE then u32 now else 0 in
  r ← istatus_set_value_direct (ddns_tag hostname)
        (Some (ddns_value (d_code st) ts (d_remaintime st) (d_ip st) (d_msg st)));
  mret (r, Ddns (d_code st) (d_ip st) ts (d_remaintime st) (d_msg st)).

Definition ddnsapi_set_refresh_flag (host : option str) (flag : Z) : M sys Z :=
  match host with
  | None => mret 0
  | Some host =>
      istatus_set_intvalue_direct (snprintf 128 (lit "refresh_ddns_" ++ host)) flag;;
      mret 1
  end.

Definition ddnsapi_set_status (now code : Z) (hostname : str) (updateip : option str)
    (msg : str) : M sys Z :=
  let timestamp := if code =? DDNS_SUCCESS_UPDATE then u32 now else 0 in
  ret ← istatus_set_value_direct (ddns_tag hostname)
          (Some (ddns_value code timestamp FORCE_UPDATE_TIMEOUT
                   (default (lit "noip") updateip) msg));
  ddnsapi_set_refresh_flag (Some hostname) 0;;
  mret ret.

(** The status that ddnsapi_get_status reads is an argument: [remaintime] is an
    unsigned int, so the test for a negative value is never true. *)
Definition ddnsapi_update_remaintime (ddnsapi_get_status : str → M sys ezddns_status)
    (hostname : str) (elapsed : Z) : M sys Z :=
  st ← ddnsapi_get_status hostname;
  let st := if elapsed =? -1
            then Ddns DDNS_RETRY (d_ip st) (d_timestamp st) 0 (d_msg st)
            else Ddns (d_code st) (d_ip st) (d_timestamp st)
                   (u32 (d_remaintime st - elapsed)) (d_msg st) in
  let st := if d_remaintime st <? 0
            then Ddns (d_code st) (d_ip st) (d_timestamp st) 0 (d_msg st) else st in
  istatus_set_value_direct (ddns_tag hostname)
    (Some (ddns_value (d_code st) (d_timestamp st) (d_remaintime st) (d_ip st) (d_msg st))).

(** ** pppoe_api.c, wizard.c *)
Definition set_pppoe_status (wan_name : str) (status : Z) : M sys Z :=
  istatus_set_intvalue_direct (snprintf 128 (lit "pppoe_status_" ++ wan_name)) status.

Definition wizard_api_set_status (ifname status : str) : M sys Z :=
  istatus_set_value_direct (snprintf TAGLEN (lit "wizard_status." ++ ifname)) (Some status).

(** ** network.c: names and addresses of the interfaces *)

(** The kernel's table of interface addresses: SIOCGIFADDR and SIOCGIFNETMASK. *)
Class Interfaces := { ifaddr : str → option Z; ifmask : str → option Z }.

(** Both pointers are given; the result is the return value and the two texts. *)
Definition get_ifconfig `{!Interfaces} (ifname : str) : M sys (Z * str * str) :=
  name ← strcpy 16 ifname;
  match ifaddr name with
  | None => mret (1, [], [])
  | Some a => match ifmask name with
              | None => mret (1, inet_ntoa a, [])
              | Some m => mret (0, inet_ntoa a, inet_ntoa m)
              end
  end.

Definition eth2wan (eth : str) : str := if streq eth IF_WAN then WAN1_NAME else WAN2_NAME.
Definition get_local_ifname : str := IF_LOCAL.
Definition get_wan_name (ifname : str) : str :=
  if streq ifname IF_WAN then WAN1_NAME else WAN2_NAME.

(** Without a name the tag is never written. *)
Definition get_wan_type (wanname : str) (cap : nat) : M sys str :=
  if streq wanname [] then fail Uninit
  else
    '(r, info) ← iconfig_get_value_direct (snprintf 64 (lit "wantype." ++ wanname)) cap;
    if r =? -1 then strcpy cap (lit "dynamic") else mret info.

Definition get_wan_hw_ifname (cap : nat) : M sys str := strcpy cap IF_WAN.

(** sscanf(wanname, "wan%d", &idx) *)
Definition scan_wan (wanname : str) : option Z :=
  if prefixb (lit "wan") wanname then
    match (span is_space (drop 3 wanname)).2 with
    | c :: r =>
        if is_digit c then Some (atoi (c :: r))
        else if is_char "-" c || is_char "+" c then
          match r with d :: _ => if is_digit d then Some (atoi (c :: r)) else None | [] => None end
        else None
    | [] => None
    end
  else None.

Definition get_wan_ifname (wanname : str) (cap : nat) : M sys (Z * str) :=
  let wanname := if streq wanname [] then WAN1_NAME else wanname in
  waninfo ← get_wan_type wanname 16;
  let wanidx := default (-1) (scan_wan wanname) in
  if wanidx =? -1 then v ← strcpy cap []; mret (-1, v)
  else if streq waninfo (lit "pppoe")
  then v ← strcpy cap (lit "ppp" ++ fmt_d wanidx); mret (0, v)
  else v ← get_wan_hw_ifname cap; mret (0, v).

Definition get_wan_ip `{!Interfaces} (wan_name : str) : M sys (Z * str) :=
  '(_, ifname) ← get_wan_ifname wan_name 16;
  '(_, ip_addr, _) ← get_ifconfig ifname;
  mret (if streq ip_addr [] then 0 else 1, ip_addr).

Definition get_autodns : M sys Z :=
  '(r, buffer) ← iconfig_get_value_direct (lit "auto_dns2") 16;
  mret (if r =? -1 then 1 else atoi buffer).

Definition set_autodns (status : Z) : M sys Z :=
  iconfig_set_intvalue_direct (lit "auto_dns2") status;;
  mret 0.

Definition get_manual_dns_flag (ifname info : str) : M sys Z :=
  flag ← iconfig_get_intvalue_direct
           (snprintf TAGLEN (lit "dns_check2." ++ ifname ++ lit "." ++ info));
  mret (if flag =? -1 then 0 else flag).

Definition dns_tag (ifname info : str) : str :=
  snprintf TAGLEN (lit "dns." ++ ifname ++ lit "." ++ info).

Definition set_dns_shadow (ifname info : str) (fdns sdns : option str) : M sys Z :=
  iconfig_set_value_direct (dns_tag ifname info)
    (Some (snprintf 256 (default [] fdns ++ lit " " ++ default [] sdns)));;
  mret 0.

(** [cap] is the size of the two buffers of the caller. *)
Definition get_dns_shadow (ifname info : str) (cap : nat) : M sys (str * str) :=
  '(r, value) ← iconfig_get_value_direct (dns_tag ifname info) 256;
  if r =? -1 then mret ([], [])
  else match scan_word value with
       | None => mret ([], [])
       | Some (w1, s1) =>
           fdns ← strcpy cap w1;
           match scan_word s1 with
           | None => mret (fdns, [])
           | Some (w2, _) => sdns ← strcpy cap w2; mret (fdns, sdns)
           end
       end.

(** ** network.c: the routing database *)
Record rt_entry := Rt {
  rt_flag : Z; rt_type : str; rt_target : str; rt_netmask : str; rt_gateway : str
}.
Definition MAX_RT_ENTRY : nat := 100.
Definition REMOVE_SCHEDULE_FLAG : Z := 2.

(** One pass of the loop of read_rt_db on the value. *)
Definition parse_rt_entry (value : str) : M sys rt_entry :=
  let '(p1, s1) := strtok (lit ",") value in
  type ← strcpy_field 8 p1;
  let '(p2, s2) := strtok (lit ",") s1 in
  target ← strcpy_field 20 p2;
  let '(p3, s3) := strtok (lit ",") s2 in
  netmask ← strcpy_field 20 (match p3 with
                             | Some p => if streq p (lit "0") then None else Some p
                             | None => None
                             end);
  let '(p4, _) := strtok (lit ",") s3 in
  gateway ← strcpy_field 20 p4;
  mret (Rt 0 type target netmask gateway).

Fixpoint read_rt_loop (k : nat) (n : Z) : M sys (list rt_entry) :=
  match k with
  | O => mret []
  | S k =>
      '(r, value) ← iconfig_get_index_value_direct (lit "rt_db") n 256;
      if r =? -1 then mret []
      else
        e ← parse_rt_entry value;
        rest ← read_rt_loop k (n + 1);
        mret (e :: rest)
  end.
Definition read_rt_db : M sys (list rt_entry) := read_rt_loop MAX_RT_ENTRY 0.

Definition rt_mask_text (e : rt_entry) : str :=
  if streq (rt_netmask e) [] then lit "0" else rt_netmask e.
Definition rt_tag (e : rt_entry) : str :=
  snprintf 60 (lit "rt_db+" ++ rt_type e ++ lit "_" ++ rt_target e ++ lit "_" ++ rt_mask_text e).
Definition rt_value (e : rt_entry) : str :=
  snprintf 256 (rt_type e ++ lit "," ++ rt_target e ++ lit "," ++ rt_mask_text e ++ lit ","
                ++ rt_gateway e).

Fixpoint write_rt_loop (rt_db : list rt_entry) : M sys unit :=
  match rt_db with
  | [] => mret tt
  | e :: rest =>
      when (Z.land (rt_flag e) REMOVE_SCHEDULE_FLAG =? 0)
        (iconfig_set_value_direct (rt_tag e) (Some (rt_value e));; mret tt);;
      write_rt_loop rest
  end.
Definition write_rt_db (rt_db : list rt_entry) : M sys Z :=
  iconfig_remove_tag_prefix (lit "rt_db+");;
  write_rt_loop rt_db;;
  mret 0.

(** ** network.c: the default gateway *)
Definition PROC_ROUTE_TABLE_FILE : str := lit "/proc/net/route".

(** toupper, then the value of a digit. *)
Definition hexa_digit (c : ascii) : option Z := hex_val c.

(** The loop of string_to_hexa: the bytes of [val], from the first pair of
    digits on; [None] is the return on an invalid character (the character
    behind an odd number of digits is the terminating NUL). *)
Fixpoint hexa_bytes (s : str) : option bytes :=
  match s with
  | [] => Some []
  | [_] => None
  | a :: b :: s' =>
      x ← hexa_digit a;
      y ← hexa_digit b;
      rest ← hexa_bytes s';
      Some (Z.lor (Z.shiftl x 4) y :: rest)
  end.

(** [val] has four bytes. *)
Definition string_to_hexa (s : str) : M sys Z :=
  match hexa_bytes s with
  | None => mret 0
  | Some bs => if (4 <? length bs)%nat then fail Overflow else mret (htonl (of_le bs))
  end.

(** The lines after the first one: how many match, and the text of the last one's
    gateway if the caller wants it.  A field that is missing keeps the text of the
    line before. *)
Fixpoint gateway_loop (fuel : nat) (ifname : str) (want first : bool) (content : str)
    (name dest gateway : option str) (count : Z) (gw : option str) : M sys (Z * option str) :=
  match fuel with
  | O => nofuel
  | S fuel =>
      match fgets 1024 content with
      | None => mret (count, gw)
      | Some (buf, rest) =>
          if first then gateway_loop fuel ifname want false rest name dest gateway count gw
          else
            let f1 := scan_word (cstr buf) in
            let f2 := '(_, s) ← f1; scan_word s in
            let f3 := '(_, s) ← f2; scan_word s in
            let field f old := match f with Some (w, _) => Some w | None => old end in
            let name := field f1 name in
            let dest := field f2 dest in
            let gateway := field f3 gateway in
            match name, dest with
            | Some n, Some d =>
                n ← strcpy 20 n;
                d ← strcpy 20 d;
                g ← (match gateway with Some g => g ← strcpy 20 g; mret (Some g) | None => mret None end);
                if streq n ifname then
                  z ← string_to_hexa d;
                  if z =? 0 then
                    gw ← (if want then
                            match g with
                            | None => fail Uninit
                            | Some g => a ← string_to_hexa g; mret (Some (inet_ntoa a))
                            end
                          else mret gw);
                    gateway_loop fuel ifname want false rest name dest gateway (count + 1) gw
                  else gateway_loop fuel ifname want false rest name dest gateway count gw
                else gateway_loop fuel ifname want false rest name dest gateway count gw
            | _, _ => fail Uninit
            end
      end
  end.

(** The number of default routes of the interface and, if [gw] is not NULL, the
    text of the gateway, empty when there is none. *)
Definition get_default_gateway (ifname : str) (want : bool) : M sys (Z * str) :=
  fp ← fopen_r PROC_ROUTE_TABLE_FILE;
  match fp with
  | None => mret (1, [])
  | Some content =>
      '(count, gw) ← gateway_loop (S (length content)) ifname want true content None None None 0 None;
      mret (count, default [] gw)
  end.

(** ** new_dhcplib.c *)
Definition dhcpd_set_op (flag : Z) : M sys Z := iconfig_set_intvalue_direct (lit "dhcpd") flag.

Definition dhcpd_get_op : M sys Z :=
  op ← iconfig_get_intvalue_direct (lit "dhcpd");
  mret (if op =? -1 then 1 else op).
