(* ===== verification/Syslog.v ===== *)
(** * lib/ul_lib/syslog.c: the system log

    The log file keeps one message per line, the newest first; syslog_msg puts a
    new line with the next number in front and keeps at most the configured
    number of lines.  The functions of userland_lib.c that it uses (copy_file,
    get_file_string, write_file, conv_time) are modelled here as well.  The
    clock, the conversion to local time and the table of translated messages are
    arguments. *)
From S2P Require Import Prelude CLib Heap System Bytes Genconfig GenconfigSpec GenconfigOps.
From S2P Require Import GenconfigFile Cconfig SystemApi.

(** ** userland_lib.c *)
Definition get_file_string (file : str) (max : nat) : M sys (Z * str) :=
  fp ← fopen_r file;
  match fp with
  | None => mret (0, [])
  | Some content =>
      let value := match fgets max content with Some (l, _) => l | None => [] end in
      mret (1, cut LF (cut CR (cstr value)))
  end.

(** The bytes are read after [f2] has been truncated, which matters when the
    two names are the same. *)
Definition copy_file (f1 f2 : str) : M sys Z :=
  rfp ← fopen_r f1;
  match rfp with
  | None => mret (-1)
  | Some _ =>
      wfp ← fopen_w f2;
      if negb wfp then mret (-1)
      else
        content ← fopen_r f1;
        fprintf f2 (default [] content);;
        mret 1
  end.

Definition write_file (filename string : str) : M sys Z :=
  fp ← fopen_w filename;
  if negb fp then mret (-1) else fprintf filename string;; mret 0.

Definition write_file_intval (filename : str) (value : Z) : M sys Z :=
  fp ← fopen_w filename;
  if negb fp then mret (-1) else fprintf filename (fmt_d value);; mret 0.

(** *** Conversion of the time *)

(** The fields of the local time; [tm_mon] counts from 0. *)
Record tm := Tm {
  tm_wday : Z; tm_year : Z; tm_mon : Z; tm_mday : Z; tm_hour : Z; tm_min : Z; tm_sec : Z
}.

Definition day_names : list str :=
  lit <$> ["Sun"; "Mon"; "Tue"; "Wed"; "Thu"; "Fri"; "Sat"]%string.
Definition month_names : list str :=
  lit <$> ["Jan"; "Feb"; "Mar"; "Apr"; "May"; "Jun"; "Jul"; "Aug"; "Sep"; "Oct"; "Nov"; "Dec"]%string.

(** [%0<w>d] and [%<w>d] *)
Definition pad (c : ascii) (w : nat) (s : str) : str := replicate (w - length s) c ++ s.
Definition fmt_0d (w : nat) (z : Z) : str :=
  if z <? 0 then lit "-" ++ pad "0" (w - 1) (fmt_u (- z)) else pad "0" w (fmt_u z).

(** ctime: "%.3s %.3s%3d %.2d:%.2d:%.2d %d\n" *)
Definition ctime (t : tm) : str :=
  default (lit "???") (day_names !! Z.to_nat (tm_wday t)) ++ lit " "
  ++ default (lit "???") (month_names !! Z.to_nat (tm_mon t))
  ++ pad " " 3 (fmt_d (tm_mday t)) ++ lit " " ++ fmt_0d 2 (tm_hour t) ++ lit ":"
  ++ fmt_0d 2 (tm_min t) ++ lit ":" ++ fmt_0d 2 (tm_sec t) ++ lit " " ++ fmt_d (tm_year t) ++ [LF].

Definition convert_month (month : str) : Z :=
  match list_find (λ m, m = month) month_names with
  | Some (i, _) => Z.of_nat i + 1
  | None => 1
  end.

(** One [%d] of sscanf. *)
Definition scan_d (s : str) : option (Z * str) :=
  let s1 := (span is_space s).2 in
  let '(neg, s2) := match s1 with
                    | c :: r => if is_char "-" c then (true, r)
                                else if is_char "+" c then (false, r) else (false, s1)
                    | [] => (false, s1)
                    end in
  let '(ds, r) := span is_digit s2 in
  match ds with
  | [] => None
  | _ => Some (clamp_i32 (if neg then - parse_udec 0 ds else parse_udec 0 ds), r)
  end.

Definition scan_lit (c : ascii) (s : str) : option str :=
  match s with d :: r => if is_char c d then Some r else None | [] => None end.

(** sscanf(buffer, "%s %s %d %d:%d:%d %d\n", ...): all fields or nothing, as the
    text comes from ctime. *)
Definition scan_ctime (buffer : str) : option (str * Z * Z * Z * Z * Z) :=
  '(_, s) ← scan_word buffer;
  '(month, s) ← scan_word s;
  '(date, s) ← scan_d s;
  '(hour, s) ← scan_d s;
  s ← scan_lit ":" s;
  '(min, s) ← scan_d s;
  s ← scan_lit ":" s;
  '(second, s) ← scan_d s;
  '(year, _) ← scan_d s;
  Some (month, date, hour, min, second, year).

(** [cap] is the size of the caller's buffer. *)
Definition conv_time (t : tm) (cap : nat) : M sys str :=
  match scan_ctime (snprintf 128 (ctime t)) with
  | None => fail Uninit
  | Some (month, date, hour, min, second, year) =>
      strcpy cap (snprintf 128 (fmt_0d 4 year ++ lit "/" ++ fmt_0d 2 (convert_month month)
        ++ lit "/" ++ fmt_0d 2 date ++ lit " " ++ fmt_0d 2 hour ++ lit ":" ++ fmt_0d 2 min
        ++ lit ":" ++ fmt_0d 2 second))
  end.

(** ** Formatted messages *)
Inductive arg :=
  | AInt (z : Z)
  | AStr (s : str)
  | AFlt (text : str).      (** a double, as [%f] prints it *)

(** vfprintf for the conversions [%d], [%s], [%u], [%X] with a width of the form
    [0<n>], and [%%]; [None] when an argument does not fit the format. *)
Definition hex_char (z : Z) : ascii := ascii_of_N (Z.to_N (if z <? 10 then 48 + z else 55 + z)).
Definition fmt_X (w : nat) (z : Z) : str :=
  let ds := (λ k, hex_char (Z.land (Z.shiftr (u32 z) (4 * Z.of_nat k)) 15)) <$> rev (seq 0 8) in
  let '(zs, sig) := span (is_char "0") ds in
  pad "0" w (match sig with [] => lit "0" | _ => sig end).

Definition format_one (w : nat) (c : ascii) (args : list arg) : option (str * list arg) :=
  match args with
  | AInt z :: args' =>
      if is_char "d" c then Some (fmt_0d w z, args')
      else if is_char "u" c then Some (pad "0" w (fmt_u (u32 z)), args')
      else if is_char "X" c then Some (fmt_X w z, args')
      else None
  | AStr s :: args' => if is_char "s" c then Some (s, args') else None
  | AFlt s :: args' => if is_char "f" c then Some (s, args') else None
  | [] => None
  end.

Fixpoint vformat (fmt : str) (args : list arg) : option str :=
  match fmt with
  | [] => Some []
  | c :: fmt1 =>
      if is_char "%" c then
        match fmt1 with
        | d :: fmt2 =>
            if is_char "%" d then app [d] <$> vformat fmt2 args
            else if is_char "0" d then
              match fmt2 with
              | n :: e :: fmt4 =>
                  '(t, args') ← format_one (Z.to_nat (digit_val n)) e args;
                  app t <$> vformat fmt4 args'
              | _ => None
              end
            else
              '(t, args') ← format_one 0 d args;
              app t <$> vformat fmt2 args'
        | [] => None
        end
      else cons c <$> vformat fmt1 args
  end.

Definition is_alphabet (ch : ascii) : bool :=
  let n := Z.of_N (N_of_ascii ch) in
  ((65 <=? n) && (n <=? 90)) || ((97 <=? n) && (n <=? 122)).

(** strchr, keeping the character. *)
Definition strchr (c : ascii) (s : str) : option str :=
  match (span (λ d, negb (is_char c d)) s).2 with [] => None | r => Some r end.

Definition is_plain_text (message : str) : bool :=
  match m1 ← strchr "@" message; m2 ← strchr "{" m1; strchr "}" m2 with
  | Some _ => false
  | None => true
  end.

Definition get_index_from_message (message : str) : M sys Z :=
  ptr ← strcpy 128 message;
  match strchr "}" ptr with
  | None => fail NullDeref
  | Some _ => match after "{" (cut "}" ptr) with
              | None => fail NullDeref
              | Some r => mret (atoi r)
              end
  end.

Section messages.
(** The table of translated messages. *)
Context (get_ux_text_syslog : Z → str).

Definition translated (text : str) : M sys str :=
  if is_plain_text text then mret text
  else idx ← get_index_from_message text; mret (get_ux_text_syslog idx).

(** The types of the conversions of a text, in order. *)
Fixpoint arg_types (text : str) : list ascii :=
  match text with
  | c :: rest =>
      if is_char "%" c && match rest with d :: _ => is_alphabet d | [] => false end
      then default NUL (head rest) :: arg_types rest
      else arg_types rest
  | [] => []
  end.

Definition get_arguments_length (text : str) : M sys Z :=
  text ← translated text;
  mret (Z.of_nat (length (arg_types text))).

(** [type_array] has 16 entries, of which the first one is not used. *)
Definition get_arg_type (text : str) : M sys (list ascii) :=
  text ← translated text;
  argc ← get_arguments_length text;
  if 16 <=? argc then fail Overflow
  else mret (take (Z.to_nat argc) (arg_types text ++ replicate (Z.to_nat argc) NUL)).

(** The arguments of a translated message, each after "++". *)
Fixpoint write_args (types : list ascii) (args : list arg) : option str :=
  match types with
  | [] => Some []
  | c :: types' =>
      if is_char "d" c || is_char "f" c || is_char "s" c then
        '(t, args') ← format_one 0 c args;
        app (lit "++" ++ t) <$> write_args types' args'
      else write_args types' args
  end.

Definition message_text (fmt : str) (args : list arg) : M sys str :=
  if is_plain_text fmt then
    match vformat fmt args with Some t => mret t | None => fail Uninit end
  else
    types ← get_arg_type fmt;
    arg_length ← get_arguments_length fmt;
    match write_args (take (Z.to_nat arg_length) types) args with
    | Some t => mret (fmt ++ t)
    | None => fail Uninit
    end.

(** ** The log file *)
Definition SYSTEM_LOG_FILE : str := lit "/etc/messages".
Definition TEMP_LOG_FILE : str := lit "/var/log/messages_temp".
Definition SYSMSG_LOG_INFO : Z := 1.
Definition SYSMSG_LOG_HIDDEN : Z := 10.
Definition LOG_ID_DEFAULT : Z := 1.

Definition syslog_get_filename : str := SYSTEM_LOG_FILE.

Definition syslog_get_status : M sys Z :=
  value ← iconfig_get_intvalue_direct (lit "syslog");
  mret (if value =? -1 then 1 else value).

Definition syslog_max_count : M sys Z := hwinfo_get_max_syslog.

Definition syslog_get_hidden_log : M sys Z :=
  '(r, _) ← get_file_string (lit "/var/run/debuglog") 32;
  mret r.

(** The lines that append_file_line copies: at most [line] chunks of 255 bytes. *)
Fixpoint copy_lines (line : nat) (content : str) : str :=
  match line with
  | O => []
  | S line =>
      match fgets 256 content with
      | None => []
      | Some (buf, rest) => cstr buf ++ copy_lines line rest
      end
  end.

Definition append_file_line (dst file : str) (line : Z) : M sys Z :=
  rfp ← fopen_r file;
  match rfp with
  | None => mret 0
  | Some content => fprintf dst (copy_lines (Z.to_nat line) content);; mret 0
  end.

(** The first line with a '#' decides. *)
Fixpoint last_id_loop (fuel : nat) (content : str) : res Z :=
  match fuel with
  | O => NoFuel
  | S fuel =>
      match fgets 256 content with
      | None => mret LOG_ID_DEFAULT
      | Some (buffer, rest) =>
          let buffer := cstr buffer in
          match strchr "#" buffer with
          | None => last_id_loop fuel rest
          | Some _ =>
              match after " " (cut "#" buffer) with
              | Some _ => mret (atoi (default [] (after " " buffer)))
              | None => mret LOG_ID_DEFAULT
              end
          end
      end
  end.

Definition get_last_log_id (file_name : str) : M sys Z :=
  fp ← fopen_r file_name;
  match fp with
  | None => mret LOG_ID_DEFAULT
  | Some content => of_res (last_id_loop (S (length content)) content)
  end.

(** [now] is the local time when the message is written. *)
Definition syslog_msg (now : tm) (level : Z) (fmt : str) (args : list arg) : M sys Z :=
  let syslog_file := syslog_get_filename in
  status ← syslog_get_status;
  if status =? 0 then mret 0
  else
    hidden ← (if level =? SYSMSG_LOG_HIDDEN then syslog_get_hidden_log else mret 1);
    if hidden =? 0 then mret 0
    else
      fd ← lock_file syslog_file;
      last_id ← get_last_log_id syslog_file;
      fp ← fopen_w TEMP_LOG_FILE;
      if negb fp then unlock_file fd;; mret (-1)
      else
        timed ← get_timed_status;
        cur_time ← (if negb (timed =? 0) then conv_time now 64 else strcpy 64 (lit "*****"));
        fprintf TEMP_LOG_FILE (fmt_d level ++ lit " " ++ fmt_d (i32 (last_id + 1)) ++ lit "#"
                               ++ cur_time ++ lit "#");;
        text ← message_text fmt args;
        fprintf TEMP_LOG_FILE text;;
        fprintf TEMP_LOG_FILE [LF];;
        max ← syslog_max_count;
        append_file_line TEMP_LOG_FILE syslog_file (max - 1);;
        copy_file TEMP_LOG_FILE syslog_file;;
        unlink TEMP_LOG_FILE;;
        unlock_file fd;;
        mret 0.
End messages.

(** ** Reading the log *)
Record log_entry := Log { lg_level : Z; lg_id : Z; lg_time : str; lg_text : str }.

(** One line of the file, [None] when it is skipped. *)
Definition parse_log_line (buffer : str) : option log_entry :=
  match after "#" buffer with
  | None => None
  | Some stamp =>
      let head := cut "#" buffer in
      let logid := match after " " head with Some r => atoi r | None => 1 end in
      let level := atoi (cut " " head) in
      match after "#" stamp with
      | None => None
      | Some message => Some (Log level logid (cut "#" stamp) (take (length message - 1) message))
      end
  end.

(** The next message that is newer than [id], and what is left of the file. *)
Fixpoint read_msg_loop (fuel : nat) (id : Z) (content : str) : res (option log_entry * str) :=
  match fuel with
  | O => NoFuel
  | S fuel =>
      match fgets 256 content with
      | None => mret (None, [])
      | Some (buffer, rest) =>
          match parse_log_line (cstr buffer) with
          | None => read_msg_loop fuel id rest
          | Some e => if lg_id e <=? id then mret (None, rest) else mret (Some e, rest)
          end
      end
  end.
Definition syslog_read_syslog_msg (id : Z) (content : str) : res (option log_entry * str) :=
  read_msg_loop (S (length content)) id content.

(** ** Flags and settings *)
Definition flag_tag (name : str) : str := snprintf 64 (lit "syslog_flag_" ++ name).

Definition syslog_get_flag (name : str) : M sys Z :=
  status ← istatus_get_intvalue_direct (flag_tag name);
  mret (if status =? -1 then 0 else status).

Definition syslog_set_flag (name : str) (flag : Z) : M sys Z :=
  (if negb (flag =? -1) then istatus_set_intvalue_direct (flag_tag name) flag
   else istatus_remove_status_tag (flag_tag name));;
  mret 0.

Definition syslog_save : M sys Z :=
  copy_file syslog_get_filename (lit "/etc/messages");;
  unlink (lit "/etc/messages.gz");;
  unlink (lit "/save/etc/messages.gz");;
  system (lit "gzip /etc/messages");;
  unlink (lit "/etc/messages");;
  unlink (lit "/save/etc/messages");;
  mret 0.
