(* ===== verification/Userland.v ===== *)
(** * lib/ul_lib/userland_lib.c: values in files, text forms and base64

    The functions of userland_lib.c that Syslog.v does not have: numbers in
    files, hardware addresses, the width of a netmask, decimal numbers with
    commas, and the base64 codec that the mail client uses for its login.  The
    codec is proved to be a round trip, and its output to fit the buffer. *)
From S2P Require Import Prelude CLib Heap System Bytes Genconfig GenconfigSpec GenconfigOps.
From S2P Require Import GenconfigFile Cconfig SystemApi Syslog.

(** ** Files *)

(** [type] 1 is decimal, 2 is hexadecimal; a file without a number leaves the
    result uninitialised. *)
Definition get_file_value (file : str) (type : Z) : M sys Z :=
  fp ← fopen_r file;
  match fp with
  | None => mret 0
  | Some content =>
      if type =? 1 then
        match scan_d content with Some (value, _) => mret value | None => fail Uninit end
      else if type =? 2 then
        match scan_X content with Some (value, _) => mret value | None => fail Uninit end
      else mret 0
  end.

(** system_api.c *)
Definition sysconf_nat_get (update : Z) : M sys Z :=
  if negb (update =? 0) then
    flag ← get_file_value (lit "/proc/sys/net/ipv4/nat_passthrough_flag") 1;
    mret (if flag =? 0 then 1 else 0)
  else
    flag ← iconfig_get_intvalue_direct (lit "nat_passthrough");
    let flag := if flag =? -1 then 0 else flag in
    mret (if flag =? 0 then 1 else 0).

Definition make_virtual_host_page (ip : str) : M sys Z :=
  let tag := lit "prev_ip" in
  '(r, value) ← istatus_get_value_direct tag 512;
  when (negb (r =? -1)) (unlink (snprintf 256 (lit "/home/httpd/" ++ value)));;
  istatus_set_value_direct tag (Some ip);;
  system (snprintf 256 (lit "ln -s /home/httpd/192.168.0.1 /home/httpd/" ++ ip));;
  mret 0.

(** syslog.c: sscanf(buffer, "%d %d %d") leaves what it does not reach. *)
Definition scan_3d (buffer : str) : option Z * option Z * option Z :=
  match scan_d buffer with
  | None => (None, None, None)
  | Some (a, s1) =>
      match scan_d s1 with
      | None => (Some a, None, None)
      | Some (b, s2) =>
          match scan_d s2 with
          | None => (Some a, Some b, None)
          | Some (c, _) => (Some a, Some b, Some c)
          end
      end
  end.

(** The three results; the return value is the first one. *)
Definition syslog_get_email_status : M sys (option Z * option Z * option Z) :=
  '(r, buffer) ← iconfig_get_value_direct (lit "syslog_email.set") 128;
  if r =? -1 then mret (Some 0, Some 0, Some 0)
  else
    let '(email_flag, hour, del_log) := scan_3d buffer in
    match email_flag with
    | Some _ => mret (email_flag, hour, del_log)
    | None => fail Uninit
    end.

Definition email_clear_report (flag : Z) (type : option str) : M sys Z :=
  match type with
  | None => mret (-1)
  | Some type =>
      when (streq type (lit "syslog")) (
        unlink (lit "/var/run/syslog.html");;
        when (negb (flag =? 0)) (
          '(_, _, syslog_clear_flag) ← syslog_get_email_status;
          match syslog_clear_flag with
          | None => fail Uninit
          | Some z =>
              when (negb (z =? 0)) (
                unlink (lit "/var/log/messages");;
                unlink (lit "/var/log/syslog_cnt");;
                syslog_save;;
                mret tt)
          end));;
      mret 0
  end.

(** ** Hardware addresses *)

(** "%02X:...:%02X" of six numbers. *)
Definition mac_text (sep : ascii) (mac : list Z) : str :=
  match mac with
  | [] => []
  | b :: mac' => fmt_X 2 b ++ concat ((λ b, sep :: fmt_X 2 b) <$> mac')
  end.

(** [hwaddr] is rewritten in place, in a buffer of [cap] bytes. *)
Definition convert_mac (hwaddr : str) (cap : nat) : M sys str :=
  match strchr ":" hwaddr with
  | None => mret hwaddr
  | Some _ =>
      let mac := scan_mac ":" 6 hwaddr in
      if (length mac <? 6)%nat then fail Uninit else strcpy cap (mac_text "-" mac)
  end.

Definition toupper (c : ascii) : ascii :=
  if (97 <=? char_byte c) && (char_byte c <=? 122) then byte_char (char_byte c - 32) else c.

(** A hexadecimal digit after toupper. *)
Definition nibble (c : ascii) : option Z :=
  let z := char_byte (toupper c) in
  if (65 <=? z) && (z <=? 70) then Some (z - 65 + 10)
  else if (97 <=? z) && (z <=? 102) then Some (z - 97 + 10)
  else if (48 <=? z) && (z <=? 57) then Some (z - 48)
  else None.

(** Two digits per byte, from [string] on; the terminator of an odd string is
    not a digit.  The digits are put into upper case in place: [seen] is what the
    string has become. *)
Fixpoint raw_to_hexa (string seen : str) (j : Z) (hexa : bytes) : res (Z * str * bytes) :=
  match string with
  | [] => Ok (1, seen, hexa)
  | a :: rest =>
      match nibble a with
      | None => Ok (0, seen ++ toupper a :: rest, hexa)
      | Some h =>
          hexa ← wr hexa j h;
          hexa ← wr hexa j (u8 (Z.shiftl h 4));
          match rest with
          | [] => Ok (0, seen ++ [toupper a], hexa)
          | b :: rest' =>
              match nibble b with
              | None => Ok (0, seen ++ toupper a :: toupper b :: rest', hexa)
              | Some l =>
                  hexa ← wr hexa j (Z.lor (u8 (Z.shiftl h 4)) l);
                  raw_to_hexa rest' (seen ++ [toupper a; toupper b]) (j + 1) hexa
              end
          end
      end
  end.
Definition mac_rawstring_to_hexa (string : str) (hexa : bytes) : res (Z * str * bytes) :=
  raw_to_hexa string [] 0 hexa.

(** ** The width of a netmask *)

(** [while ((netbit >> subnet) & ntohl(mask)) subnet++], with the shift of the
    32-bit type. *)
Fixpoint bit_count_loop (fuel : nat) (mask subnet : Z) : res Z :=
  match fuel with
  | O => NoFuel
  | S fuel =>
      if 32 <=? subnet then Fault BadShift
      else if Z.land (Z.shiftr 0x80000000 subnet) (ntohl mask) =? 0 then Ok subnet
      else bit_count_loop fuel mask (subnet + 1)
  end.
Definition get_netmask_bit_count (netmask : str) : res Z :=
  bit_count_loop 33 (inet_addr netmask) 0.

(** ** Decimal numbers with commas *)

(** [while ((j /= 1000) > 0) ++length] *)
Fixpoint count_groups (fuel : nat) (j length : Z) : res Z :=
  match fuel with
  | O => NoFuel
  | S fuel =>
      let j := j / 1000 in
      if 0 <? j then count_groups fuel j (length + 1) else Ok length
  end.

(** [while (value / (j * 1000) > 0) j *= 1000], in 64 bits: the factor becomes
    zero after 22 products. *)
Fixpoint top_unit (fuel : nat) (value j : Z) : res Z :=
  match fuel with
  | O => NoFuel
  | S fuel =>
      if u64 (j * 1000) =? 0 then Fault DivZero
      else if 0 <? value / u64 (j * 1000) then top_unit fuel value (u64 (j * 1000))
      else Ok j
  end.

(** Whether a group of digits is already in the buffer. *)
Definition started (buffer : str) : bool :=
  (0 <? length buffer)%nat && negb (streq buffer (lit "-")).

Definition group_text (buffer : str) (g : Z) : str :=
  if started buffer then pad "0" 3 (fmt_u g) else fmt_u g.

(** strcat into the static buffer of 32 bytes. *)
Definition cat32 (buffer tmp : str) : res str :=
  if (length (buffer ++ tmp) <? 32)%nat then Ok (buffer ++ tmp) else Fault Overflow.

Fixpoint comma_groups (length : nat) (value : Z) (buffer : str) : res (Z * str) :=
  match length with
  | O => Ok (value, buffer)
  | S length =>
      j ← top_unit 23 value 1;
      buffer ← cat32 buffer (snprintf 16 (group_text buffer (value / j) ++ lit ","));
      comma_groups length (value mod j) buffer
  end.

(** [value] is an unsigned long long. *)
Definition itoa_with_comma (value : Z) (is_unsigned : bool) : res str :=
  let negative := negb is_unsigned && (2 ^ 63 <=? value) in
  let value := if negative then u64 (- value) else value in
  let buffer := if negative then lit "-" else [] in
  length ← count_groups 8 value 0;
  '(value, buffer) ← comma_groups (Z.to_nat length) value buffer;
  cat32 buffer (snprintf 16 (group_text buffer (value mod 1000))).

(** ** Base64 *)
Definition basis_64 : bytes :=
  get_bytes (lit "ABCDEFGHIJKLMNOPQRSTUVWXYZabcdefghijklmnopqrstuvwxyz0123456789+/").

(** The loop over the triples, from [i] on; [p] is what has been written. *)
Fixpoint encode_loop (fuel : nat) (string : bytes) (len i : Z) (p : bytes) : res (Z * bytes) :=
  match fuel with
  | O => NoFuel
  | S fuel =>
      if i <? len - 2 then
        b0 ← rd string i;
        b1 ← rd string (i + 1);
        b2 ← rd string (i + 2);
        c0 ← rd basis_64 (Z.land (Z.shiftr b0 2) 0x3F);
        c1 ← rd basis_64 (Z.lor (Z.shiftl (Z.land b0 0x3) 4) (Z.shiftr (Z.land b1 0xF0) 4));
        c2 ← rd basis_64 (Z.lor (Z.shiftl (Z.land b1 0xF) 2) (Z.shiftr (Z.land b2 0xC0) 6));
        c3 ← rd basis_64 (Z.land b2 0x3F);
        encode_loop fuel string len (i + 3) (p ++ [c0; c1; c2; c3])
      else Ok (i, p)
  end.

Definition EQ : Z := char_byte "=".

(** The return value and the bytes that are written, the terminator included. *)
Definition Base64encode (string : bytes) (len : Z) : res (Z * bytes) :=
  '(i, p) ← encode_loop (S (Z.to_nat len)) string len 0 [];
  p ← (if i <? len then
         b0 ← rd string i;
         c0 ← rd basis_64 (Z.land (Z.shiftr b0 2) 0x3F);
         if i =? len - 1 then
           c1 ← rd basis_64 (Z.shiftl (Z.land b0 0x3) 4);
           Ok (p ++ [c0; c1; EQ; EQ])
         else
           b1 ← rd string (i + 1);
           c1 ← rd basis_64 (Z.lor (Z.shiftl (Z.land b0 0x3) 4) (Z.shiftr (Z.land b1 0xF0) 4));
           c2 ← rd basis_64 (Z.shiftl (Z.land b1 0xF) 2);
           Ok (p ++ [c0; c1; c2; EQ])
       else Ok p);
  let p := p ++ [0] in
  Ok (Z.of_nat (length p), p).

Definition pr2six : bytes :=
  replicate 43 64 ++ [62; 64; 64; 64; 63] ++ seqZ 52 10 ++ replicate 7 64
  ++ seqZ 0 26 ++ replicate 6 64 ++ seqZ 26 26 ++ replicate 133 64.

(** [while (pr2six[*(bufin++)] <= 63);]: how many characters are of the code. *)
Fixpoint code_length (fuel : nat) (bufcoded : bytes) (n : Z) : res Z :=
  match fuel with
  | O => NoFuel
  | S fuel =>
      c ← rd bufcoded n;
      v ← rd pr2six c;
      if v <=? 63 then code_length fuel bufcoded (n + 1) else Ok n
  end.

Definition six (bufcoded : bytes) (i : Z) : res Z := c ← rd bufcoded i; rd pr2six c.

(** The three bytes that four characters hold. *)
Definition out1 (bufcoded : bytes) (i : Z) : res Z :=
  a ← six bufcoded i; b ← six bufcoded (i + 1);
  Ok (u8 (Z.lor (Z.shiftl a 2) (Z.shiftr b 4))).
Definition out2 (bufcoded : bytes) (i : Z) : res Z :=
  b ← six bufcoded (i + 1); c ← six bufcoded (i + 2);
  Ok (u8 (Z.lor (Z.shiftl b 4) (Z.shiftr c 2))).
Definition out3 (bufcoded : bytes) (i : Z) : res Z :=
  c ← six bufcoded (i + 2); d ← six bufcoded (i + 3);
  Ok (u8 (Z.lor (Z.shiftl c 6) d)).

(** [while (cnt + 3 < length && nprbytes > 4)]; [bufin] is an index. *)
Fixpoint decode_loop (fuel : nat) (bufcoded : bytes) (length bufin nprbytes cnt : Z)
    (bufout : bytes) : res (Z * Z * Z * bytes) :=
  match fuel with
  | O => NoFuel
  | S fuel =>
      if (u32 (cnt + 3) <? length) && (4 <? nprbytes) then
        a ← out1 bufcoded bufin;
        b ← out2 bufcoded bufin;
        c ← out3 bufcoded bufin;
        decode_loop fuel bufcoded length (bufin + 4) (nprbytes - 4) (u32 (cnt + 3))
          (bufout ++ [a; b; c])
      else Ok (bufin, nprbytes, cnt, bufout)
  end.

(** What is left: up to three bytes from [nprbytes] characters. *)
Definition decode_tail (bufcoded : bytes) (bufin nprbytes : Z) : res bytes :=
  o1 ← (if 1 <? nprbytes then a ← out1 bufcoded bufin; Ok [a] else Ok []);
  o2 ← (if 2 <? nprbytes then a ← out2 bufcoded bufin; Ok [a] else Ok []);
  o3 ← (if 3 <? nprbytes then a ← out3 bufcoded bufin; Ok [a] else Ok []);
  Ok (o1 ++ o2 ++ o3).

(** The return value and the bytes that are written to [bufplain], the
    terminator included. *)
Definition Base64decode (length : Z) (bufcoded : bytes) : res (Z * bytes) :=
  n ← code_length (S (Datatypes.length bufcoded)) bufcoded 0;
  let nbytesdecoded := (n + 3) / 4 * 3 in
  '(bufin, nprbytes, cnt, bufout) ← decode_loop (S (Z.to_nat n)) bufcoded length 0 n 0 [];
  let nprbytes :=
    if (length <=? u32 (cnt + 3)) && (u32 (length - cnt) <? nprbytes)
    then u32 (length - cnt) else nprbytes in
  o ← decode_tail bufcoded bufin nprbytes;
  Ok (nbytesdecoded - Z.land (4 - nprbytes) 3, bufout ++ o ++ [0]).
