(* ===== verification/UserlandProps.v ===== *)
(** * lib/ul_lib/userland_lib.c: theorems

    The base64 codec is a round trip and stays in its buffer; the width of a
    netmask; the grouping of digits, which is right for numbers without a zero
    group only. *)
From S2P Require Import Prelude CLib Bytes Syslog Userland.

(** ** Finite checks *)
Definition all_below (n : Z) (p : Z → bool) : bool := forallb p (seqZ 0 n).

Lemma all_below_spec n p : all_below n p = true → ∀ z, 0 ≤ z < n → p z = true.
Proof.
  intros H z Hz. unfold all_below in H. rewrite forallb_forall in H. apply H.
  apply list_elem_of_In, elem_of_seqZ. lia.
Qed.

Lemma all_below2 n m (p : Z → Z → bool) :
  all_below n (λ a, all_below m (p a)) = true →
  ∀ a b, 0 ≤ a < n → 0 ≤ b < m → p a b = true.
Proof.
  intros H a b Ha Hb. apply (all_below_spec m _ (all_below_spec n _ H a Ha)). done.
Qed.

(** ** The sextets of a string of bytes *)
Fixpoint sextets (x : bytes) : list Z :=
  match x with
  | b0 :: b1 :: b2 :: x' =>
      [b0 / 4; b0 mod 4 * 16 + b1 / 16; b1 mod 16 * 4 + b2 / 64; b2 mod 64] ++ sextets x'
  | [b0; b1] => [b0 / 4; b0 mod 4 * 16 + b1 / 16; b1 mod 16 * 4]
  | [b0] => [b0 / 4; b0 mod 4 * 16]
  | [] => []
  end.

(** The filling after the code. *)
Definition filling (x : bytes) : bytes :=
  let r := (length x mod 3)%nat in replicate (if decide (r = 0)%nat then 0 else 3 - r) EQ.

Definition code (ss : list Z) : bytes := (λ s, nth (Z.to_nat s) basis_64 0) <$> ss.

Definition is_six (s : Z) : Prop := 0 ≤ s < 64.

(** lia with quotients and remainders. *)
Ltac divlia := Z.to_euclidean_division_equations; lia.

(** Induction by three elements. *)
Lemma bytes_ind3 (P : bytes → Prop) :
  P [] → (∀ b, P [b]) → (∀ b0 b1, P [b0; b1]) →
  (∀ b0 b1 b2 x, P x → P (b0 :: b1 :: b2 :: x)) → ∀ x, P x.
Proof.
  intros H0 H1 H2 H3. fix IH 1. intros [|b0 [|b1 [|b2 x]]]; [done|done|done|]. apply H3, IH.
Qed.

Lemma sextets_six x : is_bytes x → Forall is_six (sextets x).
Proof.
  induction x as [|b|b0 b1|b0 b1 b2 x IH] using bytes_ind3; intros Hx; cbn [sextets app].
  - done.
  - apply Forall_cons in Hx as [H0 _]. unfold is_byte in *.
    repeat (apply Forall_cons_2; [unfold is_six; divlia|]). done.
  - apply Forall_cons in Hx as [H0 Hx]. apply Forall_cons in Hx as [H1 _]. unfold is_byte in *.
    repeat (apply Forall_cons_2; [unfold is_six; divlia|]). done.
  - apply Forall_cons in Hx as [H0 Hx]. apply Forall_cons in Hx as [H1 Hx].
    apply Forall_cons in Hx as [H2 Hx]. unfold is_byte in *.
    repeat (apply Forall_cons_2; [unfold is_six; divlia|]). by apply IH.
Qed.

(** ** Encoding *)
Lemma basis_rd s : is_six s → rd basis_64 s = Ok (nth (Z.to_nat s) basis_64 0).
Proof.
  intros Hs. unfold is_six in Hs. destruct (rd_total basis_64 s) as (b & E & Hb).
  { change (length basis_64) with 64%nat. lia. }
  rewrite E. f_equal. symmetry. apply nth_lookup_Some. done.
Qed.

Lemma six1 b : is_byte b → Z.land (Z.shiftr b 2) 0x3F = b / 4.
Proof.
  intros Hb. apply Z.eqb_eq.
  apply (all_below_spec 256 (λ b, Z.land (Z.shiftr b 2) 0x3F =? b / 4)); [by vm_compute|done].
Qed.

Lemma six2 b0 b1 : is_byte b0 → is_byte b1 →
  Z.lor (Z.shiftl (Z.land b0 0x3) 4) (Z.shiftr (Z.land b1 0xF0) 4) = b0 mod 4 * 16 + b1 / 16.
Proof.
  intros H0 H1. apply Z.eqb_eq. apply (all_below2 256 256 (λ b0 b1,
    Z.lor (Z.shiftl (Z.land b0 0x3) 4) (Z.shiftr (Z.land b1 0xF0) 4) =? b0 mod 4 * 16 + b1 / 16));
    [by vm_compute|done|done].
Qed.

Lemma six3 b1 b2 : is_byte b1 → is_byte b2 →
  Z.lor (Z.shiftl (Z.land b1 0xF) 2) (Z.shiftr (Z.land b2 0xC0) 6) = b1 mod 16 * 4 + b2 / 64.
Proof.
  intros H0 H1. apply Z.eqb_eq. apply (all_below2 256 256 (λ b1 b2,
    Z.lor (Z.shiftl (Z.land b1 0xF) 2) (Z.shiftr (Z.land b2 0xC0) 6) =? b1 mod 16 * 4 + b2 / 64));
    [by vm_compute|done|done].
Qed.

Lemma six4 b : is_byte b → Z.land b 0x3F = b mod 64.
Proof. intros _. by apply (Z.land_ones b 6). Qed.

Lemma six2' b : is_byte b → Z.shiftl (Z.land b 0x3) 4 = b mod 4 * 16.
Proof. intros _. change 0x3 with (Z.ones 2). rewrite Z.land_ones, Z.shiftl_mul_pow2 by lia. done. Qed.

Lemma six3' b : is_byte b → Z.shiftl (Z.land b 0xF) 2 = b mod 16 * 4.
Proof. intros _. change 0xF with (Z.ones 4). rewrite Z.land_ones, Z.shiftl_mul_pow2 by lia. done. Qed.

(** Reading behind [a]. *)
Lemma rd_at a x k i b :
  x !! k = Some b → i = Z.of_nat (length a + k) → rd (a ++ x) i = Ok b.
Proof.
  intros Hx ->. apply rd_ok; [lia|]. rewrite Nat2Z.id, lookup_app_r by lia.
  by replace (length a + k - length a)%nat with k by lia.
Qed.

Lemma code_app a b : code (a ++ b) = code a ++ code b.
Proof. apply fmap_app. Qed.

(** The loop encodes all triples and leaves at most two bytes. *)
Lemma encode_loop_ok x pre p fuel :
  is_bytes x → (length x < fuel)%nat →
  ∃ x1 x2, x = x1 ++ x2 ∧ (length x2 ≤ 2)%nat ∧ sextets x = sextets x1 ++ sextets x2 ∧
    (length x mod 3 = length x2 mod 3)%nat ∧
    encode_loop fuel (pre ++ x) (Z.of_nat (length (pre ++ x))) (Z.of_nat (length pre)) p
    = Ok (Z.of_nat (length (pre ++ x1)), p ++ code (sextets x1)).
Proof.
  revert pre p fuel. induction x as [|b|b0 b1|b0 b1 b2 x IH] using bytes_ind3;
    intros pre p [|fuel] Hx Hf; try (simpl in Hf; lia).
  1-3: exists []; eexists _; split; [done|]; split; [simpl; lia|]; split; [done|];
    split; [done|]; cbn [encode_loop]; change (code (sextets [])) with (@nil Z);
    rewrite !app_nil_r, ?length_app; simpl length; by rewrite (proj2 (Z.ltb_ge _ _)) by lia.
  apply Forall_cons in Hx as [H0 Hx]. apply Forall_cons in Hx as [H1 Hx].
  apply Forall_cons in Hx as [H2 Hx].
  destruct (IH (pre ++ [b0; b1; b2]) (p ++ code (sextets [b0; b1; b2])) fuel) as
    (x1 & x2 & -> & Hl & Hs & Hm & E); [done|simpl in Hf; lia|].
  exists (b0 :: b1 :: b2 :: x1), x2. split; [done|]. split; [done|]. split.
  { cbn [sextets app]. by rewrite Hs. }
  split.
  { rewrite <- Hm. simpl length.
    replace (S (S (S (length (x1 ++ x2))))) with (length (x1 ++ x2) + 1 * 3)%nat by lia.
    apply Nat.Div0.mod_add. }
  cbn [encode_loop]. rewrite (proj2 (Z.ltb_lt _ _)) by (rewrite length_app; simpl length; lia).
  set (i := Z.of_nat (length pre)). set (string := pre ++ b0 :: b1 :: b2 :: x1 ++ x2) in *.
  assert (rd string i = Ok b0) as -> by (eapply (rd_at pre _ 0); [done|lia]).
  assert (rd string (i + 1) = Ok b1) as -> by (eapply (rd_at pre _ 1); [done|lia]).
  assert (rd string (i + 2) = Ok b2) as -> by (eapply (rd_at pre _ 2); [done|lia]).
  cbn [mbind res_bind].
  rewrite six1, six2, six3, six4 by done.
  assert (Forall is_six (sextets [b0; b1; b2])) as Hss
    by (apply sextets_six; byte_list).
  cbn [sextets app] in Hss. rewrite !Forall_cons in Hss. destruct Hss as (? & ? & ? & ? & _).
  rewrite !basis_rd by done. cbn [mbind res_bind].
  assert ((pre ++ [b0; b1; b2]) ++ x1 ++ x2 = string) as Es by by rewrite <- app_assoc.
  rewrite Es in E.
  replace (i + 3) with (Z.of_nat (length (pre ++ [b0; b1; b2])))
    by (rewrite length_app; simpl length; lia).
  etransitivity; [exact E|]. by rewrite <- !app_assoc, <- code_app.
Qed.

(** The whole code. *)
Lemma Base64encode_ok x :
  is_bytes x →
  Base64encode x (Z.of_nat (length x))
  = Ok (Z.of_nat (length (code (sextets x) ++ filling x ++ [0])),
        code (sextets x) ++ filling x ++ [0]).
Proof.
  intros Hx. unfold Base64encode. rewrite Nat2Z.id.
  destruct (encode_loop_ok x [] [] (S (length x)) Hx ltac:(lia)) as (x1 & x2 & Ex & Hl & Hs & Hm & E).
  cbn [app length] in E. change (Z.of_nat 0) with 0 in E. rewrite E. cbn [mbind res_bind].
  assert (∀ p, Ok p = Ok (code (sextets x) ++ filling x) →
    (p0 ← Ok p; let p := p0 ++ [0] in Ok (Z.of_nat (length p), p)) =
    Ok (Z.of_nat (length (code (sextets x) ++ filling x ++ [0])),
        code (sextets x) ++ filling x ++ [0])) as Hend.
  { intros p [= ->]. cbn [mbind res_bind]. by rewrite <- app_assoc. }
  rewrite Ex in Hx. apply Forall_app in Hx as [_ Hx2].
  unfold filling in *. rewrite Hm in *. rewrite Hs, code_app in *.
  destruct x2 as [|b0 [|b1 [|]]]; [| | |simpl in Hl; lia].
  - rewrite Ex, app_nil_r, Z.ltb_irrefl. apply Hend. by rewrite !app_nil_r.
  - apply Forall_cons in Hx2 as [H0 _].
    rewrite (proj2 (Z.ltb_lt _ _)) by (rewrite Ex, length_app; simpl; lia).
    assert (rd x (Z.of_nat (length x1)) = Ok b0) as ->
      by (rewrite Ex; eapply (rd_at x1 _ 0); [done|lia]).
    assert (Forall is_six (sextets [b0])) as Hss by (apply sextets_six; byte_list).
    cbn [sextets] in Hss. rewrite !Forall_cons in Hss. destruct Hss as (? & ? & _).
    cbn [mbind res_bind]. rewrite six1, six2', !basis_rd by done. cbn [mbind res_bind].
    rewrite (proj2 (Z.eqb_eq _ _)) by (rewrite Ex, length_app; simpl; lia).
    apply Hend. by rewrite <- app_assoc.
  - apply Forall_cons in Hx2 as [H0 Hx2]. apply Forall_cons in Hx2 as [H1 _].
    rewrite (proj2 (Z.ltb_lt _ _)) by (rewrite Ex, length_app; simpl; lia).
    assert (rd x (Z.of_nat (length x1)) = Ok b0) as ->
      by (rewrite Ex; eapply (rd_at x1 _ 0); [done|lia]).
    assert (rd x (Z.of_nat (length x1) + 1) = Ok b1) as ->
      by (rewrite Ex; eapply (rd_at x1 _ 1); [done|lia]).
    assert (Forall is_six (sextets [b0; b1])) as Hss by (apply sextets_six; byte_list).
    cbn [sextets] in Hss. rewrite !Forall_cons in Hss. destruct Hss as (? & ? & ? & _).
    rewrite (proj2 (Z.eqb_neq _ _)) by (rewrite Ex, length_app; simpl; lia).
    cbn [mbind res_bind]. rewrite six1, six2, six3', !basis_rd by done. cbn [mbind res_bind].
    apply Hend. by rewrite <- app_assoc.
Qed.

(** ** Decoding *)
Lemma pr2six_code s : is_six s → rd pr2six (nth (Z.to_nat s) basis_64 0) = Ok s.
Proof.
  intros Hs. pose proof (all_below_spec 64 (λ s,
    match rd pr2six (nth (Z.to_nat s) basis_64 0) with Ok v => v =? s | _ => false end)
    eq_refl s Hs) as H.
  cbv beta in H. destruct (rd pr2six _); [|done|done]. f_equal. by apply Z.eqb_eq.
Qed.

Lemma six_code ss rest i s :
  Forall is_six ss → 0 ≤ i → ss !! Z.to_nat i = Some s → six (code ss ++ rest) i = Ok s.
Proof.
  intros Hss Hi Hs. unfold six.
  rewrite (rd_ok _ _ (nth (Z.to_nat s) basis_64 0)).
  - cbn [mbind res_bind]. apply pr2six_code. by eapply Forall_lookup_1.
  - done.
  - apply lookup_app_l_Some. unfold code. by rewrite list_lookup_fmap, Hs.
Qed.

(** The scan stops behind the code. *)
Lemma code_length_ok ss c rest k fuel :
  Forall is_six ss → rd pr2six c = Ok 64 → (k ≤ length ss)%nat →
  (length ss - k < fuel)%nat →
  code_length fuel (code ss ++ c :: rest) (Z.of_nat k) = Ok (Z.of_nat (length ss)).
Proof.
  intros Hss Hc. revert k. induction fuel as [|fuel IH]; intros k Hk Hf; [lia|].
  cbn [code_length]. destruct (decide (k = length ss)) as [->|Hne].
  - assert (rd (code ss ++ c :: rest) (Z.of_nat (length ss)) = Ok c) as ->.
    { eapply (rd_at _ _ 0); [done|]. unfold code. rewrite length_fmap. lia. }
    cbn [mbind res_bind]. by rewrite Hc.
  - destruct (lookup_lt_is_Some_2 ss k) as [s Hs]; [lia|].
    pose proof (Forall_lookup_1 _ _ _ _ Hss Hs) as H6.
    assert (rd (code ss ++ c :: rest) (Z.of_nat k) = Ok (nth (Z.to_nat s) basis_64 0)) as ->.
    { apply rd_ok; [lia|]. rewrite Nat2Z.id. apply lookup_app_l_Some. unfold code.
      by rewrite list_lookup_fmap, Hs. }
    cbn [mbind res_bind]. rewrite pr2six_code by done. cbn [mbind res_bind].
    unfold is_six in H6. rewrite (proj2 (Z.leb_le _ _)) by lia.
    replace (Z.of_nat k + 1) with (Z.of_nat (S k)) by lia. apply IH; lia.
Qed.

Lemma join1 a b : is_six a → is_six b →
  u8 (Z.lor (Z.shiftl a 2) (Z.shiftr b 4)) = (a * 4 + b / 16) mod 256.
Proof.
  intros Ha Hb. apply Z.eqb_eq. apply (all_below2 64 64 (λ a b,
    u8 (Z.lor (Z.shiftl a 2) (Z.shiftr b 4)) =? (a * 4 + b / 16) mod 256)); [by vm_compute|done|done].
Qed.

Lemma join2 a b : is_six a → is_six b →
  u8 (Z.lor (Z.shiftl a 4) (Z.shiftr b 2)) = (a * 16 + b / 4) mod 256.
Proof.
  intros Ha Hb. apply Z.eqb_eq. apply (all_below2 64 64 (λ a b,
    u8 (Z.lor (Z.shiftl a 4) (Z.shiftr b 2)) =? (a * 16 + b / 4) mod 256)); [by vm_compute|done|done].
Qed.

Lemma join3 a b : is_six a → is_six b → u8 (Z.lor (Z.shiftl a 6) b) = (a * 64 + b) mod 256.
Proof.
  intros Ha Hb. apply Z.eqb_eq. apply (all_below2 64 64 (λ a b,
    u8 (Z.lor (Z.shiftl a 6) b) =? (a * 64 + b) mod 256)); [by vm_compute|done|done].
Qed.

(** The code of [x] behind the sextets [pre]. *)
Section decoding.
Context (pre : list Z) (x : bytes) (rest : bytes) (c : Z).
Hypothesis (Hx : is_bytes x) (Hpre : Forall is_six pre).
Let buf := code (pre ++ sextets x) ++ c :: rest.
Let i := Z.of_nat (length pre).

Lemma six_buf k s : sextets x !! k = Some s → six buf (i + Z.of_nat k) = Ok s.
Proof.
  intros Hs. apply six_code; [apply Forall_app; split; [done|by apply sextets_six]|lia|].
  unfold i. replace (Z.to_nat _) with (length pre + k)%nat by lia.
  by rewrite lookup_app_r, Nat.add_comm, Nat.add_sub by lia.
Qed.

Lemma six_range k s : sextets x !! k = Some s → is_six s.
Proof. apply Forall_lookup_1. by apply sextets_six. Qed.

Lemma out1_ok b0 y : x = b0 :: y → out1 buf i = Ok b0.
Proof.
  intros E. assert (is_byte b0) as H0 by (rewrite E in Hx; by apply Forall_cons in Hx as [? _]).
  assert (∃ s, sextets x !! 0%nat = Some (b0 / 4) ∧ sextets x !! 1%nat = Some s ∧
    s / 16 = b0 mod 4) as (s & H1 & H2 & H3).
  { rewrite E in Hx |- *. apply Forall_cons in Hx as [_ Hy]. destruct y as [|b1 [|b2 y]].
    - eexists. split; [done|]. split; [done|]. unfold is_byte in *. divlia.
    - apply Forall_cons in Hy as [? _].
      eexists. split; [done|]. split; [done|]. unfold is_byte in *. divlia.
    - apply Forall_cons in Hy as [? _].
      eexists. split; [done|]. split; [done|]. unfold is_byte in *. divlia. }
  unfold out1. pose proof (six_buf _ _ H1) as S1. rewrite Z.add_0_r in S1. rewrite S1.
  rewrite (six_buf 1 s H2 : six buf (i + 1) = Ok s). cbn [mbind res_bind].
  rewrite join1 by (by eapply six_range). f_equal. unfold is_byte in *. rewrite H3. divlia.
Qed.

Lemma out2_ok b0 b1 y : x = b0 :: b1 :: y → out2 buf i = Ok b1.
Proof.
  intros E. assert (is_byte b0 ∧ is_byte b1 ∧ is_bytes y) as (H0 & H1 & Hy).
  { rewrite E in Hx. unfold is_bytes in *. rewrite !Forall_cons in Hx. naive_solver. }
  assert (∃ s, sextets x !! 1%nat = Some (b0 mod 4 * 16 + b1 / 16) ∧ sextets x !! 2%nat = Some s ∧
    s / 4 = b1 mod 16) as (s & H2 & H3 & H4).
  { rewrite E. destruct y as [|b2 y].
    - eexists. split; [done|]. split; [done|]. unfold is_byte in *. divlia.
    - apply Forall_cons in Hy as [? _].
      eexists. split; [done|]. split; [done|]. unfold is_byte in *. divlia. }
  unfold out2. rewrite (six_buf 1 _ H2 : six buf (i + 1) = Ok _), (six_buf 2 s H3 : six buf (i + 2) = Ok s).
  cbn [mbind res_bind].
  rewrite join2 by (by eapply six_range). f_equal. unfold is_byte in *. rewrite H4. divlia.
Qed.

Lemma out3_ok b0 b1 b2 y : x = b0 :: b1 :: b2 :: y → out3 buf i = Ok b2.
Proof.
  intros E. assert (is_byte b0 ∧ is_byte b1 ∧ is_byte b2) as (H0 & H1 & H2).
  { rewrite E in Hx. unfold is_bytes in *. rewrite !Forall_cons in Hx. naive_solver. }
  assert (sextets x !! 2%nat = Some (b1 mod 16 * 4 + b2 / 64) ∧
    sextets x !! 3%nat = Some (b2 mod 64)) as [H3 H4] by by rewrite E.
  unfold out3. rewrite (six_buf 2 _ H3 : six buf (i + 2) = Ok _), (six_buf 3 _ H4 : six buf (i + 3) = Ok _).
  cbn [mbind res_bind].
  rewrite join3 by (by eapply six_range). f_equal. unfold is_byte in *. divlia.
Qed.
End decoding.

Lemma sextets_length x :
  (length (sextets x) = 4 * (length x / 3) + match (length x mod 3)%nat with 0 => 0 | 1 => 2 | _ => 3 end)%nat.
Proof.
  induction x as [|b|b0 b1|b0 b1 b2 x IH] using bytes_ind3; [done|done|done|].
  cbn [sextets app length]. rewrite IH.
  replace (S (S (S (length x)))) with (length x + 1 * 3)%nat by lia.
  rewrite Nat.Div0.mod_add, Nat.div_add by done. lia.
Qed.

Lemma sextets_longer x : (length x < S (length (sextets x)))%nat.
Proof.
  induction x as [|b|b0 b1|b0 b1 b2 x IH] using bytes_ind3; simpl in *; lia.
Qed.

(** Every round takes a triple; at most three bytes are left to the tail. *)
Lemma decode_loop_ok x pre c rest len cnt out fuel :
  is_bytes x → Forall is_six pre → 0 ≤ cnt → cnt + Z.of_nat (length x) < len → len < 2 ^ 32 →
  (length x < fuel)%nat →
  ∃ x1 x2, x = x1 ++ x2 ∧ (length x2 ≤ 3)%nat ∧
    decode_loop fuel (code (pre ++ sextets x) ++ c :: rest) len (Z.of_nat (length pre))
      (Z.of_nat (length (sextets x))) cnt out
    = Ok (Z.of_nat (length (pre ++ sextets x1)), Z.of_nat (length (sextets x2)),
          cnt + Z.of_nat (length x1), out ++ x1) ∧
    sextets x = sextets x1 ++ sextets x2 ∧ ∃ k, length (sextets x1) = (4 * k)%nat.
Proof.
  revert pre cnt out fuel.
  induction x as [|b|b0 b1|b0 b1 b2 x IH] using bytes_ind3;
    intros pre cnt out [|fuel] Hx Hpre Hc Hlen H32 Hf; try (simpl in Hf; lia).
  1-3: exists []; eexists _; split; [done|]; split; [simpl; lia|]; split; [|by split; [|exists 0%nat]];
    cbn [decode_loop]; rewrite andb_false_r, !app_nil_r; cbn [length]; by rewrite Z.add_0_r.
  destruct x as [|b3 x].
  { exists [], [b0; b1; b2]. split; [done|]. split; [simpl; lia|]. split; [|by split; [|exists 0%nat]].
    cbn [decode_loop]. rewrite andb_false_r, !app_nil_r. cbn [length]. by rewrite Z.add_0_r. }
  set (y := b3 :: x) in *.
  pose proof (out1_ok pre (b0 :: b1 :: b2 :: y) rest c Hx Hpre b0 _ eq_refl) as O1.
  pose proof (out2_ok pre (b0 :: b1 :: b2 :: y) rest c Hx Hpre b0 b1 _ eq_refl) as O2.
  pose proof (out3_ok pre (b0 :: b1 :: b2 :: y) rest c Hx Hpre b0 b1 b2 _ eq_refl) as O3.
  unfold is_bytes in Hx. rewrite !Forall_cons in Hx. destruct Hx as (? & ? & ? & Hy).
  assert (Forall is_six (sextets [b0; b1; b2])) as Hss by (apply sextets_six; byte_list).
  assert (pre ++ sextets (b0 :: b1 :: b2 :: y) = (pre ++ sextets [b0; b1; b2]) ++ sextets y)
    as Epre by by rewrite <- app_assoc.
  assert (4 < Z.of_nat (length (sextets (b0 :: b1 :: b2 :: y)))) as H4.
  { cbn [sextets app]. rewrite !length_cons. unfold y. destruct x as [|? [|? ?]]; simpl; lia. }
  simpl length in Hlen, Hf.
  destruct (IH (pre ++ sextets [b0; b1; b2]) (cnt + 3) (out ++ [b0; b1; b2]) fuel) as
    (x1 & x2 & Ey & Hl & E & Hs & k & Hk); [done|by apply Forall_app|lia|simpl; lia|done|simpl; lia|].
  exists (b0 :: b1 :: b2 :: x1), x2. split; [by rewrite Ey|]. split; [done|].
  split; [|split; [cbn [sextets app]; by rewrite Hs|exists (S k); cbn [sextets app length]; lia]].
  cbn [decode_loop]. unfold u32. rewrite (Z.mod_small (cnt + 3)) by lia.
  rewrite (proj2 (Z.ltb_lt (cnt + 3) len)), (proj2 (Z.ltb_lt 4 _)) by lia. cbn [andb].
  rewrite O1, O2, O3. cbn [mbind res_bind]. rewrite Epre.
  replace (Z.of_nat (length pre) + 4) with (Z.of_nat (length (pre ++ sextets [b0; b1; b2])))
    by (rewrite length_app; simpl length; lia).
  replace (Z.of_nat (length (sextets (b0 :: b1 :: b2 :: y))) - 4) with
    (Z.of_nat (length (sextets y))) by (cbn [sextets app length]; lia).
  rewrite E, <- !app_assoc. cbn [app]. do 3 f_equal. simpl length. lia.
Qed.

(** The tail has at most three bytes. *)
Lemma tail_ok x pre c rest :
  is_bytes x → Forall is_six pre → (length x ≤ 3)%nat →
  decode_tail (code (pre ++ sextets x) ++ c :: rest) (Z.of_nat (length pre))
    (Z.of_nat (length (sextets x))) = Ok x.
Proof.
  intros Hx Hpre Hl. unfold decode_tail. destruct x as [|b0 y]; [done|].
  pose proof (out1_ok pre (b0 :: y) rest c Hx Hpre b0 _ eq_refl) as O1.
  destruct y as [|b1 y]; [by rewrite O1|].
  pose proof (out2_ok pre (b0 :: b1 :: y) rest c Hx Hpre b0 b1 _ eq_refl) as O2.
  destruct y as [|b2 y]; [by rewrite O1, O2|].
  pose proof (out3_ok pre (b0 :: b1 :: b2 :: y) rest c Hx Hpre b0 b1 b2 _ eq_refl) as O3.
  destruct y; [|simpl in Hl; lia]. by rewrite O1, O2, O3.
Qed.


(** The lengths of the two forms of a string. *)
Lemma decoded_length x :
  (Z.of_nat (length (sextets x)) + 3) / 4 * 3 - Z.land (4 - Z.of_nat (length (sextets x))) 3
  = Z.of_nat (length x).
Proof.
  change 3 with (Z.ones 2) at 3. rewrite Z.land_ones by lia. change (2 ^ 2) with 4.
  rewrite sextets_length. pose proof (Nat.div_mod_eq (length x) 3) as E.
  pose proof (Nat.mod_upper_bound (length x) 3 ltac:(done)).
  set (q := (length x / 3)%nat) in *. clearbody q.
  destruct (length x mod 3)%nat as [|[|[|]]]; [| | |lia]; rewrite E; divlia.
Qed.

(** C30: base64 is a round trip.  For every string of bytes, Base64encode writes
    four characters for every three bytes and a terminator, and Base64decode
    with a buffer of more bytes than the string has gives back the string, its
    terminator and its length. *)
Theorem base64_roundtrip x length :
  is_bytes x → Z.of_nat (Datatypes.length x) < length → length ≤ 2 ^ 31 →
  ∃ t, Base64encode x (Z.of_nat (Datatypes.length x)) = Ok (Z.of_nat (Datatypes.length t), t) ∧
    Z.of_nat (Datatypes.length t) = (Z.of_nat (Datatypes.length x) + 2) / 3 * 4 + 1 ∧
    Base64decode length t = Ok (Z.of_nat (Datatypes.length x), x ++ [0]).
Proof.
  intros Hx Hlen H32. exists (code (sextets x) ++ filling x ++ [0]).
  split; [by apply Base64encode_ok|]. split.
  { unfold filling. rewrite !length_app, length_replicate. unfold code. rewrite length_fmap.
    rewrite sextets_length. simpl Datatypes.length.
    pose proof (Nat.div_mod_eq (Datatypes.length x) 3) as E.
    pose proof (Nat.mod_upper_bound (Datatypes.length x) 3 ltac:(done)).
    set (q := (Datatypes.length x / 3)%nat) in *. clearbody q.
    destruct (Datatypes.length x mod 3)%nat as [|[|[|]]]; simpl; [| | |lia]; rewrite E; divlia. }
  assert (∃ c rest, filling x ++ [0] = c :: rest ∧ rd pr2six c = Ok 64) as (c & rest & -> & Hc).
  { unfold filling. destruct (if decide _ then _ else _); by eexists _, _. }
  unfold Base64decode.
  rewrite (code_length_ok (sextets x) c rest 0) by
    (first [by apply sextets_six|done|lia|rewrite length_app; unfold code; rewrite length_fmap; simpl; lia]).
  cbn [mbind res_bind]. rewrite Nat2Z.id.
  destruct (decode_loop_ok x [] c rest length 0 [] (S (Datatypes.length (sextets x))))
    as (x1 & x2 & Ex & Hl & E & Hs & k & Hk); [done|done|done|lia|lia|by apply sextets_longer|].
  cbn [app Datatypes.length] in E. change (Z.of_nat 0) with 0 in E. rewrite E, !Z.add_0_l.
  cbn [mbind res_bind]. rewrite Ex, length_app in Hlen. unfold u32. rewrite !Z.mod_small by lia.
  assert ((length <=? Z.of_nat (Datatypes.length x1) + 3) && (length - Z.of_nat (Datatypes.length x1)
    <? Z.of_nat (Datatypes.length (sextets x2))) = false) as ->.
  { destruct (Z.leb_spec length (Z.of_nat (Datatypes.length x1) + 3)); [|done]. apply Z.ltb_ge.
    destruct x2 as [|? [|? [|? [|]]]]; simpl in *; lia. }
  rewrite Hs at 1. rewrite Ex in Hx. apply Forall_app in Hx as [Hx1 Hx2].
  rewrite (tail_ok x2 (sextets x1)) by (done || by apply sextets_six). cbn [mbind res_bind].
  rewrite <- (decoded_length x). f_equal. f_equal; [|by rewrite Ex, <- app_assoc].
  f_equal. change 3 with (Z.ones 2). rewrite !Z.land_ones by lia. change (2 ^ 2) with 4.
  rewrite Hs, length_app, Hk. divlia.
Qed.

Lemma base64_roundtrip_witness :
  ∃ t, Base64encode (get_bytes (lit "admin:pw")) 8 = Ok (Z.of_nat (length t), t) ∧
    Z.of_nat (length t) = 13 ∧ Base64decode 64 t = Ok (8, get_bytes (lit "admin:pw") ++ [0]).
Proof.
  apply (base64_roundtrip (get_bytes (lit "admin:pw")) 64); [apply get_bytes_is_bytes|done|done].
Defined.

(** ** The decoder stays in its buffer *)

(** The characters up to [n] can be read and looked up. *)
Definition coded (buf : bytes) (n : Z) : Prop := ∀ i, 0 ≤ i < n → ∃ v, six buf i = Ok v.

Lemma code_length_total buf k fuel :
  is_bytes buf → (∃ j, (k ≤ j)%nat ∧ buf !! j = Some 0) → (length buf - k < fuel)%nat →
  coded buf (Z.of_nat k) →
  ∃ n, code_length fuel buf (Z.of_nat k) = Ok n ∧ 0 ≤ n ≤ Z.of_nat (length buf) ∧ coded buf n.
Proof.
  intros Hb. revert k. induction fuel as [|fuel IH]; intros k (j & Hj & H0) Hf Hc; [lia|].
  pose proof (lookup_lt_Some _ _ _ H0) as Hlt. cbn [code_length].
  destruct (lookup_lt_is_Some_2 buf k) as [c Hk]; [lia|].
  assert (rd buf (Z.of_nat k) = Ok c) as Ec by (apply rd_ok; [lia|by rewrite Nat2Z.id]).
  pose proof (Forall_lookup_1 _ _ _ _ Hb Hk) as Hcb. unfold is_byte in Hcb.
  destruct (rd_total pr2six c) as (v & Ev & _); [change (length pr2six) with 256%nat; lia|].
  rewrite Ec. cbn [mbind res_bind]. rewrite Ev. cbn [mbind res_bind].
  destruct (Z.leb_spec v 63) as [Hv|Hv]; [|exists (Z.of_nat k); split_and!; [done|lia|lia|done]].
  replace (Z.of_nat k + 1) with (Z.of_nat (S k)) by lia. apply IH; [|lia|].
  - exists j. split; [|done]. destruct (decide (j = k)) as [->|]; [|lia].
    rewrite H0 in Hk. injection Hk as <-. injection Ev as <-. lia.
  - intros i Hi. destruct (decide (i = Z.of_nat k)) as [->|]; [|apply Hc; lia].
    exists v. unfold six. by rewrite Ec.
Qed.

Section outs.
Context (buf : bytes) (i n : Z).
Hypothesis (Hc : coded buf n) (Hi : 0 ≤ i).

Lemma out1_total : i + 1 < n → ∃ a, out1 buf i = Ok a.
Proof.
  intros Hn. unfold out1. destruct (Hc i) as [a ->]; [lia|]. destruct (Hc (i + 1)) as [b ->]; [lia|].
  by eexists.
Qed.
Lemma out2_total : i + 2 < n → ∃ a, out2 buf i = Ok a.
Proof.
  intros Hn. unfold out2. destruct (Hc (i + 1)) as [a ->]; [lia|].
  destruct (Hc (i + 2)) as [b ->]; [lia|]. by eexists.
Qed.
Lemma out3_total : i + 3 < n → ∃ a, out3 buf i = Ok a.
Proof.
  intros Hn. unfold out3. destruct (Hc (i + 2)) as [a ->]; [lia|].
  destruct (Hc (i + 3)) as [b ->]; [lia|]. by eexists.
Qed.
End outs.

Lemma decode_loop_total buf len n bufin npr cnt out fuel :
  coded buf n → bufin + npr = n → 0 ≤ bufin → 0 ≤ npr < Z.of_nat fuel → 0 ≤ cnt < len →
  len ≤ 2 ^ 31 → Z.of_nat (length out) = cnt →
  ∃ bufin' npr' cnt' out', decode_loop fuel buf len bufin npr cnt out
    = Ok (bufin', npr', cnt', out') ∧ bufin' + npr' = n ∧ 0 ≤ bufin' ∧ 0 ≤ npr' ∧
    0 ≤ cnt' < len ∧ Z.of_nat (length out') = cnt' ∧ (npr' ≤ 4 ∨ len ≤ cnt' + 3).
Proof.
  intros Hc. revert bufin npr cnt out.
  induction fuel as [|fuel IH]; intros bufin npr cnt out Hn Hb Hf Hcnt Hlen Hout; [lia|].
  cbn [decode_loop]. unfold u32. rewrite Z.mod_small by lia.
  destruct (Z.ltb_spec (cnt + 3) len), (Z.ltb_spec 4 npr); cbn [andb].
  2-4: eexists _, _, _, _; split; [done|]; split_and!; lia.
  destruct (out1_total buf bufin n Hc Hb) as [a ->]; [lia|].
  destruct (out2_total buf bufin n Hc Hb) as [b ->]; [lia|].
  destruct (out3_total buf bufin n Hc Hb) as [c ->]; [lia|].
  cbn [mbind res_bind]. apply IH; try lia. rewrite length_app. simpl. lia.
Qed.

Lemma decode_tail_total buf n bufin npr :
  coded buf n → 0 ≤ bufin → bufin + npr ≤ n →
  ∃ o, decode_tail buf bufin npr = Ok o ∧ Z.of_nat (length o) ≤ 3 ∧
    Z.of_nat (length o) ≤ Z.max 0 (npr - 1).
Proof.
  intros Hc Hb Hn. unfold decode_tail.
  destruct (Z.ltb_spec 1 npr); cycle 1.
  { rewrite !(proj2 (Z.ltb_ge _ _)) by lia. eexists. split; [done|]. simpl. lia. }
  destruct (out1_total buf bufin n Hc Hb) as [a ->]; [lia|]. cbn [mbind res_bind].
  destruct (Z.ltb_spec 2 npr); cycle 1.
  { rewrite (proj2 (Z.ltb_ge _ _)) by lia. eexists. split; [done|]. simpl. lia. }
  destruct (out2_total buf bufin n Hc Hb) as [b ->]; [lia|]. cbn [mbind res_bind].
  destruct (Z.ltb_spec 3 npr); cycle 1.
  { eexists. split; [done|]. simpl. lia. }
  destruct (out3_total buf bufin n Hc Hb) as [c ->]; [lia|].
  eexists. split; [done|]. simpl. lia.
Qed.

(** C35: the decoder stays in its buffer.  For every terminated string, code or
    not, Base64decode with a buffer of [length] bytes ends without a fault and
    writes at most [length] bytes, the terminator included. *)
Theorem Base64decode_fits length bufcoded :
  0 < length → length ≤ 2 ^ 31 → is_bytes bufcoded → 0 ∈ bufcoded →
  ∃ r out, Base64decode length bufcoded = Ok (r, out) ∧ Z.of_nat (Datatypes.length out) ≤ length.
Proof.
  intros Hl0 Hl Hb Hz. apply list_elem_of_lookup in Hz as [j Hj].
  destruct (code_length_total bufcoded 0 (S (Datatypes.length bufcoded))) as (n & E & Hn & Hc);
    [done|exists j; split; [lia|done]|lia|intros i Hi; lia|].
  unfold Base64decode. change (Z.of_nat 0) with 0 in E. rewrite E. cbn [mbind res_bind].
  destruct (decode_loop_total bufcoded length n 0 n 0 [] (S (Z.to_nat n)) Hc)
    as (bufin & npr & cnt & out & -> & Hsum & Hbuf & Hnpr & Hcnt & Hout & Hcase);
    [lia|lia|lia|lia|lia|done|].
  cbn [mbind res_bind]. unfold u32. rewrite !Z.mod_small by lia.
  match goal with |- context [decode_tail _ _ ?x] => set (npr' := x) end.
  assert (npr' ≤ npr ∧ (length ≤ cnt + 3 → npr' ≤ length - cnt)) as [Hle Hcap].
  { unfold npr'. destruct (Z.leb_spec length (cnt + 3)), (Z.ltb_spec (length - cnt) npr);
      cbn [andb]; lia. }
  destruct (decode_tail_total bufcoded n bufin npr' Hc Hbuf) as (o & -> & Ho3 & Ho); [lia|].
  cbn [mbind res_bind]. eexists _, _. split; [done|]. rewrite !length_app. simpl. lia.
Qed.

Lemma Base64decode_fits_witness :
  ∃ r out, Base64decode 4 (get_bytes (lit "VXNlcm5hbWU6") ++ [0]) = Ok (r, out) ∧
    Z.of_nat (length out) ≤ 4.
Proof.
  apply (Base64decode_fits 4 (get_bytes (lit "VXNlcm5hbWU6") ++ [0])); [done|done| |].
  - apply Forall_app. split; [apply get_bytes_is_bytes|byte_list].
  - apply elem_of_app. right. apply list_elem_of_here.
Defined.

(** ** Netmasks *)
Definition netmask_text (k : Z) : str := inet_ntoa (htonl (2 ^ 32 - 2 ^ (32 - k))).

(** The width of a netmask.  get_netmask_bit_count gives [k] for the mask of
    every width [k] below 32; for the mask of a host, and for a text that is not
    an address, its loop shifts a 32-bit number by 32. *)
Theorem get_netmask_bit_count_spec :
  (∀ k, 0 ≤ k < 32 → get_netmask_bit_count (netmask_text k) = Ok k) ∧
  (∀ s, inet_addr s = INADDR_NONE → get_netmask_bit_count s = Fault BadShift).
Proof.
  split.
  - intros k Hk. pose proof (all_below_spec 32 (λ k,
      match get_netmask_bit_count (netmask_text k) with Ok z => z =? k | _ => false end)
      ltac:(by vm_compute) k Hk) as H. cbv beta in H.
    destruct (get_netmask_bit_count _); [|done|done]. f_equal. by apply Z.eqb_eq.
  - intros s Hs. unfold get_netmask_bit_count. rewrite Hs. by vm_compute.
Qed.

(** ** Groups of digits *)
Definition pad3 (g : Z) : str := pad "0" 3 (fmt_u g).

(** The groups behind the first one. *)
Fixpoint commas (gs : list Z) : str :=
  match gs with
  | [] => []
  | [g] => pad3 g
  | g :: gs' => pad3 g ++ lit "," ++ commas gs'
  end.

Definition grouped (g : Z) (gs : list Z) : str :=
  fmt_u g ++ match gs with [] => [] | _ => lit "," ++ commas gs end.

Fixpoint value_of (gs : list Z) : Z :=
  match gs with [] => 0 | g :: gs' => g * 1000 ^ Z.of_nat (length gs') + value_of gs' end.

Definition is_group (g : Z) : Prop := 0 ≤ g < 1000.

(** No group is zero, except perhaps the last one. *)
Fixpoint gap_free (gs : list Z) : Prop :=
  match gs with
  | [] | [_] => True
  | g :: gs' => 0 < g ∧ gap_free gs'
  end.

Lemma value_range gs : Forall is_group gs → 0 ≤ value_of gs < 1000 ^ Z.of_nat (length gs).
Proof.
  induction 1 as [|g gs Hg _ IH]; [done|]. cbn [value_of length].
  rewrite Nat2Z.inj_succ, Z.pow_succ_r by lia. unfold is_group in Hg. nia.
Qed.

Lemma pow1000 n : (n ≤ 6)%nat → 0 < 1000 ^ Z.of_nat n < 2 ^ 64.
Proof. intros Hn. do 7 (destruct n as [|n]; [by vm_compute|]). lia. Qed.

Lemma top_unit_ok n k value fuel :
  (k ≤ n)%nat → (n ≤ 5)%nat → (n - k < fuel)%nat →
  1000 ^ Z.of_nat n ≤ value < 1000 ^ Z.of_nat (S n) ∨ (n = k ∧ 0 ≤ value < 1000 ^ Z.of_nat (S n)) →
  top_unit fuel value (1000 ^ Z.of_nat k) = Ok (1000 ^ Z.of_nat n).
Proof.
  revert k. induction fuel as [|fuel IH]; intros k Hk Hn Hf Hv; [lia|]. cbn [top_unit].
  assert (u64 (1000 ^ Z.of_nat k * 1000) = 1000 ^ Z.of_nat (S k)) as ->.
  { rewrite Z.mul_comm, <- Z.pow_succ_r, <- Nat2Z.inj_succ by lia.
    unfold u64. apply Z.mod_small. pose proof (pow1000 (S k) ltac:(lia)). lia. }
  pose proof (pow1000 (S k) ltac:(lia)) as Hp.
  rewrite (proj2 (Z.eqb_neq _ _)) by lia. destruct (decide (k = n)) as [->|Hne].
  - rewrite Z.div_small by lia. done.
  - assert (1000 ^ Z.of_nat (S k) ≤ 1000 ^ Z.of_nat n) by (apply Z.pow_le_mono_r; lia).
    rewrite (proj2 (Z.ltb_lt _ _)) by (apply Z.div_str_pos; lia). apply IH; [lia|lia|lia|].
    left. lia.
Qed.

(** A value below 1000 is its own group, whatever its place was. *)
Lemma top_unit_small value : 0 ≤ value < 1000 → top_unit 23 value 1 = Ok 1.
Proof. intros Hv. apply (top_unit_ok 0 0); [lia|lia|lia|]. right. done. Qed.

Lemma count_groups_ok n value acc fuel :
  (n < fuel)%nat → 0 ≤ value < 1000 ^ Z.of_nat (S n) →
  (n = 0%nat ∨ 1000 ^ Z.of_nat n ≤ value) →
  count_groups fuel value acc = Ok (acc + Z.of_nat n).
Proof.
  revert n value acc. induction fuel as [|fuel IH]; intros n value acc Hf Hv Hn; [lia|].
  cbn [count_groups]. destruct n as [|n].
  - rewrite Z.div_small by (change (1000 ^ Z.of_nat 1) with 1000 in Hv; lia).
    simpl. f_equal. lia.
  - destruct Hn as [|Hn]; [lia|].
    assert (1000 ^ Z.of_nat n ≤ value / 1000 < 1000 ^ Z.of_nat (S n)) as [Hlo Hhi].
    { rewrite Nat2Z.inj_succ, Z.pow_succ_r in Hn by lia.
      rewrite (Nat2Z.inj_succ (S n)), Z.pow_succ_r in Hv by lia. split.
      - apply Z.div_le_lower_bound; lia.
      - apply Z.div_lt_upper_bound; lia. }
    pose proof (Z.pow_pos_nonneg 1000 (Z.of_nat n) ltac:(lia) ltac:(lia)).
    rewrite (proj2 (Z.ltb_lt _ _)) by lia. rewrite (IH n); [f_equal; lia|lia|lia|by right].
Qed.

Lemma pad3_length g : is_group g → length (pad3 g) = 3%nat.
Proof.
  intros Hg. unfold is_group in Hg. unfold pad3, pad. rewrite length_app, length_replicate.
  pose proof (udec_length (S (Z.to_nat (Z.log2 g))) g 3). unfold fmt_u in *. lia.
Qed.

Lemma fmt_u_group g : is_group g → (length (fmt_u g) ≤ 3)%nat.
Proof.
  intros Hg. unfold is_group in Hg. unfold fmt_u.
  pose proof (udec_length (S (Z.to_nat (Z.log2 g))) g 3). lia.
Qed.

Lemma cat32_ok buffer tmp :
  (length buffer + length tmp < 32)%nat → cat32 buffer tmp = Ok (buffer ++ tmp).
Proof. intros H. unfold cat32. by rewrite length_app, (proj2 (Nat.ltb_lt _ _) H). Qed.

(** The unit of the first of several groups. *)
Lemma top_unit_group g gs :
  Forall is_group (g :: gs) → gap_free (g :: gs) → (length gs ≤ 5)%nat →
  top_unit 23 (value_of (g :: gs)) 1 = Ok (1000 ^ Z.of_nat (length gs)) ∧
  value_of (g :: gs) / 1000 ^ Z.of_nat (length gs) = g ∧
  value_of (g :: gs) mod 1000 ^ Z.of_nat (length gs) = value_of gs.
Proof.
  intros Hgs Hgap Hl. pose proof (value_range _ Hgs) as Hv.
  apply Forall_cons in Hgs as [Hg Hgs]. pose proof (value_range _ Hgs) as Hr.
  unfold is_group in Hg. cbn [value_of] in *. split; [|split].
  - apply (top_unit_ok (length gs) 0); [lia|lia|lia|].
    destruct gs as [|g' gs]; [right; split; [done|exact Hv]|left]. destruct Hgap. split; [nia|apply Hv].
  - rewrite Z.div_add_l by lia. rewrite Z.div_small by lia. lia.
  - rewrite Z.add_comm, Z.mod_add, Z.mod_small by lia. done.
Qed.

(** The loop and the last group, behind the first group. *)
Lemma comma_groups_ok gs g buffer :
  Forall is_group (g :: gs) → gap_free (g :: gs) → started buffer = true →
  (length buffer + 4 * length (g :: gs) ≤ 32)%nat → (length gs ≤ 5)%nat →
  ('(value, buffer) ← comma_groups (length gs) (value_of (g :: gs)) buffer;
   cat32 buffer (snprintf 16 (group_text buffer (value mod 1000)))) =
  Ok (buffer ++ commas (g :: gs)).
Proof.
  revert g buffer. induction gs as [|g' gs IH]; intros g buffer Hgs Hgap Hst Hlen Hl.
  - apply Forall_cons in Hgs as [Hg _]. cbn [comma_groups length mbind res_bind value_of].
    change (1000 ^ Z.of_nat 0) with 1. rewrite Z.mul_1_r, Z.add_0_r, Z.mod_small by done.
    unfold group_text. rewrite Hst. fold (pad3 g). pose proof (pad3_length g Hg).
    rewrite snprintf_short by lia. rewrite cat32_ok; [done|]. simpl in Hlen. lia.
  - destruct (top_unit_group g (g' :: gs)) as (Et & Ed & Em); [done|done|done|].
    cbn [comma_groups length] in *. rewrite Et. cbn [mbind res_bind].
    rewrite Ed, Em. apply Forall_cons in Hgs as [Hg Hgs]. pose proof (pad3_length g Hg) as Hp.
    assert (group_text buffer g = pad3 g) as -> by (unfold group_text; by rewrite Hst).
    rewrite snprintf_short by (rewrite length_app; simpl; lia).
    rewrite cat32_ok by (rewrite length_app; simpl; lia). cbn [mbind res_bind].
    etransitivity; [apply IH|].
    + done.
    + apply Hgap.
    + unfold started in *. apply andb_true_iff in Hst as [H1 H2]. apply andb_true_iff. split.
      * apply Nat.ltb_lt in H1. apply Nat.ltb_lt. rewrite length_app. lia.
      * apply negb_true_iff, streq_false. intros E. apply (f_equal length) in E.
        rewrite !length_app in E. simpl in E. lia.
    + rewrite !length_app. simpl in Hlen |- *. clear -Hlen Hp. lia.
    + clear -Hl. lia.
    + by rewrite <- !app_assoc.
Qed.

Lemma started_first g : started (fmt_u g ++ lit ",") = true.
Proof.
  unfold started. apply andb_true_iff. split.
  - apply Nat.ltb_lt. rewrite length_app. simpl. lia.
  - apply negb_true_iff, streq_false. intros E. apply (f_equal length) in E.
    rewrite length_app in E. simpl in E. destruct (fmt_u g) eqn:Ef; [by apply fmt_u_nonempty in Ef|].
    simpl in E. lia.
Qed.

(** Numbers with commas.  A number of at most six groups of three digits,
    in which no group but the last is zero, is written with a comma between its
    groups. *)
Theorem itoa_with_comma_grouped g gs :
  Forall is_group (g :: gs) → gap_free (g :: gs) → (length gs ≤ 5)%nat →
  itoa_with_comma (value_of (g :: gs)) true = Ok (grouped g gs).
Proof.
  intros Hgs Hgap Hl. unfold itoa_with_comma. cbn [negb andb].
  pose proof (value_range _ Hgs) as Hv. destruct gs as [|g' gs].
  { apply Forall_cons in Hgs as [Hg _]. pose proof (fmt_u_group g Hg).
    rewrite (count_groups_ok 0) by (done || lia || by left).
    cbn [mbind res_bind]. change (Z.to_nat (0 + Z.of_nat 0)) with 0%nat.
    cbn [comma_groups mbind res_bind value_of length]. change (1000 ^ Z.of_nat 0) with 1.
    rewrite Z.mul_1_r, Z.add_0_r, Z.mod_small by done. change (group_text [] g) with (fmt_u g). unfold grouped.
    rewrite snprintf_short by lia. rewrite cat32_ok by (simpl; lia). by rewrite app_nil_r. }
  destruct (top_unit_group g (g' :: gs)) as (Et & Ed & Em); [done|done|done|].
  assert (count_groups 8 (value_of (g :: g' :: gs)) 0 = Ok (0 + Z.of_nat (length (g' :: gs)))) as ->.
  { apply count_groups_ok; [simpl in Hl |- *; clear -Hl; lia|exact Hv|]. right. destruct Hgap as [Hg _].
    cbn [value_of] in *. apply Forall_cons in Hgs as [_ Hgs]. pose proof (value_range _ Hgs).
    cbn [value_of length] in *. nia. }
  rewrite Z.add_0_l. cbn [mbind res_bind]. rewrite Nat2Z.id. cbn [comma_groups length].
  cbn [length] in Et. rewrite Et. cbn [mbind res_bind length] in *. rewrite Ed, Em.
  apply Forall_cons in Hgs as [Hg Hgs]. pose proof (fmt_u_group g Hg).
  change (group_text [] g) with (fmt_u g).
  rewrite snprintf_short by (rewrite length_app; simpl; lia).
  rewrite cat32_ok by (rewrite length_app; simpl; lia). cbn [mbind res_bind app].
  etransitivity; [apply comma_groups_ok|].
  - done.
  - apply Hgap.
  - apply started_first.
  - rewrite length_app. simpl in Hl |- *. clear -Hl H. lia.
  - simpl in Hl. clear -Hl. lia.
  - unfold grouped. by rewrite <- app_assoc.
Qed.

Lemma itoa_with_comma_grouped_witness :
  value_of [18; 446; 744] = 18446744 ∧ grouped 18 [446; 744] = lit "18,446,744" ∧
  itoa_with_comma (value_of [18; 446; 744]) true = Ok (grouped 18 [446; 744]).
Proof.
  split; [by vm_compute|]. split; [by vm_compute|].
  apply (itoa_with_comma_grouped 18 [446; 744]).
  - repeat (apply Forall_cons_2; [unfold is_group; lia|]). apply Forall_nil_2.
  - split; [lia|]. split; [lia|done].
  - simpl. lia.
Defined.

(** The first step on a number of millions. *)
Lemma millions a v :
  0 < a < 1000 → 0 ≤ v < 1000000 →
  itoa_with_comma (a * 1000000 + v) true =
  ('(value, buffer) ← comma_groups 1 v (fmt_u a ++ lit ",");
   cat32 buffer (snprintf 16 (group_text buffer (value mod 1000)))).
Proof.
  intros Ha Hv. unfold itoa_with_comma. cbn [negb andb].
  assert (count_groups 8 (a * 1000000 + v) 0 = Ok 2) as ->.
  { apply (count_groups_ok 2); [lia| |right].
    - change (1000 ^ Z.of_nat 3) with 1000000000. lia.
    - change (1000 ^ Z.of_nat 2) with 1000000. lia. }
  cbn [mbind res_bind]. change (Z.to_nat 2) with 2%nat.
  change (comma_groups 2 ?v []) with (j ← top_unit 23 v 1;
    buffer ← cat32 [] (snprintf 16 (group_text [] (v / j) ++ lit ","));
    comma_groups 1 (v mod j) buffer).
  assert (top_unit 23 (a * 1000000 + v) 1 = Ok 1000000) as ->.
  { apply (top_unit_ok 2 0); [lia|lia|lia|left].
    change (1000 ^ Z.of_nat 2) with 1000000. change (1000 ^ Z.of_nat 3) with 1000000000. lia. }
  cbn [mbind res_bind].
  rewrite Z.div_add_l, (Z.div_small v), Z.add_0_r by lia.
  rewrite Z.add_comm, Z.mod_add, (Z.mod_small v) by lia.
  change (group_text [] a) with (fmt_u a).
  pose proof (fmt_u_group a ltac:(unfold is_group; lia)).
  rewrite snprintf_short by (rewrite length_app; simpl; lia).
  by rewrite cat32_ok by (rewrite length_app; simpl; lia).
Qed.

(** A zero group breaks the grouping.  A number of millions whose thousands
    are zero gets the text of another number; the largest number stops the
    program with a division by zero. *)
Theorem itoa_with_comma_gap :
  (∀ a b, 0 < a < 1000 → 0 < b < 1000 →
    itoa_with_comma (a * 1000000 + b) true = itoa_with_comma (a * 1000000 + b * 1000) true) ∧
  itoa_with_comma (2 ^ 64 - 1) true = Fault DivZero.
Proof.
  split; [|by vm_compute]. intros a b Ha Hb. rewrite !millions by lia. cbn [comma_groups].
  assert (top_unit 23 (b * 1000) 1 = Ok 1000) as ->.
  { apply (top_unit_ok 1 0); [lia|lia|lia|left].
    change (1000 ^ Z.of_nat 1) with 1000. change (1000 ^ Z.of_nat 2) with 1000000. lia. }
  rewrite top_unit_small by lia. cbn [mbind res_bind].
  by rewrite Z.div_1_r, Z.mod_1_r, Z.div_mul, Z.mod_mul by lia.
Qed.
