(* ===== verification/LibEnds.v ===== *)
(** * The library always comes back

    Whatever the files hold, whichever locks are taken and whatever the heap
    looks like, a call of the library returns or stops at a fault: the loops over
    files and lists end.  [Ends] states it for a computation from every state;
    the instances follow the structure of the code, and the clients of the
    library (the DHCP server) use them without assumptions on the system. *)
From S2P Require Import Prelude CLib Heap System Bytes Genconfig GenconfigSpec GenconfigOps.
From S2P Require Import GenconfigFile Cconfig SystemApi Syslog.

Class Ends {S A} (m : M S A) : Prop := ends s : wp any_fault m (λ _ _, True) s.

(** Definitions that are not NoFuel. *)
Definition res_ends {A} (r : res A) : Prop := r ≠ NoFuel.

Section structure.
Context {S : Type}.

#[export] Instance ends_ret {A} (a : A) : Ends (mret a : M S A).
Proof. done. Qed.
#[export] Instance ends_fail {A} e : Ends (fail e : M S A).
Proof. done. Qed.
#[export] Instance ends_gets {A} (f : S → A) : Ends (gets f).
Proof. done. Qed.
#[export] Instance ends_modify (f : S → S) : Ends (modify f).
Proof. done. Qed.
#[export] Instance ends_bind {A B} (m : M S A) (f : A → M S B) :
  Ends m → (∀ a, Ends (f a)) → Ends (m ≫= f).
Proof. intros Hm Hf s. eapply wp_seq; [apply Hm|]. intros a s' _. apply Hf. Qed.
#[export] Instance ends_when b (m : M S unit) : Ends m → Ends (when b m).
Proof. intros Hm. by destruct b. Qed.
Lemma ends_of_res {A} (r : res A) : res_ends r → Ends (of_res r : M S A).
Proof. intros Hr s. unfold wp, of_res. by destruct r. Qed.
#[export] Instance ends_if {A} (b : bool) (m m' : M S A) :
  Ends m → Ends m' → Ends (if b then m else m').
Proof. by destruct b. Qed.
#[export] Instance ends_option {A B} (o : option A) (f : A → M S B) (m : M S B) :
  (∀ a, Ends (f a)) → Ends m → Ends (match o with Some a => f a | None => m end).
Proof. by destruct o. Qed.
#[export] Instance ends_pair {A B C} (p : A * B) (f : A → B → M S C) :
  (∀ a b, Ends (f a b)) → Ends (let '(a, b) := p in f a b).
Proof. by destruct p. Qed.
#[export] Instance ends_strcpy n s : Ends (strcpy n s : M S str).
Proof. intros σ. unfold wp, strcpy. by destruct (_ <? _)%nat. Qed.
End structure.

#[export] Instance ends_fopen_r p : Ends (fopen_r p).
Proof. unfold fopen_r. apply _. Qed.
#[export] Instance ends_fopen_w p : Ends (fopen_w p).
Proof. unfold fopen_w, on_env. apply _. Qed.
#[export] Instance ends_fprintf p s : Ends (fprintf p s).
Proof. unfold fprintf, on_env. apply _. Qed.
#[export] Instance ends_unlink p : Ends (unlink p).
Proof. unfold unlink, on_env. apply _. Qed.
#[export] Instance ends_system c : Ends (system c).
Proof. unfold system, on_env. apply _. Qed.
#[export] Instance ends_lock_file f : Ends (lock_file f).
Proof. unfold lock_file, on_env. apply _. Qed.
#[export] Instance ends_unlock_file fd : Ends (unlock_file fd).
Proof. unfold unlock_file, on_env. apply _. Qed.

(** ** Sessions of the configuration store *)
Lemma unlock_file_heap fd σ :
  ∃ e, unlock_file fd σ = Ok (tt, Sys (items σ) (strs σ) e).
Proof. destruct fd; [by eexists|]. destruct σ as [h ss e]. by exists e. Qed.

Lemma read_file_cases f σ :
  genconfig_read_file f ll_empty σ = Fault Overflow ∨
  ∃ r ll σ' kv, genconfig_read_file f ll_empty σ = Ok ((r, ll), σ') ∧
    owns (items σ) (strs σ) σ' ll kv.
Proof.
  destruct (decide (Forall (λ e : entry, (length e.1 < GENCONFIG_MAX_ITEM_LEN)%nat)
    (entries_of f (env σ)))) as [Hfit|Hfit].
  - right. destruct (genconfig_read_file_any f σ Hfit) as (r & ll & σ' & ? & ? & _).
    by eexists _, _, _, _.
  - unfold entries_of in Hfit. destruct (files (env σ) !! f) as [c|] eqn:Ef.
    + left. unfold genconfig_read_file, fopen_r. rewrite bind_gets, Ef.
      by apply (read_loop_overflow (S (length c)) c σ ll_empty [] 0 ltac:(lia) (owns_empty σ)).
    + by destruct Hfit.
Qed.

(** What follows may rely on the list that has been read. *)
Lemma read_file_ends {A} f (k : Z * genconfig_ll → M sys A) :
  (∀ h0 s0 σ r ll kv, owns h0 s0 σ ll kv → wp any_fault (k (r, ll)) (λ _ _, True) σ) →
  Ends (rl ← genconfig_read_file f ll_empty; k rl).
Proof.
  intros Hk σ. apply wp_bind. unfold wp at 1.
  destruct (read_file_cases f σ) as [->|(r & ll & σ' & kv & -> & Hown)]; [done|]. by eapply Hk.
Qed.

Lemma session_ends {A} f (k : option str → Z * genconfig_ll → M sys A) :
  (∀ fd h0 s0 σ r ll kv, owns h0 s0 σ ll kv → wp any_fault (k fd (r, ll)) (λ _ _, True) σ) →
  Ends (fd ← lock_file f; rl ← genconfig_read_file f ll_empty; k fd rl).
Proof. intros Hk. apply ends_bind; [apply _|]. intros fd. apply read_file_ends. eauto. Qed.

Section closing.
Context {h0 : gmap loc (node item)} {s0 : gmap loc str}.
Implicit Types (σ : sys) (ll : genconfig_ll).

Lemma free_ends {A} σ ll kv (k : M sys A) :
  owns h0 s0 σ ll kv → Ends k → wp any_fault (genconfig_free_ll ll;; k) (λ _ _, True) σ.
Proof.
  intros H Hk. apply wp_bind. unfold wp at 1. rewrite (genconfig_free_ll_ok _ _ _ _ _ H).
  apply Hk.
Qed.

Lemma close_ends {A} σ ll kv fd (k : M sys A) :
  owns h0 s0 σ ll kv → Ends k →
  wp any_fault (unlock_file fd;; genconfig_free_ll ll;; k) (λ _ _, True) σ.
Proof.
  intros H Hk. destruct (unlock_file_heap fd σ) as [e E]. apply wp_bind. unfold wp at 1.
  rewrite E. destruct σ as [h ss e0]. apply (owns_env _ _ _ _ _ e) in H. by eapply free_ends.
Qed.

Lemma close_ends' {A} σ ll kv fd (k : M sys A) :
  owns h0 s0 σ ll kv → Ends k →
  wp any_fault (genconfig_free_ll ll;; unlock_file fd;; k) (λ _ _, True) σ.
Proof. intros H Hk. eapply free_ends; [done|]. apply _. Qed.

Lemma write_ends {A} σ ll kv f (k : M sys A) :
  owns h0 s0 σ ll kv →
  (∀ e, wp any_fault k (λ _ _, True) (Sys (items σ) (strs σ) e)) →
  wp any_fault (genconfig_write_file f ll;; k) (λ _ _, True) σ.
Proof.
  intros H Hk. destruct (genconfig_write_file_any _ _ f _ _ _ H) as [r Hw].
  apply wp_bind. unfold wp at 1. rewrite Hw. apply Hk.
Qed.

Lemma get_value_ends {A} σ ll kv tag cap (k : Z * str → M sys A) :
  owns h0 s0 σ ll kv →
  (∀ x, wp any_fault (k x) (λ _ _, True) σ) →
  wp any_fault (x ← genconfig_get_value ll tag cap; k x) (λ _ _, True) σ.
Proof.
  intros H Hk. apply wp_bind. unfold wp at 1.
  destruct (decide (length (default [] (sp_lookup (λ t, streq t tag) kv)) < cap)%nat).
  - rewrite (genconfig_get_value_ok _ _ _ _ _ H) by done. apply Hk.
  - by rewrite (genconfig_get_value_overflow _ _ _ _ _ H) by lia.
Qed.
End closing.

#[export] Instance ends_iconfig_get tag cap : Ends (iconfig_get_value_direct tag cap).
Proof.
  apply session_ends. intros fd h0 s0 σ r ll kv H.
  eapply get_value_ends; [done|]. intros [found v].
  destruct (found =? 0); (eapply close_ends; [done|apply _]).
Qed.

#[export] Instance ends_istatus_get tag cap : Ends (istatus_get_value_direct tag cap).
Proof.
  apply session_ends. intros fd h0 s0 σ r ll kv H.
  eapply get_value_ends; [done|]. intros [found v]. destruct (found =? 0).
  - apply wp_bind, wp_bind. unfold wp at 1, strcpy.
    destruct (_ <? _)%nat; [|done]. apply wp_ret. by eapply close_ends; [|apply _].
  - apply wp_bind, wp_ret. by eapply close_ends; [|apply _].
Qed.

(** A value is set, or the tag does not fit the array of an item. *)
Lemma set_value_ends {A h0 s0} σ ll kv tag v (k : Z * genconfig_ll * option str → M sys A) :
  owns h0 s0 σ ll kv →
  (∀ s1 σ' ll' kv' r x, owns h0 s1 σ' ll' kv' → wp any_fault (k (r, ll', x)) (λ _ _, True) σ') →
  wp any_fault (x ← genconfig_set_value ll tag (Some v); k x) (λ _ _, True) σ.
Proof.
  intros H Hk. apply wp_bind. unfold wp at 1, genconfig_set_value. fold (line_of v).
  find_cases (λ t, streq t tag) H.
  - destruct (decide (length tag < GENCONFIG_MAX_ITEM_LEN)%nat) as [Htag|Htag].
    + destruct (additem_ll_ok σ ll kv tag (Some (line_of v)) H Htag) as (σ' & ll' & Hadd & Hown & _).
      rewrite (bind_Ok _ _ _ _ _ Hadd). by eapply Hk.
    + unfold additem_ll, mbind, M_bind, malloc_item, malloc. simpl. by rewrite strcpy_overflow by lia.
  - destruct (put_value_leak _ _ _ _ _ _ _ _ _ _ (line_of v) Hc Ha Hi Hb)
      as (σ' & s' & Hput & Hown & _).
    rewrite (bind_Ok _ _ _ _ _ Hput). by eapply Hk.
Qed.

#[export] Instance ends_istatus_set tag v : Ends (istatus_set_value_direct tag (Some v)).
Proof.
  apply session_ends. intros fd h0 s0 σ r ll kv H.
  eapply set_value_ends; [done|]. intros s1 σ' ll' kv' r' x H'. eapply write_ends; [done|]. intros e.
  destruct σ' as [h ss e0]. apply (owns_env _ _ _ _ _ e) in H'. by eapply close_ends; [|apply _].
Qed.

#[export] Instance ends_iconfig_set tag v : Ends (iconfig_set_value_direct tag (Some v)).
Proof.
  apply session_ends. intros fd h0 s0 σ r ll kv H.
  eapply set_value_ends; [done|]. intros s1 σ' ll' kv' r' x H'. eapply write_ends; [done|]. intros e.
  destruct σ' as [h ss e0]. apply (owns_env _ _ _ _ _ e) in H'. by eapply close_ends'; [|apply _].
Qed.

#[export] Instance ends_istatus_set_int tag z : Ends (istatus_set_intvalue_direct tag z).
Proof. unfold istatus_set_intvalue_direct. apply _. Qed.

#[export] Instance ends_pid_db_set tag z : Ends (pid_db_set_value tag z).
Proof.
  apply session_ends. intros fd h0 s0 σ r ll kv H.
  apply wp_bind. unfold wp at 1, strcpy. destruct (_ <? _)%nat; [|done].
  eapply set_value_ends; [done|]. intros s1 σ' ll' kv' r' x H'. eapply write_ends; [done|]. intros e.
  destruct σ' as [h ss e0]. apply (owns_env _ _ _ _ _ e) in H'. by eapply close_ends; [|apply _].
Qed.

#[export] Instance ends_pid_db_get tag : Ends (pid_db_get_value tag).
Proof.
  apply session_ends. intros fd h0 s0 σ r ll kv H.
  eapply get_value_ends; [done|]. intros [found v]. by eapply close_ends; [|apply _].
Qed.

#[export] Instance ends_remove_item f tag : Ends (genconfig_remove_item f tag).
Proof.
  apply session_ends. intros fd h0 s0 σ r ll kv H. apply wp_bind. unfold wp at 1.
  destruct (find_item_cases (λ t, streq t tag) σ ll kv H)
    as [(Hf & _)|(a & l & i & b & ka & t & w & kb & Hf & Hc & -> & Ha & Hi & Hb & _)];
    rewrite Hf; [by eapply close_ends; [|apply _]|].
  destruct (unlink_item_ok Hc Ha Hi Hb) as (σ' & ll' & Hun & H' & _).
  apply wp_bind. unfold wp at 1. rewrite Hun. eapply write_ends; [done|]. intros e.
  destruct σ' as [h ss e0]. apply (owns_env _ _ _ _ _ e) in H'. by eapply close_ends; [|apply _].
Qed.

#[export] Instance ends_istatus_remove tag : Ends (istatus_remove_status_tag tag).
Proof. unfold istatus_remove_status_tag. apply _. Qed.

#[export] Instance ends_hwinfo_get tag cap : Ends (hwinfo_get_value_direct tag cap).
Proof.
  apply read_file_ends. intros h0 s0 σ r ll kv H.
  eapply get_value_ends; [done|]. intros [found v]. destruct (found =? 0).
  - apply wp_bind, wp_bind. unfold wp at 1, strcpy.
    destruct (_ <? _)%nat; [|done]. apply wp_ret. by eapply free_ends; [|apply _].
  - apply wp_bind, wp_ret. by eapply free_ends; [|apply _].
Qed.

(** ** Values of the store *)
#[export] Instance ends_iconfig_int tag : Ends (iconfig_get_intvalue_direct tag).
Proof. unfold iconfig_get_intvalue_direct. apply _. Qed.
#[export] Instance ends_istatus_int tag : Ends (istatus_get_intvalue_direct tag).
Proof. unfold istatus_get_intvalue_direct. apply _. Qed.
#[export] Instance ends_max_syslog : Ends hwinfo_get_max_syslog.
Proof. unfold hwinfo_get_max_syslog, hwinfo_get_intvalue_direct. apply _. Qed.
#[export] Instance ends_timed_status : Ends get_timed_status.
Proof. unfold get_timed_status. apply _. Qed.
#[export] Instance ends_dhcpd_get_op : Ends dhcpd_get_op.
Proof. unfold dhcpd_get_op. apply _. Qed.

(** ** Twin IP *)
#[export] Instance ends_strcpy_field n p : Ends (strcpy_field n p).
Proof. unfold strcpy_field. apply _. Qed.
#[export] Instance ends_dmztwinip w : Ends (dmztwinip_read_config w).
Proof. unfold dmztwinip_read_config. apply _. Qed.
#[export] Instance ends_ipclone_leasetime w t : Ends (read_real_ipclone_leasetime w t).
Proof. unfold read_real_ipclone_leasetime. apply _. Qed.
#[export] Instance ends_read_real_ipclone w mac : Ends (read_real_ipclone w mac).
Proof. unfold read_real_ipclone. apply _. Qed.
#[export] Instance ends_mac_matches chaddr mac : Ends (mac_matches chaddr mac).
Proof.
  revert chaddr. induction mac as [|[z|] mac IH]; intros [|c chaddr]; simpl; try apply _.
Qed.
#[export] Instance ends_check_ipclone chaddr : Ends (check_ipclone_ipaddr chaddr).
Proof. unfold check_ipclone_ipaddr. apply _. Qed.

(** ** Interfaces *)
Section interfaces.
Context `{!Interfaces}.

#[export] Instance ends_get_ifconfig n : Ends (get_ifconfig n).
Proof. unfold get_ifconfig. apply _. Qed.
#[export] Instance ends_get_wan_type w n : Ends (get_wan_type w n).
Proof. unfold get_wan_type. apply _. Qed.
#[export] Instance ends_get_wan_hw n : Ends (get_wan_hw_ifname n).
Proof. unfold get_wan_hw_ifname. apply _. Qed.
#[export] Instance ends_get_wan_ifname w n : Ends (get_wan_ifname w n).
Proof. unfold get_wan_ifname. apply _. Qed.
#[export] Instance ends_get_wan_ip w : Ends (get_wan_ip w).
Proof. unfold get_wan_ip. apply _. Qed.
End interfaces.

#[export] Instance ends_string_to_hexa s : Ends (string_to_hexa s).
Proof. unfold string_to_hexa. destruct (hexa_bytes s) as [bs|]; apply _. Qed.
Lemma ends_gateway_loop fuel ifname want first content name dest gateway count gw :
  (length content < fuel)%nat →
  Ends (gateway_loop fuel ifname want first content name dest gateway count gw).
Proof.
  revert first content name dest gateway count gw.
  induction fuel as [|fuel IH]; intros first content name dest gateway count gw Hf; [lia|].
  cbn [gateway_loop]. destruct (fgets 1024 content) as [[buf rest]|] eqn:E; [|apply _].
  apply fgets_shorter in E; [|lia].
  assert (∀ f n d g k w, Ends (gateway_loop fuel ifname want f rest n d g k w))
    by (intros; apply IH; lia).
  destruct first; [apply _|]. set (f1 := scan_word _). clearbody f1.
  set (f2 := '(_, s) ← f1; scan_word s). clearbody f2.
  set (f3 := '(_, s) ← f2; scan_word s). clearbody f3. cbv zeta. apply _.
Qed.
#[export] Instance ends_get_default_gateway ifname want : Ends (get_default_gateway ifname want).
Proof.
  unfold get_default_gateway. apply ends_bind; [apply _|]. intros [content|]; [|apply _].
  apply ends_bind; [apply ends_gateway_loop; lia|apply _].
Qed.

(** ** The system log *)
#[export] Instance ends_get_file_string f n : Ends (get_file_string f n).
Proof. unfold get_file_string. apply _. Qed.
#[export] Instance ends_write_file f s : Ends (write_file f s).
Proof. unfold write_file. apply _. Qed.
#[export] Instance ends_copy_file f g : Ends (copy_file f g).
Proof. unfold copy_file. apply _. Qed.
#[export] Instance ends_append_file_line d f n : Ends (append_file_line d f n).
Proof. unfold append_file_line. apply _. Qed.
#[export] Instance ends_conv_time t n : Ends (conv_time t n).
Proof. unfold conv_time. destruct (scan_ctime _) as [[[[[[] ?] ?] ?] ?]|]; apply _. Qed.
Lemma last_id_loop_ends fuel content :
  (length content < fuel)%nat → res_ends (last_id_loop fuel content).
Proof.
  revert content. induction fuel as [|fuel IH]; intros content Hf; [lia|]. cbn [last_id_loop].
  destruct (fgets 256 content) as [[buf rest]|] eqn:E; [|done].
  apply fgets_shorter in E; [|lia]. destruct (strchr _ _); [by destruct (after _ _)|].
  apply IH. lia.
Qed.
#[export] Instance ends_get_last_log_id f : Ends (get_last_log_id f).
Proof.
  unfold get_last_log_id. apply ends_bind; [apply _|]. intros [content|]; [|apply _].
  apply ends_of_res, last_id_loop_ends. lia.
Qed.
#[export] Instance ends_syslog_get_flag n : Ends (syslog_get_flag n).
Proof. unfold syslog_get_flag. apply _. Qed.
#[export] Instance ends_syslog_set_flag n z : Ends (syslog_set_flag n z).
Proof.
  unfold syslog_set_flag. apply _.
Qed.

Section messages.
Context (get_ux_text_syslog : Z → str).

#[export] Instance ends_get_index m : Ends (get_index_from_message m).
Proof.
  unfold get_index_from_message. apply ends_bind; [apply _|]. intros p.
  destruct (strchr _ _); [|apply _]. destruct (after _ _); apply _.
Qed.
#[export] Instance ends_translated t : Ends (translated get_ux_text_syslog t).
Proof. unfold translated. apply _. Qed.
#[export] Instance ends_message_text fmt args : Ends (message_text get_ux_text_syslog fmt args).
Proof. unfold message_text, get_arg_type, get_arguments_length. apply _. Qed.
#[export] Instance ends_syslog_msg now level fmt args :
  Ends (syslog_msg get_ux_text_syslog now level fmt args).
Proof.
  unfold syslog_msg, syslog_get_status, syslog_get_hidden_log, syslog_max_count. apply _.
Qed.
End messages.
