(* ===== verification/Dhcp.v ===== *)
(** * udhcp-0.9.8: messages of the DHCP server

    The constants of dhcpd.h, struct dhcpMessage of packet.h and the tables of
    options.c. *)
From S2P Require Import Prelude CLib Bytes.

(** ** Constants of dhcpd.h *)
Definition DHCP_MAGIC : Z := 0x63825363.
Definition DHCP_PADDING : Z := 0.
Definition DHCP_SUBNET : Z := 1.
Definition DHCP_ROUTER : Z := 3.
Definition DHCP_HOST_NAME : Z := 12.
Definition DHCP_REQUESTED_IP : Z := 50.
Definition DHCP_LEASE_TIME : Z := 51.
Definition DHCP_OPTION_OVER : Z := 52.
Definition DHCP_MESSAGE_TYPE : Z := 53.
Definition DHCP_SERVER_ID : Z := 54.
Definition DHCP_VENDOR : Z := 60.
Definition DHCP_END : Z := 255.

Definition BOOTREQUEST : Z := 1.
Definition BOOTREPLY : Z := 2.
Definition ETH_10MB : Z := 1.
Definition ETH_10MB_LEN : Z := 6.

Definition DHCPDISCOVER : Z := 1.
Definition DHCPOFFER : Z := 2.
Definition DHCPREQUEST : Z := 3.
Definition DHCPDECLINE : Z := 4.
Definition DHCPACK : Z := 5.
Definition DHCPNAK : Z := 6.
Definition DHCPRELEASE : Z := 7.
Definition DHCPINFORM : Z := 8.

Definition BROADCAST_FLAG : Z := 0x8000.
Definition OPTION_FIELD : Z := 0.
Definition FILE_FIELD : Z := 1.
Definition SNAME_FIELD : Z := 2.
Definition OPT_CODE : Z := 0.
Definition OPT_LEN : Z := 1.
Definition SERVER_PORT : Z := 67.
Definition CLIENT_PORT : Z := 68.

(** ** struct dhcpMessage *)
Record dhcpMessage := Msg {
  op : Z; htype : Z; hlen : Z; hops : Z;
  xid : Z; secs : Z; flags : Z;
  ciaddr : Z; yiaddr : Z; siaddr : Z; giaddr : Z;
  chaddr : bytes;          (** 16 *)
  sname : bytes;           (** 64 *)
  file : bytes;            (** 128 *)
  cookie : Z;
  options : bytes          (** 308 *)
}.

Record wf_message (m : dhcpMessage) : Prop := {
  wm_chaddr : length (chaddr m) = 16%nat;
  wm_sname : length (sname m) = 64%nat;
  wm_file : length (file m) = 128%nat;
  wm_options : length (options m) = 308%nat;
  wm_chaddr_b : is_bytes (chaddr m);
  wm_sname_b : is_bytes (sname m);
  wm_file_b : is_bytes (file m);
  wm_options_b : is_bytes (options m)
}.

Definition zero_message : dhcpMessage :=
  Msg 0 0 0 0 0 0 0 0 0 0 0 (replicate 16 0) (replicate 64 0) (replicate 128 0) 0
      (replicate 308 0).

Definition set_options (o : bytes) (m : dhcpMessage) : dhcpMessage :=
  Msg (op m) (htype m) (hlen m) (hops m) (xid m) (secs m) (flags m) (ciaddr m) (yiaddr m)
      (siaddr m) (giaddr m) (chaddr m) (sname m) (file m) (cookie m) o.
Definition set_flags (f : Z) (m : dhcpMessage) : dhcpMessage :=
  Msg (op m) (htype m) (hlen m) (hops m) (xid m) (secs m) f (ciaddr m) (yiaddr m)
      (siaddr m) (giaddr m) (chaddr m) (sname m) (file m) (cookie m) (options m).
Definition set_yiaddr (a : Z) (m : dhcpMessage) : dhcpMessage :=
  Msg (op m) (htype m) (hlen m) (hops m) (xid m) (secs m) (flags m) (ciaddr m) a
      (siaddr m) (giaddr m) (chaddr m) (sname m) (file m) (cookie m) (options m).

(** ** The tables of options.c *)
Definition OPTION_IP : Z := 1.
Definition OPTION_IP_PAIR : Z := 2.
Definition OPTION_STRING : Z := 3.
Definition OPTION_BOOLEAN : Z := 4.
Definition OPTION_U8 : Z := 5.
Definition OPTION_U16 : Z := 6.
Definition OPTION_S16 : Z := 7.
Definition OPTION_U32 : Z := 8.
Definition OPTION_S32 : Z := 9.
Definition TYPE_MASK : Z := 0x0F.
Definition OPTION_REQ : Z := 0x10.
Definition OPTION_LIST : Z := 0x20.

Record dhcp_option := Opt { o_name : str; o_flags : Z; o_code : Z }.

Definition option_table : list dhcp_option := [
  Opt (lit "subnet") (Z.lor OPTION_IP OPTION_REQ) 0x01;
  Opt (lit "timezone") OPTION_S32 0x02;
  Opt (lit "router") (Z.lor (Z.lor OPTION_IP OPTION_LIST) OPTION_REQ) 0x03;
  Opt (lit "timesvr") (Z.lor OPTION_IP OPTION_LIST) 0x04;
  Opt (lit "namesvr") (Z.lor OPTION_IP OPTION_LIST) 0x05;
  Opt (lit "dns") (Z.lor (Z.lor OPTION_IP OPTION_LIST) OPTION_REQ) 0x06;
  Opt (lit "logsvr") (Z.lor OPTION_IP OPTION_LIST) 0x07;
  Opt (lit "cookiesvr") (Z.lor OPTION_IP OPTION_LIST) 0x08;
  Opt (lit "lprsvr") (Z.lor OPTION_IP OPTION_LIST) 0x09;
  Opt (lit "hostname") (Z.lor OPTION_STRING OPTION_REQ) 0x0c;
  Opt (lit "bootsize") OPTION_U16 0x0d;
  Opt (lit "domain") (Z.lor OPTION_STRING OPTION_REQ) 0x0f;
  Opt (lit "swapsvr") OPTION_IP 0x10;
  Opt (lit "rootpath") OPTION_STRING 0x11;
  Opt (lit "ipttl") OPTION_U8 0x17;
  Opt (lit "mtu") OPTION_U16 0x1a;
  Opt (lit "broadcast") (Z.lor OPTION_IP OPTION_REQ) 0x1c;
  Opt (lit "discovery") OPTION_U8 0x1f;
  Opt (lit "ntpsrv") (Z.lor OPTION_IP OPTION_LIST) 0x2a;
  Opt (lit "wins") (Z.lor OPTION_IP OPTION_LIST) 0x2c;
  Opt (lit "requestip") OPTION_IP 0x32;
  Opt (lit "lease") OPTION_U32 0x33;
  Opt (lit "dhcptype") OPTION_U8 0x35;
  Opt (lit "serverid") OPTION_IP 0x36;
  Opt (lit "message") OPTION_STRING 0x38;
  Opt (lit "tftp") OPTION_STRING 0x42;
  Opt (lit "bootfile") OPTION_STRING 0x43
].

(** option_lengths[], by type. *)
Definition option_length (type : Z) : Z :=
  if type =? OPTION_IP then 4 else if type =? OPTION_IP_PAIR then 8
  else if type =? OPTION_BOOLEAN then 1 else if type =? OPTION_STRING then 1
  else if type =? OPTION_U8 then 1 else if type =? OPTION_U16 then 2
  else if type =? OPTION_S16 then 2 else if type =? OPTION_U32 then 4
  else if type =? OPTION_S32 then 4 else 0.

