(* ===== verification/DhcpOptions.v ===== *)
(** * udhcp-0.9.8/options.c: the option field of a message

    get_option walks the options of a received message, add_option_string and
    add_simple_option build the options of a reply, find_option and
    attach_option maintain the sorted list of configured options.  The wire
    format [encode] is the reference: on a field that holds an encoded list the
    walk finds the first option with the code, and an addition appends to the
    list or leaves the field alone. *)
From S2P Require Import Prelude CLib Bytes Dhcp.

(** The walk.  The result is the address of the data, as the bytes from there to
    the end of the array it points into, and the length byte. *)
Fixpoint get_option_loop (fuel : nat) (packet : dhcpMessage) (code : Z)
    (optionptr : bytes) (i length over curr : Z) : res (option (bytes * Z)) :=
  match fuel with
  | O => NoFuel
  | S fuel =>
      if length <=? i then mret None
      else
        c ← rd optionptr (i + OPT_CODE);
        if c =? code then
          l ← rd optionptr (i + OPT_LEN);
          if length <=? i + 1 + l then mret None
          else mret (Some (drop (Z.to_nat (i + 2)) optionptr, l))
        else if c =? DHCP_PADDING then
          get_option_loop fuel packet code optionptr (i + 1) length over curr
        else if c =? DHCP_OPTION_OVER then
          l ← rd optionptr (i + OPT_LEN);
          if length <=? i + 1 + l then mret None
          else
            over' ← rd optionptr (i + 3);
            l0 ← rd optionptr OPT_LEN;
            get_option_loop fuel packet code optionptr (i + (l0 + 2)) length over' curr
        else if c =? DHCP_END then
          if (curr =? OPTION_FIELD) && negb (Z.land over FILE_FIELD =? 0) then
            get_option_loop fuel packet code (file packet) 0 128 over FILE_FIELD
          else if (curr =? FILE_FIELD) && negb (Z.land over SNAME_FIELD =? 0) then
            get_option_loop fuel packet code (sname packet) 0 64 over SNAME_FIELD
          else mret None
        else
          l ← rd optionptr (OPT_LEN + i);
          get_option_loop fuel packet code optionptr (i + (l + 2)) length over curr
  end.

(** Every iteration takes a byte of one of the three fields. *)
Definition get_option (packet : dhcpMessage) (code : Z) : res (option (bytes * Z)) :=
  get_option_loop (S (308 + 128 + 64)) packet code (options packet) 0 308 0 OPTION_FIELD.

Fixpoint end_option_loop (fuel : nat) (optionptr : bytes) (i : Z) : res Z :=
  match fuel with
  | O => NoFuel
  | S fuel =>
      c ← rd optionptr i;
      if c =? DHCP_END then mret i
      else if c =? DHCP_PADDING then end_option_loop fuel optionptr (i + 1)
      else
        l ← rd optionptr (i + OPT_LEN);
        end_option_loop fuel optionptr (i + (l + 2))
  end.

Definition end_option (optionptr : bytes) : res Z :=
  end_option_loop (S (length optionptr)) optionptr 0.

(** Returns the result and the array. *)
Definition add_option_string (optionptr : bytes) (string : bytes) : res (Z * bytes) :=
  end_ ← end_option optionptr;
  l ← rd string OPT_LEN;
  if 308 <=? end_ + l + 2 + 1 then mret (0, optionptr)
  else
    optionptr ← blit optionptr end_ string (l + 2);
    optionptr ← wr optionptr (end_ + l + 2) DHCP_END;
    mret (l + 2, optionptr).

(** The length of an option by its code: the last entry of the table counts. *)
Definition simple_length (code : Z) : Z :=
  foldl (λ length o, if o_code o =? code
                     then option_length (Z.land (o_flags o) TYPE_MASK) else length)
    0 option_table.

Definition add_simple_option (optionptr : bytes) (code : Z) (data : Z) : res (Z * bytes) :=
  let length := simple_length code in
  if length =? 0 then mret (0, optionptr)
  else if 4 <? length then Fault Overflow
  else add_option_string optionptr (code :: length :: le_bytes (Z.to_nat length) data).

(** ** The configured options: the [data] arrays of the list, in order *)
Fixpoint find_option (opt_list : list bytes) (code : Z) : res (option bytes) :=
  match opt_list with
  | [] => mret None
  | data :: next =>
      c ← rd data OPT_CODE;
      if c <? code then find_option next code
      else if c =? code then mret (Some data) else mret None
  end.

(** The list with [f] applied to the option that find_option returns. *)
Fixpoint update_option (opt_list : list bytes) (code : Z) (f : bytes → bytes) : list bytes :=
  match opt_list with
  | [] => []
  | data :: next =>
      if default 0 (head data) <? code then data :: update_option next code f
      else f data :: next
  end.

Fixpoint insert_option (opt_list : list bytes) (new : bytes) (code : Z) : res (list bytes) :=
  match opt_list with
  | [] => mret [new]
  | data :: next =>
      c ← rd data OPT_CODE;
      if c <? code then next' ← insert_option next new code; mret (data :: next')
      else mret (new :: opt_list)
  end.

Definition attach_option (opt_list : list bytes) (option : dhcp_option) (buffer : bytes)
    (length : Z) : res (list bytes) :=
  existing ← find_option opt_list (o_code option);
  if Z.of_nat (Datatypes.length buffer) <? length then Fault Overflow
  else match existing with
  | Some data =>
      if Z.land (o_flags option) OPTION_LIST =? 0 then mret opt_list
      else
        l ← rd data OPT_LEN;
        if l + length <=? 255 then
          mret (update_option opt_list (o_code option) (λ data,
            take 1 data ++ [u8 (l + length)] ++ drop 2 (take (Z.to_nat (l + 2)) data)
              ++ take (Z.to_nat length) buffer))
        else mret opt_list
  | None =>
      insert_option opt_list (o_code option :: u8 length :: take (Z.to_nat length) buffer)
        (o_code option)
  end.

(** ** The wire format *)
Definition encode_opt (o : Z * bytes) : bytes := o.1 :: Z.of_nat (length o.2) :: o.2.
Definition encode (os : list (Z * bytes)) : bytes := concat (encode_opt <$> os).

Definition wf_opt (o : Z * bytes) : Prop :=
  0 < o.1 < 255 ∧ o.1 ≠ DHCP_OPTION_OVER ∧ is_bytes o.2 ∧ (length o.2 < 256)%nat.

(** The 308 bytes of a field that holds the options [os]. *)
Record holds (a : bytes) (os : list (Z * bytes)) : Prop := {
  ho_rest : ∃ rest, a = encode os ++ DHCP_END :: rest;
  ho_length : length a = 308%nat;
  ho_bytes : is_bytes a;
  ho_opts : Forall wf_opt os
}.

Fixpoint lookup_opt (code : Z) (os : list (Z * bytes)) : option bytes :=
  match os with
  | [] => None
  | (c, d) :: os' => if c =? code then Some d else lookup_opt code os'
  end.

(** A list of options that is sorted by code, without duplicates. *)
Fixpoint sorted_above (lo : Z) (os : list (Z * bytes)) : Prop :=
  match os with
  | [] => True
  | (c, d) :: os' => lo < c ∧ (length d < 256)%nat ∧ sorted_above c os'
  end.

(** ** Termination and bounds of get_option *)

(** The bytes that the walk can still visit. *)
Definition later (curr : Z) : Z :=
  if curr =? OPTION_FIELD then 128 + 64 else if curr =? FILE_FIELD then 64 else 0.

(** The result points into an array of bytes and its length stays inside it. *)
Definition in_bounds (r : res (option (bytes * Z))) : Prop :=
  match r with
  | Ok (Some (data, l)) => 0 ≤ l ≤ Z.of_nat (length data) ∧ is_bytes data
  | Ok None | Fault Overflow => True
  | _ => False
  end.

Lemma get_option_loop_bounds fuel packet code a i len over curr :
  wf_message packet → is_bytes a → len = Z.of_nat (length a) → 0 ≤ i →
  Z.max 0 (len - i) + later curr < Z.of_nat fuel →
  in_bounds (get_option_loop fuel packet code a i len over curr).
Proof.
  intros Hwf. revert a i len over curr.
  induction fuel as [|fuel IH]; intros a i len over curr Ha Hlen Hi Hf.
  { unfold later in Hf. repeat case_match; lia. }
  cbn [get_option_loop]. destruct (Z.leb_spec len i) as [|Hlt]; [done|].
  unfold mbind, res_bind, mret, res_ret.
  destruct (rd_cases a (i + OPT_CODE)) as [(c & -> & _)| ->]; [|done].
  destruct (c =? code).
  { destruct (rd_cases a (i + OPT_LEN)) as [(l & Hl & _)| ->]; [|done]. rewrite Hl.
    apply rd_byte in Hl as [Hl0 _]; [|done].
    destruct (Z.leb_spec len (i + 1 + l)); [done|]. simpl. rewrite length_drop.
    split; [lia|by apply Forall_drop]. }
  destruct (c =? DHCP_PADDING); [apply IH; [done..|lia|lia]|].
  destruct (c =? DHCP_OPTION_OVER).
  { destruct (rd_cases a (i + OPT_LEN)) as [(l & -> & _)| ->]; [|done].
    destruct (len <=? i + 1 + l); [done|].
    destruct (rd_cases a (i + 3)) as [(o & -> & _)| ->]; [|done].
    destruct (rd_cases a OPT_LEN) as [(l0 & Hl0 & _)| ->]; [|done]. rewrite Hl0.
    apply rd_byte in Hl0 as [? _]; [|done]. apply IH; [done..|lia|lia]. }
  destruct (c =? DHCP_END).
  { destruct (Z.eqb_spec curr OPTION_FIELD) as [->|].
    - destruct (negb _); cbn [andb]; [|done].
      apply IH; [apply Hwf|by rewrite (wm_file _ Hwf)|lia|].
      change (later OPTION_FIELD) with 192 in Hf. change (later FILE_FIELD) with 64. lia.
    - cbn [andb]. destruct (Z.eqb_spec curr FILE_FIELD) as [->|]; [|done].
      destruct (negb _); cbn [andb]; [|done].
      apply IH; [apply Hwf|by rewrite (wm_sname _ Hwf)|lia|].
      change (later FILE_FIELD) with 64 in Hf. change (later SNAME_FIELD) with 0. lia. }
  destruct (rd_cases a (OPT_LEN + i)) as [(l & Hl & _)| ->]; [|done]. rewrite Hl.
  apply rd_byte in Hl as [? _]; [|done]. apply IH; [done..|lia|lia].
Qed.

Lemma get_option_bounds packet code : wf_message packet → in_bounds (get_option packet code).
Proof.
  intros Hwf. apply get_option_loop_bounds; [done|apply Hwf| |done|].
  - by rewrite (wm_options _ Hwf).
  - change (later OPTION_FIELD) with 192. lia.
Qed.

(** ** The walk on an encoded field *)
Lemma encode_app os os' : encode (os ++ os') = encode os ++ encode os'.
Proof. unfold encode. by rewrite fmap_app, concat_app. Qed.

Lemma encode_cons o os : encode (o :: os) = encode_opt o ++ encode os.
Proof. done. Qed.

Lemma rd_app_1 a b c d : rd (a ++ c :: d :: b) (Z.of_nat (length a) + 1) = Ok d.
Proof.
  pose proof (rd_app (a ++ [c]) b d) as H. rewrite <- (assoc_L (++)) in H. simpl in H.
  rewrite <- H. f_equal. rewrite length_app. simpl. lia.
Qed.

Lemma encode_opt_length o : length (encode_opt o) = (length o.2 + 2)%nat.
Proof. simpl. lia. Qed.

Lemma drop_opt (a : bytes) c l b : drop (length a + 2)%nat (a ++ c :: l :: b) = b.
Proof. by rewrite drop_app_add. Qed.

Lemma get_option_loop_encoded fuel packet code a pre os rest :
  a = pre ++ encode os ++ DHCP_END :: rest → length a = 308%nat → Forall wf_opt os →
  (length os < fuel)%nat →
  code ≠ DHCP_END →
  ∃ data, get_option_loop fuel packet code a (Z.of_nat (length pre)) 308 0 OPTION_FIELD =
    Ok (match lookup_opt code os with
        | Some d => Some (d ++ data, Z.of_nat (length d)) | None => None end).
Proof.
  intros Ha Hlen Hos. revert pre fuel Ha.
  induction Hos as [|[c d] os (Hc & Hov & Hd & Hdl) Hos IH]; intros pre [|fuel] Ha Hf Hcode;
    simpl in Hf; try lia; cbn [get_option_loop lookup_opt].
  - assert (length pre < 308)%nat.
    { rewrite Ha in Hlen. rewrite length_app in Hlen. simpl in Hlen. lia. }
    rewrite (proj2 (Z.leb_gt _ _)) by lia. exists [].
    assert (rd a (Z.of_nat (length pre) + OPT_CODE) = Ok DHCP_END) as ->.
    { rewrite Ha, Z.add_0_r. apply rd_app. }
    unfold mbind, res_bind. by rewrite (proj2 (Z.eqb_neq _ _)) by done.
  - assert (length pre + length d + 2 < 308)%nat as Hl308.
    { rewrite Ha, encode_cons in Hlen. rewrite !length_app, encode_opt_length in Hlen.
      simpl in Hlen. lia. }
    rewrite (proj2 (Z.leb_gt _ _)) by lia. simpl in Hc, Hov, Hd, Hdl.
    assert (rd a (Z.of_nat (length pre) + OPT_CODE) = Ok c) as ->.
    { rewrite Ha, Z.add_0_r. apply rd_app. }
    assert (rd a (Z.of_nat (length pre) + OPT_LEN) = Ok (Z.of_nat (length d))) as Hl.
    { rewrite Ha. apply rd_app_1. }
    unfold mbind, res_bind. rewrite (Z.add_comm OPT_LEN), Hl.
    destruct (Z.eqb_spec c code) as [->|Hne].
    + rewrite (proj2 (Z.leb_gt _ _)) by lia. exists (encode os ++ DHCP_END :: rest).
      unfold mret, res_ret. do 3 f_equal.
      replace (Z.to_nat (Z.of_nat (length pre) + 2)) with (length pre + 2)%nat by lia.
      rewrite Ha, encode_cons. unfold encode_opt. simpl. rewrite drop_opt.
      by rewrite <- (assoc_L (++)).
    + rewrite !(proj2 (Z.eqb_neq _ _)) by (unfold DHCP_PADDING, DHCP_END in *; lia).
      destruct (IH (pre ++ encode_opt (c, d)) fuel) as [data Hdata]; [|lia|done|].
      { by rewrite Ha, encode_cons, <- !(assoc_L (++)). }
      exists data. rewrite <- Hdata. f_equal. rewrite length_app, encode_opt_length. simpl. lia.
Qed.

Lemma encode_length os : (2 * length os ≤ length (encode os))%nat.
Proof.
  induction os as [|o os IH]; [done|]. rewrite encode_cons, length_app, encode_opt_length.
  simpl. lia.
Qed.

Lemma get_option_encoded packet code os :
  holds (options packet) os → code ≠ DHCP_END →
  ∃ data, get_option packet code =
    Ok (match lookup_opt code os with
        | Some d => Some (d ++ data, Z.of_nat (length d)) | None => None end).
Proof.
  intros [[rest Hrest] Hlen Hb Hos] Hcode.
  apply (get_option_loop_encoded _ packet code _ [] os rest Hrest Hlen Hos); [|done].
  pose proof (encode_length os). rewrite Hrest, length_app in Hlen. simpl in Hlen. lia.
Qed.

(** ** Additions *)
Lemma end_option_loop_encoded fuel a pre os rest :
  a = pre ++ encode os ++ DHCP_END :: rest → Forall wf_opt os → (length os < fuel)%nat →
  end_option_loop fuel a (Z.of_nat (length pre)) = Ok (Z.of_nat (length (pre ++ encode os))).
Proof.
  intros Ha Hos. revert pre fuel Ha.
  induction Hos as [|[c d] os (Hc & Hov & Hd & Hdl) Hos IH]; intros pre [|fuel] Ha Hf;
    simpl in Hf; try lia; cbn [end_option_loop].
  - assert (rd a (Z.of_nat (length pre)) = Ok DHCP_END) as -> by (rewrite Ha; apply rd_app).
    by rewrite app_nil_r.
  - assert (rd a (Z.of_nat (length pre)) = Ok c) as -> by (rewrite Ha; apply rd_app).
    assert (rd a (Z.of_nat (length pre) + OPT_LEN) = Ok (Z.of_nat (length d))) as Hl
      by (rewrite Ha; apply rd_app_1).
    simpl in Hc, Hov, Hd, Hdl. unfold mbind, res_bind. rewrite Hl.
    rewrite !(proj2 (Z.eqb_neq _ _)) by (unfold DHCP_PADDING, DHCP_END in *; lia).
    rewrite encode_cons, (assoc_L (++)). rewrite <- (IH (pre ++ encode_opt (c, d)) fuel).
    + f_equal. rewrite length_app, encode_opt_length. simpl. lia.
    + by rewrite Ha, encode_cons, <- !(assoc_L (++)).
    + lia.
Qed.

Lemma end_option_holds a os : holds a os → end_option a = Ok (Z.of_nat (length (encode os))).
Proof.
  intros [[rest Hrest] Hlen Hb Hos].
  apply (end_option_loop_encoded _ a [] os rest Hrest Hos).
  pose proof (encode_length os). rewrite Hrest, length_app. simpl. lia.
Qed.

(** An option that fits is appended; otherwise nothing changes. *)
Lemma add_option_string_holds a os c d extra :
  holds a os → wf_opt (c, d) →
  if decide (length (encode os) + length d + 3 < 308)%nat
  then ∃ a', add_option_string a (encode_opt (c, d) ++ extra) =
         Ok (Z.of_nat (length d) + 2, a') ∧ holds a' (os ++ [(c, d)])
  else add_option_string a (encode_opt (c, d) ++ extra) = Ok (0, a).
Proof.
  intros Hh Ho. pose proof (end_option_holds a os Hh) as Hend.
  destruct Hh as [[rest Hrest] Hlen Hb Hos]. destruct Ho as (Hc & Hov & Hd & Hdl).
  simpl in Hc, Hov, Hd, Hdl. unfold add_option_string. rewrite Hend.
  set (n := length (encode os)) in *. unfold mbind, res_bind, mret, res_ret.
  replace (rd (encode_opt (c, d) ++ extra) OPT_LEN) with (Ok (Z.of_nat (length d))) by done.
  destruct (decide _) as [Hfit|Hfit].
  2:{ by rewrite (proj2 (Z.leb_le _ _)) by lia. }
  rewrite (proj2 (Z.leb_gt _ _)) by lia. unfold blit.
  rewrite !length_app, encode_opt_length. cbn [snd].
  rewrite !(proj2 (Z.ltb_ge _ _)) by lia. cbn [orb].
  replace (Z.to_nat (Z.of_nat (length d) + 2)) with (length (encode_opt (c, d)))
    by (rewrite encode_opt_length; simpl; lia).
  rewrite take_app_length, Nat2Z.id.
  assert (take n a = encode os) as ->.
  { rewrite Hrest. unfold n. by rewrite take_app_length. }
  set (tail := drop _ a). assert (length tail = 308 - (n + length d + 2))%nat as Htl.
  { unfold tail. rewrite length_drop. lia. }
  destruct tail as [|x tl] eqn:Et; [simpl in Htl; lia|].
  unfold wr. rewrite !length_app, encode_opt_length. cbn [snd length].
  rewrite (proj2 (Z.ltb_ge _ _)), (proj2 (Z.leb_gt _ _)) by (simpl in Htl; lia). cbn [orb].
  eexists. split; [done|].
  replace (Z.to_nat (Z.of_nat n + Z.of_nat (length d) + 2))
    with (length (encode os ++ encode_opt (c, d)) + 0)%nat
    by (rewrite length_app, encode_opt_length; simpl; lia).
  rewrite (assoc_L (++)), insert_app_r. cbn.
  split.
  - exists tl. rewrite encode_app, encode_cons. simpl. by rewrite app_nil_r.
  - rewrite !length_app, encode_opt_length. simpl in *. lia.
  - assert (is_bytes (x :: tl)) as Hbt.
    { rewrite <- Et. by apply Forall_drop. }
    apply Forall_cons in Hbt as [_ Hbt].
    rewrite Hrest in Hb. apply is_bytes_app in Hb as [Hbe _].
    rewrite !is_bytes_app. split_and!; [done| |].
    + repeat constructor; simpl; try lia. done.
    + constructor; [|done]. unfold is_byte, DHCP_END. lia.
  - apply Forall_app. split; [done|]. by constructor.
Qed.

(** The options that the server adds by number. *)
Lemma add_simple_option_holds a os code z :
  holds a os → 0 < code < 255 → code ≠ DHCP_OPTION_OVER → 0 < simple_length code ≤ 4 →
  let d := le_bytes (Z.to_nat (simple_length code)) z in
  if decide (length (encode os) + length d + 3 < 308)%nat
  then ∃ a', add_simple_option a code z = Ok (simple_length code + 2, a') ∧
         holds a' (os ++ [(code, d)])
  else add_simple_option a code z = Ok (0, a).
Proof.
  intros Hh Hc Hov Hl d. unfold add_simple_option.
  rewrite (proj2 (Z.eqb_neq _ _)), (proj2 (Z.ltb_ge _ _)) by lia.
  assert (Z.of_nat (length d) = simple_length code) as Hd.
  { unfold d. rewrite le_bytes_length. lia. }
  pose proof (add_option_string_holds a os code d [] Hh) as H.
  rewrite app_nil_r in H. unfold encode_opt in H. simpl in H. rewrite Hd in H. apply H.
  split_and!; simpl; [lia..|done|apply le_bytes_is_bytes|lia].
Qed.

(** ** The configured options *)
Lemma sorted_weaken lo lo' os : lo' ≤ lo → sorted_above lo os → sorted_above lo' os.
Proof. destruct os as [|[c d] os]; simpl; [done|]. intros ? (? & ? & ?). split_and!; [lia|done..]. Qed.

Lemma lookup_opt_below lo os code : sorted_above lo os → code ≤ lo → lookup_opt code os = None.
Proof.
  revert lo. induction os as [|[c d] os IH]; intros lo; simpl; [done|].
  intros (? & _ & Hs) ?. rewrite (proj2 (Z.eqb_neq _ _)) by lia. apply (IH c); [done|lia].
Qed.

Lemma find_option_spec lo os code :
  sorted_above lo os →
  find_option (encode_opt <$> os) code =
    Ok ((λ d, encode_opt (code, d)) <$> lookup_opt code os).
Proof.
  revert lo. induction os as [|[c d] os IH]; intros lo; [done|].
  intros (_ & _ & Hs). rewrite fmap_cons. cbn [find_option lookup_opt].
  change (rd (encode_opt (c, d)) OPT_CODE) with (Ok c). unfold mbind, res_bind.
  destruct (Z.ltb_spec c code).
  - rewrite (proj2 (Z.eqb_neq _ _)) by lia. by apply (IH c).
  - destruct (Z.eqb_spec c code) as [->|]; [done|].
    rewrite (lookup_opt_below c); [done|done|lia].
Qed.

Lemma insert_option_spec lo os code d :
  sorted_above lo os → lo < code → (length d < 256)%nat → lookup_opt code os = None →
  ∃ os', insert_option (encode_opt <$> os) (encode_opt (code, d)) code = Ok (encode_opt <$> os') ∧
    sorted_above lo os' ∧
    ∀ c, lookup_opt c os' = if c =? code then Some d else lookup_opt c os.
Proof.
  revert lo. induction os as [|[c e] os IH]; intros lo.
  - intros _ Hlo Hd _. exists [(code, d)]. split; [done|]. split; [done|].
    intros c. simpl. by rewrite Z.eqb_sym.
  - intros (Hlc & He & Hs) Hlo Hd Hnone. rewrite fmap_cons.
    cbn [insert_option lookup_opt] in *.
    change (rd (encode_opt (c, e)) OPT_CODE) with (Ok c). unfold mbind, res_bind.
    destruct (Z.eqb_spec c code) as [|Hne]; [done|]. destruct (Z.ltb_spec c code).
    + destruct (IH c Hs ltac:(lia) Hd Hnone) as (os' & -> & Hs' & Hl').
      exists ((c, e) :: os'). split; [done|]. split; [done|]. intros x. simpl.
      destruct (Z.eqb_spec c x) as [<-|]; [by rewrite (proj2 (Z.eqb_neq _ _)) by lia|apply Hl'].
    + exists ((code, d) :: (c, e) :: os). split; [done|].
      split; [simpl; split_and!; [lia|done|lia|done|done]|].
      intros x. simpl. by rewrite (Z.eqb_sym code).
Qed.

(** update_option replaces the data of the option that is there. *)
Lemma update_option_spec lo os code d d' f :
  sorted_above lo os → lookup_opt code os = Some d →
  f (encode_opt (code, d)) = encode_opt (code, d') → (length d' < 256)%nat →
  ∃ os', update_option (encode_opt <$> os) code f = encode_opt <$> os' ∧
    sorted_above lo os' ∧
    ∀ c, lookup_opt c os' = if c =? code then Some d' else lookup_opt c os.
Proof.
  intros Hs Hd Hf Hd'. revert lo Hs Hd. induction os as [|[c e] os IH]; intros lo; [done|].
  intros (Hlc & He & Hs) Hd. rewrite fmap_cons. cbn [update_option lookup_opt] in *.
  change (default 0 (head (encode_opt (c, e)))) with c. destruct (Z.ltb_spec c code).
  - rewrite (proj2 (Z.eqb_neq _ _)) in Hd by lia.
    destruct (IH c Hs Hd) as (os' & -> & Hs' & Hl').
    exists ((c, e) :: os'). split; [done|]. split; [done|]. intros x. simpl.
    destruct (Z.eqb_spec c x) as [<-|]; [by rewrite (proj2 (Z.eqb_neq _ _)) by lia|apply Hl'].
  - destruct (Z.eqb_spec c code) as [->|].
    2:{ rewrite (lookup_opt_below c) in Hd; [done|done|lia]. }
    injection Hd as ->. exists ((code, d') :: os). split; [by rewrite fmap_cons, <- Hf|].
    split; [done|]. intros x. simpl. rewrite (Z.eqb_sym code). by destruct (x =? code).
Qed.

(** What the option holds after [data] has been attached. *)
Definition attached (is_list : bool) (old : option bytes) (data : bytes) : bytes :=
  match old with
  | Some d => if is_list && (length d + length data <=? 255)%nat then d ++ data else d
  | None => data
  end.

Section attach.
Context (os : list (Z * bytes)) (option : dhcp_option) (buffer : bytes) (n : nat).
Hypothesis Hs : sorted_above 0 os.
Hypothesis Hcode : 0 < o_code option.
Hypothesis Hn : (n < 256)%nat.
Hypothesis Hbuf : (n ≤ length buffer)%nat.
Let is_list := negb (Z.land (o_flags option) OPTION_LIST =? 0).
Let data := take n buffer.

(** The list maps the code to [d] and agrees with [os] elsewhere. *)
Definition updates (d : bytes) (os' : list (Z * bytes)) : Prop :=
  sorted_above 0 os' ∧
  ∀ c, lookup_opt c os' = if c =? o_code option then Some d else lookup_opt c os.

Lemma attach_new :
  lookup_opt (o_code option) os = None →
  ∃ os', attach_option (encode_opt <$> os) option buffer (Z.of_nat n) = Ok (encode_opt <$> os') ∧
    updates data os'.
Proof.
  intros Hnone. unfold attach_option. rewrite (find_option_spec 0), Hnone by done.
  assert (length data = n) as Hdata by (unfold data; rewrite length_take; lia).
  unfold mbind, res_bind. cbn [fmap option_fmap option_map].
  rewrite (proj2 (Z.ltb_ge _ _)), Nat2Z.id by lia. fold data.
  replace (u8 (Z.of_nat n)) with (Z.of_nat (length data)).
  - apply insert_option_spec; try done. lia.
  - unfold u8. rewrite Hdata, Z.mod_small by lia. done.
Qed.

Lemma attach_more d :
  lookup_opt (o_code option) os = Some d → is_list = true → (length d + n ≤ 255)%nat →
  ∃ os', attach_option (encode_opt <$> os) option buffer (Z.of_nat n) = Ok (encode_opt <$> os') ∧
    updates (d ++ data) os'.
Proof.
  intros Hd Hlist Hfit. unfold attach_option. rewrite (find_option_spec 0), Hd by done.
  assert (length data = n) as Hdata by (unfold data; rewrite length_take; lia).
  unfold mbind, res_bind. cbn [fmap option_fmap option_map].
  rewrite (proj2 (Z.ltb_ge _ _)), Nat2Z.id by lia. fold data.
  unfold is_list in Hlist. destruct (_ =? 0); [done|].
  change (rd (encode_opt (o_code option, d)) OPT_LEN) with (Ok (Z.of_nat (length d))).
  cbv iota beta. rewrite (proj2 (Z.leb_le _ _)) by lia.
  destruct (update_option_spec 0 os (o_code option) d (d ++ data) (λ data0,
      take 1 data0 ++ [u8 (Z.of_nat (length d) + Z.of_nat n)] ++
      drop 2 (take (Z.to_nat (Z.of_nat (length d) + 2)) data0) ++ data) Hs Hd)
    as (os' & E & Hupd).
  - unfold u8. rewrite Z.mod_small by lia.
    replace (Z.to_nat (Z.of_nat (length d) + 2)) with (S (S (length d))) by lia.
    unfold encode_opt. cbn -[Z.of_nat]. rewrite take_ge, length_app by lia.
    do 2 f_equal. lia.
  - rewrite length_app. lia.
  - exists os'. split; [by rewrite <- E|done].
Qed.

Lemma attach_ignored d :
  lookup_opt (o_code option) os = Some d → is_list = false ∨ (255 < length d + n)%nat →
  attach_option (encode_opt <$> os) option buffer (Z.of_nat n) = Ok (encode_opt <$> os).
Proof.
  intros Hd Hno. unfold attach_option. rewrite (find_option_spec 0), Hd by done.
  unfold mbind, res_bind. cbn [fmap option_fmap option_map].
  rewrite (proj2 (Z.ltb_ge _ _)) by lia. unfold is_list in Hno.
  destruct (_ =? 0); [done|]. destruct Hno as [|Hno]; [done|].
  change (rd (encode_opt (o_code option, d)) OPT_LEN) with (Ok (Z.of_nat (length d))).
  cbv iota beta. by rewrite (proj2 (Z.leb_gt _ _)) by lia.
Qed.

Lemma attach_option_spec :
  ∃ os', attach_option (encode_opt <$> os) option buffer (Z.of_nat n) = Ok (encode_opt <$> os') ∧
    updates (attached is_list (lookup_opt (o_code option) os) data) os'.
Proof.
  destruct (lookup_opt (o_code option) os) as [d|] eqn:Ed; [|by apply attach_new].
  assert (length data = n) as Hdata by (unfold data; rewrite length_take; lia).
  unfold attached. rewrite Hdata.
  destruct (is_list && (length d + n <=? 255)%nat) eqn:E.
  - apply andb_true_iff in E as [E1 E2]. apply attach_more; [done..|]. by apply Nat.leb_le.
  - exists os. split.
    + apply (attach_ignored d); [done|].
      apply andb_false_iff in E as [|E%Nat.leb_gt]; [by left|by right].
    + split; [done|]. intros c. by destruct (Z.eqb_spec c (o_code option)) as [->|].
Qed.
End attach.
