(* ===== verification/DhcpPacket.v ===== *)
(** * udhcp-0.9.8/packet.c: construction and reception of messages

    The header of a message, the Internet checksum, the raw IP/UDP datagram that
    carries a reply, and the checks on a received message.  The sockets are
    outside of the model: raw_packet and kernel_packet return the datagram and
    its destination. *)
From S2P Require Import Prelude CLib Bytes Dhcp DhcpOptions.

Definition init_header (type : Z) : res dhcpMessage :=
  let op :=
    if (type =? DHCPDISCOVER) || (type =? DHCPREQUEST) || (type =? DHCPRELEASE)
       || (type =? DHCPINFORM) then BOOTREQUEST
    else if (type =? DHCPOFFER) || (type =? DHCPACK) || (type =? DHCPNAK) then BOOTREPLY
    else 0 in
  let opts := <[0%nat := DHCP_END]> (replicate 308 0) in
  '(_, opts) ← add_simple_option opts DHCP_MESSAGE_TYPE type;
  mret (Msg op ETH_10MB ETH_10MB_LEN 0 0 0 0 0 0 0 0 (replicate 16 0) (replicate 64 0)
            (replicate 128 0) (htonl DHCP_MAGIC) opts).

(** What read() on the socket gives: an error or the message, with the bytes
    that were not received zero. *)
Definition broken_vendor : bytes := [77; 83; 70; 84; 32; 57; 56].   (** "MSFT 98" *)

Definition get_packet (input : option (Z * dhcpMessage)) : res (Z * dhcpMessage) :=
  match input with
  | None => mret (-1, zero_message)
  | Some (n, packet) =>
      if negb (ntohl (cookie packet) =? DHCP_MAGIC) then mret (-2, packet)
      else if op packet =? BOOTREQUEST then
        vendor ← get_option packet DHCP_VENDOR;
        match vendor with
        | Some (data, l) =>
            if (l =? 7) && bool_decide (take 7 data = broken_vendor)
            then mret (n, set_flags (Z.lor (flags packet) (htons BROADCAST_FLAG)) packet)
            else mret (n, packet)
        | None => mret (n, packet)
        end
      else mret (n, packet)
  end.

(** ** The Internet checksum *)
Fixpoint sum_words (sum : Z) (a : bytes) : Z :=
  match a with
  | b0 :: b1 :: a' => sum_words (i32 (sum + (b0 + 256 * b1))) a'
  | [b] => i32 (sum + b)
  | [] => sum
  end.

Fixpoint fold_sum (fuel : nat) (sum : Z) : res Z :=
  match fuel with
  | O => NoFuel
  | S fuel =>
      if Z.shiftr sum 16 =? 0 then mret sum
      else fold_sum fuel (Z.land sum 0xffff + Z.shiftr sum 16)
  end.

Definition checksum (a : bytes) : res Z :=
  sum ← fold_sum 3 (sum_words 0 a);
  mret (u16 (Z.lnot sum)).

(** ** Datagrams *)
Definition msg_bytes (m : dhcpMessage) : bytes :=
  [op m; htype m; hlen m; hops m] ++ le_bytes 4 (xid m) ++ le_bytes 2 (secs m)
  ++ le_bytes 2 (flags m) ++ le_bytes 4 (ciaddr m) ++ le_bytes 4 (yiaddr m)
  ++ le_bytes 4 (siaddr m) ++ le_bytes 4 (giaddr m) ++ chaddr m ++ sname m ++ file m
  ++ le_bytes 4 (cookie m) ++ options m.

Definition IPPROTO_UDP : Z := 17.
Definition IPVERSION : Z := 4.
Definition IPDEFTTL : Z := 64.

Definition ip_bytes (ihl_version tot_len ttl check saddr daddr : Z) : bytes :=
  [ihl_version; 0] ++ le_bytes 2 tot_len ++ [0; 0; 0; 0] ++ [ttl; IPPROTO_UDP]
  ++ le_bytes 2 check ++ le_bytes 4 saddr ++ le_bytes 4 daddr.

Definition udp_bytes (source dest len check : Z) : bytes :=
  le_bytes 2 source ++ le_bytes 2 dest ++ le_bytes 2 len ++ le_bytes 2 check.

(** The IP datagram that is given to sendto(). *)
Definition raw_packet (payload : dhcpMessage) (source_ip source_port dest_ip dest_port : Z)
    : res bytes :=
  let udp_len := htons (8 + 548) in
  udp_check ← checksum (ip_bytes 0 udp_len 0 0 source_ip dest_ip
                 ++ udp_bytes (htons source_port) (htons dest_port) udp_len 0
                 ++ msg_bytes payload);
  let tot_len := htons (20 + 8 + 548) in
  let ihl_version := Z.lor (Z.shiftr 20 2) (Z.shiftl IPVERSION 4) in
  ip_check ← checksum (ip_bytes ihl_version tot_len IPDEFTTL 0 source_ip dest_ip);
  mret (ip_bytes ihl_version tot_len IPDEFTTL ip_check source_ip dest_ip
        ++ udp_bytes (htons source_port) (htons dest_port) udp_len udp_check
        ++ msg_bytes payload).

(** ** Lemmas on the checksum *)
Fixpoint total (a : bytes) : Z :=
  match a with
  | b0 :: b1 :: a' => b0 + 256 * b1 + total a'
  | [b] => b
  | [] => 0
  end.

(** Induction by two elements. *)
Lemma bytes_ind2 (P : bytes → Prop) :
  P [] → (∀ b, P [b]) → (∀ b0 b1 a, P a → P (b0 :: b1 :: a)) → ∀ a, P a.
Proof.
  intros H0 H1 H2. fix IH 1. intros [|b0 [|b1 a]]; [done|done|]. apply H2, IH.
Qed.

Lemma total_range a : is_bytes a → 0 ≤ total a ≤ 65535 * ((Z.of_nat (length a) + 1) / 2).
Proof.
  induction a as [|b|b0 b1 a IH] using bytes_ind2; intros Ha; cbn [total length].
  - done.
  - apply Forall_cons in Ha as [Hb _]. unfold is_byte in Hb.
    change ((Z.of_nat 1 + 1) / 2) with 1. lia.
  - apply Forall_cons in Ha as [Hb0 Ha]. apply Forall_cons in Ha as [Hb1 Ha].
    unfold is_byte in *. specialize (IH Ha).
    replace (Z.of_nat (S (S (length a))) + 1) with (Z.of_nat (length a) + 1 + 1 * 2) by lia.
    rewrite Z.div_add by lia. lia.
Qed.

Lemma sum_words_total s a :
  is_bytes a → 0 ≤ s → s + total a < 2 ^ 31 → sum_words s a = s + total a.
Proof.
  revert s. induction a as [|b|b0 b1 a IH] using bytes_ind2; intros s Ha Hs Hlt;
    cbn [sum_words total] in *; [lia| |].
  - apply Forall_cons in Ha as [Hb _]. unfold is_byte in Hb. apply i32_id. split; lia.
  - apply Forall_cons in Ha as [Hb0 Ha]. apply Forall_cons in Ha as [Hb1 Ha].
    unfold is_byte in *. pose proof (total_range a Ha).
    rewrite i32_id by (split; lia). rewrite IH; [lia|done|lia|lia].
Qed.

(** The folded sum: a 16-bit number that is congruent to the sum, and zero only
    when the sum is. *)
Lemma fold_sum_spec s :
  0 ≤ s < 2 ^ 31 →
  ∃ r, fold_sum 3 s = Ok r ∧ 0 ≤ r ≤ 65535 ∧ (r - s) mod 65535 = 0 ∧ (0 < s → 0 < r).
Proof.
  intros Hs.
  assert (∀ x, 0 ≤ x → ∃ q r, x = 65536 * q + r ∧ 0 ≤ r < 65536 ∧ 0 ≤ q ∧
    Z.shiftr x 16 = q ∧ Z.land x 65535 = r) as Hsplit.
  { intros x Hx. exists (x / 65536), (x mod 65536).
    rewrite Z.shiftr_div_pow2 by lia. change (2 ^ 16) with 65536.
    pose proof (Z.land_ones x 16 ltac:(lia)) as E.
    change (Z.ones 16) with 65535 in E. change (2 ^ 16) with 65536 in E. rewrite E.
    pose proof (Z.div_mod x 65536 ltac:(lia)). pose proof (Z.mod_pos_bound x 65536 ltac:(lia)).
    split_and!; lia. }
  assert (∀ x q r, x = 65536 * q + r → (q + r - x) mod 65535 = 0) as Hcong.
  { intros x q r ->. replace (q + r - (65536 * q + r)) with ((- q) * 65535) by lia.
    apply Z.mod_mul. lia. }
  destruct (Hsplit s ltac:(lia)) as (q1 & r1 & E1 & Hr1 & Hq1 & Es1 & El1).
  cbn [fold_sum]. rewrite Es1, El1. destruct (Z.eqb_spec q1 0) as [->|Hne1].
  { exists s. split; [done|]. split; [lia|]. split; [by rewrite Z.sub_diag|done]. }
  set (s2 := r1 + q1). destruct (Hsplit s2 ltac:(lia)) as (q2 & r2 & E2 & Hr2 & Hq2 & Es2 & El2).
  rewrite Es2, El2. destruct (Z.eqb_spec q2 0) as [->|Hne2].
  { exists s2. split; [done|]. split; [lia|]. split; [|lia].
    rewrite <- (Hcong s q1 r1 E1). f_equal. lia. }
  set (s3 := r2 + q2). assert (s3 < 65536) by lia.
  rewrite Z.shiftr_div_pow2 by lia. change (2 ^ 16) with 65536. rewrite Z.div_small by lia.
  exists s3. split; [done|]. split; [lia|]. split; [|lia].
  pose proof (Hcong s q1 r1 E1) as C1. pose proof (Hcong s2 q2 r2 E2) as C2.
  apply Z.mod_divide in C1 as [k1 C1]; [|lia]. apply Z.mod_divide in C2 as [k2 C2]; [|lia].
  apply Z.mod_divide; [lia|]. exists (k1 + k2). lia.
Qed.

Lemma checksum_spec a :
  is_bytes a → Z.of_nat (length a) ≤ 65534 →
  ∃ c, checksum a = Ok c ∧ 0 ≤ c ≤ 65535 ∧ (total a + c) mod 65535 = 0 ∧
    (0 < total a → c < 65535).
Proof.
  intros Ha Hlen. pose proof (total_range a Ha) as Ht.
  assert ((Z.of_nat (length a) + 1) / 2 < 32768) by (apply Z.div_lt_upper_bound; lia).
  unfold checksum. rewrite sum_words_total, Z.add_0_l by (done || lia).
  destruct (fold_sum_spec (total a)) as (r & -> & Hr & Hc & Hpos); [lia|].
  unfold mbind, res_bind, mret, res_ret. exists (65535 - r). split; [|split; [lia|split; [|lia]]].
  - f_equal. unfold u16, Z.lnot. change (2 ^ 16) with 65536.
    replace (Z.pred (- r)) with (65535 - r + (-1) * 65536) by lia.
    rewrite Z.mod_add, Z.mod_small by lia. done.
  - apply Z.mod_divide in Hc as [k Hk]; [|lia]. apply Z.mod_divide; [lia|].
    exists (1 - k). lia.
Qed.

(** A sum that is a positive multiple of 65535 has the checksum 0. *)
Lemma checksum_zero a :
  is_bytes a → Z.of_nat (length a) ≤ 65534 → 0 < total a → total a mod 65535 = 0 →
  checksum a = Ok 0.
Proof.
  intros Ha Hlen Hpos Hmod. destruct (checksum_spec a Ha Hlen) as (c & -> & Hc & Hs & Hlt).
  f_equal. specialize (Hlt Hpos). rewrite Z.add_mod, Hmod, Z.add_0_l in Hs by lia.
  rewrite Z.mod_mod, Z.mod_small in Hs by lia. done.
Qed.

Lemma total_app a b : Nat.Even (length a) → total (a ++ b) = total a + total b.
Proof.
  induction a as [|c|b0 b1 a IH] using bytes_ind2; intros He; cbn [app total].
  - done.
  - destruct He as [k Hk]. simpl in Hk. lia.
  - rewrite IH; [lia|]. destruct He as [k Hk]. exists (k - 1)%nat. simpl in Hk. lia.
Qed.

Lemma total_le_bytes_2 z : 0 ≤ z < 65536 → total (le_bytes 2 z) = z.
Proof.
  intros Hz. pose proof (of_le_bytes 2 z) as H. change (256 ^ Z.of_nat 2) with 65536 in H.
  rewrite Z.mod_small in H by lia. rewrite <- H at 2. rewrite !le_bytes_S. simpl. lia.
Qed.

(** ** The datagram *)
Lemma msg_bytes_length m : wf_message m → length (msg_bytes m) = 548%nat.
Proof.
  intros []. unfold msg_bytes. rewrite !length_app, !le_bytes_length. simpl. lia.
Qed.

Lemma msg_bytes_is_bytes m :
  wf_message m → is_bytes [op m; htype m; hlen m; hops m] → is_bytes (msg_bytes m).
Proof.
  intros [] Hh. unfold msg_bytes. rewrite !is_bytes_app.
  split_and!; try done; apply le_bytes_is_bytes.
Qed.

Lemma total_ip ihl len ttl check s d :
  0 ≤ check < 65536 →
  total (ip_bytes ihl len ttl check s d) =
    ihl + total (le_bytes 2 len) + (ttl + 256 * IPPROTO_UDP) + check
    + total (le_bytes 4 s) + total (le_bytes 4 d).
Proof.
  intros Hc. rewrite <- (total_le_bytes_2 check Hc) at 2. unfold ip_bytes. simpl. lia.
Qed.

Lemma total_udp sp dp len check :
  0 ≤ check < 65536 →
  total (udp_bytes sp dp len check) =
    total (le_bytes 2 sp) + total (le_bytes 2 dp) + total (le_bytes 2 len) + check.
Proof.
  intros Hc. rewrite <- (total_le_bytes_2 check Hc) at 2. unfold udp_bytes. simpl. lia.
Qed.

Lemma total_nonneg a : is_bytes a → 0 ≤ total a.
Proof. intros H. pose proof (total_range a H). lia. Qed.

Lemma total_le_nonneg n z : 0 ≤ total (le_bytes n z).
Proof. apply total_nonneg, le_bytes_is_bytes. Qed.

Lemma ip_is_bytes ihl len ttl check s d :
  is_byte ihl → is_byte ttl → is_bytes (ip_bytes ihl len ttl check s d).
Proof.
  intros Hi Ht. unfold ip_bytes. rewrite !is_bytes_app.
  split_and!; try apply le_bytes_is_bytes; byte_list.
Qed.

Lemma udp_is_bytes sp dp len check : is_bytes (udp_bytes sp dp len check).
Proof. unfold udp_bytes. rewrite !is_bytes_app. split_and!; apply le_bytes_is_bytes. Qed.

(** The pseudo-header of RFC 768. *)
Definition pseudo (s d len : Z) : bytes :=
  le_bytes 4 s ++ le_bytes 4 d ++ [0; IPPROTO_UDP] ++ le_bytes 2 len.

Lemma total_pseudo s d len :
  total (pseudo s d len) =
    total (le_bytes 4 s) + total (le_bytes 4 d) + 256 * IPPROTO_UDP + total (le_bytes 2 len).
Proof. unfold pseudo. simpl. lia. Qed.

Lemma ip_even ihl len ttl check s d : Nat.Even (length (ip_bytes ihl len ttl check s d)).
Proof. by exists 10%nat. Qed.
Lemma udp_even sp dp len check : Nat.Even (length (udp_bytes sp dp len check)).
Proof. by exists 4%nat. Qed.
Lemma pseudo_even s d len : Nat.Even (length (pseudo s d len)).
Proof. by exists 6%nat. Qed.

Lemma ip_length ihl len ttl check s d : length (ip_bytes ihl len ttl check s d) = 20%nat.
Proof. done. Qed.
Lemma udp_length sp dp len check : length (udp_bytes sp dp len check) = 8%nat.
Proof. done. Qed.
Lemma pseudo_length s d len : length (pseudo s d len) = 12%nat.
Proof. done. Qed.

Lemma pseudo_is_bytes s d len : is_bytes (pseudo s d len).
Proof.
  unfold pseudo. rewrite !is_bytes_app. split_and!; try apply le_bytes_is_bytes.
  unfold IPPROTO_UDP. byte_list.
Qed.

(** The header with its own checksum sums to zero. *)
Lemma ip_checksum_ok ihl len s d :
  is_byte ihl →
  ∃ c, checksum (ip_bytes ihl len IPDEFTTL 0 s d) = Ok c ∧
    checksum (ip_bytes ihl len IPDEFTTL c s d) = Ok 0.
Proof.
  intros Hihl. assert (is_byte IPDEFTTL) as Httl by (split; unfold IPDEFTTL; lia).
  destruct (checksum_spec (ip_bytes ihl len IPDEFTTL 0 s d)) as (c & Hc & Hrange & Hmod & _).
  { by apply ip_is_bytes. }
  { simpl. lia. }
  exists c. split; [done|].
  pose proof (total_le_nonneg 2 len). pose proof (total_le_nonneg 4 s).
  pose proof (total_le_nonneg 4 d). unfold is_byte in *.
  rewrite total_ip in Hmod by lia.
  apply checksum_zero; [by apply ip_is_bytes|simpl; lia| |]; rewrite total_ip by lia.
  - unfold IPDEFTTL, IPPROTO_UDP in *. lia.
  - rewrite <- Hmod. f_equal. lia.
Qed.

(** The checksum over the zeroed IP header with the UDP length in [tot_len] is
    the one over the pseudo-header. *)
Lemma udp_checksum_ok sp dp len s d data :
  is_bytes data → Z.of_nat (length data) ≤ 60000 →
  ∃ c, checksum (ip_bytes 0 len 0 0 s d ++ udp_bytes sp dp len 0 ++ data) = Ok c ∧
    checksum (pseudo s d len ++ udp_bytes sp dp len c ++ data) = Ok 0.
Proof.
  intros Hdata Hlen.
  destruct (checksum_spec (ip_bytes 0 len 0 0 s d ++ udp_bytes sp dp len 0 ++ data))
    as (c & Hc & Hrange & Hmod & _).
  { rewrite !is_bytes_app. split_and!; [apply ip_is_bytes; split; lia|apply udp_is_bytes|done]. }
  { rewrite !length_app, ip_length, udp_length. lia. }
  exists c. split; [done|].
  rewrite (total_app _ _ (ip_even _ _ _ _ _ _)), (total_app _ _ (udp_even _ _ _ _)) in Hmod.
  rewrite total_ip, total_udp in Hmod by lia.
  pose proof (total_le_nonneg 2 sp). pose proof (total_le_nonneg 2 dp).
  pose proof (total_le_nonneg 2 len). pose proof (total_le_nonneg 4 s).
  pose proof (total_le_nonneg 4 d). pose proof (total_nonneg data Hdata).
  assert (total (pseudo s d len ++ udp_bytes sp dp len c ++ data) =
    total (le_bytes 4 s) + total (le_bytes 4 d) + 256 * IPPROTO_UDP + total (le_bytes 2 len) +
    (total (le_bytes 2 sp) + total (le_bytes 2 dp) + total (le_bytes 2 len) + c + total data)) as Ht.
  { rewrite (total_app _ _ (pseudo_even _ _ _)), (total_app _ _ (udp_even _ _ _ _)).
    rewrite total_pseudo, total_udp by lia. done. }
  apply checksum_zero; rewrite ?Ht.
  - rewrite !is_bytes_app. split_and!; [apply pseudo_is_bytes|apply udp_is_bytes|done].
  - rewrite !length_app, pseudo_length, udp_length. lia.
  - unfold IPPROTO_UDP. lia.
  - rewrite <- Hmod. f_equal. lia.
Qed.

Lemma raw_packet_ok payload s sp d dp :
  wf_message payload →
  is_bytes [op payload; htype payload; hlen payload; hops payload] →
  ∃ ip udp, raw_packet payload s sp d dp = Ok (ip ++ udp ++ msg_bytes payload) ∧
    length ip = 20%nat ∧ length udp = 8%nat ∧ checksum ip = Ok 0 ∧
    checksum (pseudo s d (htons (8 + 548)) ++ udp ++ msg_bytes payload) = Ok 0.
Proof.
  intros Hwf Hh. pose proof (msg_bytes_length _ Hwf) as Hml.
  pose proof (msg_bytes_is_bytes _ Hwf Hh) as Hmb.
  unfold raw_packet. set (data := msg_bytes payload) in *. clearbody data.
  set (len := htons (8 + 548)). set (tot := htons (20 + 8 + 548)). clearbody len tot.
  destruct (udp_checksum_ok (htons sp) (htons dp) len s d data) as (uc & -> & Hu); [done|lia|].
  destruct (ip_checksum_ok (Z.lor (Z.shiftr 20 2) (Z.shiftl IPVERSION 4)) tot s d)
    as (ic & Hic & Hi); [vm_compute; split; congruence|].
  unfold mbind, res_bind. rewrite Hic. eexists _, _. by split_and!.
Qed.
