(* ===== verification/DhcpLeases.v ===== *)
(** * udhcp-0.9.8/leases.c: the lease table

    The table is an array of [max_leases] entries, the static leases an array of
    [max_static] entries; an entry without an address is free.  The n-th reading
    of the clock and the result of the n-th call to the network are given by the
    environment, so that time passes and hosts come and go between any two
    calls. *)
From S2P Require Import Prelude CLib Heap System Bytes Genconfig GenconfigSpec GenconfigOps.
From S2P Require Import GenconfigFile Cconfig SystemApi Dhcp DhcpOptions DhcpPacket.

Definition HOSTNAME_LEN : nat := 24.

(** struct dhcpOfferedAddr *)
Record lease := Lease {
  l_chaddr : bytes;        (** 16 *)
  l_yiaddr : Z;            (** network order *)
  l_expires : Z;           (** host order *)
  l_hostname : bytes       (** 24 *)
}.
Definition blank_chaddr : bytes := replicate 16 0.
Definition blank_lease : lease := Lease blank_chaddr 0 0 (replicate 24 0).

(** struct dhcpOfferedStaticAddr *)
Record static_lease := SLease { s_chaddr : bytes; s_yiaddr : Z; s_expires : Z }.
Definition blank_static : static_lease := SLease blank_chaddr 0 0.

(** struct server_config_t; the options are the data arrays of the list. *)
Record server_config_t := Config {
  c_server : Z; c_start : Z; c_end : Z;
  c_options : list bytes;
  c_interface : str;
  c_arp : bytes;
  c_lease : Z; c_max_leases : Z;
  c_remaining : Z;
  c_auto_time : Z; c_decline_time : Z; c_conflict_time : Z; c_offer_time : Z; c_min_lease : Z;
  c_lease_file : option str; c_pidfile : option str; c_notify_file : option str;
  c_siaddr : Z; c_sname : option str; c_boot_file : option str;
  c_static_file : option str; c_max_static : Z;
  c_sys_netmask : Z
}.

(** What the server hands to the network: a message to a relay through the
    kernel, or a raw datagram with a message for a hardware address. *)
Inductive output :=
  | ToRelay (payload : dhcpMessage)
  | ToClient (dest_ip : Z) (dest_arp : bytes) (payload : dhcpMessage) (datagram : bytes).

(** The state of the server: its tables, the numbers of readings of the clock
    and of calls to the network so far, what it has sent, and the rest of the
    system. *)
Record srv := Srv {
  leases : list lease;
  statics : list static_lease;
  cfg : server_config_t;
  ticks : nat;
  calls : nat;
  sent : list output;
  os : sys
}.

(** The environment: the n-th reading of the clock (seconds since 1970), and the
    results of the n-th call to the network: arpping (1: free, 0: used, -1:
    error) and the transmission of a message (negative: error). *)
Class Net := { clock : nat → Z; arpping : nat → Z → Z; send_result : nat → Z }.

Definition set_leases (ls : list lease) (s : srv) : srv :=
  Srv ls (statics s) (cfg s) (ticks s) (calls s) (sent s) (os s).
Definition set_statics (ls : list static_lease) (s : srv) : srv :=
  Srv (leases s) ls (cfg s) (ticks s) (calls s) (sent s) (os s).
Definition set_cfg (c : server_config_t) (s : srv) : srv :=
  Srv (leases s) (statics s) c (ticks s) (calls s) (sent s) (os s).
Definition add_output (o : output) (s : srv) : srv :=
  Srv (leases s) (statics s) (cfg s) (ticks s) (calls s) (sent s ++ [o]) (os s).

(** A call into the library runs on the system part of the state. *)
Definition lib {A} (m : M sys A) : M srv A := λ s,
  match m (os s) with
  | Ok (a, o) =>
      Ok (a, Srv (leases s) (statics s) (cfg s) (ticks s) (calls s) (sent s) o)
  | Fault e => Fault e
  | NoFuel => NoFuel
  end.

Section leases.
Context `{!Net}.

(** time(0) *)
Definition time0 : M srv Z := λ s,
  Ok (u32 (clock (ticks s)),
      Srv (leases s) (statics s) (cfg s) (S (ticks s)) (calls s) (sent s) (os s)).

(** The entries that clear_lease resets. *)
Definition clears (chaddr : bytes) (yiaddr : Z) (l : lease) : bool :=
  (negb (forallb (Z.eqb 0) (take 16 chaddr)) && bool_decide (l_chaddr l = chaddr))
  || (negb (yiaddr =? 0) && (l_yiaddr l =? yiaddr)).

Definition clear_lease (chaddr : bytes) (yiaddr : Z) : M srv unit :=
  modify (λ s, set_leases ((λ l, if clears chaddr yiaddr l then blank_lease else l) <$> leases s) s).

(** The loop of oldest_expired_lease over the entries from index [i] on. *)
Fixpoint oldest_loop (ls : list lease) (i : nat) (oldest : option nat) (oldest_lease : Z)
    : option nat :=
  match ls with
  | [] => oldest
  | l :: ls' =>
      if l_expires l <? oldest_lease then oldest_loop ls' (S i) (Some i) (l_expires l)
      else oldest_loop ls' (S i) oldest oldest_lease
  end.

(** The index of the entry. *)
Definition oldest_expired_lease : M srv (option nat) :=
  now ← time0;
  ls ← gets leases;
  mret (oldest_loop ls 0 None now).

(** strcpy into an array of bytes: the rest keeps its content. *)
Definition strcpy_bytes (dst : bytes) (s : bytes) : res bytes :=
  if (length s <? length dst)%nat then Ok (s ++ [0] ++ drop (S (length s)) dst)
  else Fault Overflow.

Definition add_lease (chaddr : bytes) (yiaddr lease_ : Z) (hostname : option bytes)
    : M srv (option nat) :=
  clear_lease chaddr yiaddr;;
  oldest ← oldest_expired_lease;
  match oldest with
  | Some i =>
      now ← time0;
      ls ← gets leases;
      match ls !! i with
      | None => fail Overflow
      | Some old =>
          host ← of_res (strcpy_bytes (l_hostname old) (default [] hostname));
          modify (set_leases (<[i := Lease chaddr yiaddr (u32 (now + lease_)) host]> ls));;
          mret (Some i)
      end
  | None => mret None
  end.

Definition lease_expired (l : lease) : M srv bool :=
  now ← time0;
  mret (l_expires l <? now).

(** The first entry with a property, as index and entry. *)
Definition find_lease (p : lease → bool) : M srv (option (nat * lease)) :=
  ls ← gets leases;
  mret (list_find (λ l, p l = true) ls).

Definition find_lease_by_chaddr (chaddr : bytes) : M srv (option (nat * lease)) :=
  find_lease (λ l, bool_decide (l_chaddr l = chaddr)).
Definition find_lease_by_yiaddr (yiaddr : Z) : M srv (option (nat * lease)) :=
  find_lease (λ l, l_yiaddr l =? yiaddr).

(** ** Static leases *)

(** The last free entry is used. *)
Definition add_static_lease (chaddr : bytes) (yiaddr lease_ : Z) : M srv (option nat) :=
  ss ← gets statics;
  match list_find (λ l, s_yiaddr l = 0) (rev ss) with
  | Some (k, _) =>
      let i := (length ss - 1 - k)%nat in
      now ← time0;
      modify (set_statics (<[i := SLease chaddr yiaddr (u32 (now + lease_))]> ss));;
      mret (Some i)
  | None => mret None
  end.

Definition find_static_lease_by_chaddr (chaddr : bytes) : M srv Z :=
  ss ← gets statics;
  mret (match list_find (λ l, s_chaddr l = chaddr) ss with
        | Some (_, l) => s_yiaddr l
        | None => 0
        end).

Definition find_static_lease_by_yiaddr (yiaddr : Z) : M srv (option static_lease) :=
  ss ← gets statics;
  mret (snd <$> list_find (λ l, s_yiaddr l = yiaddr) ss).

(** ** Addresses *)
Definition check_ip (addr : Z) : M srv bool := λ s,
  let s' := Srv (leases s) (statics s) (cfg s) (ticks s) (S (calls s)) (sent s) (os s) in
  if arpping (calls s) addr =? 0 then
    (add_lease blank_chaddr addr (c_conflict_time (cfg s)) None;; mret true) s'
  else Ok (false, s').

(** The loop of find_address over the host-order addresses [addr], [addr + 1],
    ..., [end_]; it runs [end_ + 1 - addr] times at most. *)
Fixpoint find_address_loop (fuel : nat) (check_expired : bool) (local_ip addr end_ : Z)
    : M srv Z :=
  match fuel with
  | O => nofuel
  | S fuel =>
      if end_ <? addr then mret 0
      else
        let next := find_address_loop fuel check_expired local_ip (u32 (addr + 1)) end_ in
        if addr =? ntohl local_ip then next
        else if Z.land addr 255 =? 0 then next
        else if Z.land addr 255 =? 255 then next
        else
          let ret := htonl addr in
          st ← find_static_lease_by_yiaddr ret;
          match st with
          | Some _ => next
          | None =>
              l ← find_lease_by_yiaddr ret;
              free ← (match l with
                      | None => mret true
                      | Some (_, l) => if check_expired then lease_expired l else mret false
                      end);
              if negb free then next
              else
                taken ← check_ip ret;
                if taken : bool then next else mret ret
          end
  end.

Definition find_address `{!Interfaces} (check_expired : bool) : M srv Z :=
  '(_, ip_addr, _) ← lib (get_ifconfig IF_LOCAL);
  c ← gets cfg;
  let addr := ntohl (c_start c) in
  let end_ := ntohl (c_end c) in
  find_address_loop (S (Z.to_nat (end_ + 1 - addr))) check_expired (inet_addr ip_addr) addr end_.
End leases.
