(* ===== verification/DhcpTable.v ===== *)
(** * The lease table: invariant and operations

    No two entries of the table have the same address, and no two entries have
    the same hardware address (entries without one, which are reserved or
    declined addresses, apart).  Every operation of leases.c keeps this, and
    find_address returns an address that may be given out. *)
From S2P Require Import Prelude CLib Heap System Bytes Genconfig GenconfigSpec GenconfigOps.
From S2P Require Import GenconfigFile Cconfig SystemApi Dhcp DhcpOptions DhcpPacket DhcpLeases.

Record wf_lease (l : lease) : Prop := {
  wl_chaddr : length (l_chaddr l) = 16%nat;
  wl_bytes : is_bytes (l_chaddr l);
  wl_yiaddr : is_u32 (l_yiaddr l);
  wl_expires : is_u32 (l_expires l);
  wl_hostname : length (l_hostname l) = HOSTNAME_LEN;
  wl_host_bytes : is_bytes (l_hostname l)
}.

Record table_ok (ls : list lease) : Prop := {
  to_wf : Forall wf_lease ls;
  to_ips i j l l' : ls !! i = Some l → ls !! j = Some l' →
    l_yiaddr l = l_yiaddr l' → l_yiaddr l ≠ 0 → i = j;
  to_macs i j l l' : ls !! i = Some l → ls !! j = Some l' →
    l_chaddr l = l_chaddr l' → l_chaddr l ≠ blank_chaddr → i = j
}.

(** What the operations on the table leave alone. *)
Record same_rest (s s' : srv) : Prop := {
  sr_statics : statics s' = statics s;
  sr_cfg : cfg s' = cfg s;
  sr_sent : sent s' = sent s;
  sr_os : os s' = os s;
  sr_length : length (leases s') = length (leases s);
  sr_ticks : (ticks s ≤ ticks s')%nat;
  sr_calls : (calls s ≤ calls s')%nat
}.

#[export] Instance same_rest_refl : Reflexive same_rest.
Proof. intros s. by split. Qed.
#[export] Instance same_rest_trans : Transitive same_rest.
Proof. intros s1 s2 s3 [] []. split; congruence || lia. Qed.

Definition cleared (chaddr : bytes) (yiaddr : Z) (ls : list lease) : list lease :=
  (λ l, if clears chaddr yiaddr l then blank_lease else l) <$> ls.

(** ** Clearing *)
Lemma wf_blank : wf_lease blank_lease.
Proof. split; try done; try (split; lia); by apply Forall_replicate. Qed.

Lemma cleared_lookup chaddr yi ls i l :
  cleared chaddr yi ls !! i = Some l →
  l = blank_lease ∨ (ls !! i = Some l ∧ clears chaddr yi l = false).
Proof.
  unfold cleared. rewrite list_lookup_fmap. intros (l0 & E & ->)%fmap_Some.
  destruct (clears chaddr yi l0) eqn:Ec; [by left|by right].
Qed.

Lemma cleared_ok chaddr yi ls : table_ok ls → table_ok (cleared chaddr yi ls).
Proof.
  intros [Hwf Hips Hmacs]. split.
  - apply Forall_fmap. eapply Forall_impl; [done|]. intros l Hl. simpl.
    destruct (clears _ _ _); [apply wf_blank|done].
  - intros i j l l' Hi Hj E Hne. apply cleared_lookup in Hi as [->|[Hi _]]; [done|].
    apply cleared_lookup in Hj as [->|[Hj _]]; [by rewrite E in Hne|]. by eapply Hips.
  - intros i j l l' Hi Hj E Hne. apply cleared_lookup in Hi as [->|[Hi _]]; [done|].
    apply cleared_lookup in Hj as [->|[Hj _]]; [by rewrite E in Hne|]. by eapply Hmacs.
Qed.

Lemma forallb_zero a : forallb (Z.eqb 0) a = true ↔ a = replicate (length a) 0.
Proof.
  induction a as [|b a IH]; [done|]. cbn [forallb length replicate].
  rewrite andb_true_iff, IH, Z.eqb_eq.
  split; [by intros [<- ->]; rewrite length_replicate|by intros [= -> <-]].
Qed.

(** After clear_lease no entry has the address or the hardware address. *)
Lemma clears_false chaddr yi l :
  length chaddr = 16%nat → clears chaddr yi l = false →
  (yi ≠ 0 → l_yiaddr l ≠ yi) ∧ (chaddr ≠ blank_chaddr → l_chaddr l ≠ chaddr).
Proof.
  intros Hlen [Hc Hy]%orb_false_iff. split.
  - intros Hne E. rewrite E, Z.eqb_refl, (proj2 (Z.eqb_neq _ _)) in Hy by done. done.
  - intros Hne E. rewrite take_ge in Hc by lia.
    destruct (forallb (Z.eqb 0) chaddr) eqn:Ez.
    + apply forallb_zero in Ez. rewrite Hlen in Ez. done.
    + rewrite bool_decide_eq_true_2 in Hc by done. done.
Qed.

Lemma cleared_absent chaddr yi ls i l :
  length chaddr = 16%nat → cleared chaddr yi ls !! i = Some l →
  (yi ≠ 0 → l_yiaddr l ≠ yi) ∧ (chaddr ≠ blank_chaddr → l_chaddr l ≠ chaddr).
Proof.
  intros Hlen Hi. apply cleared_lookup in Hi as [->|[_ Hc]]; [|by apply clears_false].
  split; [done|]. intros Hne E. by apply Hne.
Qed.

(** Writing one entry with a new address and hardware address. *)
Lemma table_insert ls i new :
  table_ok ls → wf_lease new →
  (∀ j l, ls !! j = Some l → j ≠ i →
     (l_yiaddr new ≠ 0 → l_yiaddr l ≠ l_yiaddr new) ∧
     (l_chaddr new ≠ blank_chaddr → l_chaddr l ≠ l_chaddr new)) →
  table_ok (<[i := new]> ls).
Proof.
  intros [Hwf Hips Hmacs] Hnew Habs. split; [by apply Forall_insert|..];
    intros j k l l' Hj Hk E Hne;
    apply list_lookup_insert_Some in Hj as [(-> & -> & _)|(Hij & Hj)];
    apply list_lookup_insert_Some in Hk as [(-> & -> & _)|(Hik & Hk)]; try done.
  - destruct (Habs k l' Hk ltac:(done)) as [H _]. by destruct (H Hne).
  - destruct (Habs j l Hj ltac:(done)) as [H _]. rewrite E in Hne. by destruct (H Hne).
  - by eapply Hips.
  - destruct (Habs k l' Hk ltac:(done)) as [_ H]. by destruct (H Hne).
  - destruct (Habs j l Hj ltac:(done)) as [_ H]. rewrite E in Hne. by destruct (H Hne).
  - by eapply Hmacs.
Qed.

(** ** The oldest entry *)
Lemma oldest_loop_spec ls k (ls0 : list lease) o t :
  (match o with Some i => ∃ l, ls0 !! i = Some l ∧ l_expires l = t | None => True end) →
  (∀ j l, ls !! j = Some l → ls0 !! (k + j)%nat = Some l) →
  match oldest_loop ls k o t with
  | Some i => ∃ l, ls0 !! i = Some l ∧
      (l_expires l < t ∨ (o = Some i ∧ l_expires l = t)) ∧
      Forall (λ l', l_expires l ≤ l_expires l') ls
  | None => o = None ∧ Forall (λ l', t ≤ l_expires l') ls
  end.
Proof.
  revert k o t. induction ls as [|x ls IH]; intros k o t Ho Hls; cbn [oldest_loop].
  - destruct o as [i|]; [|by split]. destruct Ho as (l & Hl & E). exists l.
    split; [done|]. split; [by right|constructor].
  - assert (∀ j l, ls !! j = Some l → ls0 !! (S k + j)%nat = Some l) as Hls'.
    { intros j l Hj. rewrite <- (Hls (S j) l Hj). f_equal. lia. }
    pose proof (Hls 0%nat x eq_refl) as Hx. rewrite Nat.add_0_r in Hx.
    destruct (Z.ltb_spec (l_expires x) t) as [Hlt|Hge].
    + specialize (IH (S k) (Some k) (l_expires x)
        (ex_intro _ x (conj Hx eq_refl)) Hls').
      destruct (oldest_loop ls (S k) (Some k) (l_expires x)) as [i|]; [|by destruct IH].
      destruct IH as (l & Hl & Hcase & Hall). exists l. split; [done|].
      assert (l_expires l ≤ l_expires x) by (destruct Hcase as [|[_ ->]]; lia).
      split; [left; lia|by constructor].
    + specialize (IH (S k) o t Ho Hls').
      destruct (oldest_loop ls (S k) o t) as [i|].
      * destruct IH as (l & Hl & Hcase & Hall). exists l. split; [done|]. split; [done|].
        constructor; [|done]. destruct Hcase as [|[_ ->]]; lia.
      * destruct IH as [-> Hall]. split; [done|]. by constructor.
Qed.

(** ** Entries in the table *)
Section table.
Context `{!Net}.
Implicit Types s : srv.

(** Between two states the lease has been found expired, or its address has
    answered a probe. *)
Definition went (s s' : srv) (l : lease) : Prop :=
  (∃ k, (ticks s ≤ k < ticks s')%nat ∧ l_expires l < u32 (clock k)) ∨
  (∃ k, (calls s ≤ k < calls s')%nat ∧ arpping k (l_yiaddr l) = 0).

(** The entries of hosts stay where they are, but for the ones in [R] and the
    ones that have gone. *)
Definition keeps (R : lease → Prop) (s s' : srv) : Prop :=
  ∀ i l, leases s !! i = Some l → l_chaddr l ≠ blank_chaddr →
    leases s' !! i = Some l ∨ R l ∨ went s s' l.

Lemma went_mono s s1 s2 s3 l :
  same_rest s s1 → same_rest s2 s3 → went s1 s2 l → went s s3 l.
Proof.
  intros [] [] [(k & Hk & He)|(k & Hk & He)]; [left|right]; exists k; (split; [lia|done]).
Qed.

Lemma keeps_refl R s : keeps R s s.
Proof. intros i l ? ?. by left. Qed.

Lemma keeps_same R s s' : leases s' = leases s → keeps R s s'.
Proof. intros E i l ? ?. left. by rewrite E. Qed.

(** A search for an address: the table may lose entries that have gone. *)
Definition probing (s s' : srv) : Prop := same_rest s s' ∧ keeps (λ _, False) s s'.

#[export] Instance probing_refl : Reflexive probing.
Proof. intros s. split; [done|apply keeps_refl]. Qed.
#[export] Instance probing_trans : Transitive probing.
Proof.
  intros s1 s2 s3 [H1 K1] [H2 K2]. split; [by etrans|]. intros i l Hi Hb.
  destruct (K1 i l Hi Hb) as [Hi2|[[]|Hw]].
  - destruct (K2 i l Hi2 Hb) as [?|[[]|Hw]]; [by left|].
    right; right. by apply (went_mono s1 s2 s3 s3).
  - right; right. by apply (went_mono s1 s1 s2 s3).
Qed.

Definition host_fits (host : option bytes) : Prop :=
  (length (default [] host) < HOSTNAME_LEN)%nat ∧ is_bytes (default [] host).

Lemma u32_range z : is_u32 (u32 z).
Proof. unfold is_u32, u32. apply Z.mod_pos_bound. lia. Qed.

Lemma strcpy_bytes_ok dst t :
  (length t < length dst)%nat → is_bytes dst → is_bytes t →
  ∃ d, strcpy_bytes dst t = Ok d ∧ length d = length dst ∧ is_bytes d ∧
    (t ++ [0]) `prefix_of` d.
Proof.
  intros Hlt Hd Ht. unfold strcpy_bytes. rewrite (proj2 (Nat.ltb_lt _ _)) by done.
  eexists. split; [done|]. rewrite !length_app, length_drop. split; [simpl; lia|].
  split; [|eexists; by rewrite <- (assoc_L (++))].
  rewrite !is_bytes_app. split_and!; [done|byte_list|by apply Forall_drop].
Qed.

Lemma add_lease_ok chaddr yi dur host s :
  table_ok (leases s) → length chaddr = 16%nat → is_bytes chaddr → is_u32 yi → host_fits host →
  wp no_fault (add_lease chaddr yi dur host) (λ r s',
    table_ok (leases s') ∧ same_rest s s' ∧ calls s' = calls s ∧
    match r with
    | Some i => ∃ l old k, leases s' !! i = Some l ∧ l_chaddr l = chaddr ∧ l_yiaddr l = yi ∧
        (S k = ticks s' ∧ ticks s < k)%nat ∧ l_expires l = u32 (u32 (clock k) + dur) ∧
        (default [] host ++ [0]) `prefix_of` l_hostname l ∧
        cleared chaddr yi (leases s) !! i = Some old ∧ l_expires old < u32 (clock (ticks s)) ∧
        ∀ j, j ≠ i → leases s' !! j = cleared chaddr yi (leases s) !! j
    | None => leases s' = cleared chaddr yi (leases s) ∧ (ticks s < ticks s')%nat ∧
        Forall (λ l, u32 (clock (ticks s)) ≤ l_expires l) (leases s')
    end) s.
Proof.
  intros Hok Hlen Hby Hyi [Hh Hhb]. unfold add_lease, clear_lease. apply wp_modify.
  fold (cleared chaddr yi (leases s)). set (ls1 := cleared chaddr yi (leases s)).
  assert (table_ok ls1) as Hok1 by by apply cleared_ok.
  apply wp_bind. unfold oldest_expired_lease. apply wp_bind. unfold time0 at 1, wp at 1. simpl.
  apply wp_gets. simpl. apply wp_ret.
  pose proof (oldest_loop_spec ls1 0 ls1 None (u32 (clock (ticks s))) I ltac:(done)) as Hold.
  destruct (oldest_loop ls1 0 None _) as [i|].
  2:{ apply wp_ret. simpl. split_and!; try done; [|lia|apply Hold].
      split; simpl; try done; [|lia]. unfold ls1, cleared. by rewrite length_fmap. }
  destruct Hold as (old & Hold & [Hexp|[? _]] & _); [|done]. apply wp_bind. unfold time0, wp at 1. simpl.
  apply wp_gets. simpl. rewrite Hold.
  pose proof (Forall_lookup_1 _ _ _ _ (to_wf _ Hok1) Hold) as Hwf.
  destruct (strcpy_bytes_ok (l_hostname old) (default [] host)) as (d & Ed & Hdl & Hdb & Hpre);
    [by rewrite (wl_hostname _ Hwf)|apply Hwf|done|].
  apply wp_of_res. rewrite Ed. apply wp_modify, wp_ret. simpl.
  assert (length ls1 = length (leases s)) as Hl1 by (unfold ls1, cleared; by rewrite length_fmap).
  pose proof (lookup_lt_Some _ _ _ Hold) as Hi. split_and!.
  - apply table_insert; [done| |].
    + split; simpl; try done; [apply u32_range|by rewrite Hdl, (wl_hostname _ Hwf)].
    + intros j l Hj _. simpl. by eapply cleared_absent.
  - split; simpl; try done; [|lia]. by rewrite length_insert.
  - done.
  - eexists _, old, (S (ticks s)). rewrite list_lookup_insert_eq by done.
    split_and!; try done; [simpl; lia..|]. intros j Hj. by rewrite list_lookup_insert_ne.
Qed.

(** What is left of the entries after add_lease. *)
Lemma add_lease_keeps R chaddr yi dur host s r s' :
  table_ok (leases s) → length chaddr = 16%nat → is_bytes chaddr → is_u32 yi → host_fits host →
  (∀ i l, leases s !! i = Some l → clears chaddr yi l = true → R l) →
  add_lease chaddr yi dur host s = Ok (r, s') → keeps R s s'.
Proof.
  intros Hok Hlen Hby Hyi Hh HR E i l Hi Hb.
  pose proof (add_lease_ok chaddr yi dur host s Hok Hlen Hby Hyi Hh) as Hw.
  unfold wp in Hw. rewrite E in Hw. destruct Hw as (_ & [] & _ & Hr).
  assert (cleared chaddr yi (leases s) !! i
          = Some (if clears chaddr yi l then blank_lease else l)) as Hc
    by (unfold cleared; by rewrite list_lookup_fmap, Hi).
  destruct (clears chaddr yi l) eqn:Ec; [right; left; by eapply HR|].
  destruct r as [j|].
  - destruct Hr as (new & old & k & _ & _ & _ & Hk & _ & _ & Hold & Hexp & Hrest).
    destruct (decide (i = j)) as [->|Hne]; [|left; by rewrite Hrest].
    assert (old = l) as -> by congruence. right; right; left. exists (ticks s).
    split; [lia|done].
  - destruct Hr as [-> _]. by left.
Qed.

(** ** Addresses *)
Lemma check_ip_ok addr s :
  table_ok (leases s) → is_u32 addr →
  wp no_fault (check_ip addr) (λ taken s',
    table_ok (leases s') ∧ probing s s' ∧
    taken = (arpping (calls s) addr =? 0) ∧
    (taken = false → leases s' = leases s ∧ ticks s' = ticks s)) s.
Proof.
  intros Hok Ha. unfold wp, check_ip. destruct (Z.eqb_spec (arpping (calls s) addr) 0) as [Harp|].
  2:{ split_and!; try done. split; [|by apply keeps_same]. by split; simpl; try lia. }
  set (s1 := Srv _ _ _ _ _ _ _).
  assert (host_fits None) as Hf by (split; [simpl; unfold HOSTNAME_LEN; lia|constructor]).
  assert (is_bytes blank_chaddr) as Hb by by apply Forall_replicate.
  pose proof (add_lease_ok blank_chaddr addr (c_conflict_time (cfg s)) None s1
                Hok eq_refl Hb Ha Hf) as Hw.
  apply wp_inv in Hw as [(r & s' & E & Hok' & Hr & Hcalls & _)|(? & _ & [])].
  rewrite (bind_Ok _ _ _ _ _ E). unfold mret, M_ret.
  assert (same_rest s s') as Hs by (destruct Hr; split; simpl in *; try done; lia).
  split_and!; try done. split; [done|]. intros i l Hi Hbl.
  set (R l := l_yiaddr l = addr).
  assert (keeps R s1 s') as K.
  { apply (add_lease_keeps R blank_chaddr addr (c_conflict_time (cfg s)) None s1 r s'); try done. intros j l' _ Hc.
    unfold clears in Hc. apply orb_true_iff in Hc as [Hc|Hc]; [done|].
    apply andb_true_iff in Hc as [_ Hc]. by apply Z.eqb_eq in Hc. }
  destruct (K i l Hi Hbl) as [?|[HR|[(k & Hk & He)|(k & Hk & _)]]].
  - by left.
  - right; right; right. exists (calls s). rewrite HR, Hcalls. simpl. split; [lia|done].
  - right; right; left. exists k. simpl in Hk. split; [lia|done].
  - rewrite Hcalls in Hk. simpl in Hk. lia.
Qed.

(** An address that the server may give out, in the state in which the search
    ends: it is in the range, not the server's own, not a network or broadcast
    address, not reserved for a host; no entry of the table has it or, when
    expired leases may be used, the entry that has it has expired since the
    [since]-th reading of the clock. *)
Record assignable (since : nat) (check_expired : bool) (local_ip lo hi : Z) (s : srv) (a : Z)
    : Prop := {
  as_range : lo ≤ ntohl a ≤ hi;
  as_u32 : is_u32 a;
  as_local : ntohl a ≠ ntohl local_ip;
  as_low : Z.land (ntohl a) 255 ≠ 0 ∧ Z.land (ntohl a) 255 ≠ 255;
  as_static : Forall (λ l, s_yiaddr l ≠ a) (statics s);
  as_lease i l : leases s !! i = Some l → l_yiaddr l = a →
    check_expired = true ∧ ∃ k, (since ≤ k < ticks s)%nat ∧ l_expires l < u32 (clock k)
}.

Lemma list_find_None_1 {A} (P : A → Prop) `{!∀ x, Decision (P x)} (l : list A) :
  list_find P l = None → Forall (λ x, ¬ P x) l.
Proof. apply list_find_None. Qed.

(** The test of one address, whatever follows. *)
Lemma find_address_step since ce local addr hi (m : M srv Z) lo s Q :
  table_ok (leases s) → (since ≤ ticks s)%nat → 0 ≤ lo ≤ addr → addr ≤ hi → hi < 2 ^ 32 →
  (∀ s', table_ok (leases s') → probing s s' → wp no_fault m Q s') →
  (∀ s' a, table_ok (leases s') → probing s s' → ntohl a = addr →
     assignable since ce local lo hi s' a → Q a s') →
  wp no_fault
    (if addr =? ntohl local then m
     else if Z.land addr 255 =? 0 then m
     else if Z.land addr 255 =? 255 then m
     else
       st ← find_static_lease_by_yiaddr (htonl addr);
       match st with
       | Some _ => m
       | None =>
           l ← find_lease_by_yiaddr (htonl addr);
           free ← (match l with
                   | None => mret true
                   | Some (_, l) => if ce then lease_expired l else mret false
                   end);
           if negb free then m
           else
             taken ← check_ip (htonl addr);
             if taken : bool then m else mret (htonl addr)
       end) Q s.
Proof.
  intros Hok Hsince Hlo Hhi H32 Hnext Hfound.
  assert (is_u32 addr) as Haddr by (split; lia).
  assert (ntohl (htonl addr) = addr) as Hn by by apply ntohl_htonl.
  assert (is_u32 (htonl addr)) as Hu by apply ntohl_range.
  destruct (Z.eqb_spec addr (ntohl local)) as [|Hloc]; [by apply Hnext|].
  destruct (Z.eqb_spec (Z.land addr 255) 0) as [|H0]; [by apply Hnext|].
  destruct (Z.eqb_spec (Z.land addr 255) 255) as [|H255]; [by apply Hnext|].
  unfold find_static_lease_by_yiaddr, find_lease_by_yiaddr, find_lease.
  apply wp_bind, wp_gets, wp_ret.
  destruct (list_find _ (statics s)) as [[k st]|] eqn:Est; simpl; [by apply Hnext|].
  apply list_find_None_1 in Est. apply wp_bind, wp_gets, wp_ret.
  set (free_now s1 := ∀ i l, leases s1 !! i = Some l → l_yiaddr l = htonl addr →
    ce = true ∧ ∃ k, (since ≤ k < ticks s1)%nat ∧ l_expires l < u32 (clock k)).
  eapply wp_seq with (P := λ (fr : bool) s1, leases s1 = leases s ∧ probing s s1 ∧
    (fr = true → free_now s1)).
  { destruct (list_find _ (leases s)) as [[k l]|] eqn:El.
    - apply list_find_Some in El as (Hk & Hyi%Z.eqb_eq & _). destruct ce.
      + unfold lease_expired. apply wp_bind. unfold time0, wp at 1. simpl. apply wp_ret.
        split; [done|]. split; [split; [by split; simpl; try lia|by apply keeps_same]|]. intros Hlt%Z.ltb_lt i l' Hi Hy'.
        split; [done|]. exists (ticks s). split; [simpl; lia|].
        assert (i = k) as ->.
        { eapply (to_ips _ Hok); [exact Hi|exact Hk|congruence|]. rewrite Hy'.
          intros E. rewrite E in Hn. by apply H0; rewrite <- Hn. }
        assert (l' = l) as -> by (simpl in Hi; congruence). done.
      + apply wp_ret. done.
    - apply wp_ret. split; [done|]. split; [done|]. intros _ i l' Hi Hy'.
      apply list_find_None_1 in El. rewrite Forall_forall in El.
      destruct (El l'); [by eapply list_elem_of_lookup_2|by apply Z.eqb_eq]. }
  intros fr s1 (Hl1 & Hr1 & Hfree). rewrite <- Hl1 in Hok.
  destruct fr; cbn [negb]; [|by apply Hnext].
  eapply wp_seq; [by apply check_ip_ok|]. intros taken s2 (Hok2 & Hr2 & _ & Hfalse).
  destruct taken; [apply Hnext; [done|by etrans]|].
  destruct (Hfalse eq_refl) as [Hl2 Ht2]. apply wp_ret, Hfound; [done|by etrans|done|].
  split; rewrite ?Hn; try done; [lia| |].
  - by rewrite (sr_statics _ _ (proj1 Hr2)), (sr_statics _ _ (proj1 Hr1)).
  - intros i l Hi Hy. rewrite Hl2 in Hi. rewrite Ht2. by apply (Hfree eq_refl i).
Qed.

Lemma find_address_loop_ok since fuel ce local lo addr hi s :
  table_ok (leases s) → (since ≤ ticks s)%nat → 0 ≤ lo ≤ addr → hi + 1 < 2 ^ 32 → Z.max 0 (hi + 1 - addr) < Z.of_nat fuel →
  wp no_fault (find_address_loop fuel ce local addr hi) (λ a s',
    table_ok (leases s') ∧ probing s s' ∧
    (a = 0 ∨ assignable since ce local lo hi s' a)) s.
Proof.
  revert addr s. induction fuel as [|fuel IH]; intros addr s Hok Hsince Hlo Hhi Hf; [lia|].
  cbn [find_address_loop]. destruct (Z.ltb_spec hi addr) as [|Hle].
  { apply wp_ret. split; [done|]. split; [done|by left]. }
  assert (u32 (addr + 1) = addr + 1) as -> by (unfold u32; rewrite Z.mod_small; lia).
  apply find_address_step with (since := since) (lo := lo) (hi := hi); try done; [lia|..].
  - intros s' Hok' Hr. eapply wp_mono; [apply IH; [done|destruct Hr as [[] _]; lia|lia..]|].
    intros a s2 (? & ? & ?). split; [done|]. split; [by etrans|done].
  - intros s' a Hok' Hr Ha Has. split; [done|]. split; [done|by right].
Qed.
End table.
