(* ===== verification/DhcpFiles.v ===== *)
(** * udhcp-0.9.8/files.c: the configuration file and the lease files

    read_config fills the server's configuration from keywords and their default
    values; write_leases and read_leases keep the lease table across restarts;
    read_static_leases loads the reserved addresses.  The resolver is a
    parameter. *)
From S2P Require Import Prelude CLib Heap System Bytes Genconfig GenconfigSpec GenconfigOps.
From S2P Require Import GenconfigFile Cconfig SystemApi Dhcp DhcpOptions DhcpPacket DhcpLeases.

(** gethostbyname: the first address, in network order. *)
Class Resolver := gethostbyname : str → option Z.

(** ** Assignment of a member of server_config *)
Definition with_server (x : Z) (c : server_config_t) : server_config_t :=
  let 'Config _ st en op ifc ar le ml re att de co ofr mi lf pf nf si sn bf sf ms nm := c in
  Config x st en op ifc ar le ml re att de co ofr mi lf pf nf si sn bf sf ms nm.
Definition with_start (x : Z) (c : server_config_t) : server_config_t :=
  let 'Config sv _ en op ifc ar le ml re att de co ofr mi lf pf nf si sn bf sf ms nm := c in
  Config sv x en op ifc ar le ml re att de co ofr mi lf pf nf si sn bf sf ms nm.
Definition with_end (x : Z) (c : server_config_t) : server_config_t :=
  let 'Config sv st _ op ifc ar le ml re att de co ofr mi lf pf nf si sn bf sf ms nm := c in
  Config sv st x op ifc ar le ml re att de co ofr mi lf pf nf si sn bf sf ms nm.
Definition with_options (x : list bytes) (c : server_config_t) : server_config_t :=
  let 'Config sv st en _ ifc ar le ml re att de co ofr mi lf pf nf si sn bf sf ms nm := c in
  Config sv st en x ifc ar le ml re att de co ofr mi lf pf nf si sn bf sf ms nm.
Definition with_interface (x : str) (c : server_config_t) : server_config_t :=
  let 'Config sv st en op _ ar le ml re att de co ofr mi lf pf nf si sn bf sf ms nm := c in
  Config sv st en op x ar le ml re att de co ofr mi lf pf nf si sn bf sf ms nm.
Definition with_arp (x : bytes) (c : server_config_t) : server_config_t :=
  let 'Config sv st en op ifc _ le ml re att de co ofr mi lf pf nf si sn bf sf ms nm := c in
  Config sv st en op ifc x le ml re att de co ofr mi lf pf nf si sn bf sf ms nm.
Definition with_lease (x : Z) (c : server_config_t) : server_config_t :=
  let 'Config sv st en op ifc ar _ ml re att de co ofr mi lf pf nf si sn bf sf ms nm := c in
  Config sv st en op ifc ar x ml re att de co ofr mi lf pf nf si sn bf sf ms nm.
Definition with_max_leases (x : Z) (c : server_config_t) : server_config_t :=
  let 'Config sv st en op ifc ar le _ re att de co ofr mi lf pf nf si sn bf sf ms nm := c in
  Config sv st en op ifc ar le x re att de co ofr mi lf pf nf si sn bf sf ms nm.
Definition with_remaining (x : Z) (c : server_config_t) : server_config_t :=
  let 'Config sv st en op ifc ar le ml _ att de co ofr mi lf pf nf si sn bf sf ms nm := c in
  Config sv st en op ifc ar le ml x att de co ofr mi lf pf nf si sn bf sf ms nm.
Definition with_auto_time (x : Z) (c : server_config_t) : server_config_t :=
  let 'Config sv st en op ifc ar le ml re _ de co ofr mi lf pf nf si sn bf sf ms nm := c in
  Config sv st en op ifc ar le ml re x de co ofr mi lf pf nf si sn bf sf ms nm.
Definition with_decline_time (x : Z) (c : server_config_t) : server_config_t :=
  let 'Config sv st en op ifc ar le ml re att _ co ofr mi lf pf nf si sn bf sf ms nm := c in
  Config sv st en op ifc ar le ml re att x co ofr mi lf pf nf si sn bf sf ms nm.
Definition with_conflict_time (x : Z) (c : server_config_t) : server_config_t :=
  let 'Config sv st en op ifc ar le ml re att de _ ofr mi lf pf nf si sn bf sf ms nm := c in
  Config sv st en op ifc ar le ml re att de x ofr mi lf pf nf si sn bf sf ms nm.
Definition with_offer_time (x : Z) (c : server_config_t) : server_config_t :=
  let 'Config sv st en op ifc ar le ml re att de co _ mi lf pf nf si sn bf sf ms nm := c in
  Config sv st en op ifc ar le ml re att de co x mi lf pf nf si sn bf sf ms nm.
Definition with_min_lease (x : Z) (c : server_config_t) : server_config_t :=
  let 'Config sv st en op ifc ar le ml re att de co ofr _ lf pf nf si sn bf sf ms nm := c in
  Config sv st en op ifc ar le ml re att de co ofr x lf pf nf si sn bf sf ms nm.
Definition with_lease_file (x : option str) (c : server_config_t) : server_config_t :=
  let 'Config sv st en op ifc ar le ml re att de co ofr mi _ pf nf si sn bf sf ms nm := c in
  Config sv st en op ifc ar le ml re att de co ofr mi x pf nf si sn bf sf ms nm.
Definition with_pidfile (x : option str) (c : server_config_t) : server_config_t :=
  let 'Config sv st en op ifc ar le ml re att de co ofr mi lf _ nf si sn bf sf ms nm := c in
  Config sv st en op ifc ar le ml re att de co ofr mi lf x nf si sn bf sf ms nm.
Definition with_notify_file (x : option str) (c : server_config_t) : server_config_t :=
  let 'Config sv st en op ifc ar le ml re att de co ofr mi lf pf _ si sn bf sf ms nm := c in
  Config sv st en op ifc ar le ml re att de co ofr mi lf pf x si sn bf sf ms nm.
Definition with_siaddr (x : Z) (c : server_config_t) : server_config_t :=
  let 'Config sv st en op ifc ar le ml re att de co ofr mi lf pf nf _ sn bf sf ms nm := c in
  Config sv st en op ifc ar le ml re att de co ofr mi lf pf nf x sn bf sf ms nm.
Definition with_sname (x : option str) (c : server_config_t) : server_config_t :=
  let 'Config sv st en op ifc ar le ml re att de co ofr mi lf pf nf si _ bf sf ms nm := c in
  Config sv st en op ifc ar le ml re att de co ofr mi lf pf nf si x bf sf ms nm.
Definition with_boot_file (x : option str) (c : server_config_t) : server_config_t :=
  let 'Config sv st en op ifc ar le ml re att de co ofr mi lf pf nf si sn _ sf ms nm := c in
  Config sv st en op ifc ar le ml re att de co ofr mi lf pf nf si sn x sf ms nm.
Definition with_static_file (x : option str) (c : server_config_t) : server_config_t :=
  let 'Config sv st en op ifc ar le ml re att de co ofr mi lf pf nf si sn bf _ ms nm := c in
  Config sv st en op ifc ar le ml re att de co ofr mi lf pf nf si sn bf x ms nm.
Definition with_max_static (x : Z) (c : server_config_t) : server_config_t :=
  let 'Config sv st en op ifc ar le ml re att de co ofr mi lf pf nf si sn bf sf _ nm := c in
  Config sv st en op ifc ar le ml re att de co ofr mi lf pf nf si sn bf sf x nm.
Definition with_sys_netmask (x : Z) (c : server_config_t) : server_config_t :=
  let 'Config sv st en op ifc ar le ml re att de co ofr mi lf pf nf si sn bf sf ms _ := c in
  Config sv st en op ifc ar le ml re att de co ofr mi lf pf nf si sn bf sf ms x.

(** ** Values *)
Definition read_ip `{!Resolver} (line : str) : option Z :=
  match inet_aton line with
  | Some a => Some a
  | None => gethostbyname line
  end.

(** The value is assigned in any case. *)
Definition read_u32 (line : str) : Z * bool :=
  let '(z, _, endptr) := strtoul0 line in
  (z, streq endptr []).

Definition to_lower (c : ascii) : ascii :=
  let n := N_of_ascii c in
  if (65 <=? n)%N && (n <=? 90)%N then ascii_of_N (n + 32) else c.
Definition strcaseeq (a b : str) : bool := streq (to_lower <$> a) (to_lower <$> b).

Definition read_yn (line : str) : option Z :=
  if strcaseeq (lit "yes") line then Some 1
  else if strcaseeq (lit "no") line then Some 0
  else None.

Definition TAB : ascii := ascii_of_nat 9.

(** The options whose name is given; the last entry of the table counts. *)
Definition option_by_name (opt : str) : option dhcp_option :=
  last (filter (λ o, streq (o_name o) opt = true) option_table).

(** The switch of read_opt: the bytes of the value that starts with the token
    [val], if it is valid, and the saved position of strtok. *)
Definition read_opt_value `{!Resolver} (type : Z) (val s : str) : option bytes * str :=
  let number (n : nat) (z : Z) (rest : str) :=
    (if streq rest [] then Some (le_bytes n z) else None, s) in
  if type =? OPTION_IP then (le_bytes 4 <$> read_ip val, s)
  else if type =? OPTION_IP_PAIR then
    match strtok (lit ", " ++ [TAB] ++ lit "/-") s with
    | (Some val2, s') =>
        (a ← read_ip val; b ← read_ip val2; Some (le_bytes 4 a ++ le_bytes 4 b), s')
    | (None, s') => (None, s')
    end
  else if type =? OPTION_STRING then (Some (char_byte <$> take 254 val), s)
  else if type =? OPTION_BOOLEAN then (le_bytes 1 <$> read_yn val, s)
  else if type =? OPTION_U8 then let '(z, _, e) := strtoul0 val in number 1%nat z e
  else if type =? OPTION_U16 then let '(z, _, e) := strtoul0 val in number 2%nat (htons (u16 z)) e
  else if type =? OPTION_S16 then let '(z, e) := strtol0 val in number 2%nat (htons (u16 z)) e
  else if type =? OPTION_U32 then let '(z, _, e) := strtoul0 val in number 4%nat (htonl z) e
  else if type =? OPTION_S32 then let '(z, e) := strtol0 val in number 4%nat (htonl (u32 z)) e
  else (None, s).

(** The loop over the values; each one takes a character of the line. *)
Fixpoint read_opt_loop `{!Resolver} (fuel : nat) (option : dhcp_option) (retval : bool)
    (s : str) (opt_list : list bytes) : res (bool * list bytes) :=
  match fuel with
  | O => NoFuel
  | S fuel =>
      match strtok (lit ", " ++ [TAB]) s with
      | (None, _) => mret (retval, opt_list)
      | (Some val, s) =>
          match read_opt_value (Z.land (o_flags option) TYPE_MASK) val s with
          | (None, _) => mret (false, opt_list)
          | (Some buffer, s) =>
              opt_list ← attach_option opt_list option buffer (Z.of_nat (length buffer));
              if Z.land (o_flags option) OPTION_LIST =? 0 then mret (true, opt_list)
              else read_opt_loop fuel option true s opt_list
          end
      end
  end.

Definition read_opt `{!Resolver} (line : str) (opt_list : list bytes) : res (bool * list bytes) :=
  match strtok (lit " " ++ [TAB] ++ lit "=") line with
  | (None, _) => mret (false, opt_list)
  | (Some opt, s) =>
      match option_by_name opt with
      | None => mret (false, opt_list)
      | Some option => read_opt_loop (S (length s)) option false s opt_list
      end
  end.

(** ** The keywords *)
Definition handler : Type := str → server_config_t → res (bool * server_config_t).

Definition on_ip `{!Resolver} (set : Z → server_config_t → server_config_t) : handler := λ line c,
  match read_ip line with Some a => mret (true, set a c) | None => mret (false, c) end.
Definition on_str (set : option str → server_config_t → server_config_t) : handler := λ line c,
  mret (true, set (Some line) c).
Definition on_u32 (set : Z → server_config_t → server_config_t) : handler := λ line c,
  let '(z, ok) := read_u32 line in mret (ok, set z c).
Definition on_yn (set : Z → server_config_t → server_config_t) : handler := λ line c,
  match read_yn line with Some z => mret (true, set z c) | None => mret (false, c) end.
Definition on_opt `{!Resolver} : handler := λ line c,
  '(ok, l) ← read_opt line (c_options c); mret (ok, with_options l c).

(** [interface] is a string that is set, as its default value is not empty. *)
Definition on_interface : handler := λ line c, mret (true, with_interface line c).

Record config_keyword := Keyword { k_name : str; k_handler : handler; k_def : str }.

Definition keywords `{!Resolver} : list config_keyword := [
  Keyword (lit "start") (on_ip with_start) (lit "192.168.0.20");
  Keyword (lit "end") (on_ip with_end) (lit "192.168.0.254");
  Keyword (lit "interface") on_interface IF_LOCAL;
  Keyword (lit "option") on_opt [];
  Keyword (lit "opt") on_opt [];
  Keyword (lit "max_leases") (on_u32 with_max_leases) (lit "1024");
  Keyword (lit "remaining") (on_yn with_remaining) (lit "yes");
  Keyword (lit "auto_time") (on_u32 with_auto_time) (lit "30");
  Keyword (lit "decline_time") (on_u32 with_decline_time) (lit "3600");
  Keyword (lit "conflict_time") (on_u32 with_conflict_time) (lit "3600");
  Keyword (lit "offer_time") (on_u32 with_offer_time) (lit "60");
  Keyword (lit "min_lease") (on_u32 with_min_lease) (lit "60");
  Keyword (lit "lease_file") (on_str with_lease_file) (lit "/var/lib/dhcp/udhcpd.leases");
  Keyword (lit "pidfile") (on_str with_pidfile) (lit "/var/run/dhcpd.pid");
  Keyword (lit "notify_file") (on_str with_notify_file) [];
  Keyword (lit "siaddr") (on_ip with_siaddr) (lit "0.0.0.0");
  Keyword (lit "sname") (on_str with_sname) [];
  Keyword (lit "boot_file") (on_str with_boot_file) [];
  Keyword (lit "static_file") (on_str with_static_file) (lit "/var/lib/dhcp/udhcpd.static");
  Keyword (lit "max_static") (on_u32 with_max_static) (lit "200")
].

(** memset(&server_config, 0, sizeof(struct server_config_t)) *)
Definition zero_config : server_config_t :=
  Config 0 0 0 [] [] (replicate 6 0) 0 0 0 0 0 0 0 0 None None None 0 None None None 0 0.

Fixpoint config_defaults (ks : list config_keyword) (c : server_config_t) : res server_config_t :=
  match ks with
  | [] => mret c
  | k :: ks =>
      c ← (if streq (k_def k) [] then mret c
           else '(_, c) ← k_handler k (k_def k) c; mret c);
      config_defaults ks c
  end.

Definition trim_end (s : str) : str := rev (span is_space (rev s)).2.

(** The keyword and the value of a line, if it has both. *)
Definition split_line (buffer : str) : option (str * str) :=
  let buffer := cut "#" (cut LF (cstr buffer)) in
  let token := (span (one_of (lit " " ++ [TAB])) buffer).2 in
  let '(token, line) := span (λ c, negb (one_of (lit " " ++ [TAB] ++ lit "=") c)) token in
  match line with
  | [] => None
  | _ :: line => Some (token, trim_end (span (one_of (lit " " ++ [TAB] ++ lit "=")) line).2)
  end.

(** Every keyword with the name handles the line; the default value is used when
    the line is not valid. *)
Fixpoint config_line (ks : list config_keyword) (token line : str) (c : server_config_t)
    : res server_config_t :=
  match ks with
  | [] => mret c
  | k :: ks =>
      c ← (if strcaseeq token (k_name k) then
             '(ok, c) ← k_handler k line c;
             if ok : bool then mret c else '(_, c) ← k_handler k (k_def k) c; mret c
           else mret c);
      config_line ks token line c
  end.

Fixpoint read_config_loop `{!Resolver} (fuel : nat) (content : str) (c : server_config_t)
    : res server_config_t :=
  match fuel with
  | O => NoFuel
  | S fuel =>
      match fgets 80 content with
      | None => mret c
      | Some (buffer, rest) =>
          c ← (match split_line buffer with
               | Some (token, line) => config_line keywords token line c
               | None => mret c
               end);
          read_config_loop fuel rest c
      end
  end.

Definition read_config `{!Resolver} (file : str) : M srv Z :=
  c ← gets cfg;
  c ← of_res (config_defaults keywords c);
  modify (set_cfg c);;
  fp ← lib (fopen_r file);
  match fp with
  | None => mret 0
  | Some content =>
      c ← of_res (read_config_loop (S (length content)) content c);
      modify (set_cfg c);;
      mret 1
  end.

(** ** The lease file *)
Definition lease_record (l : lease) (lease_time : Z) : str :=
  put_bytes (l_chaddr l ++ le_bytes 4 (l_yiaddr l) ++ le_bytes 4 (htonl lease_time)
             ++ l_hostname l).

Section files.
Context `{!Net}.

Fixpoint write_leases_loop (path : str) (curr : Z) (ls : list lease) : M srv unit :=
  match ls with
  | [] => mret tt
  | l :: ls =>
      when (negb (l_yiaddr l =? 0))
        (c ← gets cfg;
         lease_time ← (if negb (c_remaining c =? 0) then
                         expired ← lease_expired l;
                         mret (if expired : bool then 0 else u32 (l_expires l - curr))
                       else mret (l_expires l));
         lib (fprintf path (lease_record l lease_time)));;
      write_leases_loop path curr ls
  end.

Definition write_leases : M srv unit :=
  curr ← time0;
  c ← gets cfg;
  match c_lease_file c with
  | None => fail NullDeref
  | Some path =>
      fp ← lib (fopen_w path);
      if negb fp then mret tt
      else
        ls ← gets leases;
        write_leases_loop path curr ls;;
        match c_notify_file c with
        | None => mret tt
        | Some notify =>
            buf ← lib (strcpy 255 (notify ++ lit " " ++ path));
            lib (system buf)
        end
  end.

(** An array of characters as a string: up to the first NUL. *)
Definition bytes_cstr (bs : bytes) : bytes :=
  match list_find (λ b, b = 0) bs with Some (k, _) => take k bs | None => bs end.

(** One record of 48 bytes. *)
Definition parse_lease (rec : str) : lease :=
  let bs := get_bytes rec in
  Lease (take 16 bs) (of_le (take 4 (drop 16 bs))) (of_le (take 4 (drop 20 bs)))
        (take 24 (drop 24 bs)).

(** [i] entries have been taken; a record takes 48 bytes of the file. *)
Fixpoint read_leases_loop (fuel : nat) (i : Z) (content : str) : M srv unit :=
  match fuel with
  | O => nofuel
  | S fuel =>
      c ← gets cfg;
      if negb (i <? c_max_leases c) then mret tt
      else if (length content <? 48)%nat then mret tt
      else
        let lease := parse_lease (take 48 content) in
        let rest := drop 48 content in
        if (c_start c <=? l_yiaddr lease) && (l_yiaddr lease <=? c_end c) then
          let expires := ntohl (l_expires lease) in
          expires ← (if c_remaining c =? 0 then now ← time0; mret (u32 (expires - now))
                     else mret expires);
          r ← add_lease (l_chaddr lease) (l_yiaddr lease) expires
                (Some (bytes_cstr (l_hostname lease)));
          match r with
          | None => mret tt
          | Some _ => read_leases_loop fuel (i + 1) rest
          end
        else read_leases_loop fuel i rest
  end.

Definition read_leases (file : option str) : M srv unit :=
  match file with
  | None => fail NullDeref
  | Some file =>
      fp ← lib (fopen_r file);
      match fp with
      | None => mret tt
      | Some content => read_leases_loop (S (length content)) 0 content
      end
  end.

Definition parse_static (rec : str) : static_lease :=
  let bs := get_bytes rec in
  SLease (take 16 bs) (of_le (take 4 (drop 16 bs))) (of_le (take 4 (drop 20 bs))).

Fixpoint read_static_loop (fuel : nat) (i : Z) (content : str) : M srv unit :=
  match fuel with
  | O => nofuel
  | S fuel =>
      c ← gets cfg;
      if negb (i <? c_max_static c) then mret tt
      else if (length content <? 24)%nat then mret tt
      else
        let lease := parse_static (take 24 content) in
        r ← add_static_lease (s_chaddr lease) (s_yiaddr lease) (ntohl (s_expires lease));
        match r with
        | None => mret tt
        | Some _ => read_static_loop fuel (i + 1) (drop 24 content)
        end
  end.

Definition read_static_leases (file : option str) : M srv unit :=
  match file with
  | None => fail NullDeref
  | Some file =>
      fp ← lib (fopen_r file);
      match fp with
      | None => mret tt
      | Some content => read_static_loop (S (length content)) 0 content
      end
  end.
End files.
