(* ===== verification/DhcpServer.v ===== *)
(** * udhcp-0.9.8/serverpacket.c: the replies of the server

    OFFER, ACK, NAK and the answer to INFORM: the choice of the address, the
    lease time, the options (which are rewritten for the host that shares the
    address of the WAN side, "twin IP"), and the way back to the client.  What
    the code calls outside of the sources is the class [Services]. *)
From S2P Require Import Prelude CLib Heap System Bytes Genconfig GenconfigSpec GenconfigOps.
From S2P Require Import GenconfigFile Cconfig SystemApi Syslog Dhcp DhcpOptions DhcpPacket.
From S2P Require Import DhcpLeases DhcpFiles.

(** Functions of libraries that are not part of the sources. *)
Class Services := {
  strtomac : str → bytes;                             (** text to hardware address *)
  check_unpermitted_chars : bytes → bool;             (** on a host name *)
  get_dhcp_access_policy : sys → bool;
  add_dhcp_access_host : bytes → str → sys → sys;
  remove_dhcp_access_host : bytes → sys → sys;
  get_dhcp_auto_detect_status : str → sys → bool;
  localtime : Z → tm;
  get_ux_text_syslog : Z → str;
  SYSLOG_MSG_DHCPD_OFFER_IP : str
}.

Definition INADDR_BROADCAST : Z := 0xffffffff.
Definition MAC_BCAST_ADDR : bytes := replicate 6 255.

Section server.
Context `{!Net, !Interfaces, !Services}.

(** A message is handed to the network; the result is the one of the call. *)
Definition transmit (o : output) : M srv Z := λ s,
  Ok (send_result (calls s),
      Srv (leases s) (statics s) (cfg s) (ticks s) (S (calls s)) (sent s ++ [o]) (os s)).

(** ** Sending *)
Definition send_packet_to_relay (payload : dhcpMessage) : M srv Z :=
  transmit (ToRelay payload).

Definition blanks : str := lit " " ++ [TAB; LF].

(** The lines behind the first one. *)
Fixpoint arptable_loop (fuel : nat) (ip_addr : str) (max : nat) (first : bool) (content : str)
    : res (option str) :=
  match fuel with
  | O => NoFuel
  | S fuel =>
      match fgets 128 content with
      | None => mret None
      | Some (buffer, rest) =>
          if first then arptable_loop fuel ip_addr max false rest
          else
            match strtok blanks (cstr buffer) with
            | (Some ptr, s) =>
                if streq ip_addr ptr then
                  let '(_, s) := strtok blanks s in
                  let '(_, s) := strtok blanks s in
                  match strtok blanks s with
                  | (Some ptr, _) => mret (Some (take (max - 1) ptr))
                  | (None, _) => mret (Some [])
                  end
                else arptable_loop fuel ip_addr max false rest
            | (None, _) => arptable_loop fuel ip_addr max false rest
            end
      end
  end.

(** The result and the text of the address, [None] when it is not written. *)
Definition get_hwaddr_from_arptable (ip_addr : str) (max : nat) : M sys (Z * option str) :=
  fp ← fopen_r (lit "/proc/net/arp");
  match fp with
  | None => mret (-1, None)
  | Some content =>
      r ← of_res (arptable_loop (S (length content)) ip_addr max true content);
      match r with
      | Some hw => mret (1, Some hw)
      | None => mret (0, Some [])
      end
  end.

(** The address and the hardware address the message goes to. *)
Definition client_dest (payload : dhcpMessage) (force_broadcast : bool) : Z * bytes :=
  if force_broadcast then (INADDR_BROADCAST, MAC_BCAST_ADDR)
  else if negb (ciaddr payload =? 0) then (ciaddr payload, chaddr payload)
  else if negb (Z.land (ntohs (flags payload)) BROADCAST_FLAG =? 0)
  then (INADDR_BROADCAST, MAC_BCAST_ADDR)
  else (yiaddr payload, chaddr payload).

(** A unicast goes out only when the ARP table has the client's hardware address
    for the address. *)
Definition checked_dest (payload : dhcpMessage) (dest : Z * bytes) : M sys (Z * bytes) :=
  if dest.1 =? INADDR_BROADCAST then mret dest
  else
    let addr := if negb (ciaddr payload =? 0) then ciaddr payload else yiaddr payload in
    '(r, hw) ← get_hwaddr_from_arptable (inet_ntoa addr) 32;
    if r =? 0 then mret (INADDR_BROADCAST, MAC_BCAST_ADDR)
    else
      match hw with
      | None => fail Uninit
      | Some hw =>
          if bool_decide (take 6 dest.2 = take 6 (strtomac hw)) then mret dest
          else mret (INADDR_BROADCAST, MAC_BCAST_ADDR)
      end.

Definition send_packet_to_client (payload : dhcpMessage) (force_broadcast : bool) : M srv Z :=
  dest ← lib (checked_dest payload (client_dest payload force_broadcast));
  c ← gets cfg;
  datagram ← of_res (raw_packet payload (c_server c) SERVER_PORT dest.1 CLIENT_PORT);
  transmit (ToClient dest.1 (take 6 dest.2) payload datagram).

Definition send_packet (payload : dhcpMessage) (force_broadcast : bool) : M srv Z :=
  if negb (giaddr payload =? 0) then send_packet_to_relay payload
  else send_packet_to_client payload force_broadcast.

(** ** Construction *)
Definition init_packet (oldpacket : dhcpMessage) (type : Z) : M srv dhcpMessage :=
  m ← of_res (init_header type);
  c ← gets cfg;
  '(_, opts) ← of_res (add_simple_option (options m) DHCP_SERVER_ID (c_server c));
  mret (Msg (op m) (htype m) (hlen m) (hops m) (xid oldpacket) (secs m) (flags oldpacket)
            (ciaddr oldpacket) (yiaddr m) (siaddr m) (giaddr oldpacket) (chaddr oldpacket)
            (sname m) (file m) (cookie m) opts).

(** strncpy into an array, with the array's size minus one. *)
Definition strncpy_field (dst : bytes) (s : str) : bytes :=
  let n := (length dst - 1)%nat in
  let t := take n (get_bytes s) in
  t ++ replicate (n - length t) 0 ++ drop n dst.

Definition add_bootp_options (packet : dhcpMessage) : M srv dhcpMessage :=
  c ← gets cfg;
  mret (Msg (op packet) (htype packet) (hlen packet) (hops packet) (xid packet) (secs packet)
            (flags packet) (ciaddr packet) (yiaddr packet) (c_siaddr c) (giaddr packet)
            (chaddr packet)
            (match c_sname c with Some s => strncpy_field (sname packet) s | None => sname packet end)
            (match c_boot_file c with Some s => strncpy_field (file packet) s | None => file packet end)
            (cookie packet) (options packet)).

Definition with_option (packet : dhcpMessage) (r : res (Z * bytes)) : M srv dhcpMessage :=
  '(_, opts) ← of_res r;
  mret (set_options opts packet).

(** memcpy(&x, data, 4) *)
Definition get4 (data : bytes) : res Z :=
  if (length data <? 4)%nat then Fault Overflow else mret (of_le (take 4 data)).

(** The address is not in the network of the address pool. *)
Definition other_net (c : server_config_t) (yi : Z) : bool :=
  negb (Z.land (htonl yi) (c_sys_netmask c) =? Z.land (htonl (c_start c)) (c_sys_netmask c)).

(** ** Twin IP *)
Definition get_ipclone_lease_time (wan_name : str) : M sys Z :=
  '(_, lease_time) ← read_real_ipclone_leasetime wan_name 60;
  mret lease_time.

Definition set_ipclone_address (wan_name : str) : M sys unit :=
  fp ← fopen_r (lit "/proc/driver/wanip");
  let '(a0, a1) :=
    match fp with
    | None => (0, 0)
    | Some content =>
        match scan_hex 8 content with
        | None => (0, 0)
        | Some (x, s) => match scan_hex 8 s with None => (x, 0) | Some (y, _) => (x, y) end
        end
    end in
  '(_, ip) ← get_wan_ip wan_name;
  let '(s0, s1) := if streq WAN2_NAME wan_name then (inet_ntoa (htonl a0), ip)
                   else (ip, inet_ntoa (htonl a1)) in
  if streq ip [] then mret tt
  else
    buf ← strcpy 64 (s0 ++ lit " " ++ s1);
    write_file (lit "/proc/driver/wanip") buf;;
    mret tt.

(** The option of the configuration with the address [ip] in place of its data:
    dhcp_router[128] and dhcp_subnet[128].  (The copy also reads the byte behind
    the data, which is never used.) *)
Definition with_address (data : bytes) (ip : Z) : res bytes :=
  l ← rd data OPT_LEN;
  if (128 <? l + 2 + 1) || (4 <? l) then Fault Overflow
  else mret (take 2 data ++ take (Z.to_nat l) (le_bytes 4 ip)).

Definition pppoe_gateway (c : server_config_t) (yi : Z) : Z :=
  ntohl (Z.lor (Z.land (htonl yi) (c_sys_netmask c)) 1).

(** The option that a twin IP host on [wan_name] gets in place of [data];
    [ifname] is the interface of the WAN side. *)
Definition twin_option (yi : Z) (wan_name : str) (ifname : M sys str) (data : bytes)
    : M srv bytes :=
  info ← lib (get_wan_type wan_name 32);
  code ← of_res (rd data OPT_CODE);
  c ← gets cfg;
  if code =? DHCP_ROUTER then
    gwip ← (if streq info (lit "pppoe") then mret (pppoe_gateway c yi)
            else ifname ← lib ifname;
                 '(_, gateway) ← lib (get_default_gateway ifname true);
                 mret (inet_addr gateway));
    of_res (with_address data gwip)
  else if code =? DHCP_SUBNET then
    if streq info (lit "pppoe") then mret data
    else
      ifname ← lib ifname;
      '(_, _, subnet_str) ← lib (get_ifconfig ifname);
      of_res (with_address data (inet_addr subnet_str))
  else mret data.

(** ** OFFER *)
Definition find_address_or_expired : M srv Z :=
  yi ← find_address false;
  if yi =? 0 then find_address true else mret yi.

(** The requested address, when it may be offered. *)
Definition requested_address (oldpacket : dhcpMessage) : M srv (option Z) :=
  req ← of_res (get_option oldpacket DHCP_REQUESTED_IP);
  match req with
  | None => mret None
  | Some (data, _) =>
      req_align ← of_res (get4 data);
      c ← gets cfg;
      if (ntohl (c_start c) <=? ntohl req_align) && (ntohl req_align <=? ntohl (c_end c)) then
        st ← find_static_lease_by_yiaddr req_align;
        match st with
        | Some _ => mret (Some req_align)
        | None =>
            l ← find_lease_by_yiaddr req_align;
            match l with
            | None => mret (Some req_align)
            | Some (_, l) =>
                expired ← lease_expired l;
                mret (if expired : bool then Some req_align else None)
            end
        end
      else mret None
  end.

(** The address and the lease time before the client's wishes. *)
Definition offer_address (oldpacket : dhcpMessage) : M srv (Z * Z) :=
  c ← gets cfg;
  static ← find_static_lease_by_chaddr (chaddr oldpacket);
  if negb (static =? 0) then mret (static, c_lease c)
  else
    l ← find_lease_by_chaddr (chaddr oldpacket);
    match l with
    | Some (_, l) =>
        expired ← lease_expired l;
        lease_time ← (if expired : bool then mret (c_lease c)
                      else now ← time0; mret (u32 (l_expires l - now)));
        other ← find_static_lease_by_yiaddr (l_yiaddr l);
        yi ← (match other with
              | Some _ => find_address_or_expired
              | None => mret (l_yiaddr l)
              end);
        mret (yi, lease_time)
    | None =>
        req ← requested_address oldpacket;
        yi ← (match req with
              | Some req_align =>
                  taken ← check_ip req_align;
                  if taken : bool then
                    yi ← find_address false;
                    if negb (yi =? 0) then find_address true else mret yi
                  else mret req_align
              | None =>
                  static ← find_static_lease_by_chaddr (chaddr oldpacket);
                  if negb (static =? 0) then mret static else find_address_or_expired
              end);
        mret (yi, c_lease c)
    end.

(** The lease time of an OFFER. *)
Definition offer_time (oldpacket : dhcpMessage) (lease_time : Z) : M srv Z :=
  c ← gets cfg;
  opt ← of_res (get_option oldpacket DHCP_LEASE_TIME);
  t ← (match opt with
       | None => mret lease_time
       | Some (data, _) =>
           t ← of_res (get4 data);
           mret (if c_lease c <? ntohl t then c_lease c else ntohl t)
       end);
  mret (if t <? c_min_lease c then c_lease c else t).

(** The options of the configuration but the lease time, [twin] in place of the
    ones that it gives. *)
Fixpoint add_options (twin : bytes → M srv bytes) (curr : list bytes) (packet : dhcpMessage)
    : M srv dhcpMessage :=
  match curr with
  | [] => mret packet
  | data :: curr =>
      code ← of_res (rd data OPT_CODE);
      packet ← (if code =? DHCP_LEASE_TIME then mret packet
                else
                  data ← twin data;
                  with_option packet (add_option_string (options packet) data));
      add_options twin curr packet
  end.

Definition offer_options (wan_name : str) (packet : dhcpMessage) : M srv dhcpMessage :=
  c ← gets cfg;
  add_options (λ data,
    if negb (streq wan_name []) && other_net c (yiaddr packet) then
      twin_option (yiaddr packet) wan_name
        (mret (if streq wan_name WAN2_NAME then IF_WAN2 else IF_WAN)) data
    else mret data) (c_options c) packet.

Definition sendOffer (oldpacket : dhcpMessage) : M srv Z :=
  packet ← init_packet oldpacket DHCPOFFER;
  '(yi, lease_time_align) ← offer_address oldpacket;
  let packet := set_yiaddr yi packet in
  if yi =? 0 then mret (-1)
  else
    c ← gets cfg;
    l ← add_lease (chaddr packet) yi (c_offer_time c) None;
    match l with
    | None => mret (-1)
    | Some _ =>
        lease_time_align ← offer_time oldpacket lease_time_align;
        '(go, lease_time_align, wan_name) ←
          (if other_net c yi then
             '(r, wan_name) ← lib (check_ipclone_ipaddr (chaddr packet));
             t ← (if r =? 0 then mret lease_time_align
                  else t ← lib (get_ipclone_lease_time wan_name); mret (u32 t));
             mret (true, t, wan_name)
           else
             op ← lib dhcpd_get_op;
             mret (negb (op =? 0), lease_time_align, []));
        if negb go then mret (-1)
        else
          lib (syslog_set_flag (lit "dhcpd") 1);;
          packet ← with_option packet
            (add_simple_option (options packet) DHCP_LEASE_TIME (htonl lease_time_align));
          packet ← offer_options wan_name packet;
          packet ← add_bootp_options packet;
          send_packet packet false
    end.

(** ** NAK *)
Definition sendNAK (oldpacket : dhcpMessage) : M srv Z :=
  packet ← init_packet oldpacket DHCPNAK;
  send_packet packet true.

(** ** ACK *)
Definition ack_time (oldpacket : dhcpMessage) : M srv Z :=
  c ← gets cfg;
  opt ← of_res (get_option oldpacket DHCP_LEASE_TIME);
  match opt with
  | None => mret (c_lease c)
  | Some (data, _) =>
      t ← of_res (get4 data);
      mret (if c_lease c <? ntohl t then c_lease c
            else if ntohl t <? c_min_lease c then c_lease c else ntohl t)
  end.

Definition log_offer (fmt : str) (args : list arg) : M srv unit :=
  flag ← lib (syslog_get_flag (lit "dhcpd"));
  when (negb (flag =? 0))
    (now ← time0;
     lib (syslog_msg get_ux_text_syslog (localtime now) SYSMSG_LOG_INFO fmt args);;
     lib (syslog_set_flag (lit "dhcpd") (-1));;
     mret tt).

Definition ack_options (packet : dhcpMessage) : M srv dhcpMessage :=
  c ← gets cfg;
  add_options (λ data,
    if other_net c (yiaddr packet) then
      '(r, wan_name) ← lib (check_ipclone_ipaddr (chaddr packet));
      if r =? 0 then mret data
      else twin_option (yiaddr packet) wan_name (get_wan_hw_ifname 32) data
    else mret data) (c_options c) packet.

(** The host name of the client, as the string in hostname[HOSTNAME_LEN]. *)
Definition ack_hostname (oldpacket : dhcpMessage) : M srv bytes :=
  hnp ← of_res (get_option oldpacket DHCP_HOST_NAME);
  let hostname := match hnp with
                  | Some (data, opt_len) => take (Z.to_nat (Z.min opt_len 23)) data
                  | None => []
                  end in
  let hostname := bytes_cstr hostname in
  mret (if check_unpermitted_chars hostname then [] else hostname).

Definition sendACK (oldpacket : dhcpMessage) (yi : Z) : M srv Z :=
  packet ← init_packet oldpacket DHCPACK;
  let packet := set_yiaddr yi packet in
  lease_time_align ← ack_time oldpacket;
  c ← gets cfg;
  lease_time_align ←
    (if other_net c yi then
       '(r, wan_name) ← lib (check_ipclone_ipaddr (chaddr packet));
       if r =? 0 then mret lease_time_align
       else
         t ← lib (get_ipclone_lease_time wan_name);
         lib (set_ipclone_address wan_name);;
         log_offer (lit "%s: %s (TWIN IP)") [AStr SYSLOG_MSG_DHCPD_OFFER_IP; AStr (inet_ntoa yi)];;
         mret (u32 t)
     else
       log_offer (lit "%s: %s (MAC : %02X-%02X-%02X-%02X-%02X-%02X)")
         (AStr SYSLOG_MSG_DHCPD_OFFER_IP :: AStr (inet_ntoa yi) :: (AInt <$> take 6 (chaddr packet)));;
       mret lease_time_align);
  packet ← with_option packet
    (add_simple_option (options packet) DHCP_LEASE_TIME (htonl lease_time_align));
  packet ← ack_options packet;
  packet ← add_bootp_options packet;
  r ← send_packet packet false;
  if r <? 0 then mret (-1)
  else
    hostname ← ack_hostname oldpacket;
    add_lease (chaddr packet) yi lease_time_align (Some hostname);;
    policy ← lib (gets get_dhcp_access_policy);
    when policy (lib (modify (add_dhcp_access_host (chaddr packet) (inet_ntoa yi))));;
    mret 0.

(** ** INFORM *)
Definition send_inform (oldpacket : dhcpMessage) : M srv Z :=
  packet ← init_packet oldpacket DHCPACK;
  c ← gets cfg;
  packet ← add_options mret (c_options c) packet;
  packet ← add_bootp_options packet;
  send_packet packet false.
End server.
