(* ===== verification/DhcpSettings.v ===== *)
(** * udhcp-0.9.8/new_dhcplib.c: the settings of the DHCP server

    What the web interface, the PPP daemon and the DHCP client call to configure
    the server: the settings are three entries of the configuration store, from
    which the configuration file of the server is written, and the reservations
    are the records of the server's static lease file.  A structure of the
    caller's stack has fields that are not initialised; arrays from malloc have
    the size that was asked for. *)
From S2P Require Import Prelude CLib Heap System Bytes Genconfig GenconfigSpec GenconfigOps.
From S2P Require Import GenconfigFile Cconfig SystemApi Syslog Userland Dhcp DhcpOptions.
From S2P Require Import DhcpPacket DhcpLeases DhcpFiles DhcpServer.

Definition UDHCPD_CONF_FILE : str := lit "/etc/udhcpd.conf".
Definition UDHCPD_LEASE_FILE : str := lit "/var/lib/dhcp/udhcpd.leases".
Definition UDHCPD_STATIC_LEASE_FILE : str := lit "/var/lib/dhcp/udhcpd.static".
Definition UDHCPD_STATIC_LEASE_MAX : Z := 200.
Definition DEFAULT_LEASETIME : Z := 864000.
Definition DHCPD_PROGRAM : str := lit "/sbin/dhcpd".
Definition ERROR_MANUAL_IPALLOC_ALREADY_EXIST_IP : Z := 1.
Definition ERROR_MANUAL_IPALLOC_ALREADY_EXIST_MAC : Z := 2.

(** dhcpd_conf_t; [None] is a field that has not been written. *)
Record dhcpd_conf_t := Conf {
  d_ifname : option str; d_sip : option str; d_eip : option str; d_gw : option str;
  d_mask : option str; d_dns1 : option str; d_dns2 : option str;
  d_autotime : option Z; d_leasetime : option Z; d_max_static_lease : option Z;
  d_dns_suffix : option str; d_lease_file : option str; d_static_lease_file : option str;
  d_config_file : option str
}.
(** A variable of the stack. *)
Definition raw_conf : dhcpd_conf_t :=
  Conf None None None None None None None None None None None None None None.

Definition set_range (ifname sip eip gw mask : option str) (c : dhcpd_conf_t) : dhcpd_conf_t :=
  Conf ifname sip eip gw mask (d_dns1 c) (d_dns2 c) (d_autotime c) (d_leasetime c)
       (d_max_static_lease c) (d_dns_suffix c) (d_lease_file c) (d_static_lease_file c)
       (d_config_file c).
Definition set_dns (dns1 dns2 : option str) (c : dhcpd_conf_t) : dhcpd_conf_t :=
  Conf (d_ifname c) (d_sip c) (d_eip c) (d_gw c) (d_mask c) dns1 dns2 (d_autotime c)
       (d_leasetime c) (d_max_static_lease c) (d_dns_suffix c) (d_lease_file c)
       (d_static_lease_file c) (d_config_file c).
Definition set_times (autotime leasetime max : option Z) (suffix : option str) (c : dhcpd_conf_t)
    : dhcpd_conf_t :=
  Conf (d_ifname c) (d_sip c) (d_eip c) (d_gw c) (d_mask c) (d_dns1 c) (d_dns2 c) autotime
       leasetime max suffix (d_lease_file c) (d_static_lease_file c) (d_config_file c).
Definition set_files (lease static config : option str) (c : dhcpd_conf_t) : dhcpd_conf_t :=
  Conf (d_ifname c) (d_sip c) (d_eip c) (d_gw c) (d_mask c) (d_dns1 c) (d_dns2 c)
       (d_autotime c) (d_leasetime c) (d_max_static_lease c) (d_dns_suffix c) lease static config.

(** The use of a field. *)
Definition need {A} (o : option A) : M sys A :=
  match o with Some a => mret a | None => fail Uninit end.

(** [if (ptr) strcpy(field, ptr)] and [if (ptr) field = atoi(ptr)] *)
Definition copy_token (cap : nat) (ptr : option str) (field : option str) : M sys (option str) :=
  match ptr with
  | Some p => s ← strcpy cap p; mret (Some s)
  | None => mret field
  end.
Definition int_token (ptr : option str) (field : option Z) : option Z :=
  match ptr with Some p => Some (atoi p) | None => field end.

Definition comma_nl : str := lit "," ++ [LF].
Definition comma_sp_nl : str := lit ", " ++ [LF].

(** ** Reading the settings *)
Definition read_range (config : dhcpd_conf_t) : M sys dhcpd_conf_t :=
  '(r, value) ← iconfig_get_value_direct (lit "dhcpd_conf") 1024;
  if r =? -1 then
    mret (set_range (Some IF_LOCAL) (Some (lit "192.168.0.2")) (Some (lit "192.168.0.254"))
                    (Some (lit "192.168.0.1")) (Some (lit "255.255.255.0")) config)
  else
    let '(p1, s1) := strtok comma_nl value in
    ifname ← copy_token 16 p1 (d_ifname config);
    let '(p2, s2) := strtok comma_nl s1 in
    sip ← copy_token 20 p2 (d_sip config);
    let '(p3, s3) := strtok comma_nl s2 in
    eip ← copy_token 20 p3 (d_eip config);
    let '(p4, s4) := strtok comma_nl s3 in
    gw ← copy_token 20 p4 (d_gw config);
    let '(p5, _) := strtok comma_nl s4 in
    mask ← copy_token 20 p5 (d_mask config);
    mret (set_range ifname sip eip gw mask config).

Definition read_dns (config : dhcpd_conf_t) : M sys dhcpd_conf_t :=
  '(r, value) ← iconfig_get_value_direct (lit "dhcpd_dns") 1024;
  if r =? -1 then mret (set_dns (Some (lit "192.168.0.1")) (Some []) config)
  else
    let '(p1, s1) := strtok comma_nl value in
    dns1 ← copy_token 20 p1 (d_dns1 config);
    let '(p2, _) := strtok comma_nl s1 in
    dns2 ← copy_token 20 p2 (d_dns2 config);
    mret (set_dns dns1 dns2 config).

Definition read_times (config : dhcpd_conf_t) : M sys dhcpd_conf_t :=
  '(r, value) ← iconfig_get_value_direct (lit "dhcpd_opt") 1024;
  if r =? -1 then
    mret (set_times (Some 30) (Some DEFAULT_LEASETIME) (Some UDHCPD_STATIC_LEASE_MAX) (Some []) config)
  else
    let '(p1, s1) := strtok comma_nl value in
    let '(p2, s2) := strtok comma_nl s1 in
    let '(p3, s3) := strtok comma_nl s2 in
    let '(p4, _) := strtok comma_sp_nl s3 in
    suffix ← copy_token 32 p4 (Some []);
    mret (set_times (int_token p2 (d_autotime config)) (int_token p1 (d_leasetime config))
                    (int_token p3 (d_max_static_lease config)) suffix config).

(** The name of a file, or its default. *)
Definition read_path (tag def : str) : M sys str :=
  '(r, path) ← iconfig_get_value_direct tag 256;
  if r =? -1 then strcpy 256 def else mret path.

Definition dhcpd_read_config (config : dhcpd_conf_t) : M sys dhcpd_conf_t :=
  config ← read_range config;
  config ← read_dns config;
  config ← read_times config;
  lease_file ← read_path (lit "dhcpd_lease_file") UDHCPD_LEASE_FILE;
  static_lease_file ← read_path (lit "dhcpd_static_lease_file") UDHCPD_STATIC_LEASE_FILE;
  config_file ← read_path (lit "dhcpd_configfile") UDHCPD_CONF_FILE;
  mret (set_files (Some lease_file) (Some static_lease_file) (Some config_file) config).

(** ** The configuration file of the server *)
Definition line (words : list str) : str := concat words ++ [LF].

Definition update_udhcpd_config (config : dhcpd_conf_t) : M sys Z :=
  path ← need (d_config_file config);
  fp ← fopen_w path;
  if negb fp then mret (-1)
  else
    sip ← need (d_sip config);
    fprintf path (line [lit "start "; sip]);;
    eip ← need (d_eip config);
    fprintf path (line [lit "end "; eip]);;
    ifname ← need (d_ifname config);
    fprintf path (line [lit "interface "; ifname]);;
    autotime ← need (d_autotime config);
    fprintf path (line [lit "auto_time "; fmt_d autotime]);;
    dns1 ← need (d_dns1 config);
    when (negb (streq dns1 [])) (
      dns2 ← need (d_dns2 config);
      fprintf path (line [lit "option dns "; dns1; lit " "; dns2]));;
    mask ← need (d_mask config);
    fprintf path (line [lit "option subnet "; mask]);;
    gw ← need (d_gw config);
    fprintf path (line [lit "option router "; gw]);;
    dns_suffix ← need (d_dns_suffix config);
    when (negb (streq dns_suffix []))
      (fprintf path (line [lit "option domain "; dns_suffix]));;
    leasetime ← need (d_leasetime config);
    fprintf path (line [lit "option lease "; fmt_d leasetime]);;
    lease_file ← need (d_lease_file config);
    fprintf path (line [lit "lease_file "; lease_file]);;
    static_lease_file ← need (d_static_lease_file config);
    fprintf path (line [lit "static_file "; static_lease_file]);;
    max_static_lease ← need (d_max_static_lease config);
    fprintf path (line [lit "max_static "; fmt_d max_static_lease]);;
    mret 0.

Definition comma : str := lit ",".

Definition dhcpd_commit_config (config : dhcpd_conf_t) : M sys Z :=
  ifname ← need (d_ifname config);
  sip ← need (d_sip config);
  eip ← need (d_eip config);
  gw ← need (d_gw config);
  mask ← need (d_mask config);
  value ← strcpy 1024 (ifname ++ comma ++ sip ++ comma ++ eip ++ comma ++ gw ++ comma ++ mask);
  iconfig_set_value_direct (lit "dhcpd_conf") (Some value);;
  dns1 ← need (d_dns1 config);
  dns2 ← need (d_dns2 config);
  value ← strcpy 1024 (dns1 ++ comma ++ dns2);
  iconfig_set_value_direct (lit "dhcpd_dns") (Some value);;
  leasetime ← need (d_leasetime config);
  autotime ← need (d_autotime config);
  max_static_lease ← need (d_max_static_lease config);
  dns_suffix ← need (d_dns_suffix config);
  value ← strcpy 1024 (fmt_d leasetime ++ comma ++ fmt_d autotime ++ comma
                       ++ fmt_d max_static_lease ++ comma ++ dns_suffix ++ lit " ");
  iconfig_set_value_direct (lit "dhcpd_opt") (Some value);;
  config_file ← need (d_config_file config);
  iconfig_set_value_direct (lit "dhcpd_configfile") (Some config_file);;
  lease_file ← need (d_lease_file config);
  iconfig_set_value_direct (lit "dhcpd_lease_file") (Some lease_file);;
  static_lease_file ← need (d_static_lease_file config);
  iconfig_set_value_direct (lit "dhcpd_static_lease_file") (Some static_lease_file);;
  update_udhcpd_config config;;
  mret 0.

(** ** The process of the server *)

(** system() gives the status of the shell, which is not negative. *)
Definition dhcpd_start : M sys Z :=
  command ← strcpy 128 (DHCPD_PROGRAM ++ lit " &");
  system command;;
  mret 0.

(** The signals that are sent, by process. *)
Definition dhcpd_stop (alive : Z → bool) : M sys (list (Z * Z)) :=
  '(_, signals) ← kill_process alive (lit "dhcpd") 1;
  mret signals.

(** [x && strcmp(field, x)] *)
Definition differs (field : option str) (x : option str) : M sys bool :=
  match x with
  | Some x => f ← need field; mret (negb (streq f x))
  | None => mret false
  end.

Definition dhcpd_set_dns (alive : Z → bool) (dns1 dns2 : option str) : M sys (Z * list (Z * Z)) :=
  config ← dhcpd_read_config raw_conf;
  d1 ← differs (d_dns1 config) dns1;
  d2 ← (if d1 : bool then mret true else differs (d_dns2 config) dns2);
  if d2 : bool then
    new1 ← copy_token 20 dns1 (d_dns1 config);
    new2 ← copy_token 20 dns2 (d_dns2 config);
    dhcpd_commit_config (set_dns new1 new2 config);;
    signals ← dhcpd_stop alive;
    dhcpd_start;;
    mret (1, signals)
  else mret (0, []).

(** [check_twinip_enable] is a function of a library outside of the sources. *)
Definition init_dhcpd (check_twinip_enable : sys → bool) : M sys unit :=
  config ← dhcpd_read_config raw_conf;
  update_udhcpd_config config;;
  op ← dhcpd_get_op;
  twin ← gets check_twinip_enable;
  when (negb (op =? 0) || twin) (dhcpd_start;; mret tt).

(** ** Leases for the caller: dhcpd_lease_info_t *)
Record lease_info := Info { i_ip : str; i_hw : str; i_expires : Z; i_host : str }.
Definition blank_info : lease_info := Info [] [] 0 [].

(** malloc(sizeof(dhcpd_lease_info_t) * max) and memset: the entries that fit;
    a block of more than half of the address space is not given. *)
Definition INFO_SIZE : Z := 20 + 20 + 4 + 64.
Definition lease_array (max : Z) : M sys (list lease_info) :=
  let size := u32 (INFO_SIZE * max) in
  if 2 ^ 31 <=? size then fail NullDeref
  else mret (replicate (Z.to_nat (size / INFO_SIZE)) blank_info).

(** lease_arr[i] = e, and lease_arr[i] *)
Definition put_info (arr : list lease_info) (i : Z) (e : lease_info) : M sys (list lease_info) :=
  if (0 <=? i) && (i <? Z.of_nat (length arr)) then mret (<[Z.to_nat i := e]> arr)
  else fail Overflow.
Definition get_info (arr : list lease_info) (i : Z) : M sys lease_info :=
  if i <? 0 then fail Overflow
  else match arr !! Z.to_nat i with Some e => mret e | None => fail Overflow end.

Definition hw_text (chaddr : bytes) : str := mac_text ":" (take 6 chaddr).

(** The records of the static lease file, 24 bytes each; [arr] is NULL for a
    caller that only counts. *)
Fixpoint static_loop (fuel : nat) (max i : Z) (content : str) (arr : option (list lease_info))
    : M sys (Z * option (list lease_info)) :=
  match fuel with
  | O => nofuel
  | S fuel =>
      if (length content <? 24)%nat then mret (i, arr)
      else
        let lease := parse_static (take 24 content) in
        match arr with
        | None => static_loop fuel max (i + 1) (drop 24 content) None
        | Some a =>
            old ← get_info a i;
            ip ← strcpy 20 (inet_ntoa (s_yiaddr lease));
            hw ← strcpy 20 (hw_text (s_chaddr lease));
            a ← put_info a i (Info ip hw (i32 (s_expires lease)) (i_host old));
            if i + 1 =? max then mret (i + 1, Some a)
            else static_loop fuel max (i + 1) (drop 24 content) (Some a)
        end
  end.

Definition dhcpd_get_all_static_lease (arr : option (list lease_info)) (max : Z)
    : M sys (Z * option (list lease_info)) :=
  config ← dhcpd_read_config raw_conf;
  path ← need (d_static_lease_file config);
  fp ← fopen_r path;
  match fp with
  | None => mret (0, arr)
  | Some content => static_loop (S (length content)) max 0 content arr
  end.

Section reservations.
Context `{!Services}.

(** A record of the static lease file. *)
Definition static_record (e : lease_info) : str :=
  let mac := take 6 (strtomac (i_hw e)) in
  put_bytes (mac ++ replicate (16 - length mac) 0 ++ le_bytes 4 (inet_addr (i_ip e))
             ++ le_bytes 4 (u32 (i_expires e))).

Fixpoint write_static_loop (k : nat) (path : str) (arr : list lease_info) (i : Z) : M sys unit :=
  match k with
  | O => mret tt
  | S k =>
      e ← get_info arr i;
      fprintf path (static_record e);;
      write_static_loop k path arr (i + 1)
  end.

Definition dhcpd_set_all_static_lease (arr : list lease_info) (count : Z) : M sys Z :=
  config ← dhcpd_read_config raw_conf;
  path ← need (d_static_lease_file config);
  fp ← fopen_w path;
  if negb fp then mret 0
  else write_static_loop (Z.to_nat count) path arr 0;; mret 1.

(** Whether an entry has the address, the hardware address or both. *)
Definition matches (ip_addr mac_addr : option str) (e : lease_info) : bool :=
  match ip_addr, mac_addr with
  | Some ip, None => streq ip (i_ip e)
  | None, Some mac => streq mac (i_hw e)
  | Some ip, Some mac => streq mac (i_hw e) && streq ip (i_ip e)
  | None, None => false
  end.

(** The first [count] entries of the array. *)
Fixpoint entries (k : nat) (arr : list lease_info) (i : Z) : M sys (list lease_info) :=
  match k with
  | O => mret []
  | S k => e ← get_info arr i; es ← entries k arr (i + 1); mret (e :: es)
  end.

(** The array of the caller, filled from the file, and the number of entries. *)
Definition read_reservations : M sys (dhcpd_conf_t * Z * list lease_info) :=
  config ← dhcpd_read_config raw_conf;
  max ← need (d_max_static_lease config);
  arr ← lease_array max;
  '(count, arr') ← dhcpd_get_all_static_lease (Some arr) max;
  mret (config, count, default arr arr').

Definition dhcpd_search_static_lease (ip_addr mac_addr : option str) : M sys Z :=
  '(_, count, arr) ← read_reservations;
  es ← entries (Z.to_nat count) arr 0;
  mret (if existsb (matches ip_addr mac_addr) es then 1 else 0).

Definition dhcpd_add_static_lease (ip_addr hw_addr : str) : M sys Z :=
  '(config, count, arr) ← read_reservations;
  es ← entries (Z.to_nat count) arr 0;
  match list_find (λ e, streq ip_addr (i_ip e) || streq hw_addr (i_hw e) = true) es with
  | Some (_, e) =>
      mret (if streq ip_addr (i_ip e) then ERROR_MANUAL_IPALLOC_ALREADY_EXIST_IP
            else ERROR_MANUAL_IPALLOC_ALREADY_EXIST_MAC)
  | None =>
      old ← get_info arr count;
      ip ← strcpy 20 ip_addr;
      hw ← strcpy 20 hw_addr;
      leasetime ← need (d_leasetime config);
      arr ← put_info arr count (Info ip hw leasetime (i_host old));
      dhcpd_set_all_static_lease arr (count + 1);;
      mret 0
  end.

(** The loop that removes an entry: from the first match on, every entry but the
    last one gets its successor. *)
Fixpoint remove_static_loop (k : nat) (ip_addr mac_addr : option str) (count i : Z) (foundit : bool)
    (arr : list lease_info) : M sys (bool * list lease_info) :=
  match k with
  | O => mret (foundit, arr)
  | S k =>
      e ← get_info arr i;
      let foundit := foundit || matches ip_addr mac_addr e in
      arr ← (if foundit && negb (i =? count - 1) then
               next ← get_info arr (i + 1); put_info arr i next
             else mret arr);
      remove_static_loop k ip_addr mac_addr count (i + 1) foundit arr
  end.

(** [convert_mac2] is a function of a library outside of the sources. *)
Definition dhcpd_remove_static_lease (convert_mac2 : str → str) (ip_addr hw_addr : option str)
    : M sys Z :=
  mac_addr ← (match hw_addr with
              | None => mret None
              | Some hw =>
                  mac ← strcpy 20 hw;
                  mret (Some (match strchr "-" mac with Some _ => convert_mac2 mac | None => mac end))
              end);
  '(_, count, arr) ← read_reservations;
  '(foundit, arr) ← remove_static_loop (Z.to_nat count) ip_addr mac_addr count 0 false arr;
  when foundit (dhcpd_set_all_static_lease arr (count - 1);; mret tt);;
  mret 0.
End reservations.

Definition dhcpd_flush_dynamic_lease : M sys Z :=
  config ← dhcpd_read_config raw_conf;
  path ← need (d_lease_file config);
  write_file path [];;
  mret 0.

Definition dhcpd_flush_static_lease : M sys Z :=
  config ← dhcpd_read_config raw_conf;
  path ← need (d_static_lease_file config);
  write_file path [];;
  mret 0.

(** ** The dynamic leases: records of 48 bytes *)

(** strcpy of the host name: the field of the record need not be terminated. *)
Definition lease_host (l : lease) : M sys str :=
  match list_find (λ b, b = 0) (l_hostname l) with
  | Some (k, _) => strcpy 64 (put_bytes (take k (l_hostname l)))
  | None => fail Overflow
  end.

Fixpoint dynamic_loop (fuel : nat) (max i : Z) (content : str) (arr : option (list lease_info))
    : M sys (Z * option (list lease_info)) :=
  match fuel with
  | O => nofuel
  | S fuel =>
      if (length content <? 48)%nat then mret (i, arr)
      else
        let lease := parse_lease (take 48 content) in
        match arr with
        | None => dynamic_loop fuel max (i + 1) (drop 48 content) None
        | Some a =>
            ip ← strcpy 20 (inet_ntoa (l_yiaddr lease));
            hw ← strcpy 20 (hw_text (l_chaddr lease));
            host ← lease_host lease;
            a ← put_info a i (Info ip hw (i32 (l_expires lease)) host);
            if i + 1 =? max then mret (i + 1, Some a)
            else dynamic_loop fuel max (i + 1) (drop 48 content) (Some a)
        end
  end.

Definition dhcpd_get_all_dynamic_lease (arr : option (list lease_info)) (max : Z)
    : M sys (Z * option (list lease_info)) :=
  config ← dhcpd_read_config raw_conf;
  path ← need (d_lease_file config);
  fp ← fopen_r path;
  match fp with
  | None => mret (0, arr)
  | Some content => dynamic_loop (S (length content)) max 0 content arr
  end.

Fixpoint search_dynamic (fuel : nat) (ipaddr content : str) : M sys (option lease_info) :=
  match fuel with
  | O => nofuel
  | S fuel =>
      if (length content <? 48)%nat then mret None
      else
        let lease := parse_lease (take 48 content) in
        if streq (inet_ntoa (l_yiaddr lease)) ipaddr then
          ip ← strcpy 20 (inet_ntoa (l_yiaddr lease));
          hw ← strcpy 20 (hw_text (l_chaddr lease));
          host ← lease_host lease;
          mret (Some (Info ip hw (i32 (l_expires lease)) host))
        else search_dynamic fuel ipaddr (drop 48 content)
  end.

Definition dhcpd_get_dynamic_lease (ipaddr : str) : M sys (option lease_info) :=
  config ← dhcpd_read_config raw_conf;
  path ← need (d_lease_file config);
  fp ← fopen_r path;
  match fp with
  | None => mret None
  | Some content => search_dynamic (S (length content)) ipaddr content
  end.
