(* ===== verification/SettingsSpec.v ===== *)
(** * The settings of the DHCP server: specification

    [settings] is what the settings mean: addresses as numbers, names as words.
    The structure that holds them, the entries of the configuration store and
    the text of the server's configuration file are three forms of the same
    settings; the lemmas relate the operations of DhcpSettings.v to them. *)
From S2P Require Import Prelude CLib Heap System Bytes Genconfig GenconfigSpec GenconfigOps.
From S2P Require Import GenconfigFile Cconfig SystemApi Syslog Userland Dhcp DhcpOptions.
From S2P Require Import DhcpPacket DhcpLeases DhcpFiles DhcpServer DhcpSettings.

#[export] Instance clean_tag_dec t : Decision (clean_tag t).
Proof. unfold clean_tag. apply _. Defined.

(** ** Words *)

(** A character that is neither a blank nor a separator of the files. *)
Definition plain (c : ascii) : bool := negb (is_space c || one_of (lit ",=#" ++ [NUL]) c).
Definition is_word (s : str) : Prop := s ≠ [] ∧ Forall (λ c, plain c = true) s.

#[export] Instance is_word_dec s : Decision (is_word s).
Proof. unfold is_word. apply _. Defined.

(** No word has a character that is not plain. *)
Lemma word_notin s c : Forall (λ c, plain c = true) s → plain c = false → c ∉ s.
Proof. intros Hs Hc Hin. rewrite Forall_forall in Hs. apply Hs in Hin. congruence. Qed.

Lemma word_avoids ds s :
  Forall (λ c, plain c = true) s → forallb (λ c, negb (plain c)) ds = true →
  Forall (λ c, c ∉ ds) s.
Proof.
  intros Hs Hds. eapply Forall_impl; [exact Hs|]. intros c Hc Hin. rewrite forallb_forall in Hds.
  apply list_elem_of_In, Hds in Hin. by rewrite Hc in Hin.
Qed.

Lemma digit_plain c : is_digit c = true → plain c = true.
Proof.
  intros Hc. apply is_digit_range in Hc. unfold plain.
  pose proof (ascii_N_embedding c) as E. set (n := N_of_ascii c) in *.
  assert (∃ k : Z, Z.of_N n = k ∧ 48 ≤ k ≤ 57) as (k & Hk & Hr) by (exists (Z.of_N n); done).
  rewrite <- E. replace n with (Z.to_N k) by lia. clear -Hr.
  assert (k = 48 ∨ k = 49 ∨ k = 50 ∨ k = 51 ∨ k = 52 ∨ k = 53 ∨ k = 54 ∨ k = 55 ∨ k = 56 ∨ k = 57)
    as Hk by lia.
  destruct_or! Hk; by subst.
Qed.

Lemma fmt_u_word z : 0 ≤ z → is_word (fmt_u z).
Proof.
  intros Hz. split; [apply fmt_u_nonempty|].
  eapply Forall_impl; [by apply fmt_u_digits|]. apply digit_plain.
Qed.

Lemma fmt_d_word z : 0 ≤ z → fmt_d z = fmt_u z ∧ is_word (fmt_d z).
Proof.
  intros Hz. unfold fmt_d. rewrite (proj2 (Z.ltb_ge _ _)) by done. split; [done|by apply fmt_u_word].
Qed.

Lemma inet_ntoa_word a : is_word (inet_ntoa a) ∧ (length (inet_ntoa a) < 20)%nat.
Proof.
  unfold inet_ntoa. pose proof (le_bytes_is_bytes 4 a) as Hb. pose proof (le_bytes_length 4 a) as Hl.
  destruct (le_bytes 4 a) as [|b0 [|b1 [|b2 [|b3 [|]]]]]; try done.
  unfold is_bytes in Hb. rewrite !Forall_cons in Hb. destruct Hb as (H0 & H1 & H2 & H3 & _).
  unfold is_byte in *.
  pose proof (fmt_u_word b0 ltac:(lia)) as [N0 W0]. pose proof (fmt_u_word b1 ltac:(lia)) as [_ W1].
  pose proof (fmt_u_word b2 ltac:(lia)) as [_ W2]. pose proof (fmt_u_word b3 ltac:(lia)) as [_ W3].
  pose proof (udec_length (S (Z.to_nat (Z.log2 b0))) b0 3) as L0.
  pose proof (udec_length (S (Z.to_nat (Z.log2 b1))) b1 3) as L1.
  pose proof (udec_length (S (Z.to_nat (Z.log2 b2))) b2 3) as L2.
  pose proof (udec_length (S (Z.to_nat (Z.log2 b3))) b3 3) as L3.
  split; [split|].
  - by destruct (fmt_u b0).
  - rewrite !Forall_app. repeat split; done || (by apply Forall_cons_2).
  - rewrite !length_app. unfold fmt_u. change (length (lit ".")) with 1%nat. lia.
Qed.

(** ** The settings *)
Record settings := Settings {
  g_ifname : str; g_sip : Z; g_eip : Z; g_gw : Z; g_mask : Z; g_dns1 : Z; g_dns2 : Z;
  g_autotime : Z; g_leasetime : Z; g_max : Z; g_suffix : str;
  g_lease_file : str; g_static_file : str; g_config_file : str
}.

Definition addresses (g : settings) : list Z :=
  [g_sip g; g_eip g; g_gw g; g_mask g; g_dns1 g; g_dns2 g].

(** Settings that fit the arrays of the structure and the lines of the files. *)
Record wf_settings (g : settings) : Prop := {
  ws_ifname : is_word (g_ifname g) ∧ (length (g_ifname g) < 16)%nat;
  ws_addr : Forall is_u32 (addresses g);
  ws_auto : 0 ≤ g_autotime g < 2 ^ 31;
  ws_lease : 0 ≤ g_leasetime g < 2 ^ 31;
  ws_max : 0 ≤ g_max g < 2 ^ 31;
  ws_suffix : (g_suffix g = [] ∨ is_word (g_suffix g)) ∧ (length (g_suffix g) < 32)%nat;
  ws_leases : is_word (g_lease_file g) ∧ (length (g_lease_file g) ≤ 64)%nat;
  ws_statics : is_word (g_static_file g) ∧ (length (g_static_file g) ≤ 64)%nat;
  ws_config : is_word (g_config_file g) ∧ (length (g_config_file g) ≤ 64)%nat
}.

(** The structure. *)
Definition conf (g : settings) : dhcpd_conf_t :=
  Conf (Some (g_ifname g)) (Some (inet_ntoa (g_sip g))) (Some (inet_ntoa (g_eip g)))
       (Some (inet_ntoa (g_gw g))) (Some (inet_ntoa (g_mask g))) (Some (inet_ntoa (g_dns1 g)))
       (Some (inet_ntoa (g_dns2 g))) (Some (g_autotime g)) (Some (g_leasetime g))
       (Some (g_max g)) (Some (g_suffix g)) (Some (g_lease_file g)) (Some (g_static_file g))
       (Some (g_config_file g)).

(** The entries of the store. *)
Definition range_text (g : settings) : str :=
  g_ifname g ++ comma ++ inet_ntoa (g_sip g) ++ comma ++ inet_ntoa (g_eip g) ++ comma
  ++ inet_ntoa (g_gw g) ++ comma ++ inet_ntoa (g_mask g).
Definition dns_text (g : settings) : str := inet_ntoa (g_dns1 g) ++ comma ++ inet_ntoa (g_dns2 g).
Definition opt_text (g : settings) : str :=
  fmt_d (g_leasetime g) ++ comma ++ fmt_d (g_autotime g) ++ comma ++ fmt_d (g_max g) ++ comma
  ++ g_suffix g ++ lit " ".

Definition stored (kv : GenconfigSpec.entries) (g : settings) : Prop :=
  look (lit "dhcpd_conf") kv = Some (range_text g) ∧
  look (lit "dhcpd_dns") kv = Some (dns_text g) ∧
  look (lit "dhcpd_opt") kv = Some (opt_text g) ∧
  look (lit "dhcpd_configfile") kv = Some (g_config_file g) ∧
  look (lit "dhcpd_lease_file") kv = Some (g_lease_file g) ∧
  look (lit "dhcpd_static_lease_file") kv = Some (g_static_file g).

(** The lines of the server's file. *)
Definition conf_lines (g : settings) : list str :=
  [lit "start " ++ inet_ntoa (g_sip g); lit "end " ++ inet_ntoa (g_eip g);
   lit "interface " ++ g_ifname g; lit "auto_time " ++ fmt_d (g_autotime g);
   lit "option dns " ++ inet_ntoa (g_dns1 g) ++ lit " " ++ inet_ntoa (g_dns2 g);
   lit "option subnet " ++ inet_ntoa (g_mask g); lit "option router " ++ inet_ntoa (g_gw g)]
  ++ (if streq (g_suffix g) [] then [] else [lit "option domain " ++ g_suffix g])
  ++ [lit "option lease " ++ fmt_d (g_leasetime g); lit "lease_file " ++ g_lease_file g;
      lit "static_file " ++ g_static_file g; lit "max_static " ++ fmt_d (g_max g)].
Definition text_of (ls : list str) : str := concat ((λ l, l ++ [LF]) <$> ls).

(** ** Reading the store *)
Abbreviation CONFIG := INTEGRATED_CONFIG_FILE.

(** What a reader of the store leaves as it was. *)
Record kept (σ σ' : sys) : Prop := {
  kt_items : items σ' = items σ;
  kt_strs : strs σ' = strs σ;
  kt_sound : sound CONFIG (env σ');
  kt_entries : entries_of CONFIG (env σ') = entries_of CONFIG (env σ);
  kt_files g : g ≠ lock_name CONFIG → files (env σ') !! g = files (env σ) !! g;
  kt_unwritable : unwritable (env σ') = unwritable (env σ);
  kt_locks : locks (env σ') = locks (env σ);
  kt_shell : shell (env σ') = shell (env σ)
}.

Lemma kept_refl σ : sound CONFIG (env σ) → kept σ σ.
Proof. by split. Qed.

Lemma kept_trans σ1 σ2 σ3 : kept σ1 σ2 → kept σ2 σ3 → kept σ1 σ3.
Proof.
  intros H1 H2. destruct H2 as [I2 S2 So2 E2 F2 U2 L2 Sh2].
  destruct H1 as [I1 S1 So1 E1 F1 U1 L1 Sh1].
  split; try congruence; try done. intros g Hg. rewrite F2, F1 by done. done.
Qed.

(** [m] gives [a] and leaves everything as it was. *)
Definition gives {A} (m : M sys A) (σ : sys) (a : A) : Prop :=
  ∃ σ', m σ = Ok (a, σ') ∧ kept σ σ'.

Lemma gives_ret {A} (a : A) σ : sound CONFIG (env σ) → gives (mret a) σ a.
Proof. intros H. exists σ. split; [done|by apply kept_refl]. Qed.

Lemma gives_bind {A B} (m : M sys A) (f : A → M sys B) σ a b :
  gives m σ a → (∀ σ', kept σ σ' → gives (f a) σ' b) → gives (m ≫= f) σ b.
Proof.
  intros (σ1 & E & H) Hf. destruct (Hf σ1 H) as (σ2 & E2 & H2). exists σ2.
  rewrite (bind_Ok _ _ _ _ _ E). split; [done|by eapply kept_trans].
Qed.

Lemma gives_get tag cap σ v :
  sound CONFIG (env σ) → look tag (entries_of CONFIG (env σ)) = v →
  (length (default [] v) < cap)%nat →
  gives (iconfig_get_value_direct tag cap) σ match v with Some w => (0, w) | None => (-1, []) end.
Proof.
  intros Hs Hv Hcap. destruct (lock_env_fields CONFIG (env σ)) as (_ & Hu & Hf & _ & Hl).
  assert (shell (touch_env CONFIG (env σ)) = shell (env σ)) as Hsh
    by (unfold touch_env; by case_bool_decide).
  assert (entries_of CONFIG (touch_env CONFIG (env σ)) = entries_of CONFIG (env σ)) as He.
  { unfold entries_of. rewrite touch_env_lookup; [done|apply Hs]. }
  eexists. split; [rewrite store_get by (rewrite ?Hv; done || by apply sound_usable); by rewrite Hv|].
  split; simpl; try done.
  - destruct Hs as [Hl0 Ho Hw Hc]. split; rewrite ?Hl, ?Hu, ?He; done.
  - intros g Hg. by apply touch_env_lookup.
Qed.

Lemma gives_strcpy cap s σ :
  sound CONFIG (env σ) → (length s < cap)%nat → gives (strcpy cap s) σ s.
Proof. intros Hs H. exists σ. split; [by apply strcpy_ok|by apply kept_refl]. Qed.

Lemma gives_copy cap s f σ :
  sound CONFIG (env σ) → (length s < cap)%nat → gives (copy_token cap (Some s) f) σ (Some s).
Proof.
  intros Hs H. unfold copy_token. eapply gives_bind; [by apply gives_strcpy|].
  intros σ' Hk. apply gives_ret, Hk.
Qed.

Lemma strtok_word w r : is_word w → strtok comma_nl (w ++ comma ++ r) = (Some w, r).
Proof.
  intros [Hne Hw]. apply (strtok_tok comma_nl w "," r); [done|by apply word_avoids|].
  apply list_elem_of_here.
Qed.

Lemma strtok_last w : is_word w → strtok comma_nl w = (Some w, []).
Proof. intros [Hne Hw]. apply strtok_end; [done|by apply word_avoids]. Qed.

(** The suffix is followed by a blank. *)
Lemma strtok_suffix s :
  s = [] ∨ is_word s → strtok comma_sp_nl (s ++ lit " ") = (if streq s [] then None else Some s, []).
Proof.
  intros [->|[Hne Hw]]; [done|]. rewrite (proj2 (streq_false _ _)) by done.
  apply (strtok_tok comma_sp_nl s " " []); [done|by apply word_avoids|by right; left].
Qed.

Section reading.
Context (g : settings) (Hwf : wf_settings g).

Lemma addr_word a : is_word (inet_ntoa a).
Proof. apply inet_ntoa_word. Qed.
Lemma addr_short a : (length (inet_ntoa a) < 20)%nat.
Proof. apply inet_ntoa_word. Qed.

Lemma int_short z : 0 ≤ z < 2 ^ 31 → (length (fmt_d z) ≤ 11)%nat.
Proof. intros Hz. apply fmt_d_length. unfold is_i32. lia. Qed.

Lemma range_text_short : (length (range_text g) < 1024)%nat.
Proof.
  destruct Hwf as [[_ ?] _ _ _ _ _ _ _ _]. unfold range_text. rewrite !length_app.
  change (length comma) with 1%nat. pose proof (addr_short (g_sip g)).
  pose proof (addr_short (g_eip g)). pose proof (addr_short (g_gw g)).
  pose proof (addr_short (g_mask g)). lia.
Qed.

Lemma dns_text_short : (length (dns_text g) < 1024)%nat.
Proof.
  unfold dns_text. rewrite !length_app. change (length comma) with 1%nat.
  pose proof (addr_short (g_dns1 g)). pose proof (addr_short (g_dns2 g)). lia.
Qed.

Lemma opt_text_short : (length (opt_text g) < 1024)%nat.
Proof.
  destruct Hwf as [_ _ Ha Hl Hm [_ Hs] _ _ _]. unfold opt_text. rewrite !length_app.
  change (length comma) with 1%nat. change (length (lit " ")) with 1%nat.
  apply int_short in Ha, Hl, Hm. lia.
Qed.

Lemma read_range_ok σ c :
  sound CONFIG (env σ) → look (lit "dhcpd_conf") (entries_of CONFIG (env σ)) = Some (range_text g) →
  gives (read_range c) σ
    (set_range (d_ifname (conf g)) (d_sip (conf g)) (d_eip (conf g)) (d_gw (conf g))
               (d_mask (conf g)) c).
Proof.
  intros Hs Hv. unfold read_range.
  eapply gives_bind; [by eapply gives_get; [|exact Hv|apply range_text_short]|].
  intros σ1 H1. cbv beta iota zeta. change (0 =? -1) with false. cbv iota. unfold range_text.
  rewrite strtok_word by apply Hwf.
  eapply gives_bind; [apply gives_copy; [apply H1|apply Hwf]|]. intros σ2 H2.
  rewrite strtok_word by apply addr_word.
  eapply gives_bind; [apply gives_copy; [apply H2|apply addr_short]|]. intros σ3 H3.
  rewrite strtok_word by apply addr_word.
  eapply gives_bind; [apply gives_copy; [apply H3|apply addr_short]|]. intros σ4 H4.
  rewrite strtok_word by apply addr_word.
  eapply gives_bind; [apply gives_copy; [apply H4|apply addr_short]|]. intros σ5 H5.
  rewrite strtok_last by apply addr_word.
  eapply gives_bind; [apply gives_copy; [apply H5|apply addr_short]|]. intros σ6 H6.
  apply gives_ret, H6.
Qed.

Lemma read_dns_ok σ c :
  sound CONFIG (env σ) → look (lit "dhcpd_dns") (entries_of CONFIG (env σ)) = Some (dns_text g) →
  gives (read_dns c) σ (set_dns (d_dns1 (conf g)) (d_dns2 (conf g)) c).
Proof.
  intros Hs Hv. unfold read_dns.
  eapply gives_bind; [by eapply gives_get; [|exact Hv|apply dns_text_short]|].
  intros σ1 H1. cbv beta iota zeta. change (0 =? -1) with false. cbv iota. unfold dns_text.
  rewrite strtok_word by apply addr_word.
  eapply gives_bind; [apply gives_copy; [apply H1|apply addr_short]|]. intros σ2 H2.
  rewrite strtok_last by apply addr_word.
  eapply gives_bind; [apply gives_copy; [apply H2|apply addr_short]|]. intros σ3 H3.
  apply gives_ret, H3.
Qed.

Lemma read_times_ok σ c :
  sound CONFIG (env σ) → look (lit "dhcpd_opt") (entries_of CONFIG (env σ)) = Some (opt_text g) →
  gives (read_times c) σ
    (set_times (d_autotime (conf g)) (d_leasetime (conf g)) (d_max_static_lease (conf g))
               (d_dns_suffix (conf g)) c).
Proof.
  intros Hs Hv. destruct Hwf as [_ _ Ha Hl Hm [Hsw Hsl] _ _ _]. unfold read_times.
  eapply gives_bind; [by eapply gives_get; [|exact Hv|apply opt_text_short]|].
  intros σ1 H1. cbv beta iota zeta. change (0 =? -1) with false. cbv iota. unfold opt_text.
  rewrite strtok_word by (apply fmt_d_word; lia). rewrite strtok_word by (apply fmt_d_word; lia).
  rewrite strtok_word by (apply fmt_d_word; lia). rewrite strtok_suffix by done.
  eapply (gives_bind _ _ _ (Some (g_suffix g))).
  - destruct (streq (g_suffix g) []) eqn:E; [apply streq_true in E; rewrite E; apply gives_ret, H1|].
    apply gives_copy; [apply H1|done].
  - intros σ2 H2. cbn [int_token]. rewrite !atoi_fmt_d by (unfold is_i32; lia).
    apply gives_ret, H2.
Qed.

Lemma read_path_ok σ tag def path :
  sound CONFIG (env σ) → look tag (entries_of CONFIG (env σ)) = Some path →
  (length path ≤ 64)%nat → gives (read_path tag def) σ path.
Proof.
  intros Hs Hv Hl. unfold read_path.
  eapply gives_bind; [eapply gives_get; [done|exact Hv|simpl; lia]|].
  intros σ1 H1. apply gives_ret, H1.
Qed.

(** The settings of the store are read into any structure; the DNS servers are
    what read_dns makes of their entry. *)
Lemma dhcpd_read_config_dns σ c kv dns1 dns2 :
  sound CONFIG (env σ) → stored kv g →
  (∀ t, streq t (lit "dhcpd_dns") = false → look t (entries_of CONFIG (env σ)) = look t kv) →
  (∀ σ' c', kept σ σ' → d_dns2 c' = d_dns2 c → gives (read_dns c') σ' (set_dns dns1 dns2 c')) →
  gives (dhcpd_read_config c) σ (set_dns dns1 dns2 (conf g)).
Proof.
  intros Hs (H1 & _ & H3 & H4 & H5 & H6) Hl Hdns. unfold dhcpd_read_config.
  rewrite <- Hl in H1, H3, H4, H5, H6 by done.
  eapply gives_bind; [by apply read_range_ok|]. intros σ1 K1.
  rewrite <- (kt_entries _ _ K1) in H3, H4, H5, H6.
  eapply gives_bind; [by apply Hdns|]. intros σ2 K2.
  rewrite <- (kt_entries _ _ K2) in H3, H4, H5, H6.
  eapply gives_bind; [apply read_times_ok; [apply K2|done]|]. intros σ3 K3.
  rewrite <- (kt_entries _ _ K3) in H4, H5, H6.
  eapply gives_bind; [eapply read_path_ok; [apply K3|exact H5|apply Hwf]|]. intros σ4 K4.
  rewrite <- (kt_entries _ _ K4) in H4, H6.
  eapply gives_bind; [eapply read_path_ok; [apply K4|exact H6|apply Hwf]|]. intros σ5 K5.
  rewrite <- (kt_entries _ _ K5) in H4.
  eapply gives_bind; [eapply read_path_ok; [apply K5|exact H4|apply Hwf]|]. intros σ6 K6.
  apply gives_ret, K6.
Qed.

Lemma dhcpd_read_config_ok σ c :
  sound CONFIG (env σ) → stored (entries_of CONFIG (env σ)) g →
  gives (dhcpd_read_config c) σ (conf g).
Proof.
  intros Hs Hst. eapply (dhcpd_read_config_dns σ c _ (d_dns1 (conf g)) (d_dns2 (conf g)));
    [done|exact Hst|done|].
  intros σ' c' K _. apply read_dns_ok; [apply K|]. rewrite (kt_entries _ _ K). apply Hst.
Qed.
End reading.

(** ** Writing the store *)
Definition tidy (s : str) : Prop := Forall (λ c, c ∉ [LF; CR; NUL]) s.

Lemma tidy_app a b : tidy a → tidy b → tidy (a ++ b).
Proof. intros Ha Hb. by apply Forall_app. Qed.
Lemma word_tidy s : Forall (λ c, plain c = true) s → tidy s.
Proof. intros Hs. by apply word_avoids. Qed.
Lemma comma_tidy : tidy comma.
Proof. apply Forall_cons_2; [|apply Forall_nil_2]. apply one_of_false. by vm_compute. Qed.
Lemma blank_tidy : tidy (lit " ").
Proof. apply Forall_cons_2; [|apply Forall_nil_2]. apply one_of_false. by vm_compute. Qed.

Lemma addr_tidy a : tidy (inet_ntoa a).
Proof. apply word_tidy, inet_ntoa_word. Qed.

Create HintDb tidy discriminated.
#[export] Hint Resolve tidy_app word_tidy comma_tidy blank_tidy addr_tidy : tidy.

Lemma tidy_notin s c : tidy s → c ∈ [LF; CR; NUL] → c ∉ s.
Proof. intros Hs Hc Hin. unfold tidy in Hs. rewrite Forall_forall in Hs. by apply (Hs c). Qed.

Lemma tidy_line s : tidy s → line_of s = s.
Proof.
  intros Hs. unfold line_of. rewrite (cut_notin CR); [apply cut_notin|];
    apply tidy_notin; try done; set_solver.
Qed.

Lemma tidy_clean tag s :
  clean_tag tag → (length tag < GENCONFIG_MAX_ITEM_LEN)%nat → tidy s → (length s < 1024)%nat →
  clean_entry (tag, line_of s).
Proof.
  intros Ht Hl Hs Hlen. rewrite tidy_line by done. unfold GENCONFIG_MAX_ITEM_LEN in *.
  split; [done|]. split; [split; apply tidy_notin; try done; set_solver|].
  cbn [fst snd]. unfold GENCONFIG_MAX_ITEM_LEN. lia.
Qed.

(** What a writer of the store leaves as it was. *)
Record written (σ σ' : sys) (kv : GenconfigSpec.entries) : Prop := {
  wt_sound : sound CONFIG (env σ');
  wt_entries : entries_of CONFIG (env σ') = kv;
  wt_files g : g ≠ CONFIG → g ≠ lock_name CONFIG → files (env σ') !! g = files (env σ) !! g;
  wt_unwritable : unwritable (env σ') = unwritable (env σ);
  wt_locks : locks (env σ') = locks (env σ);
  wt_shell : shell (env σ') = shell (env σ)
}.

Lemma iconfig_set_written tag s σ :
  sound CONFIG (env σ) → clean_tag tag → (length tag < GENCONFIG_MAX_ITEM_LEN)%nat → tidy s →
  (length s < 1024)%nat →
  ∃ σ', iconfig_set_value_direct tag (Some s) σ = Ok (0, σ') ∧
    written σ σ' (sp_set tag s (entries_of CONFIG (env σ))).
Proof.
  intros Hs Ht Hl Hv Hlen. pose proof (tidy_clean tag s Ht Hl Hv Hlen) as He.
  destruct (lock_env_fields CONFIG (env σ)) as (_ & Hu & Hf & _ & Hlk).
  destruct (store_set tag s σ (sound_usable _ Hs) Hl) as (s' & E & _).
  eexists. split; [exact E|]. rewrite tidy_line in * by done.
  pose proof (sp_set_clean _ _ _ He (so_clean _ Hs)) as Hkv.
  split; cbn [env].
  - by apply sound_write.
  - apply entries_of_write; [rewrite Hu; apply Hs|done].
  - intros g H1 H2. unfold write_env. case_bool_decide; [by apply touch_env_lookup|].
    cbn [files set_file]. rewrite lookup_insert_ne by done. by apply touch_env_lookup.
  - unfold write_env. case_bool_decide; done.
  - unfold write_env. case_bool_decide; done.
  - unfold write_env, touch_env. by repeat case_bool_decide.
Qed.

Lemma written_trans σ1 σ2 σ3 kv kv' : written σ1 σ2 kv → written σ2 σ3 kv' → written σ1 σ3 kv'.
Proof.
  intros [_ _ F1 U1 L1 S1] [So E F2 U2 L2 S2]. split; try congruence.
  intros g H1 H2. rewrite F2, F1 by done. done.
Qed.

Lemma sound_set_file path t e : sound CONFIG e → path ≠ CONFIG → sound CONFIG (set_file path t e).
Proof.
  intros [Hl Ho Hw Hc] Hne. split; [done|done|done|].
  unfold entries_of in *. cbn [files set_file]. by rewrite lookup_insert_ne.
Qed.

(** ** The configuration file *)
Lemma text_of_snoc ls l : text_of (ls ++ [l]) = text_of ls ++ l ++ [LF].
Proof. unfold text_of. rewrite fmap_app, concat_app. simpl. by rewrite app_nil_r. Qed.

Lemma fprintf_line path ls ws h ss e :
  fprintf path (line ws) (Sys h ss (set_file path (text_of ls) e))
  = Ok (tt, Sys h ss (set_file path (text_of (ls ++ [concat ws])) e)).
Proof.
  unfold fprintf, on_env, modify. f_equal. f_equal. cbn [env items strs]. f_equal.
  unfold set_file. cbn [files unwritable locks shell].
  by rewrite lookup_insert_eq, insert_insert_eq, text_of_snoc.
Qed.

(** The next lines of the file. *)
Ltac next_lines :=
  repeat (rewrite (bind_Ok _ _ _ _ _ (fprintf_line _ _ _ _ _ _)); try rewrite bind_ret).

Section writing.
Context (g : settings) (Hwf : wf_settings g).

Lemma update_udhcpd_config_ok h ss e :
  g_config_file g ∉ unwritable e →
  update_udhcpd_config (conf g) (Sys h ss e)
  = Ok (0, Sys h ss (set_file (g_config_file g) (text_of (conf_lines g)) e)).
Proof.
  intros Hw. unfold update_udhcpd_config, conf. cbn [need d_config_file]. rewrite bind_ret.
  unfold fopen_w. rewrite bind_assoc, bind_gets. cbn [env].
  rewrite bool_decide_eq_false_2 by done. rewrite bind_assoc.
  unfold on_env. rewrite (bind_Ok _ _ _ tt (Sys h ss (set_file (g_config_file g) (text_of []) e)))
    by done.
  rewrite bind_ret. cbn [negb need d_sip d_eip d_ifname d_autotime d_dns1 d_dns2 d_mask d_gw
    d_dns_suffix d_leasetime d_lease_file d_static_lease_file d_max_static_lease].
  rewrite bind_ret. next_lines.
  assert (streq (inet_ntoa (g_dns1 g)) [] = false) as ->
    by (apply streq_false, inet_ntoa_word). cbn [negb when].
  rewrite bind_assoc, bind_ret. next_lines.
  unfold conf_lines. destruct (streq (g_suffix g) []); cbn [negb when];
    [do 2 rewrite bind_ret|]; next_lines; unfold mret, M_ret; cbn [concat app]; by rewrite !app_nil_r.
Qed.

Lemma range_tidy : tidy (range_text g).
Proof.
  destruct Hwf as [[[_ Hi] _] _ _ _ _ _ _ _ _]. unfold range_text.
  auto 12 with tidy.
Qed.
Lemma dns_tidy : tidy (dns_text g).
Proof.
  unfold dns_text. auto with tidy.
Qed.
Lemma opt_tidy : tidy (opt_text g).
Proof.
  destruct Hwf as [_ _ Ha Hl Hm [Hs _] _ _ _]. unfold opt_text.
  assert (tidy (g_suffix g))
    by (destruct Hs as [->|Hs]; [apply Forall_nil_2|apply word_tidy, Hs]).
  assert (∀ z, 0 ≤ z < 2 ^ 31 → tidy (fmt_d z)) by (intros z Hz; apply word_tidy, fmt_d_word; lia).
  auto 12 with tidy.
Qed.

(** One write of dhcpd_commit_config. *)
Lemma commit_step {B} (k : M sys B) tag s σ0 σ kv (Q : sys → Prop) b :
  written σ0 σ kv → clean_tag tag → (length tag < GENCONFIG_MAX_ITEM_LEN)%nat → tidy s →
  (length s < 1024)%nat →
  (∀ σ', written σ0 σ' (sp_set tag s kv) → ∃ σ'', k σ' = Ok (b, σ'') ∧ Q σ'') →
  ∃ σ'', (iconfig_set_value_direct tag (Some s);; k) σ = Ok (b, σ'') ∧ Q σ''.
Proof.
  intros Hw Ht Hl Hs Hlen Hk.
  destruct (iconfig_set_written tag s σ (wt_sound _ _ _ Hw) Ht Hl Hs Hlen) as (σ' & E & Hw').
  rewrite (wt_entries _ _ _ Hw) in Hw'.
  destruct (Hk σ') as (σ'' & E2 & HQ); [by eapply written_trans|].
  exists σ''. by rewrite (bind_Ok _ _ _ _ _ E).
Qed.

(** The committed settings are in the store and in the server's file. *)
Record committed (σ σ' : sys) : Prop := {
  cm_sound : sound CONFIG (env σ');
  cm_stored : stored (entries_of CONFIG (env σ')) g;
  cm_file : files (env σ') !! g_config_file g = Some (text_of (conf_lines g));
  cm_files p : p ≠ CONFIG → p ≠ lock_name CONFIG → p ≠ g_config_file g →
    files (env σ') !! p = files (env σ) !! p;
  cm_unwritable : unwritable (env σ') = unwritable (env σ);
  cm_locks : locks (env σ') = locks (env σ);
  cm_shell : shell (env σ') = shell (env σ)
}.

Lemma dhcpd_commit_config_ok σ :
  sound CONFIG (env σ) → g_config_file g ∉ unwritable (env σ) → g_config_file g ≠ CONFIG →
  ∃ σ', dhcpd_commit_config (conf g) σ = Ok (0, σ') ∧ committed σ σ'.
Proof.
  intros Hs Hw Hne. unfold dhcpd_commit_config, conf.
  cbn [need d_config_file d_sip d_eip d_ifname d_autotime d_dns1 d_dns2 d_mask d_gw
    d_dns_suffix d_leasetime d_lease_file d_static_lease_file d_max_static_lease].
  do 5 rewrite bind_ret. fold (range_text g).
  rewrite (bind_Ok _ _ _ _ _ (strcpy_ok 1024 _ σ (range_text_short g Hwf))).
  eapply commit_step; [by split|decided|decided|apply range_tidy|apply range_text_short, Hwf|].
  intros σ1 H1. do 2 rewrite bind_ret. fold (dns_text g).
  rewrite (bind_Ok _ _ _ _ _ (strcpy_ok 1024 _ σ1 (dns_text_short g))).
  eapply commit_step; [done|decided|decided|apply dns_tidy|apply dns_text_short|].
  intros σ2 H2. do 4 rewrite bind_ret. fold (opt_text g).
  rewrite (bind_Ok _ _ _ _ _ (strcpy_ok 1024 _ σ2 (opt_text_short g Hwf))).
  eapply commit_step; [done|decided|decided|apply opt_tidy|apply opt_text_short, Hwf|].
  intros σ3 H3. rewrite bind_ret. destruct Hwf as [_ _ _ _ _ _ [[_ Wl] Nl] [[_ Ws] Ns] [[_ Wc] Nc]].
  eapply commit_step; [done|decided|decided|by apply word_tidy|lia|].
  intros σ4 H4. rewrite bind_ret.
  eapply commit_step; [done|decided|decided|by apply word_tidy|lia|].
  intros σ5 H5. rewrite bind_ret.
  eapply commit_step; [done|decided|decided|by apply word_tidy|lia|].
  intros σ6 [So Ee Ff Uu Ll Sh]. destruct σ6 as [h6 ss6 e6]. cbn [env] in *.
  rewrite (bind_Ok _ _ _ _ _ (update_udhcpd_config_ok h6 ss6 e6 ltac:(by rewrite Uu))).
  eexists. split; [done|]. split; cbn [env]; try done.
  - by apply sound_set_file.
  - unfold entries_of in *. cbn [files set_file]. rewrite lookup_insert_ne by done. rewrite Ee.
    unfold stored. rewrite !look_set. split_and!; by vm_compute.
  - cbn [files set_file]. by rewrite lookup_insert_eq.
  - intros p Hp1 Hp2 Hp3. cbn [files set_file]. rewrite lookup_insert_ne by done. by apply Ff.
Qed.
End writing.
