(* ===== verification/SettingsServer.v ===== *)
(** * The settings of the DHCP server, as the server reads them

    The server reads the file that update_udhcpd_config writes and gets the
    settings: a theorem on the two components together. *)
From S2P Require Import Prelude CLib Heap System Bytes Genconfig GenconfigSpec GenconfigOps.
From S2P Require Import GenconfigFile Cconfig SystemApi Syslog Userland Dhcp DhcpOptions.
From S2P Require Import DhcpPacket DhcpLeases DhcpFiles DhcpServer DhcpSettings SettingsSpec.

(** ** The lines of the file *)

(** A value that split_line gives back as it is. *)
Record trimmed (v : str) : Prop := {
  tr_first : ∃ c r, v = c :: r ∧ plain c = true;
  tr_last : ∃ r c, v = r ++ [c] ∧ is_space c = false;
  tr_clean : Forall (λ c, c ∉ [LF; NUL; "#"%char]) v
}.

Lemma plain_not_space c : plain c = true → is_space c = false.
Proof. unfold plain. by destruct (is_space c). Qed.

Lemma word_trimmed w : is_word w → trimmed w.
Proof.
  intros [Hne Hw]. split.
  - destruct w as [|c r]; [done|]. exists c, r. split; [done|]. by apply Forall_cons in Hw as [? _].
  - destruct w as [|c r _] using rev_ind; [done|]. exists r, c. split; [done|].
    apply Forall_app in Hw as [_ Hc]. apply Forall_cons in Hc as [Hc _]. by apply plain_not_space.
  - by apply word_avoids.
Qed.

Lemma trimmed_more w v : is_word w → trimmed v → trimmed (w ++ lit " " ++ v).
Proof.
  intros [Hne Hw] [_ (r & c & -> & Hc) Hv]. split.
  - destruct w as [|a w]; [done|]. exists a, (w ++ lit " " ++ r ++ [c]). split; [done|].
    by apply Forall_cons in Hw as [? _].
  - exists (w ++ lit " " ++ r), c. split; [by rewrite <- !app_assoc|done].
  - rewrite !Forall_app. split; [by apply word_avoids|]. split; [|by apply Forall_app].
    apply Forall_cons_2; [|apply Forall_nil_2]. apply one_of_false. by vm_compute.
Qed.

Lemma avoid_notin (ds s : str) c : Forall (λ c, c ∉ ds) s → c ∈ ds → c ∉ s.
Proof. intros Hs Hc Hin. rewrite Forall_forall in Hs. by apply (Hs c). Qed.

Lemma span_stop p c r : p c = false → span p (c :: r) = ([], c :: r).
Proof. intros H. simpl. by rewrite H. Qed.

Lemma trim_end_last r c : is_space c = false → trim_end (r ++ [c]) = r ++ [c].
Proof.
  intros Hc. unfold trim_end. rewrite rev_app_distr. cbn [rev app]. rewrite span_stop by done.
  cbn [snd]. by rewrite <- rev_unit, rev_involutive.
Qed.

Lemma plain_not_blank c ds :
  plain c = true → forallb (λ c, negb (plain c)) ds = true → one_of ds c = false.
Proof.
  intros Hc Hds. apply one_of_false. pose proof (word_avoids ds [c]) as H.
  specialize (H ltac:(by apply Forall_cons_2) Hds). by apply Forall_cons in H as [? _].
Qed.

Lemma split_line_ok kw v :
  is_word kw → trimmed v → split_line (kw ++ lit " " ++ v ++ [LF]) = Some (kw, v).
Proof.
  intros [Hne Hkw] [(c & r & Ev & Hc) (r' & d & Ev' & Hd) Hv].
  assert (Forall (λ c, c ∉ [LF; NUL; "#"%char]) (kw ++ lit " " ++ v)) as Hall.
  { rewrite !Forall_app. split; [by apply word_avoids|]. split; [|done].
    apply Forall_cons_2; [|apply Forall_nil_2]. apply one_of_false. by vm_compute. }
  replace (kw ++ lit " " ++ v ++ [LF]) with ((kw ++ lit " " ++ v) ++ [LF])
    by by rewrite <- !app_assoc.
  unfold split_line, cstr. cbv zeta.
  rewrite (cut_notin NUL).
  2:{ rewrite not_elem_of_app. split; [eapply avoid_notin; [exact Hall|set_solver]|].
      apply one_of_false. by vm_compute. }
  rewrite (cut_app LF) by (eapply avoid_notin; [exact Hall|set_solver]).
  rewrite (cut_notin "#") by (eapply avoid_notin; [exact Hall|set_solver]).
  destruct kw as [|k kw]; [done|]. apply Forall_cons in Hkw as Hk. destruct Hk as [Hk _].
  change ((k :: kw) ++ lit " " ++ v) with (k :: (kw ++ " "%char :: v)).
  rewrite span_stop by (by apply plain_not_blank). cbn [snd].
  change (k :: (kw ++ " "%char :: v)) with ((k :: kw) ++ " "%char :: v).
  rewrite (span_forall _ (k :: kw) (" "%char :: v)).
  - rewrite Ev. rewrite span_stop by (by apply plain_not_blank). cbn [snd].
    rewrite <- Ev, Ev', trim_end_last by done. done.
  - eapply Forall_impl; [exact Hkw|]. intros a Ha. apply negb_true_iff. by apply plain_not_blank.
  - by vm_compute.
Qed.

Section server.
Context `{rs : !Resolver}.

(** The lines of a file, one after the other. *)
Fixpoint apply_lines (kvs : list (str * str)) (c : server_config_t) : res server_config_t :=
  match kvs with
  | [] => Ok c
  | (kw, v) :: kvs' => c ← config_line keywords kw v c; apply_lines kvs' c
  end.

Definition line_text (kv : str * str) : str := kv.1 ++ lit " " ++ kv.2.

Definition line_ok (kv : str * str) : Prop :=
  is_word kv.1 ∧ trimmed kv.2 ∧ (length (line_text kv) < 79)%nat.

Lemma read_config_lines kvs fuel c :
  Forall line_ok kvs → (length kvs < fuel)%nat →
  read_config_loop fuel (text_of (line_text <$> kvs)) c = apply_lines kvs c.
Proof.
  intros Hk. revert fuel c. induction Hk as [|[kw v] kvs (Hkw & Hv & Hl) _ IH];
    intros [|fuel] c Hf; try (simpl in Hf; lia); [done|].
  rewrite fmap_cons. unfold text_of. rewrite fmap_cons. cbn [concat].
  fold (text_of (line_text <$> kvs)). cbn [read_config_loop].
  rewrite <- app_assoc. cbn [app].
  rewrite fgets_line; [| |lia].
  - unfold line_text. cbn [fst snd]. rewrite <- !app_assoc. rewrite split_line_ok by done.
    cbn [apply_lines]. destruct (config_line keywords kw v c); [|done|done].
    cbn [mbind res_bind]. apply IH. simpl in Hf. lia.
  - unfold line_text. cbn [fst snd]. rewrite !not_elem_of_app. destruct Hkw as [_ Hkw].
    split_and!.
    + by apply (word_notin kw).
    + apply one_of_false. by vm_compute.
    + eapply avoid_notin; [apply Hv|set_solver].
Qed.

(** A keyword that one entry of the table has. *)
Lemma config_line_pick ks token line c k c' :
  filter (λ k, strcaseeq token (k_name k) = true) ks = [k] →
  k_handler k line c = Ok (true, c') → config_line ks token line c = Ok c'.
Proof.
  intros Hf Hk.
  assert (∀ ks c, filter (λ k, strcaseeq token (k_name k) = true) ks = [] →
    config_line ks token line c = Ok c) as Hnone.
  { intros ks0. induction ks0 as [|k0 ks0 IH]; intros c0 H; [done|]. cbn [config_line].
    rewrite filter_cons in H. destruct (decide _) as [|Hne]; [done|].
    destruct (strcaseeq token (k_name k0)); [by destruct Hne|]. by apply IH. }
  revert c Hk. induction ks as [|k0 ks IH]; intros c Hk; [done|]. cbn [config_line].
  rewrite filter_cons in Hf. destruct (decide _) as [He|Hne].
  - injection Hf as -> Hf. rewrite He, Hk. cbn [mbind res_bind]. by apply Hnone.
  - destruct (strcaseeq token (k_name k0)); [by destruct Hne|]. by apply IH.
Qed.

Lemma line_ip token set a c def :
  is_u32 a →
  filter (λ k, strcaseeq token (k_name k) = true) keywords = [Keyword token (on_ip set) def] →
  config_line keywords token (inet_ntoa a) c = Ok (set a c).
Proof.
  intros Ha Hf. eapply config_line_pick; [exact Hf|]. cbn [k_handler]. unfold on_ip, read_ip.
  by rewrite inet_aton_ntoa.
Qed.

Lemma line_u32 token set z c def :
  0 ≤ z < 2 ^ 31 →
  filter (λ k, strcaseeq token (k_name k) = true) keywords = [Keyword token (on_u32 set) def] →
  config_line keywords token (fmt_d z) c = Ok (set z c).
Proof.
  intros Hz Hf. eapply config_line_pick; [exact Hf|]. cbn [k_handler]. unfold on_u32, read_u32.
  destruct (fmt_d_word z) as [-> _]; [lia|].
  rewrite <- (app_nil_r (fmt_u z)), strtoul0_fmt_u by (done || lia). done.
Qed.

Lemma line_str token set v c def :
  filter (λ k, strcaseeq token (k_name k) = true) keywords = [Keyword token (on_str set) def] →
  config_line keywords token v c = Ok (set (Some v) c).
Proof. intros Hf. by eapply config_line_pick. Qed.

(** ** The options *)

(** The list of the server's options as a map from codes to data. *)
Definition option_map_of (l : list bytes) (f : Z → option bytes) : Prop :=
  ∃ os, l = encode_opt <$> os ∧ sorted_above 0 os ∧ ∀ c, lookup_opt c os = f c.

Definition put (code : Z) (d : bytes) (f : Z → option bytes) : Z → option bytes :=
  λ c, if c =? code then Some d else f c.

Lemma option_map_ext l f f' : (∀ c, f c = f' c) → option_map_of l f → option_map_of l f'.
Proof. intros H (os & ? & ? & Hos). exists os. split_and!; try done. intros c. by rewrite Hos. Qed.

Lemma attach_put l f o d :
  option_map_of l f → 0 < o_code o → (length d < 256)%nat → f (o_code o) = None →
  ∃ l', attach_option l o d (Z.of_nat (length d)) = Ok l' ∧ option_map_of l' (put (o_code o) d f).
Proof.
  intros (os & -> & Hs & Hf) Ho Hd Hnone.
  destruct (attach_new os o d (length d) Hs Ho Hd (le_n _)) as (os' & E & Hs' & Hl);
    [by rewrite Hf|].
  exists (encode_opt <$> os'). split; [done|]. exists os'. split; [done|]. split; [done|].
  intros c. rewrite Hl, firstn_all, Hf. done.
Qed.

(** A value that follows the values of a list. *)
Lemma attach_append l f o d0 d :
  option_map_of l f → 0 < o_code o → (length d0 + length d ≤ 255)%nat →
  f (o_code o) = Some d0 → Z.land (o_flags o) OPTION_LIST ≠ 0 →
  ∃ l', attach_option l o d (Z.of_nat (length d)) = Ok l' ∧
    option_map_of l' (put (o_code o) (d0 ++ d) f).
Proof.
  intros (os & -> & Hs & Hf) Ho Hd Hsome Hlist.
  destruct (attach_more os o d (length d) Hs ltac:(lia) (le_n _) d0) as (os' & E & Hs' & Hl);
    [by rewrite Hf|by apply negb_true_iff, Z.eqb_neq|done|].
  exists (encode_opt <$> os'). split; [done|]. exists os'. split; [done|]. split; [done|].
  intros c. rewrite Hl, firstn_all, Hf. done.
Qed.

Lemma blank_tok ds w r :
  is_word w → forallb (λ c, negb (plain c)) ds = true → " "%char ∈ ds →
  strtok ds (w ++ lit " " ++ r) = (Some w, r).
Proof. intros [Hne Hw] Hds Hin. apply strtok_tok; [done|by apply word_avoids|done]. Qed.

Lemma end_tok ds w :
  is_word w → forallb (λ c, negb (plain c)) ds = true → strtok ds w = (Some w, []).
Proof. intros [Hne Hw] Hds. apply strtok_end; [done|by apply word_avoids]. Qed.

(** The last value of an option line. *)
Lemma read_opt_last fuel o retval w data l l' :
  is_word w → read_opt_value (Z.land (o_flags o) TYPE_MASK) w [] = (Some data, []) →
  attach_option l o data (Z.of_nat (length data)) = Ok l' →
  read_opt_loop (S (S fuel)) o retval w l = Ok (true, l').
Proof.
  intros Hw Hv Ha. cbn [read_opt_loop]. rewrite end_tok by done. rewrite Hv, Ha.
  cbn [mbind res_bind]. by destruct (_ =? 0).
Qed.

(** A line with one value. *)
Lemma opt_line name o w data l f :
  option_map_of l f → is_word name → is_word w → option_by_name name = Some o →
  read_opt_value (Z.land (o_flags o) TYPE_MASK) w [] = (Some data, []) → 0 < o_code o → (length data < 256)%nat → f (o_code o) = None →
  ∃ l', read_opt (name ++ lit " " ++ w) l = Ok (true, l') ∧
    option_map_of l' (put (o_code o) data f).
Proof.
  intros Hl Hn Hw Ho Hv Hc Hd Hf. destruct (attach_put l f o data Hl Hc Hd Hf) as (l' & E & Hl').
  exists l'. split; [|done]. unfold read_opt.
  rewrite blank_tok by (done || by (left || (right; left))). rewrite Ho.
  destruct w as [|x w]; [by destruct Hw|]. by eapply read_opt_last.
Qed.

(** A line with two values of a list. *)
Lemma opt_line2 name o w1 w2 d1 d2 l f :
  is_word name → is_word w1 → is_word w2 → option_by_name name = Some o →
  read_opt_value (Z.land (o_flags o) TYPE_MASK) w1 w2 = (Some d1, w2) →
  read_opt_value (Z.land (o_flags o) TYPE_MASK) w2 [] = (Some d2, []) →
  Z.land (o_flags o) OPTION_LIST ≠ 0 →
  option_map_of l f → 0 < o_code o → (length d1 + length d2 ≤ 255)%nat → f (o_code o) = None →
  ∃ l', read_opt (name ++ lit " " ++ w1 ++ lit " " ++ w2) l = Ok (true, l') ∧
    option_map_of l' (put (o_code o) (d1 ++ d2) (put (o_code o) d1 f)).
Proof.
  intros Hn Hw1 Hw2 Ho Hv1 Hv2 Hlist Hl Hc Hd Hf.
  destruct (attach_put l f o d1 Hl Hc ltac:(lia) Hf) as (l1 & E1 & Hl1).
  destruct (attach_append l1 _ o d1 d2 Hl1 Hc Hd) as (l2 & E2 & Hl2);
    [unfold put; by rewrite Z.eqb_refl|done|].
  exists l2. split; [|done]. unfold read_opt.
  rewrite blank_tok by (done || by (left || (right; left))). rewrite Ho.
  cbn [read_opt_loop]. rewrite blank_tok by (done || by (left || (right; left))).
  rewrite Hv1, E1. cbn [mbind res_bind]. rewrite (proj2 (Z.eqb_neq _ _)) by done.
  rewrite !length_app. destruct w1 as [|x w1]; [by destruct Hw1|].
  cbn [length Nat.add]. destruct (length (lit " ") + length w2)%nat eqn:El; [done|].
  rewrite Nat.add_succ_r. by eapply read_opt_last.
Qed.

(** An option line of the file. *)
Lemma line_option v l' c :
  read_opt v (c_options c) = Ok (true, l') →
  config_line keywords (lit "option") v c = Ok (with_options l' c).
Proof.
  intros E. eapply config_line_pick; [reflexivity|]. cbn [k_handler]. unfold on_opt. by rewrite E.
Qed.

Lemma read_addr type a s : is_u32 a → type = OPTION_IP →
  read_opt_value type (inet_ntoa a) s = (Some (le_bytes 4 a), s).
Proof.
  intros Ha ->. unfold read_opt_value. rewrite Z.eqb_refl. unfold read_ip. by rewrite inet_aton_ntoa.
Qed.

Lemma read_u32_opt z : 0 ≤ z < 2 ^ 31 →
  read_opt_value (Z.land OPTION_U32 TYPE_MASK) (fmt_d z) [] = (Some (le_bytes 4 (htonl z)), []).
Proof.
  intros Hz. change (Z.land OPTION_U32 TYPE_MASK) with OPTION_U32.
  destruct (fmt_d_word z) as [-> _]; [lia|].
  unfold read_opt_value. rewrite <- (app_nil_r (fmt_u z)), strtoul0_fmt_u by (done || lia). done.
Qed.

(** ** The whole file *)
Definition conf_kvs (g : settings) : list (str * str) :=
  [(lit "start", inet_ntoa (g_sip g)); (lit "end", inet_ntoa (g_eip g));
   (lit "interface", g_ifname g); (lit "auto_time", fmt_d (g_autotime g));
   (lit "option", lit "dns" ++ lit " " ++ inet_ntoa (g_dns1 g) ++ lit " " ++ inet_ntoa (g_dns2 g));
   (lit "option", lit "subnet" ++ lit " " ++ inet_ntoa (g_mask g));
   (lit "option", lit "router" ++ lit " " ++ inet_ntoa (g_gw g))]
  ++ (if streq (g_suffix g) [] then []
      else [(lit "option", lit "domain" ++ lit " " ++ g_suffix g)])
  ++ [(lit "option", lit "lease" ++ lit " " ++ fmt_d (g_leasetime g));
      (lit "lease_file", g_lease_file g); (lit "static_file", g_static_file g);
      (lit "max_static", fmt_d (g_max g))].

Lemma conf_lines_kvs g : conf_lines g = line_text <$> conf_kvs g.
Proof. unfold conf_lines, conf_kvs. by destruct (streq (g_suffix g) []). Qed.

(** The options that the settings ask for. *)
Definition options_of (g : settings) : Z → option bytes :=
  put DHCP_LEASE_TIME (le_bytes 4 (htonl (g_leasetime g)))
    ((if streq (g_suffix g) [] then id else put 15 (get_bytes (g_suffix g)))
      (put DHCP_ROUTER (le_bytes 4 (g_gw g))
        (put DHCP_SUBNET (le_bytes 4 (g_mask g))
          (put 6 (le_bytes 4 (g_dns1 g) ++ le_bytes 4 (g_dns2 g)) (λ _, None))))).

(** The configuration of a server that starts with the settings. *)
Definition server_settings (g : settings) (opts : list bytes) : server_config_t :=
  Config 0 (g_sip g) (g_eip g) opts (g_ifname g) (replicate 6 0) 0 1024 1 (g_autotime g)
         3600 3600 60 60 (Some (g_lease_file g)) (Some (lit "/var/run/dhcpd.pid")) None 0 None None
         (Some (g_static_file g)) (g_max g) 0.

Section lines.
Context (g : settings) (Hwf : wf_settings g).

Lemma conf_kvs_ok : Forall line_ok (conf_kvs g).
Proof.
  pose proof Hwf as [[Wi Ni] Ha Hat Hl Hm [Hs Ns] [Wl Nl] [Ws Nst] [Wc Nc]].
  assert (∀ kw v, is_word kw → is_word v → (length kw + length v ≤ 77)%nat → line_ok (kw, v)) as Hone.
  { intros kw v Hk Hv Hlen. split; [done|]. split; [by apply word_trimmed|].
    unfold line_text. cbn [fst snd]. rewrite !length_app. change (length (lit " ")) with 1%nat. lia. }
  assert (∀ n v, is_word n → is_word v → (length n + length v ≤ 70)%nat →
    line_ok (lit "option", n ++ lit " " ++ v)) as Hopt.
  { intros n v Hn Hv Hlen. split; [decided|]. split; [by apply trimmed_more, word_trimmed|].
    unfold line_text. cbn [fst snd]. rewrite !length_app. change (length (lit " ")) with 1%nat.
    change (length (lit "option")) with 6%nat. lia. }
  assert (∀ a, is_word (inet_ntoa a) ∧ (length (inet_ntoa a) < 20)%nat) as Hip by apply inet_ntoa_word.
  assert (∀ z, 0 ≤ z < 2 ^ 31 → is_word (fmt_d z) ∧ (length (fmt_d z) ≤ 11)%nat) as Hint.
  { intros z Hz. split; [apply fmt_d_word; lia|by apply int_short]. }
  unfold conf_kvs. apply Forall_app. split; [|apply Forall_app; split].
  - repeat (apply Forall_cons_2; [|]); [..|apply Forall_nil_2].
    + destruct (Hip (g_sip g)). apply Hone; [decided|done|]. change (length (lit "start")) with 5%nat. lia.
    + destruct (Hip (g_eip g)). apply Hone; [decided|done|]. change (length (lit "end")) with 3%nat. lia.
    + apply Hone; [decided|done|]. change (length (lit "interface")) with 9%nat. lia.
    + destruct (Hint (g_autotime g) Hat). apply Hone; [decided|done|].
      change (length (lit "auto_time")) with 9%nat. lia.
    + destruct (Hip (g_dns1 g)), (Hip (g_dns2 g)). split; [decided|].
      split; [apply trimmed_more, trimmed_more, word_trimmed; try done; decided|].
      unfold line_text. cbn [fst snd]. rewrite !length_app. change (length (lit " ")) with 1%nat.
      change (length (lit "option")) with 6%nat. change (length (lit "dns")) with 3%nat. lia.
    + destruct (Hip (g_mask g)). apply Hopt; [decided|done|]. change (length (lit "subnet")) with 6%nat. lia.
    + destruct (Hip (g_gw g)). apply Hopt; [decided|done|]. change (length (lit "router")) with 6%nat. lia.
  - destruct (streq (g_suffix g) []) eqn:E; [apply Forall_nil_2|]. apply streq_false in E.
    destruct Hs as [|Hs]; [done|]. apply Forall_cons_2; [|apply Forall_nil_2].
    apply Hopt; [decided|done|]. change (length (lit "domain")) with 6%nat. lia.
  - repeat (apply Forall_cons_2; [|]); [..|apply Forall_nil_2].
    + destruct (Hint (g_leasetime g) Hl). apply Hopt; [decided|done|].
      change (length (lit "lease")) with 5%nat. lia.
    + apply Hone; [decided|done|]. change (length (lit "lease_file")) with 10%nat. lia.
    + apply Hone; [decided|done|]. change (length (lit "static_file")) with 11%nat. lia.
    + destruct (Hint (g_max g) Hm). apply Hone; [decided|done|].
      change (length (lit "max_static")) with 10%nat. lia.
Qed.

(** The lines from the options on. *)
Definition before_options (c : server_config_t) : server_config_t :=
  with_auto_time (g_autotime g) (with_interface (g_ifname g)
    (with_end (g_eip g) (with_start (g_sip g) c))).
Definition after_options (c : server_config_t) : server_config_t :=
  with_max_static (g_max g) (with_static_file (Some (g_static_file g))
    (with_lease_file (Some (g_lease_file g)) c)).

Lemma apply_app kvs kvs' c :
  apply_lines (kvs ++ kvs') c = c' ← apply_lines kvs c; apply_lines kvs' c'.
Proof.
  revert c. induction kvs as [|[kw v] kvs IH]; intros c; [done|]. cbn [app apply_lines].
  destruct (config_line keywords kw v c); [|done|done]. apply IH.
Qed.

Lemma apply_option v kvs c l' :
  read_opt v (c_options c) = Ok (true, l') →
  apply_lines ((lit "option", v) :: kvs) c = apply_lines kvs (with_options l' c).
Proof. intros E. cbn [apply_lines]. by rewrite (line_option _ _ _ E). Qed.

Lemma with_options_get l c : c_options (with_options l c) = l.
Proof. by destruct c. Qed.
Lemma with_options_twice l l' c : with_options l (with_options l' c) = with_options l c.
Proof. by destruct c. Qed.

Lemma suffix_line l f c :
  option_map_of l f → f 15 = None → c_options c = l →
  ∃ l', apply_lines (if streq (g_suffix g) [] then []
      else [(lit "option", lit "domain" ++ lit " " ++ g_suffix g)]) c = Ok (with_options l' c) ∧
    option_map_of l' ((if streq (g_suffix g) [] then id else put 15 (get_bytes (g_suffix g))) f).
Proof.
  intros Hl Hf Hc. pose proof (ws_suffix _ Hwf) as [Hs Ns].
  destruct (streq (g_suffix g) []) eqn:E.
  { exists l. split; [|done]. cbn [apply_lines]. f_equal. rewrite <- Hc. by destruct c. }
  apply streq_false in E. destruct Hs as [|Hs]; [done|].
  destruct (opt_line (lit "domain") (Opt (lit "domain") (Z.lor OPTION_STRING OPTION_REQ) 15)
    (g_suffix g) (get_bytes (g_suffix g)) l f) as (l' & E' & Hl'); try done.
  - decided.
  - change (Z.land _ TYPE_MASK) with OPTION_STRING. unfold read_opt_value. cbn -[take].
    by rewrite take_ge by lia.
  - unfold get_bytes. rewrite length_fmap. lia.
  - exists l'. split; [|done]. rewrite (apply_option _ _ _ l') by by rewrite Hc. done.
Qed.

(** The side conditions of an option line with addresses. *)
Ltac opt_side :=
  match goal with
  | |- is_word (lit _) => decided
  | |- is_word (inet_ntoa _) => apply inet_ntoa_word
  | |- read_opt_value _ (inet_ntoa _) _ = _ => apply read_addr; [assumption|reflexivity]
  | |- (_ ≤ _)%nat => rewrite !le_bytes_length; lia
  | |- (_ < _)%nat => rewrite !le_bytes_length; lia
  | |- option_map_of _ _ => eassumption
  | |- _ => done
  end.

Lemma apply_conf c :
  c_options c = [] →
  ∃ l, apply_lines (conf_kvs g) c
      = Ok (after_options (with_options l (before_options c))) ∧
    option_map_of l (options_of g).
Proof.
  intros Hc0. pose proof Hwf as [_ Ha Hat Hl Hm _ _ _ _].
  unfold addresses in Ha. rewrite !Forall_cons in Ha. destruct Ha as (A1 & A2 & A3 & A4 & A5 & A6 & _).
  unfold conf_kvs.
  set (sfx := if streq (g_suffix g) [] then []
              else [(lit "option", lit "domain" ++ lit " " ++ g_suffix g)]).
  rewrite apply_app. cbn [apply_lines].
  rewrite (line_ip (lit "start") with_start _ _ (lit "192.168.0.20")) by done. cbn [mbind res_bind].
  rewrite (line_ip (lit "end") with_end _ _ (lit "192.168.0.254")) by done. cbn [mbind res_bind].
  rewrite (config_line_pick _ _ _ _ (Keyword (lit "interface") on_interface IF_LOCAL)
    (with_interface (g_ifname g) (with_end (g_eip g) (with_start (g_sip g) c)))) by done.
  cbn [mbind res_bind].
  rewrite (line_u32 (lit "auto_time") with_auto_time _ _ (lit "30")) by done. cbn [mbind res_bind].
  fold (before_options c). set (c1 := before_options c).
  assert (c_options c1 = []) as Hc1 by (unfold c1, before_options; by destruct c).
  assert (option_map_of [] (λ _, None)) as M0 by (exists []; by split).
  destruct (opt_line2 (lit "dns") (Opt (lit "dns") (Z.lor (Z.lor OPTION_IP OPTION_LIST) OPTION_REQ) 6)
    (inet_ntoa (g_dns1 g)) (inet_ntoa (g_dns2 g)) (le_bytes 4 (g_dns1 g)) (le_bytes 4 (g_dns2 g))
    [] (λ _, None)) as (l1 & E1 & M1);
    [opt_side..|].
  destruct (opt_line (lit "subnet") (Opt (lit "subnet") (Z.lor OPTION_IP OPTION_REQ) 1)
    (inet_ntoa (g_mask g)) (le_bytes 4 (g_mask g)) l1 _ M1) as (l2 & E2 & M2); [opt_side..|].
  destruct (opt_line (lit "router")
    (Opt (lit "router") (Z.lor (Z.lor OPTION_IP OPTION_LIST) OPTION_REQ) 3)
    (inet_ntoa (g_gw g)) (le_bytes 4 (g_gw g)) l2 _ M2) as (l3 & E3 & M3); [opt_side..|].
  rewrite (line_option _ l1) by by rewrite Hc1. cbn [mbind res_bind].
  rewrite (line_option _ l2) by by rewrite with_options_get. cbn [mbind res_bind].
  rewrite (line_option _ l3) by by rewrite with_options_get. cbn [mbind res_bind].
  rewrite !with_options_twice.
  destruct (suffix_line l3 _ (with_options l3 c1) M3 eq_refl (with_options_get _ _)) as (l4 & E4 & M4).
  fold sfx in E4. rewrite apply_app, E4. cbn [apply_lines mbind res_bind]. rewrite with_options_twice.
  destruct (opt_line (lit "lease") (Opt (lit "lease") OPTION_U32 51) (fmt_d (g_leasetime g))
    (le_bytes 4 (htonl (g_leasetime g))) l4 _ M4) as (l5 & E5 & M5);
    [decided|apply fmt_d_word; lia|done|by apply read_u32_opt|done| | |].
  { rewrite le_bytes_length. lia. }
  { by destruct (streq (g_suffix g) []). }
  rewrite (line_option _ l5) by by rewrite with_options_get. cbn [mbind res_bind].
  rewrite with_options_twice.
  rewrite (line_str (lit "lease_file") with_lease_file _ _ (lit "/var/lib/dhcp/udhcpd.leases")) by done.
  cbn [mbind res_bind].
  rewrite (line_str (lit "static_file") with_static_file _ _ (lit "/var/lib/dhcp/udhcpd.static")) by done.
  cbn [mbind res_bind].
  rewrite (line_u32 (lit "max_static") with_max_static _ _ (lit "200")) by done. cbn [mbind res_bind].
  exists l5. split; [done|]. eapply option_map_ext; [|exact M5]. intros x. unfold options_of.
  destruct (streq (g_suffix g) []); unfold put, id; cbn [o_code];
    repeat (destruct (_ =? _); [done|]); done.
Qed.
End lines.
End server.
