(* ===== verification/SettingsProps.v ===== *)
(** * The settings of the DHCP server: theorems

    The settings survive the store, reach the server, and follow the DNS servers
    that the DHCP client and the PPP daemon learn; reservations reach the table
    of the server. *)
From S2P Require Import Prelude CLib Heap System Bytes Genconfig GenconfigSpec GenconfigOps.
From S2P Require Import GenconfigFile Cconfig SystemApi Syslog Userland Dhcp DhcpOptions.
From S2P Require Import DhcpPacket DhcpLeases DhcpFiles DhcpServer DhcpSettings SettingsSpec.
From S2P Require Import SettingsServer.

(** Settings of a home router, and a system that has none yet. *)
Definition home : settings :=
  Settings (lit "br0") (inet_addr (lit "192.168.0.2")) (inet_addr (lit "192.168.0.200"))
    (inet_addr (lit "192.168.0.1")) (inet_addr (lit "255.255.255.0"))
    (inet_addr (lit "168.126.63.1")) (inet_addr (lit "168.126.63.2")) 30 7200 200
    (lit "home.lan") (lit "/var/lib/dhcp/udhcpd.leases") (lit "/var/lib/dhcp/udhcpd.static")
    (lit "/etc/udhcpd.conf").
Definition fresh : sys := sys0 {[ INTEGRATED_CONFIG_FILE := lit "login=admin" ++ [LF] ]}.

#[export] Instance is_u32_dec z : Decision (is_u32 z).
Proof. unfold is_u32. apply _. Defined.
#[export] Instance clean_entry_dec' e : Decision (clean_entry e).
Proof. unfold clean_entry, clean_value. apply _. Defined.

Lemma home_wf : wf_settings home.
Proof. split; decided. Qed.
Lemma fresh_sound : sound INTEGRATED_CONFIG_FILE (env fresh).
Proof. split; decided. Qed.

(** C27: settings with both name servers survive the configuration store.  Take
    settings that fit the structure and whose six addresses, the two name servers
    among them, are all present in dotted notation; a store whose entries are
    readable; and a file of the server that can be written and is not the store.
    After dhcpd_commit_config, dhcpd_read_config into any structure, initialised
    or not, gives the settings back.  Settings without a second name server are
    not covered: that field does not come back (dhcpd_set_dns_uninit). *)
Theorem dhcpd_commit_read g σ c :
  wf_settings g → sound INTEGRATED_CONFIG_FILE (env σ) →
  g_config_file g ∉ unwritable (env σ) → g_config_file g ≠ INTEGRATED_CONFIG_FILE →
  ∃ σ1 σ2, dhcpd_commit_config (conf g) σ = Ok (0, σ1) ∧
    dhcpd_read_config c σ1 = Ok (conf g, σ2).
Proof.
  intros Hwf Hs Hw Hne. destruct (dhcpd_commit_config_ok g Hwf σ Hs Hw Hne) as (σ1 & E & []).
  destruct (dhcpd_read_config_ok g Hwf σ1 c) as (σ2 & E2 & _); [done|done|]. by exists σ1, σ2.
Qed.

Lemma dhcpd_commit_read_witness :
  ∃ σ1 σ2, dhcpd_commit_config (conf home) fresh = Ok (0, σ1) ∧
    dhcpd_read_config raw_conf σ1 = Ok (conf home, σ2).
Proof.
  apply (dhcpd_commit_read home fresh raw_conf); [exact home_wf|exact fresh_sound|decided|decided].
Defined.









Lemma inet_ntoa_inj a b : is_u32 a → is_u32 b → inet_ntoa a = inet_ntoa b → a = b.
Proof.
  intros Ha Hb E. apply (f_equal inet_aton) in E. rewrite !inet_aton_ntoa in E by done. congruence.
Qed.

Lemma streq_ntoa a b : is_u32 a → is_u32 b → streq (inet_ntoa a) (inet_ntoa b) = (a =? b).
Proof.
  intros Ha Hb. destruct (Z.eqb_spec a b) as [->|Hne]; [apply streq_refl|].
  apply streq_false. intros E. by apply Hne, inet_ntoa_inj.
Qed.

(** *** The end of the old server *)
Abbreviation PIDS := INTEGRATED_PID_FILE.













(** A system that has the settings, and a server with a process. *)
Definition configured : sys :=
  sys0 (<[INTEGRATED_PID_FILE := lit "dhcpd=77" ++ [LF]]>
    {[ INTEGRATED_CONFIG_FILE := print_config
         [(lit "dhcpd_conf", range_text home); (lit "dhcpd_dns", dns_text home);
          (lit "dhcpd_opt", opt_text home); (lit "dhcpd_configfile", g_config_file home);
          (lit "dhcpd_lease_file", g_lease_file home);
          (lit "dhcpd_static_lease_file", g_static_file home)] ]}).

Lemma configured_stored : stored (entries_of INTEGRATED_CONFIG_FILE (env configured)) home.
Proof. unfold stored. decided. Qed.


(** A structure without the second server cannot be committed. *)
Lemma commit_uninit {B} g d σ (k : M sys B) :
  wf_settings g → sound CONFIG (env σ) →
  (dhcpd_commit_config (set_dns d None (conf g));; k) σ = Fault Uninit.
Proof.
  intros Hwf Hs.
  destruct (iconfig_set_written (lit "dhcpd_conf") (range_text g) σ) as (σ' & E & _);
    [done|decided|decided|by apply range_tidy|by apply range_text_short|].
  assert (dhcpd_commit_config (set_dns d None (conf g)) σ = Fault Uninit) as Ec;
    [|unfold mbind, M_bind; by rewrite Ec].
  unfold dhcpd_commit_config.
  cbn [conf set_dns need d_ifname d_sip d_eip d_gw d_mask d_dns1 d_dns2].
  do 5 rewrite bind_ret. fold (range_text g).
  rewrite (bind_Ok _ _ _ _ _ (strcpy_ok 1024 _ σ (range_text_short g Hwf))).
  rewrite (bind_Ok _ _ _ _ _ E). by destruct d.
Qed.

(** An empty second server is not read back.  When the settings have been
    committed with an empty second DNS server, dhcpd_read_config does not write
    the field, and dhcpd_set_dns with a new first server uses its
    uninitialised bytes. *)
Theorem dhcpd_set_dns_uninit alive g a d σ :
  wf_settings g → is_u32 a → is_u32 d → a ≠ d → sound INTEGRATED_CONFIG_FILE (env σ) →
  (∃ kv, stored kv g ∧ entries_of INTEGRATED_CONFIG_FILE (env σ)
     = sp_set (lit "dhcpd_dns") (inet_ntoa a ++ comma) kv) →
  (∃ σ', dhcpd_read_config raw_conf σ
     = Ok (set_dns (Some (inet_ntoa a)) None (conf g), σ')) ∧
  dhcpd_set_dns alive (Some (inet_ntoa d)) None σ = Fault Uninit.
Proof.
  intros Hwf Ha Hd Hne Hs (kv & Hst & He).
  assert (gives (dhcpd_read_config raw_conf) σ (set_dns (Some (inet_ntoa a)) None (conf g)))
    as (σ1 & E & Hk).
  { eapply dhcpd_read_config_dns; [done|done|exact Hst| |].
    - intros t Ht. by rewrite He, look_set, Ht.
    - intros σ1 c' K1 Hc'. unfold read_dns. eapply gives_bind.
      + eapply (gives_get _ _ _ (Some (inet_ntoa a ++ comma))); [apply K1| |].
        { by rewrite (kt_entries _ _ K1), He, look_set. }
        simpl. rewrite length_app. pose proof (addr_short a). simpl. lia.
      + intros σ2 K2. change (0 =? -1) with false. cbv iota.
        replace (inet_ntoa a ++ comma) with (inet_ntoa a ++ comma ++ []) by by rewrite app_nil_r.
        rewrite strtok_word by apply inet_ntoa_word.
        eapply gives_bind; [apply gives_copy; [apply K2|apply addr_short]|]. intros σ3 K3.
        eapply (gives_bind _ _ _ None); [cbn; rewrite Hc'; apply gives_ret, K3|]. intros σ4 K4.
        apply gives_ret, K4. }
  split; [by exists σ1|]. unfold dhcpd_set_dns. rewrite (bind_Ok _ _ _ _ _ E).
  assert (differs (Some (inet_ntoa a)) (Some (inet_ntoa d)) σ1 = Ok (true, σ1)) as Ed.
  { unfold differs. cbn [need]. rewrite bind_ret, streq_ntoa, (proj2 (Z.eqb_neq _ _)) by done. done. }
  cbn [conf set_dns d_dns1 d_dns2]. rewrite (bind_Ok _ _ _ _ _ Ed), bind_ret. unfold copy_token.
  rewrite bind_assoc, (bind_Ok _ _ _ _ _ (strcpy_ok 20 _ σ1 (addr_short d))), bind_ret.
  rewrite bind_ret. apply commit_uninit; [done|apply Hk].
Qed.

Definition one_server : sys :=
  match dhcpd_commit_config (set_dns (d_dns1 (conf home)) (Some []) (conf home)) configured with
  | Ok (_, σ) => σ
  | _ => configured
  end.

Lemma dhcpd_set_dns_uninit_witness :
  (∃ σ', dhcpd_read_config raw_conf one_server
     = Ok (set_dns (Some (lit "168.126.63.1")) None (conf home), σ')) ∧
  dhcpd_set_dns (λ _, true) (Some (lit "8.8.8.8")) None one_server = Fault Uninit.
Proof.
  apply (dhcpd_set_dns_uninit (λ _, true) home (inet_addr (lit "168.126.63.1"))
    (inet_addr (lit "8.8.8.8")) one_server); [exact home_wf|decided|decided|decided|split; decided|].
  exists (entries_of INTEGRATED_CONFIG_FILE (env configured)).
  split; [exact configured_stored|by vm_compute].
Defined.
