(* ===== verification/Reservations.v ===== *)
(** * Reservations: the static lease file between new_dhcplib.c and the server

    The reservations are the records of the static lease file.  The lemmas
    describe the functions of DhcpSettings.v on a file that holds a list of
    records; the theorems follow a reservation from dhcpd_add_static_lease to the
    table of the server. *)
From S2P Require Import Prelude CLib Heap System Bytes Genconfig GenconfigSpec GenconfigOps.
From S2P Require Import GenconfigFile Cconfig SystemApi Syslog Userland Dhcp DhcpOptions.
From S2P Require Import DhcpPacket DhcpLeases DhcpFiles DhcpServer DhcpSettings SettingsSpec.
From S2P Require Import SettingsServer SettingsProps.

(** ** Records *)
Definition record_of (l : static_lease) : str :=
  put_bytes (s_chaddr l ++ le_bytes 4 (s_yiaddr l) ++ le_bytes 4 (s_expires l)).
Definition file_of (ls : list static_lease) : str := concat (record_of <$> ls).

Definition padded (mac : bytes) : bytes := mac ++ replicate 10 0.

(** A reservation: a hardware address of six bytes and an address. *)
Record wf_static (l : static_lease) : Prop := {
  wst_mac : ∃ mac, s_chaddr l = padded mac ∧ length mac = 6%nat ∧ is_bytes mac;
  wst_ip : is_u32 (s_yiaddr l);
  wst_expires : is_u32 (s_expires l)
}.

Lemma wf_chaddr l : wf_static l → length (s_chaddr l) = 16%nat ∧ is_bytes (s_chaddr l).
Proof.
  intros [(mac & -> & Hl & Hb) _ _]. unfold padded. rewrite length_app, length_replicate, Hl.
  split; [done|]. apply Forall_app. split; [done|]. by apply Forall_replicate.
Qed.

Lemma record_length l : wf_static l → length (record_of l) = 24%nat.
Proof.
  intros Hl. apply wf_chaddr in Hl as [Hl _]. unfold record_of, put_bytes.
  by rewrite length_fmap, !length_app, !le_bytes_length, Hl.
Qed.

Lemma parse_record l rest : wf_static l → parse_static (take 24 (record_of l ++ rest)) = l.
Proof.
  intros Hl. pose proof (record_length l Hl) as H24. rewrite take_app_le, take_ge by lia.
  pose proof (wf_chaddr l Hl) as [H16 Hb]. destruct Hl as [_ Hi He].
  unfold parse_static, record_of. rewrite get_put_bytes.
  2:{ rewrite !is_bytes_app. split_and!; [done|apply le_bytes_is_bytes..]. }
  destruct l as [ch yi ex]. cbn [s_chaddr s_yiaddr s_expires] in *.
  rewrite take_app_length' by done. rewrite drop_app_length' by done.
  rewrite take_app_length' by (by rewrite le_bytes_length).
  replace (drop 20 (ch ++ le_bytes 4 yi ++ le_bytes 4 ex)) with (le_bytes 4 ex).
  - rewrite (take_ge (le_bytes 4 ex)) by (rewrite le_bytes_length; lia).
    rewrite !of_le_bytes. change (256 ^ Z.of_nat 4) with (2 ^ 32). unfold is_u32 in *.
    by rewrite !Z.mod_small by lia.
  - rewrite app_assoc, drop_app_length'; [done|]. rewrite length_app, le_bytes_length. lia.
Qed.

(** ** Texts *)
Lemma fmt_X_byte b : is_byte b → length (fmt_X 2 b) = 2%nat.
Proof.
  intros Hb. apply Nat.eqb_eq.
  pose proof (forallb_forall (λ b, Nat.eqb (length (fmt_X 2 b)) 2) (seqZ 0 256)) as [H _].
  apply H; [by vm_compute|]. apply list_elem_of_In, elem_of_seqZ. unfold is_byte in Hb. lia.
Qed.

Lemma mac_text_short mac :
  length mac = 6%nat → is_bytes mac → (length (mac_text ":" mac) < 20)%nat.
Proof.
  intros Hl Hb. destruct mac as [|b0 [|b1 [|b2 [|b3 [|b4 [|b5 [|]]]]]]]; try done.
  unfold is_bytes in Hb. rewrite !Forall_cons in Hb. destruct Hb as (?&?&?&?&?&?&_).
  unfold mac_text. rewrite !fmap_cons. cbn [fmap list_fmap concat].
  rewrite !length_app. cbn [length]. rewrite !fmt_X_byte by done. simpl. lia.
Qed.

Lemma hw_text_padded mac : length mac = 6%nat → hw_text (padded mac) = mac_text ":" mac.
Proof. intros Hl. unfold hw_text, padded. by rewrite take_app_length' by done. Qed.

(** What a caller sees of a reservation. *)
Definition info_of (l : static_lease) : lease_info :=
  Info (inet_ntoa (s_yiaddr l)) (hw_text (s_chaddr l)) (i32 (s_expires l)) [].

Lemma info_short l :
  wf_static l → (length (i_ip (info_of l)) < 20)%nat ∧ (length (i_hw (info_of l)) < 20)%nat.
Proof.
  intros [(mac & E & Hl & Hb) _ _]. unfold info_of. cbn [i_ip i_hw]. rewrite E, hw_text_padded by done.
  split; [apply inet_ntoa_word|by apply mac_text_short].
Qed.

(** ** The array of the caller *)
Lemma get_info_ok arr i e σ : arr !! i = Some e → get_info arr (Z.of_nat i) σ = Ok (e, σ).
Proof. intros H. unfold get_info. rewrite (proj2 (Z.ltb_ge _ _)), Nat2Z.id, H by lia. done. Qed.

Lemma put_info_ok arr i e σ :
  (i < length arr)%nat → put_info arr (Z.of_nat i) e σ = Ok (<[i := e]> arr, σ).
Proof.
  intros H. unfold put_info. rewrite (proj2 (Z.leb_le _ _)), (proj2 (Z.ltb_lt _ _)) by lia.
  cbn [andb]. by rewrite Nat2Z.id.
Qed.

Lemma get_info_overflow arr i σ : (length arr ≤ i)%nat → get_info arr (Z.of_nat i) σ = Fault Overflow.
Proof.
  intros H. unfold get_info. rewrite (proj2 (Z.ltb_ge _ _)), Nat2Z.id by lia.
  by rewrite lookup_ge_None_2.
Qed.

(** The loop over the records fills the array. *)
Lemma static_loop_ok ls infos k fuel σ :
  Forall wf_static ls → (length ls ≤ k)%nat → (length (file_of ls) < fuel)%nat →
  static_loop fuel (Z.of_nat (length infos + k)) (Z.of_nat (length infos)) (file_of ls)
    (Some (infos ++ replicate k blank_info)) σ
  = Ok ((Z.of_nat (length infos + length ls),
         Some (infos ++ (info_of <$> ls) ++ replicate (k - length ls) blank_info)), σ).
Proof.
  intros Hls. revert infos k fuel. induction Hls as [|l ls Hl Hls IH]; intros infos k [|fuel] Hk Hf;
    try (simpl in *; lia).
  { cbn [static_loop file_of fmap list_fmap concat length Nat.ltb Nat.leb].
    by rewrite Nat.add_0_r, Nat.sub_0_r. }
  destruct k as [|k]; [simpl in Hk; lia|].
  assert (file_of (l :: ls) = record_of l ++ file_of ls) as Ef by done.
  rewrite Ef in *. pose proof (record_length l Hl) as H24. rewrite length_app in Hf.
  cbn [static_loop]. rewrite (proj2 (Nat.ltb_ge _ _)) by (rewrite length_app; lia).
  rewrite parse_record by done. rewrite drop_app_length' by done.
  cbn [replicate].
  rewrite (bind_Ok _ _ _ blank_info σ); [|apply get_info_ok, list_lookup_middle; done].
  destruct (info_short l Hl) as [H1 H2]. cbn [info_of i_ip i_hw] in H1, H2.
  rewrite (bind_Ok _ _ _ _ _ (strcpy_ok 20 _ σ H1)), (bind_Ok _ _ _ _ _ (strcpy_ok 20 _ σ H2)).
  rewrite (bind_Ok _ _ _ _ _ (put_info_ok (infos ++ blank_info :: replicate k blank_info)
    (length infos) _ σ ltac:(rewrite length_app; simpl; lia))).
  rewrite insert_app_r_alt, Nat.sub_diag by lia. cbn [list_insert insert].
  change (Info _ _ _ (i_host blank_info)) with (info_of l).
  simpl in Hk. destruct (Z.eqb_spec (Z.of_nat (length infos) + 1) (Z.of_nat (length infos + S k))) as [E|E].
  - assert (k = 0%nat) as -> by lia. destruct ls; [|simpl in Hk; lia].
    unfold mret, M_ret. cbn [length fmap list_fmap replicate app Nat.sub]. do 3 f_equal. lia.
  - replace (Z.of_nat (length infos) + 1) with (Z.of_nat (length (infos ++ [info_of l])))
      by (rewrite length_app; simpl; lia).
    replace (length infos + S k)%nat with (length (infos ++ [info_of l]) + k)%nat
      by (rewrite length_app; simpl; lia).
    replace (infos ++ info_of l :: replicate k blank_info)
      with ((infos ++ [info_of l]) ++ replicate k blank_info) by by rewrite <- app_assoc.
    rewrite IH by lia. rewrite fmap_cons, <- app_assoc. cbn [app length Nat.sub].
    do 3 f_equal. rewrite length_app. simpl. lia.
Qed.

Lemma entries_ok k arr i σ :
  (i + k ≤ length arr)%nat →
  entries k arr (Z.of_nat i) σ = Ok (take k (drop i arr), σ).
Proof.
  revert i. induction k as [|k IH]; intros i Hk; [done|]. cbn [entries].
  destruct (lookup_lt_is_Some_2 arr i) as [e He]; [lia|].
  rewrite (bind_Ok _ _ _ _ _ (get_info_ok _ _ _ σ He)).
  replace (Z.of_nat i + 1) with (Z.of_nat (S i)) by lia.
  rewrite (bind_Ok _ _ _ _ _ (IH (S i) ltac:(lia))). rewrite (drop_S _ _ _ He). done.
Qed.

Section writing.
Context `{sv : !Services}.

Lemma fprintf_more path t u h ss e :
  fprintf path u (Sys h ss (set_file path t e)) = Ok (tt, Sys h ss (set_file path (t ++ u) e)).
Proof.
  unfold fprintf, on_env, modify. f_equal. f_equal. cbn [env items strs]. f_equal.
  unfold set_file. cbn [files unwritable locks shell].
  by rewrite lookup_insert_eq, insert_insert_eq.
Qed.

Lemma write_static_ok k path arr i t h ss e :
  (i + k ≤ length arr)%nat →
  write_static_loop k path arr (Z.of_nat i) (Sys h ss (set_file path t e))
  = Ok (tt, Sys h ss (set_file path (t ++ concat (static_record <$> take k (drop i arr))) e)).
Proof.
  revert i t. induction k as [|k IH]; intros i t Hk; [by rewrite app_nil_r|].
  cbn [write_static_loop]. destruct (lookup_lt_is_Some_2 arr i) as [x Hx]; [lia|].
  rewrite (bind_Ok _ _ _ _ _ (get_info_ok _ _ _ _ Hx)).
  rewrite (bind_Ok _ _ _ _ _ (fprintf_more _ _ _ _ _ _)).
  replace (Z.of_nat i + 1) with (Z.of_nat (S i)) by lia. rewrite IH by lia.
  rewrite (drop_S _ _ _ Hx). cbn [firstn]. rewrite fmap_cons. cbn [concat]. by rewrite <- app_assoc.
Qed.

(** What the sources rely on of strtomac: it reads what "%02X:..." prints. *)
Definition reads_macs : Prop :=
  ∀ mac, length mac = 6%nat → is_bytes mac → take 6 (strtomac (mac_text ":" mac)) = mac.

Lemma static_record_info l :
  reads_macs → wf_static l → static_record (info_of l) = record_of l.
Proof.
  intros Hm [(mac & Em & Hl & Hb) Hi He]. unfold static_record, record_of, info_of.
  cbn [i_hw i_ip i_expires]. rewrite Em, hw_text_padded, Hm, Hl by done.
  rewrite inet_addr_ntoa by done. unfold padded. rewrite <- app_assoc.
  assert (u32 (i32 (s_expires l)) = s_expires l) as ->; [|done].
  unfold is_u32, u32, i32 in *. rewrite Zminus_mod_idemp_l, Z.add_simpl_r. by apply Z.mod_small.
Qed.

Lemma file_of_infos ls :
  reads_macs → Forall wf_static ls → concat (static_record <$> (info_of <$> ls)) = file_of ls.
Proof.
  intros Hm Hls. unfold file_of. f_equal. rewrite <- list_fmap_compose. apply list_fmap_ext.
  intros i l Hl. apply static_record_info; [done|]. by eapply Forall_lookup_1.
Qed.
End writing.

(** ** A system with reservations *)
Section reserved.
Context `{sv : !Services}.
Context (g : settings) (Hwf : wf_settings g).
Hypothesis Hmax : 0 < g_max g ≤ 10000000.

Record reserved (σ : sys) (ls : list static_lease) : Prop := {
  rv_sound : sound CONFIG (env σ);
  rv_stored : stored (entries_of CONFIG (env σ)) g;
  rv_wf : Forall wf_static ls;
  rv_fit : Z.of_nat (length ls) ≤ g_max g;
  rv_file : files (env σ) !! g_static_file g = Some (file_of ls);
  rv_write : g_static_file g ∉ unwritable (env σ);
  rv_config : g_static_file g ≠ CONFIG;
  rv_lock : g_static_file g ≠ lock_name CONFIG
}.

Lemma reserved_kept σ σ' ls : kept σ σ' → reserved σ ls → reserved σ' ls.
Proof.
  intros [_ _ Ks Ke Kf Ku _ _] [Hs Hst Hw Hfit Hf Hwr Hc Hl].
  split; rewrite ?Ke, ?Ku, ?Kf by done; done.
Qed.

Lemma lease_array_ok σ :
  lease_array (g_max g) σ = Ok (replicate (Z.to_nat (g_max g)) blank_info, σ).
Proof.
  unfold lease_array, INFO_SIZE, u32. rewrite Z.mod_small by lia.
  rewrite (proj2 (Z.leb_gt _ _)) by lia.
  replace ((20 + 20 + 4 + 64) * g_max g / (20 + 20 + 4 + 64)) with (g_max g); [done|].
  rewrite Z.mul_comm, Z.div_mul by lia. done.
Qed.

Definition room (ls : list static_lease) : list lease_info :=
  replicate (Z.to_nat (g_max g) - length ls) blank_info.

Lemma read_reservations_ok σ ls :
  reserved σ ls →
  gives read_reservations σ (conf g, Z.of_nat (length ls), (info_of <$> ls) ++ room ls).
Proof.
  intros Hr. unfold read_reservations.
  eapply gives_bind; [apply dhcpd_read_config_ok; [done|apply Hr|apply Hr]|]. intros σ1 K1.
  apply (reserved_kept _ _ _ K1) in Hr. cbn [conf d_max_static_lease need].
  eapply gives_bind; [apply gives_ret, Hr|]. intros σ2 K2. apply (reserved_kept _ _ _ K2) in Hr.
  eapply gives_bind; [exists σ2; split; [apply lease_array_ok|apply kept_refl, Hr]|].
  intros σ3 K3. apply (reserved_kept _ _ _ K3) in Hr.
  eapply (gives_bind _ _ _ (Z.of_nat (length ls), Some ((info_of <$> ls) ++ room ls))).
  - unfold dhcpd_get_all_static_lease.
    eapply gives_bind; [apply dhcpd_read_config_ok; [done|apply Hr|apply Hr]|]. intros σ4 K4.
    apply (reserved_kept _ _ _ K4) in Hr. cbn [conf d_static_lease_file need].
    eapply gives_bind; [apply gives_ret, Hr|]. intros σ5 K5. apply (reserved_kept _ _ _ K5) in Hr.
    exists σ5. split; [|apply kept_refl, Hr]. unfold fopen_r. rewrite bind_gets, (rv_file _ _ Hr).
    pose proof (static_loop_ok ls [] (Z.to_nat (g_max g)) (S (length (file_of ls))) σ5
      (rv_wf _ _ Hr)) as E. cbn [length Nat.add app] in E.
    rewrite Z2Nat.id in E by lia. change (Z.of_nat 0) with 0 in E.
    apply E; [|lia]. pose proof (rv_fit _ _ Hr). lia.
  - intros σ4 K4. apply gives_ret, K4.
Qed.

Lemma set_all_ok σ ls arr k :
  reserved σ ls → (k ≤ length arr)%nat →
  ∃ h ss e, dhcpd_set_all_static_lease arr (Z.of_nat k) σ
    = Ok (1, Sys h ss (set_file (g_static_file g) (concat (static_record <$> take k arr)) e)) ∧
    kept σ (Sys h ss e).
Proof.
  intros Hr Hk. unfold dhcpd_set_all_static_lease.
  destruct (dhcpd_read_config_ok g Hwf σ raw_conf) as ([h ss e] & E & K); [apply Hr|apply Hr|].
  apply (reserved_kept _ _ _ K) in Hr. exists h, ss, e. split; [|done].
  rewrite (bind_Ok _ _ _ _ _ E). cbn [conf d_static_lease_file need]. rewrite bind_ret.
  assert (fopen_w (g_static_file g) (Sys h ss e)
    = Ok (true, Sys h ss (set_file (g_static_file g) [] e))) as Ew.
  { unfold fopen_w. rewrite bind_gets, bool_decide_eq_false_2 by apply Hr. done. }
  rewrite (bind_Ok _ _ _ _ _ Ew). cbn [negb]. rewrite Nat2Z.id.
  rewrite (bind_Ok _ _ _ _ _ (write_static_ok k _ arr 0 [] h ss e ltac:(lia))). done.
Qed.

(** The new reservation: the lease time is written in the order of the
    processor. *)
Definition new_static (ip : Z) (mac : bytes) : static_lease :=
  SLease (padded mac) ip (u32 (g_leasetime g)).

Lemma new_static_wf ip mac :
  is_u32 ip → length mac = 6%nat → is_bytes mac → wf_static (new_static ip mac).
Proof.
  intros Hi Hl Hb. split; [by exists mac|done|]. unfold is_u32. cbn [new_static s_expires].
  apply Z.mod_pos_bound. lia.
Qed.

Lemma new_static_info ip mac :
  length mac = 6%nat →
  info_of (new_static ip mac) = Info (inet_ntoa ip) (mac_text ":" mac) (g_leasetime g) [].
Proof.
  intros Hl. unfold info_of. cbn [new_static s_yiaddr s_chaddr s_expires].
  rewrite hw_text_padded by done. f_equal. pose proof (ws_lease _ Hwf).
  unfold u32. rewrite Z.mod_small by lia. apply i32_id. lia.
Qed.

(** No reservation has the address or the hardware address. *)
Definition unclaimed (ip : Z) (mac : bytes) (ls : list static_lease) : Prop :=
  Forall (λ l, s_yiaddr l ≠ ip ∧ s_chaddr l ≠ padded mac) ls.

Lemma find_none ip mac ls :
  reads_macs → is_u32 ip → length mac = 6%nat → is_bytes mac → Forall wf_static ls →
  unclaimed ip mac ls →
  list_find (λ e, streq (inet_ntoa ip) (i_ip e) || streq (mac_text ":" mac) (i_hw e) = true)
    (info_of <$> ls) = None.
Proof.
  intros Hm Hi Hl Hb Hls Hun. apply list_find_None. apply Forall_fmap.
  unfold unclaimed in Hun. rewrite Forall_forall in Hls, Hun.
  apply Forall_forall. intros l Hin.
  destruct (Hls l Hin) as [(mac' & Em & Hl' & Hb') Hi' _]. destruct (Hun l Hin) as [Hne1 Hne2].
  unfold compose, info_of. cbn [i_ip i_hw]. rewrite streq_ntoa by done.
  rewrite (proj2 (Z.eqb_neq _ _)) by (intros ->; done). cbn [orb].
  rewrite Em, hw_text_padded by done. intros E%streq_true. apply Hne2. rewrite Em. f_equal.
  rewrite <- (Hm mac'), <- (Hm mac) by done. by rewrite E.
Qed.

Lemma add_static_ok ip mac ls σ :
  reads_macs → is_u32 ip → length mac = 6%nat → is_bytes mac → reserved σ ls →
  unclaimed ip mac ls → Z.of_nat (length ls) < g_max g →
  ∃ σ', dhcpd_add_static_lease (inet_ntoa ip) (mac_text ":" mac) σ = Ok (0, σ') ∧
    reserved σ' (ls ++ [new_static ip mac]).
Proof.
  intros Hm Hi Hl Hb Hr Hun Hroom. unfold dhcpd_add_static_lease.
  destruct (read_reservations_ok σ ls Hr) as (σ1 & E & K). rewrite (bind_Ok _ _ _ _ _ E).
  apply (reserved_kept _ _ _ K) in Hr. rewrite Nat2Z.id.
  set (arr := (info_of <$> ls) ++ room ls).
  assert (length arr = Z.to_nat (g_max g)) as Harr.
  { unfold arr, room. rewrite length_app, length_fmap, length_replicate. lia. }
  rewrite (bind_Ok _ _ _ _ _ (entries_ok (length ls) arr 0 σ1 ltac:(lia))).
  rewrite drop_0. unfold arr at 1. rewrite take_app_length' by by rewrite length_fmap.
  rewrite find_none by (done || apply Hr).
  assert (arr !! length ls = Some blank_info) as Hblank.
  { unfold arr, room. rewrite lookup_app_r by (rewrite length_fmap; lia).
    rewrite length_fmap, Nat.sub_diag. apply lookup_replicate_2. lia. }
  rewrite (bind_Ok _ _ _ _ _ (get_info_ok _ _ _ σ1 Hblank)).
  rewrite (bind_Ok _ _ _ _ _ (strcpy_ok 20 _ σ1 (addr_short ip))).
  rewrite (bind_Ok _ _ _ _ _ (strcpy_ok 20 _ σ1 (mac_text_short mac Hl Hb))).
  cbn [conf d_leasetime need]. rewrite bind_ret.
  rewrite (bind_Ok _ _ _ _ _ (put_info_ok arr (length ls) _ σ1 ltac:(lia))).
  replace (Z.of_nat (length ls) + 1) with (Z.of_nat (S (length ls))) by lia.
  replace (Info (inet_ntoa ip) (mac_text ":" mac) (g_leasetime g) (i_host blank_info))
    with (info_of (new_static ip mac)) by (by apply new_static_info).
  destruct (set_all_ok σ1 ls (<[length ls := info_of (new_static ip mac)]> arr) (S (length ls)) Hr)
    as (h & ss & e' & Es & K'); [rewrite length_insert; lia|].
  rewrite (bind_Ok _ _ _ _ _ Es). eexists. split; [done|].
  rewrite (take_S_r _ _ (info_of (new_static ip mac)))
    by (apply list_lookup_insert_eq; lia).
  rewrite take_insert_ge by lia. unfold arr. rewrite take_app_length' by by rewrite length_fmap.
  change [info_of (new_static ip mac)] with (info_of <$> [new_static ip mac]).
  pose proof (new_static_wf ip mac Hi Hl Hb) as Hnew.
  rewrite <- fmap_app, file_of_infos; [|done|apply Forall_app; split; [apply Hr|by apply Forall_cons_2]].
  apply (reserved_kept _ _ _ K') in Hr. destruct Hr as [Hs Hst Hw Hfit Hf Hwr Hc Hlk].
  split; cbn [env] in *; try done.
  - by apply sound_set_file.
  - unfold entries_of in *. cbn [files set_file]. by rewrite lookup_insert_ne.
  - apply Forall_app. split; [done|by apply Forall_cons_2].
  - rewrite length_app. simpl. lia.
  - cbn [files set_file]. by rewrite lookup_insert_eq.
Qed.

(** C38: dhcpd_add_static_lease on a full table writes behind the last entry of the
    array it has allocated. *)
Theorem dhcpd_add_static_lease_full ip mac ls σ :
  reads_macs → is_u32 ip → length mac = 6%nat → is_bytes mac → reserved σ ls →
  unclaimed ip mac ls → Z.of_nat (length ls) = g_max g →
  dhcpd_add_static_lease (inet_ntoa ip) (mac_text ":" mac) σ = Fault Overflow.
Proof.
  intros Hm Hi Hl Hb Hr Hun Hfull. unfold dhcpd_add_static_lease.
  destruct (read_reservations_ok σ ls Hr) as (σ1 & E & K). rewrite (bind_Ok _ _ _ _ _ E).
  apply (reserved_kept _ _ _ K) in Hr. rewrite Nat2Z.id. unfold room.
  replace (Z.to_nat (g_max g) - length ls)%nat with 0%nat by lia. rewrite app_nil_r.
  rewrite (bind_Ok _ _ _ _ _ (entries_ok (length ls) (info_of <$> ls) 0 σ1
    ltac:(rewrite length_fmap; lia))).
  rewrite drop_0, take_ge by (rewrite length_fmap; lia). rewrite find_none by (done || apply Hr).
  unfold mbind, M_bind. by rewrite get_info_overflow by (rewrite length_fmap; lia).
Qed.
End reserved.

(** ** The table of the server *)
Section table.
Context `{net : !Net}.
Implicit Types s : srv.

Definition key (l : static_lease) : bytes * Z := (s_chaddr l, s_yiaddr l).

(** The entry of a record: the server takes the time for network order. *)
Definition loaded (l e : static_lease) : Prop :=
  key e = key l ∧ ∃ now, s_expires e = u32 (now + ntohl (s_expires l)).

Lemma add_static_lease_free s n filled ch yi t :
  statics s = replicate (S n) blank_static ++ filled → Forall (λ l, s_yiaddr l ≠ 0) filled →
  ∃ now s', add_static_lease ch yi t s = Ok (Some n, s') ∧
    statics s' = replicate n blank_static ++ SLease ch yi (u32 (now + t)) :: filled ∧
    cfg s' = cfg s ∧ os s' = os s.
Proof.
  intros Hs Hf. unfold add_static_lease. rewrite bind_gets, Hs, rev_app_distr, replicate_S_end.
  rewrite rev_app_distr. cbn [rev app].
  assert (list_find (λ l, s_yiaddr l = 0) (rev filled ++ blank_static :: rev (replicate n blank_static))
    = Some (length filled, blank_static)) as ->.
  { apply list_find_app_Some. right. rewrite length_rev. split_and!; [lia| |].
    - apply list_find_None, Forall_rev. done.
    - by rewrite Nat.sub_diag. }
  unfold time0. unfold mbind at 1, M_bind at 1.
  eexists _, _. split.
  { unfold modify, mbind, M_bind. rewrite !length_app, length_replicate. simpl length.
    replace (n + 1 + length filled - 1 - length filled)%nat with n by lia. reflexivity. }
  split; [|done]. cbn [statics set_statics]. rewrite <- app_assoc. cbn [app].
  rewrite insert_app_r_alt by (rewrite length_replicate; lia).
  rewrite length_replicate, Nat.sub_diag. reflexivity.
Qed.

Lemma reserved_loop_ok ls fuel i s n filled :
  Forall wf_static ls → Forall (λ l, s_yiaddr l ≠ 0) ls → Forall (λ l, s_yiaddr l ≠ 0) filled →
  statics s = replicate (length ls + n) blank_static ++ filled →
  i + Z.of_nat (length ls) ≤ c_max_static (cfg s) → (length (file_of ls) < fuel)%nat →
  ∃ s' es, read_static_loop fuel i (file_of ls) s = Ok (tt, s') ∧
    statics s' = replicate n blank_static ++ rev es ++ filled ∧ Forall2 loaded ls es.
Proof.
  intros Hls. revert fuel i s filled.
  induction Hls as [|l ls Hl Hls IH]; intros [|fuel] i s filled Hnz Hf Hs Hmax Hfuel;
    try (simpl in Hfuel; lia).
  { exists s, []. split; [|split; [done|constructor]].
    cbn [read_static_loop]. rewrite bind_gets. by destruct (negb _). }
  apply Forall_cons in Hnz as [Hne Hnz]. simpl length in Hs, Hmax.
  assert (file_of (l :: ls) = record_of l ++ file_of ls) as Ef by done. rewrite Ef in *.
  pose proof (record_length l Hl) as H24. rewrite length_app in Hfuel.
  cbn [read_static_loop]. rewrite bind_gets, (proj2 (Z.ltb_lt _ _)) by lia. cbn [negb].
  rewrite (proj2 (Nat.ltb_ge _ _)) by (rewrite length_app; lia).
  rewrite parse_record, drop_app_length' by done.
  destruct (add_static_lease_free s (length ls + n) filled (s_chaddr l) (s_yiaddr l)
    (ntohl (s_expires l)) Hs Hf) as (now & s1 & E & Hs1 & Hc1 & _).
  rewrite (bind_Ok _ _ _ _ _ E).
  destruct (IH fuel (i + 1) s1 (SLease (s_chaddr l) (s_yiaddr l) (u32 (now + ntohl (s_expires l))) :: filled))
    as (s' & es & E' & Hs' & Hes); [done|by apply Forall_cons_2|done|rewrite Hc1; lia|lia|].
  eexists s', (_ :: es). split; [exact E'|]. split.
  - rewrite Hs'. cbn [rev]. by rewrite <- (app_assoc (rev es)).
  - constructor; [|done]. split; [done|]. by exists now.
Qed.

Lemma find_static_first s n e es :
  statics s = replicate n blank_static ++ e :: es → s_chaddr e ≠ blank_chaddr →
  find_static_lease_by_chaddr (s_chaddr e) s = Ok (s_yiaddr e, s).
Proof.
  intros Hs Hne. unfold find_static_lease_by_chaddr. rewrite bind_gets, Hs.
  assert (list_find (λ l, s_chaddr l = s_chaddr e) (replicate n blank_static ++ e :: es)
    = Some (n, e)) as ->; [|done].
  apply list_find_app_Some. right. rewrite length_replicate. split_and!; [lia| |].
  - apply list_find_None, Forall_replicate. intros E. by apply Hne.
  - rewrite Nat.sub_diag. cbn [list_find]. by rewrite decide_True.
Qed.
End table.

(** C18: a reservation reaches the server.  dhcpd_add_static_lease with an address
    and a hardware address that no reservation has adds a record to the static
    lease file, as long as the table is not full; a server with an empty table
    that reads the file finds the address by the hardware address. *)
Theorem reservation_reaches_server `{!Services, !Net} g ls ip mac σ s :
  wf_settings g → 0 < g_max g ≤ 10000000 → reads_macs → is_u32 ip → ip ≠ 0 →
  length mac = 6%nat → is_bytes mac → mac ≠ replicate 6 0 →
  reserved g σ ls → Forall (λ l, s_yiaddr l ≠ 0) ls → unclaimed ip mac ls →
  Z.of_nat (length ls) < g_max g →
  statics s = replicate (Z.to_nat (g_max g)) blank_static → c_max_static (cfg s) = g_max g →
  ∃ σ' s', dhcpd_add_static_lease (inet_ntoa ip) (mac_text ":" mac) σ = Ok (0, σ') ∧
    reserved g σ' (ls ++ [new_static g ip mac]) ∧
    read_static_leases (Some (g_static_file g))
      (Srv (leases s) (statics s) (cfg s) (ticks s) (calls s) (sent s) σ') = Ok (tt, s') ∧
    find_static_lease_by_chaddr (padded mac) s' = Ok (ip, s').
Proof.
  intros Hwf Hmax Hm Hi Hi0 Hl Hb Hmac Hr Hnz Hun Hroom Hst Hc.
  destruct (add_static_ok g Hwf Hmax ip mac ls σ Hm Hi Hl Hb Hr Hun Hroom) as (σ' & E & Hr').
  set (ls' := ls ++ [new_static g ip mac]) in *.
  set (s1 := Srv (leases s) (statics s) (cfg s) (ticks s) (calls s) (sent s) σ').
  assert (length ls' = S (length ls)) as Hlen by (unfold ls'; rewrite length_app; simpl; lia).
  destruct (reserved_loop_ok ls' (S (length (file_of ls'))) 0 s1
    (Z.to_nat (g_max g) - length ls') []) as (s' & es & E' & Hs' & Hes).
  { apply Hr'. }
  { apply Forall_app. split; [done|]. by apply Forall_cons_2. }
  { done. }
  { rewrite app_nil_r. cbn [s1 statics]. rewrite Hst. f_equal. lia. }
  { cbn [s1 cfg]. lia. }
  { lia. }
  exists σ', s'. split; [done|]. split; [done|]. split.
  - unfold read_static_leases.
    assert (lib (fopen_r (g_static_file g)) s1 = Ok (Some (file_of ls'), s1)) as Ef.
    { unfold lib, fopen_r, gets. subst s1. simpl. by rewrite (rv_file _ _ _ Hr'). }
    by rewrite (bind_Ok _ _ _ _ _ Ef).
  - apply Forall2_app_inv_l in Hes as (es1 & es2 & _ & Hes2 & ->).
    inversion Hes2 as [|? e ? ? [Hk _] Hnil]; subst. inversion Hnil; subst.
    rewrite rev_app_distr, app_nil_r in Hs'. cbn [rev app] in Hs'.
    injection Hk as Hk1 Hk2. cbn [new_static s_chaddr s_yiaddr] in Hk1, Hk2. subst ip.
    rewrite <- Hk1. eapply find_static_first; [exact Hs'|].
    rewrite Hk1. intros Eb. apply Hmac. unfold padded, blank_chaddr in Eb.
    change (replicate 16 0) with (replicate 6 0 ++ replicate 10 0) in Eb.
    by apply app_inj_2 in Eb as [? _].
Qed.

(** ** Samples *)
(** A strtomac that reads the two digits at every third character. *)
Definition hex_byte (t : str) : Z :=
  default 0 (head (filter (λ b, fmt_X 2 b = t) (seqZ 0 256))).
Definition read_mac (t : str) : bytes :=
  (λ k, hex_byte (take 2 (drop (3 * k) t))) <$> seq 0 6.
Definition mac_reader : Services :=
  {| strtomac := read_mac; check_unpermitted_chars _ := false;
     get_dhcp_access_policy _ := false; add_dhcp_access_host _ _ σ := σ;
     remove_dhcp_access_host _ σ := σ; get_dhcp_auto_detect_status _ _ := false;
     localtime _ := Tm 0 2012 1 1 1 1 1; get_ux_text_syslog _ := [];
     SYSLOG_MSG_DHCPD_OFFER_IP := [] |}.
Definition quiet : Net := {| clock _ := 1000; arpping _ _ := 1; send_result _ := 0 |}.

Lemma hex_byte_fmt b : is_byte b → hex_byte (fmt_X 2 b) = b.
Proof.
  intros Hb. apply Z.eqb_eq.
  pose proof (forallb_forall (λ b, hex_byte (fmt_X 2 b) =? b) (seqZ 0 256)) as [H _].
  apply H; [by vm_compute|]. apply list_elem_of_In, elem_of_seqZ. unfold is_byte in Hb. lia.
Qed.

Lemma mac_reader_reads : @reads_macs mac_reader.
Proof.
  intros mac Hl Hb. do 6 (destruct mac as [|? mac]; [done|]). destruct mac; [|done].
  unfold is_bytes in Hb. rewrite !Forall_cons in Hb. destruct Hb as (? & ? & ? & ? & ? & ? & _).
  cbn [strtomac mac_reader]. unfold read_mac, mac_text.
  cbn [fmap list_fmap concat app seq take Nat.mul Nat.add].
  assert (∀ b r, is_byte b → take 2 (fmt_X 2 b ++ r) = fmt_X 2 b) as Ht.
  { intros b r Hb. apply take_app_length'. by rewrite fmt_X_byte. }
  assert (∀ b c r n, is_byte b → drop (S (S (S n))) (fmt_X 2 b ++ c :: r) = drop n r) as Hd.
  { intros b c r n Hb.
    change (S (S (S n))) with (2 + S n)%nat. rewrite <- drop_drop, drop_app_length' by by rewrite fmt_X_byte.
    done. }
  rewrite !Hd, !drop_0, !Ht, !hex_byte_fmt by done. done.
Qed.

(** The reservations of [home]: one, and a table that is full. *)
Definition printer : bytes := [0; 38; 102; 1; 2; 3].
Definition camera : bytes := [0; 38; 102; 4; 5; 6].
Definition small : settings :=
  Settings (g_ifname home) (g_sip home) (g_eip home) (g_gw home) (g_mask home) (g_dns1 home)
    (g_dns2 home) (g_autotime home) (g_leasetime home) 1 (g_suffix home) (g_lease_file home)
    (g_static_file home) (g_config_file home).
Definition printer_lease : static_lease :=
  SLease (padded printer) (inet_addr (lit "192.168.0.9")) 7200.
Definition holding (g : settings) (ls : list static_lease) : sys :=
  sys0 (<[g_static_file g := file_of ls]>
    {[ INTEGRATED_CONFIG_FILE := print_config
         [(lit "dhcpd_conf", range_text g); (lit "dhcpd_dns", dns_text g);
          (lit "dhcpd_opt", opt_text g); (lit "dhcpd_configfile", g_config_file g);
          (lit "dhcpd_lease_file", g_lease_file g);
          (lit "dhcpd_static_lease_file", g_static_file g)] ]}).

Lemma printer_lease_wf : wf_static printer_lease.
Proof. split; [exists printer; split; [done|]; unfold is_bytes, is_byte; decided|decided..]. Qed.
Lemma small_wf : wf_settings small.
Proof. split; decided. Qed.
Lemma holding_reserved g :
  g ∈ [home; small] → reserved g (holding g [printer_lease]) [printer_lease].
Proof.
  rewrite !elem_of_cons, elem_of_nil. intros [->|[->|[]]];
    (split; [split; decided|unfold stored; decided|by apply Forall_cons_2; [apply printer_lease_wf|]
      |decided..]).
Qed.

Definition booted : srv :=
  Srv [] (replicate 200 blank_static) (server_settings home []) 0 0 [] fresh.

Lemma reservation_reaches_server_witness :
  ∃ σ' s', @dhcpd_add_static_lease mac_reader (inet_ntoa (inet_addr (lit "192.168.0.10")))
      (mac_text ":" camera) (holding home [printer_lease]) = Ok (0, σ') ∧
    reserved home σ' [printer_lease; new_static home (inet_addr (lit "192.168.0.10")) camera] ∧
    @read_static_leases quiet (Some (g_static_file home))
      (Srv [] (replicate 200 blank_static) (cfg booted) 0 0 [] σ') = Ok (tt, s') ∧
    find_static_lease_by_chaddr (padded camera) s' = Ok (inet_addr (lit "192.168.0.10"), s').
Proof.
  apply (@reservation_reaches_server mac_reader quiet home [printer_lease]
    (inet_addr (lit "192.168.0.10")) camera (holding home [printer_lease]) booted);
    [exact home_wf|decided|exact mac_reader_reads|decided|decided|done
    |unfold is_bytes, is_byte; decided|decided|apply holding_reserved; by left|decided
    |unfold unclaimed; decided|decided|done|done].
Defined.

Lemma dhcpd_add_static_lease_full_witness :
  @dhcpd_add_static_lease mac_reader (inet_ntoa (inet_addr (lit "192.168.0.10")))
    (mac_text ":" camera) (holding small [printer_lease]) = Fault Overflow.
Proof.
  apply (@dhcpd_add_static_lease_full mac_reader small small_wf) with (ls := [printer_lease]);
    [decided|exact mac_reader_reads|decided|done|unfold is_bytes, is_byte; decided
    |apply holding_reserved; right; by left|unfold unclaimed; decided|done].
Defined.
