(* ===== verification/ClientPacket.v ===== *)
(** * udhcp-0.9.8/clientpacket.c: the messages of the DHCP client

    struct client_config_t of dhcpc.h, what the client asks of the kernel and of
    the closed libraries, the messages the client sends, and get_raw_packet, which
    takes a DHCP message out of an IP datagram.

    The calls that reach the kernel are events of a trace; the answer of the n-th
    one, the n-th reading of the clock and the n-th random number are parameters. *)
From S2P Require Import Prelude CLib Heap System Bytes Genconfig GenconfigSpec GenconfigOps.
From S2P Require Import GenconfigFile Cconfig SystemApi Syslog Dhcp DhcpOptions DhcpPacket.
From S2P Require Import DhcpLeases DhcpFiles DhcpServer.

Definition DHCP_DNS_SERVER : Z := 6.
Definition DHCP_PARAM_REQ : Z := 55.
Definition DHCP_CLIENT_ID : Z := 61.
Definition INADDR_ANY : Z := 0.
Definition OPT_DATA : Z := 2.

(** ** What is outside of the process *)
Inductive event :=
  | Raw (dest : Z) (dest_arp : bytes) (ifindex : Z) (datagram : bytes)   (** raw_packet *)
  | Udp (source dest : Z) (payload : dhcpMessage)                        (** kernel_packet *)
  | Socket                                      (** socket(AF_INET, SOCK_DGRAM, 0) *)
  | IfAddr (ifname : str) (addr : Z)            (** SIOCSIFADDR *)
  | IfBroadcast (ifname : str) (addr : Z)       (** SIOCSIFBRDADDR *)
  | IfNetmask (ifname : str) (mask : Z)         (** SIOCSIFNETMASK *)
  | IfUp (ifname : str)                         (** SIOCSIFFLAGS *)
  | DelRoute (ifname : str)                     (** SIOCDELRT of the default route *)
  | AddRoute (ifname : str) (dst mask : Z) (gateway : option Z)          (** SIOCADDRT *)
  | Kill (pid sig : Z)
  | Sleep (seconds : Z)
  | SetLeaseTime (ifname : str) (lease : Z)     (** functions of the closed library *)
  | SetAutoDetect (ifname : str) (flag : Z)
  | SetChkInfo (ifname ip mask router dns : str)
  | SetServiceNetwork (net : str)
  | SetSystemDns (wan_name : str)
  | SignalWan.

Record world := World {
  w_ticks : nat;           (** readings of the clock *)
  w_rands : nat;           (** random numbers *)
  w_asked : nat;           (** calls of the kernel *)
  w_out : list event;
  w_os : sys
}.

Class Kernel := {
  tick : nat → Z;                    (** time(0) *)
  rand : nat → Z;
  answer : nat → Z;                  (** result of a call, negative for an error *)
  hw_family : str → option Z;        (** SIOCGIFHWADDR *)
  alive : Z → bool;                  (** kill(pid, 0) *)
  environ : list str;
  getpid : Z
}.

Definition syslib {A} (m : M sys A) : M world A := λ w,
  match m (w_os w) with
  | Ok (a, o) => Ok (a, World (w_ticks w) (w_rands w) (w_asked w) (w_out w) o)
  | Fault e => Fault e
  | NoFuel => NoFuel
  end.

(** A call without a result. *)
Definition tell (e : event) : M world unit :=
  modify (λ w, World (w_ticks w) (w_rands w) (w_asked w) (w_out w ++ [e]) (w_os w)).

Section kernel.
Context `{!Kernel}.

Definition ask (e : event) : M world Z := λ w,
  Ok (answer (w_asked w),
      World (w_ticks w) (w_rands w) (S (w_asked w)) (w_out w ++ [e]) (w_os w)).

Definition wtime : M world Z := λ w,
  Ok (u32 (tick (w_ticks w)),
      World (S (w_ticks w)) (w_rands w) (w_asked w) (w_out w) (w_os w)).

(** The seed of the first call is a part of [rand]. *)
Definition random_xid : M world Z := λ w,
  Ok (u32 (rand (w_rands w)),
      World (w_ticks w) (S (w_rands w)) (w_asked w) (w_out w) (w_os w)).

(** ** The configuration of the client *)
Record client_config_t := CConf {
  foreground : bool; quit_after_lease : bool;
  abort_if_no_lease : bool; background_if_no_lease : bool;
  interface : str; pidfile : option str; script : str;
  clientid : option bytes; hostname : option bytes;
  ifindex : Z; arp : bytes
}.

(** ** The messages *)
Definition add_string (opts : bytes) (string : option bytes) : res bytes :=
  match string with
  | None => Fault NullDeref
  | Some string => '(_, opts) ← add_option_string opts string; mret opts
  end.

Definition vendor_id : bytes := [DHCP_VENDOR; 8] ++ get_bytes (lit "MSFT 5.0") ++ [0].

(** init_packet of clientpacket.c *)
Definition client_init_packet (c : client_config_t) (type : Z) : res dhcpMessage :=
  m ← init_header type;
  chaddr ← blit (chaddr m) 0 (arp c) 6;
  opts ← add_string (options m) (clientid c);
  opts ← (match hostname c with Some h => add_string opts (Some h) | None => mret opts end);
  opts ← add_string opts (Some vendor_id);
  mret (Msg (op m) (htype m) (hlen m) (hops m) (xid m) (secs m) (flags m) (ciaddr m) (yiaddr m)
            (siaddr m) (giaddr m) chaddr (sname m) (file m) (cookie m) opts).

(** [for (i = 0; options[i].code; i++) if (options[i].flags & OPTION_REQ) ...] *)
Fixpoint request_loop (table : list dhcp_option) (opts : bytes) (end_ len : Z) : res (Z * bytes) :=
  match table with
  | [] => mret (len, opts)
  | o :: table =>
      if negb (Z.land (o_flags o) OPTION_REQ =? 0) then
        opts ← wr opts (end_ + OPT_DATA + len) (o_code o);
        request_loop table opts end_ (len + 1)
      else request_loop table opts end_ len
  end.

Definition write_requests (opts : bytes) (end_ : Z) : res bytes :=
  opts ← wr opts (end_ + OPT_CODE) DHCP_PARAM_REQ;
  '(len, opts) ← request_loop option_table opts end_ 0;
  opts ← wr opts (end_ + OPT_LEN) len;
  wr opts (end_ + OPT_DATA + len) DHCP_END.
Definition add_requests (packet : dhcpMessage) : res dhcpMessage :=
  end_ ← end_option (options packet);
  opts ← write_requests (options packet) end_;
  mret (set_options opts packet).

Definition with_ids (xid ciaddr : Z) (m : dhcpMessage) : dhcpMessage :=
  Msg (op m) (htype m) (hlen m) (hops m) xid (secs m) (flags m) ciaddr (yiaddr m)
      (siaddr m) (giaddr m) (chaddr m) (sname m) (file m) (cookie m) (options m).

Definition with_simple (packet : dhcpMessage) (code data : Z) : res dhcpMessage :=
  '(_, opts) ← add_simple_option (options packet) code data;
  mret (set_options opts packet).

(** The messages before they are sent. *)
Definition discover_message (c : client_config_t) (xid requested : Z) : res dhcpMessage :=
  packet ← client_init_packet c DHCPDISCOVER;
  let packet := with_ids xid (ciaddr packet) packet in
  packet ← (if negb (requested =? 0) then with_simple packet DHCP_REQUESTED_IP requested
            else mret packet);
  add_requests packet.

Definition select_message (c : client_config_t) (xid server requested : Z) : res dhcpMessage :=
  packet ← client_init_packet c DHCPREQUEST;
  let packet := with_ids xid (ciaddr packet) packet in
  packet ← with_simple packet DHCP_REQUESTED_IP requested;
  packet ← with_simple packet DHCP_SERVER_ID server;
  add_requests packet.

Definition renew_message (c : client_config_t) (xid ciaddr : Z) : res dhcpMessage :=
  packet ← client_init_packet c DHCPREQUEST;
  add_requests (with_ids xid ciaddr packet).

Definition broadcast (c : client_config_t) (packet : dhcpMessage) (source : Z) : M world Z :=
  datagram ← of_res (raw_packet packet source CLIENT_PORT INADDR_BROADCAST SERVER_PORT);
  ask (Raw INADDR_BROADCAST MAC_BCAST_ADDR (ifindex c) datagram).

Definition send_discover (c : client_config_t) (xid requested : Z) : M world Z :=
  packet ← of_res (discover_message c xid requested);
  broadcast c packet INADDR_ANY.

Definition send_selecting (c : client_config_t) (xid server requested : Z) : M world Z :=
  packet ← of_res (select_message c xid server requested);
  broadcast c packet INADDR_ANY.

Definition send_renew (c : client_config_t) (xid server ciaddr : Z) : M world Z :=
  packet ← of_res (renew_message c xid ciaddr);
  if negb (server =? 0) then ask (Udp ciaddr server packet)
  else broadcast c packet ciaddr.

Definition send_release (c : client_config_t) (server ciaddr : Z) : M world Z :=
  packet ← of_res (client_init_packet c DHCPRELEASE);
  xid ← random_xid;
  packet ← of_res (with_simple (with_ids xid ciaddr packet) DHCP_REQUESTED_IP ciaddr);
  packet ← of_res (with_simple packet DHCP_SERVER_ID server);
  ask (Udp ciaddr server packet).
End kernel.

(** ** Reception of a datagram *)

(** struct dhcpMessage in memory. *)
Definition field (k n : nat) (a : bytes) : bytes := take n (drop k a).
Definition num (k n : nat) (a : bytes) : Z := of_le (field k n a).
Definition msg_of_bytes (a : bytes) : dhcpMessage :=
  Msg (num 0 1 a) (num 1 1 a) (num 2 1 a) (num 3 1 a) (num 4 4 a) (num 8 2 a) (num 10 2 a)
      (num 12 4 a) (num 16 4 a) (num 20 4 a) (num 24 4 a) (field 28 16 a) (field 44 64 a)
      (field 108 128 a) (num 236 4 a) (field 240 308 a).

(** struct udp_dhcp_packet: the IP header is 20 bytes, the UDP header 8, the
    message 548. *)
Definition PACKET_SIZE : nat := 20 + 8 + 548.

(** [packet.ip.check = 0] *)
Definition without_check (a : bytes) : bytes := take 10 a ++ [0; 0] ++ drop 12 a.

(** The header replaced by the pseudo header. *)
Definition pseudo_packet (a : bytes) : bytes :=
  replicate 2 0 ++ field 24 2 a ++ replicate 5 0 ++ [IPPROTO_UDP] ++ [0; 0] ++ field 12 8 a
  ++ field 20 6 a ++ [0; 0] ++ drop 28 a.

(** [input] is what read() gives, at most PACKET_SIZE bytes; the result is the
    return value and *payload. *)
Definition get_raw_packet (payload : dhcpMessage) (input : option bytes) : res (Z * dhcpMessage) :=
  match input with
  | None => mret (-1, payload)
  | Some got =>
      let got := take PACKET_SIZE got in
      let packet := got ++ replicate (PACKET_SIZE - length got) 0 in
      let bytes := Z.of_nat (length got) in
      if bytes <? 20 + 8 then mret (-2, payload)
      else if bytes <? ntohs (num 2 2 packet) then mret (-2, payload)
      else
        let bytes := ntohs (num 2 2 packet) in
        if negb (num 9 1 packet =? IPPROTO_UDP)
           || negb (Z.shiftr (num 0 1 packet) 4 =? IPVERSION)
           || negb (Z.land (num 0 1 packet) 15 =? Z.shiftr 20 2)
           || negb (num 22 2 packet =? htons CLIENT_PORT)
           || (Z.of_nat PACKET_SIZE <? bytes)
           || negb (ntohs (num 24 2 packet) =? i16 (u32 (bytes - 20)))
        then mret (-2, payload)
        else
          let check := num 10 2 packet in
          sum ← checksum (take 20 (without_check packet));
          if negb (check =? sum) then mret (-1, payload)
          else
            let check := num 26 2 packet in
            let packet := pseudo_packet packet in
            bad ← (if check =? 0 then mret false
                   else sum ← checksum (take (Z.to_nat bytes) packet); mret (negb (check =? sum)));
            if bad : bool then mret (-2, payload)
            else
              let size := u32 (bytes - (20 + 8)) in
              if 548 <? size then Fault Overflow
              else
                let n := Z.to_nat size in
                let payload := msg_of_bytes (field 28 n packet ++ drop n (msg_bytes payload)) in
                if negb (ntohl (cookie payload) =? DHCP_MAGIC) then mret (-2, payload)
                else mret (i32 (bytes - (20 + 8)), payload)
  end.
