(* ===== verification/DhcpScript.v ===== *)
(** * udhcp-0.9.8/script.c: what the client does with its lease

    The product's client does not run a script: run_script turns the message into
    the texts of an environment, as the original does for the script, and takes
    the settings out of them.  set_ifconfig and set_default_gateway of
    lib/ul_lib/network.c hand them to the kernel. *)
From S2P Require Import Prelude CLib Heap System Bytes Genconfig GenconfigSpec GenconfigOps.
From S2P Require Import GenconfigFile Cconfig SystemApi Syslog Userland Dhcp DhcpOptions.
From S2P Require Import DhcpPacket DhcpLeases DhcpFiles DhcpServer DhcpSettings ClientPacket.

(** The closed library and the texts of the product's language. *)
Class Router := {
  get_wan_ipinfo : str → sys → str * str * str;       (** address, netmask, gateway *)
  get_dhclient_block_private_ip : str → sys → bool;
  get_iptime_service_network : sys → str;
  SYSLOG_CHANGE_DHCP_IP_CONFIG : str;
  SYSLOG_CHANGE_DHCP_GATEWAY_ADDR : str;
  SYSLOG_MSG_DHCPC_RCV_IP : str;
  SYSLOG_MSG_DHCPC_SERVER_TIMEOUT : str;
  SYSLOG_MSG_DHCPC_LEASE : str;
  SYSLOG_MSG_DHCP_SERVER_RESUME : str;
  SYSLOG_MSG_DHCP_SERVER_SUSPENDED : str;
  SYSLOG_SAME_SUBNET_IP_ASSIGN : str;
  SYSLOG_PRIVATE_IP_ASSIGN : str
}.

(** ** The texts of the options *)

(** max_option_length[], by type *)
Definition max_option_length (type : Z) : Z :=
  if type =? OPTION_IP then slen (lit "255.255.255.255 ") + 1
  else if type =? OPTION_IP_PAIR then (slen (lit "255.255.255.255 ") + 1) * 2
  else if type =? OPTION_STRING then 1
  else if type =? OPTION_BOOLEAN then slen (lit "yes ") + 1
  else if type =? OPTION_U8 then slen (lit "255 ") + 1
  else if type =? OPTION_U16 then slen (lit "65535 ") + 1
  else if type =? OPTION_S16 then slen (lit "-32768 ") + 1
  else if type =? OPTION_U32 then slen (lit "4294967295 ") + 1
  else if type =? OPTION_S32 then slen (lit "-2147483684 ") + 1 else 0.

Definition option_type (o : dhcp_option) : Z := Z.land (o_flags o) TYPE_MASK.

Definition upper_length (length : Z) (o : dhcp_option) : Z :=
  max_option_length (option_type o) * (length / option_length (option_type o)).

(** sprintf behind [dest] in a block of [cap] bytes, with the terminator. *)
Definition sprintf (cap : Z) (dest text : str) : res str :=
  if slen (dest ++ text) <? cap then mret (dest ++ text) else Fault Overflow.

Definition ip_text (b0 b1 b2 b3 : Z) : str :=
  fmt_d b0 ++ lit "." ++ fmt_d b1 ++ lit "." ++ fmt_d b2 ++ lit "." ++ fmt_d b3 ++ lit " ".

(** [ip] points to the bytes of an address. *)
Definition sprintip (cap : Z) (dest pre : str) (ip : bytes) : res str :=
  b0 ← rd ip 0; b1 ← rd ip 1; b2 ← rd ip 2; b3 ← rd ip 3;
  sprintf cap dest (pre ++ ip_text b0 b1 b2 b3).

(** memcpy of [n] bytes into a number *)
Definition get_le (n : nat) (option : bytes) : res Z :=
  if (length option <? n)%nat then Fault Overflow else mret (of_le (take n option)).

(** The switch, for the types that do not end the loop; a pair is two addresses
    and moves [option]. *)
Definition fill_one (type cap : Z) (dest : str) (option : bytes) : res (str * bytes) :=
  if type =? OPTION_IP_PAIR then
    dest ← sprintip cap dest [] option;
    dest ← sprintf cap dest (lit "/");
    dest ← sprintip cap dest [] (drop 4 option);
    mret (dest, drop 4 option)
  else
    dest ← (if type =? OPTION_IP then sprintip cap dest [] option
            else if type =? OPTION_BOOLEAN then
              b ← rd option 0; sprintf cap dest (if negb (b =? 0) then lit "yes " else lit "no ")
            else if type =? OPTION_U8 then
              b ← rd option 0; sprintf cap dest (fmt_u b ++ lit " ")
            else if type =? OPTION_U16 then
              v ← get_le 2 option; sprintf cap dest (fmt_u (ntohs v) ++ lit " ")
            else if type =? OPTION_S16 then
              v ← get_le 2 option; sprintf cap dest (fmt_d (ntohs v) ++ lit " ")
            else if type =? OPTION_U32 then
              v ← get_le 4 option; sprintf cap dest (fmt_u (ntohl v) ++ lit " ")
            else if type =? OPTION_S32 then
              v ← get_le 4 option; sprintf cap dest (fmt_d (i32 (ntohl v)) ++ lit " ")
            else mret dest);
    mret (dest, option).

(** Every pass takes [optlen] bytes of the option. *)
Fixpoint fill_loop (fuel : nat) (type optlen cap : Z) (dest : str) (option : bytes) (len : Z)
    : res str :=
  match fuel with
  | O => NoFuel
  | S fuel =>
      if type =? OPTION_STRING then
        if Z.of_nat (length option) <? len then Fault Overflow
        else sprintf cap dest (put_bytes (take (Z.to_nat len) option))
      else
        '(dest, option) ← fill_one type cap dest option;
        let optlen := if type =? OPTION_IP_PAIR then 4 else optlen in
        let len := len - optlen in
        if len <=? 0 then mret dest
        else fill_loop fuel type optlen cap dest (drop (Z.to_nat optlen) option) len
  end.

(** [option] points to the data of an option of [len] bytes. *)
Definition fill_options (cap : Z) (option : bytes) (len : Z) (type_p : dhcp_option) : res str :=
  dest ← sprintf cap [] (o_name type_p ++ lit "=");
  let type := option_type type_p in
  fill_loop (S (Z.to_nat len)) type (option_length type) cap dest option len.

(** ** The environment *)
Fixpoint find_env (environ : list str) (prefix defaultstr : str) : str :=
  match environ with
  | [] => defaultstr
  | e :: environ => if prefixb prefix e then e else find_env environ prefix defaultstr
  end.

Definition env_ip (ip : Z) : res str :=
  sprintip (slen (lit "ip=255.255.255.255") + 1) [] (lit "ip=") (le_bytes 4 ip).
Definition env_siaddr (ip : Z) : res str :=
  sprintip (slen (lit "siaddr=255.255.255.255") + 1) [] (lit "siaddr=") (le_bytes 4 ip).

(** The loop over the options of the table; the texts end at the first NUL. *)
Fixpoint env_options (table : list dhcp_option) (packet : dhcpMessage) : res (list str) :=
  match table with
  | [] => mret []
  | o :: table =>
      temp ← get_option packet (o_code o);
      match temp with
      | None => env_options table packet
      | Some (option, len) =>
          t ← fill_options (upper_length len o + slen (o_name o) + 2) option len o;
          ts ← env_options table packet;
          mret (cstr t :: ts)
      end
  end.

(** The text of an array whose last byte is made a NUL, and the array. *)
Definition closed (a : bytes) : bytes := take (length a - 1) a ++ [0].
Definition text_of_field (a : bytes) : str := cstr (put_bytes a).

(** The environment and the message, which is changed in place. *)
Definition fill_envp `{!Kernel} (c : client_config_t) (packet : option dhcpMessage)
    : res (list str * option dhcpMessage) :=
  let head := [lit "interface=" ++ interface c;
               find_env environ (lit "PATH") (lit "PATH=/bin:/usr/bin:/sbin:/usr/sbin");
               find_env environ (lit "HOME") (lit "HOME=/")] in
  match packet with
  | None => mret (head, None)
  | Some packet =>
      temp ← get_option packet DHCP_OPTION_OVER;
      over ← (match temp with Some (data, _) => rd data 0 | None => mret 0 end);
      ip ← env_ip (yiaddr packet);
      opts ← env_options option_table packet;
      si ← (if siaddr packet =? 0 then mret [] else t ← env_siaddr (siaddr packet); mret [t]);
      let has_file := (Z.land over FILE_FIELD =? 0) && negb (default 0 (file packet !! 0%nat) =? 0) in
      let file' := if has_file then closed (file packet) else file packet in
      let has_sname := (Z.land over SNAME_FIELD =? 0) && negb (default 0 (sname packet !! 0%nat) =? 0) in
      let sname' := if has_sname then closed (sname packet) else sname packet in
      mret (head ++ [ip] ++ opts ++ si
              ++ (if has_file then [lit "boot_file=" ++ text_of_field file'] else [])
              ++ (if has_sname then [lit "sname=" ++ text_of_field sname'] else []),
            Some (Msg (op packet) (htype packet) (hlen packet) (hops packet) (xid packet)
                    (secs packet) (flags packet) (ciaddr packet) (yiaddr packet) (siaddr packet)
                    (giaddr packet) (chaddr packet) sname' file' (cookie packet) (options packet)))
  end.

(** A blank at the end of the text is overwritten. *)
Definition trim_end (s : str) : str :=
  match last s with Some c => if is_char " " c then take (length s - 1) s else s | None => s end.

(** The value behind the prefix, and the environment with the trimmed text. *)
Fixpoint get_env_vars (envp : list str) (prefix : str) : option str * list str :=
  match envp with
  | [] => (None, [])
  | e :: rest =>
      if prefixb prefix e then (Some (drop (length prefix) (trim_end e)), trim_end e :: rest)
      else let '(v, rest) := get_env_vars rest prefix in (v, e :: rest)
  end.

(** ** lib/ul_lib/network.c: the interface and the routes *)
Definition ARPHRD_ETHER : Z := 1.

Section network.
Context `{!Kernel}.

(** inet_addr of a pointer *)
Definition inet_addr_ptr (s : option str) : M world Z :=
  match s with Some s => mret (inet_addr s) | None => fail NullDeref end.

Definition set_ifconfig (ifname ip : str) (netmask : option str) : M world Z :=
  let name := take 16 ifname in
  s ← ask Socket;
  if s <? 0 then mret 1
  else if negb (bool_decide (hw_family name = Some ARPHRD_ETHER)) then mret 1
  else
    r ← ask (IfAddr name (inet_addr ip));
    if r <? 0 then mret 1
    else
      r ← (if negb (inet_addr ip =? 0) then
             mask ← inet_addr_ptr netmask;
             r ← ask (IfBroadcast name
                   (Z.lor (Z.land (inet_addr ip) mask)
                          (Z.land (inet_addr (lit "255.255.255.255")) (u32 (Z.lnot mask)))));
             if r <? 0 then mret 1
             else
               r ← ask (IfNetmask name mask);
               mret (if r <? 0 then 1 else 0)
           else mret 0);
      if negb (r =? 0) then mret 1
      else
        r ← ask (IfUp name);
        mret (if r <? 0 then 1 else 0).

(** [for (i = 0; i < count; i++) ioctl(s, SIOCDELRT, &rtent);] *)
Fixpoint delete_loop (k : nat) (ifname : str) : M world unit :=
  match k with
  | O => mret tt
  | S k => ask (DelRoute ifname);; delete_loop k ifname
  end.

Definition set_default_gateway (ifname : str) (gw : option str) : M world Z :=
  s ← ask Socket;
  if s <? 0 then mret 1
  else
    '(count, _) ← syslib (get_default_gateway ifname false);
    delete_loop (Z.to_nat count) ifname;;
    match gw with
    | None => mret 0
    | Some gw =>
        r ← ask (AddRoute ifname (htonl 0) 0 (Some (inet_addr gw)));
        mret (if r <? 0 then 1 else 0)
    end.

Definition set_default_gateway2 (ifname : str) (mask : option str) (gw : option str) : M world Z :=
  s ← ask Socket;
  if s <? 0 then mret 1
  else
    '(count, _) ← syslib (get_default_gateway ifname false);
    delete_loop (Z.to_nat count) ifname;;
    match gw with
    | None => mret 0
    | Some gw =>
        m ← inet_addr_ptr mask;
        r ← ask (AddRoute ifname (Z.land (inet_addr gw) m) m None);
        if r <? 0 then mret (-1)
        else
          r ← ask (AddRoute ifname (htonl 0) 0 (Some (inet_addr gw)));
          mret (if r <? 0 then 1 else 0)
    end.
End network.

(** ** run_script *)
Section script.
Context `{!Kernel, !Services, !Router}.

Definition wlog (level : Z) (fmt : str) (args : list arg) : M world unit :=
  now ← wtime;
  syslib (syslog_msg get_ux_text_syslog (localtime now) level fmt args);;
  mret tt.

(** strncpy into an array of [n] bytes: the text, and whether it is terminated. *)
Definition strncpy_buf (n : nat) (s : str) : str * bool := (take n s, (length s <? n)%nat).

(** [p = strchr(s, ' '); if (p) *p = 0;]: the text before the blank, and what is
    behind it. *)
Definition cut_blank (b : str * bool) : res (str * option (str * bool)) :=
  match after " " b.1 with
  | Some rest => mret (cut " " b.1, Some (rest, b.2))
  | None => if b.2 then mret (b.1, None) else Fault Overflow
  end.

(** The first router that is not of the form 255... decides. *)
Fixpoint router_loop (fuel : nat) (ifname : str) (subnet : option str) (cur_router : str)
    (prev : str * bool) : M world unit :=
  match fuel with
  | O => nofuel
  | S fuel =>
      '(rt, rest) ← of_res (cut_blank prev);
      if prefixb (lit "255") rt then
        wlog SYSMSG_LOG_INFO (lit "DHCP Received invalid Router Address: %s") [AStr rt];;
        match rest with
        | Some rest => router_loop fuel ifname subnet cur_router rest
        | None => mret tt
        end
      else
        match inet_aton rt with
        | None => mret tt
        | Some _ =>
            when (negb (streq rt cur_router)) (
              when (negb (streq cur_router []))
                (wlog SYSMSG_LOG_INFO SYSLOG_CHANGE_DHCP_GATEWAY_ADDR [AStr cur_router; AStr rt]);;
              set_default_gateway IF_LOCAL None;;
              r ← set_default_gateway ifname (Some rt);
              when (negb (r =? 0)) (set_default_gateway2 ifname subnet (Some rt);; mret tt))
        end
  end.

Definition apply_router (ifname : str) (subnet router : option str) (cur_router : str)
    : M world unit :=
  let buf := strncpy_buf 256 (default [] router) in
  router_loop (S (length buf.1)) ifname subnet cur_router buf.

Fixpoint kills (signals : list (Z * Z)) : M world unit :=
  match signals with
  | [] => mret tt
  | (pid, sig) :: rest => tell (Kill pid sig);; kills rest
  end.

Definition apply_dns (ifname dns : str) : M world unit :=
  '(dns1, rest) ← of_res (cut_blank (strncpy_buf 128 dns));
  dns2 ← (match rest with
          | None => mret None
          | Some rest => '(dns2, _) ← of_res (cut_blank rest); mret (Some dns2)
          end);
  auto ← syslib get_autodns;
  when (negb (auto =? 0))
    ('(_, signals) ← syslib (dhcpd_set_dns alive (Some dns1) dns2); kills signals);;
  manual ← syslib (get_manual_dns_flag ifname (lit "dynamic"));
  when (manual =? 0)
    (syslib (set_dns_shadow ifname (lit "dynamic") (Some dns1) dns2);;
     tell (SetSystemDns (if streq ifname IF_WAN then WAN1_NAME else WAN2_NAME))).

(** strcmp with a pointer *)
Definition strcmp_ptr (a : option str) (b : str) : M world bool :=
  match a with Some a => mret (streq a b) | None => fail NullDeref end.

(** The interface gets the address; [true] when it was configured. *)
Definition apply_address (ifname ip : str) (subnet : option str) (renew : bool)
    (cur_ip cur_subnet : str) : M world bool :=
  changed ← (if renew then
               if negb (streq ip cur_ip) then mret true
               else same ← strcmp_ptr subnet cur_subnet; mret (negb same)
             else mret true);
  if changed : bool then
    when renew (wlog SYSMSG_LOG_INFO SYSLOG_CHANGE_DHCP_IP_CONFIG
                  [AStr cur_ip; AStr cur_subnet; AStr ip; AStr (default (lit "(null)") subnet)]);;
    set_ifconfig ifname ip subnet;;
    mret true
  else mret false.

(** The branch for "renew" and "bound". *)
Definition run_lease (c : client_config_t) (ifname : str) (envp : list str) (renew : bool)
    : M world (list str) :=
  let name := get_wan_name ifname in
  '(ip0, subnet0, router0) ← syslib (gets (get_wan_ipinfo name));
  cur_ip ← strcpy 20 ip0;
  cur_subnet ← strcpy 20 subnet0;
  cur_router ← strcpy 20 router0;
  let '(ip, envp) := get_env_vars envp (lit "ip=") in
  let '(subnet, envp) := get_env_vars envp (lit "subnet=") in
  match ip with
  | None => fail NullDeref
  | Some ip =>
      update ← apply_address ifname ip subnet renew cur_ip cur_subnet;
      syslib (wizard_api_set_status ifname (lit "detected"));;
      let '(router, envp) := get_env_vars envp (lit "router=") in
      apply_router ifname subnet router cur_router;;
      let '(dns, envp) := get_env_vars envp (lit "dns=") in
      (match dns with Some dns => apply_dns ifname dns | None => mret tt end);;
      when (negb renew) (
        wlog SYSMSG_LOG_INFO (lit "%s: %s") [AStr SYSLOG_MSG_DHCPC_RCV_IP; AStr ip];;
        syslib (syslog_set_flag (interface c) 0);;
        nat ← syslib (sysconf_nat_get 1);
        when (nat =? 0) (syslib (make_virtual_host_page ip);; mret tt));;
      when update (tell SignalWan);;
      mret envp
  end.

Definition run_discovery (envp : list str) : M world unit :=
  match (get_env_vars envp (lit "discovery=")).1 with
  | Some discovery =>
      if negb (streq discovery (lit "0")) then
        syslib (istatus_set_intvalue_direct (lit "icmp_solicite") 1);;
        wlog SYSMSG_LOG_INFO (lit "DHCP Discovery On") []
      else syslib (istatus_set_intvalue_direct (lit "icmp_solicite") 0);; mret tt
  | None => syslib (istatus_set_intvalue_direct (lit "icmp_solicite") 0);; mret tt
  end.

Inductive script_name := Deconfig | Renew | Bound | Nak.

(** The message after the call. *)
Definition run_script (c : client_config_t) (packet : option dhcpMessage) (name : script_name)
    : M world (option dhcpMessage) :=
  '(envp, packet) ← of_res (fill_envp c packet);
  let '(ifname, envp) := get_env_vars envp (lit "interface=") in
  match ifname with
  | None => fail NullDeref
  | Some ifname =>
      envp ← (match name with
              | Deconfig => set_ifconfig ifname (lit "0.0.0.0") (Some (lit "255.255.255.0"));;
                            mret envp
              | Renew => run_lease c ifname envp true
              | Bound => run_lease c ifname envp false
              | Nak => mret envp
              end);
      run_discovery envp;;
      mret packet
  end.
End script.
