(* ===== verification/Dhcpc.v ===== *)
(** * udhcp-0.9.8/dhcpc.c: the DHCP client

    [client_start] is udhcpc_main up to its loop, [pass] one pass of the loop with
    what select() and the sockets give in it, [client] a run on a sequence of
    inputs.  The machine is the static variables of dhcpc.c and the ones of
    udhcpc_main; the rest of the state is the configuration, the last message and
    the world of ClientPacket.v. *)
From S2P Require Import Prelude CLib Heap System Bytes Genconfig GenconfigSpec GenconfigOps.
From S2P Require Import GenconfigFile Cconfig SystemApi Syslog Userland Dhcp DhcpOptions.
From S2P Require Import DhcpPacket DhcpLeases DhcpFiles DhcpServer DhcpSettings ClientPacket.
From S2P Require Import DhcpScript.

(** ** The state *)
Inductive cstate :=
  | INIT_SELECTING | REQUESTING | BOUND | RENEWING | REBINDING | INIT_REBOOT
  | RENEW_REQUESTED | RELEASED.
Inductive lmode := LISTEN_NONE | LISTEN_KERNEL | LISTEN_RAW.
#[export] Instance cstate_eq_dec : EqDecision cstate.
Proof. solve_decision. Defined.
#[export] Instance lmode_eq_dec : EqDecision lmode.
Proof. solve_decision. Defined.

Record machine := Mach {
  m_state : cstate;
  m_requested : Z;           (** requested_ip *)
  m_server : Z;              (** server_addr *)
  m_timeout : Z;
  m_num : Z;                 (** packet_num *)
  m_fd : bool;               (** whether fd is open *)
  m_listen : lmode;
  m_xid : Z; m_t1 : Z; m_t2 : Z; m_start : Z;
  m_lease : option Z;        (** not initialised before the first ACK *)
  m_wizard : Z               (** wizard_timeout *)
}.

Definition put_state (x : cstate) (m : machine) : machine :=
  Mach x (m_requested m) (m_server m) (m_timeout m) (m_num m) (m_fd m) (m_listen m) (m_xid
    m) (m_t1 m) (m_t2 m) (m_start m) (m_lease m) (m_wizard m).
Definition put_requested (x : Z) (m : machine) : machine :=
  Mach (m_state m) x (m_server m) (m_timeout m) (m_num m) (m_fd m) (m_listen m) (m_xid m)
    (m_t1 m) (m_t2 m) (m_start m) (m_lease m) (m_wizard m).
Definition put_server (x : Z) (m : machine) : machine :=
  Mach (m_state m) (m_requested m) x (m_timeout m) (m_num m) (m_fd m) (m_listen m) (m_xid m)
    (m_t1 m) (m_t2 m) (m_start m) (m_lease m) (m_wizard m).
Definition put_timeout (x : Z) (m : machine) : machine :=
  Mach (m_state m) (m_requested m) (m_server m) x (m_num m) (m_fd m) (m_listen m) (m_xid m)
    (m_t1 m) (m_t2 m) (m_start m) (m_lease m) (m_wizard m).
Definition put_num (x : Z) (m : machine) : machine :=
  Mach (m_state m) (m_requested m) (m_server m) (m_timeout m) x (m_fd m) (m_listen m) (m_xid
    m) (m_t1 m) (m_t2 m) (m_start m) (m_lease m) (m_wizard m).
Definition put_xid (x : Z) (m : machine) : machine :=
  Mach (m_state m) (m_requested m) (m_server m) (m_timeout m) (m_num m) (m_fd m) (m_listen
    m) x (m_t1 m) (m_t2 m) (m_start m) (m_lease m) (m_wizard m).
Definition put_wizard (x : Z) (m : machine) : machine :=
  Mach (m_state m) (m_requested m) (m_server m) (m_timeout m) (m_num m) (m_fd m) (m_listen
    m) (m_xid m) (m_t1 m) (m_t2 m) (m_start m) (m_lease m) x.

(** [chk] is dhclient_chk. *)
Record cli := Cli {
  conf : client_config_t; chk : bool; mach : machine; packet : dhcpMessage; wrld : world
}.
Definition set_mach (f : machine → machine) : M cli unit :=
  modify (λ s, Cli (conf s) (chk s) (f (mach s)) (packet s) (wrld s)).
Definition set_packet (p : dhcpMessage) : M cli unit :=
  modify (λ s, Cli (conf s) (chk s) (mach s) p (wrld s)).
Definition outside {A} (m : M world A) : M cli A := λ s,
  match m (wrld s) with
  | Ok (a, w) => Ok (a, Cli (conf s) (chk s) (mach s) (packet s) w)
  | Fault e => Fault e
  | NoFuel => NoFuel
  end.

(** A pass goes on ([None]) or ends the process with a status. *)
Abbreviation next := (option Z).

Section client.
Context `{!Kernel, !Interfaces, !Services, !Router}.

Definition reading {A} (f : machine → A) : M cli A := gets (λ s, f (mach s)).
Definition library {A} (m : M sys A) : M cli A := outside (syslib m).

Definition change_mode (new_mode : lmode) : M cli unit :=
  set_mach (λ m, Mach (m_state m) (m_requested m) (m_server m) (m_timeout m) (m_num m) false
    new_mode (m_xid m) (m_t1 m) (m_t2 m) (m_start m) (m_lease m) (m_wizard m)).

(** run_script(NULL, "deconfig") and run_script(&packet, name) *)
Definition deconfig : M cli unit :=
  c ← gets conf;
  outside (run_script c None Deconfig);;
  mret tt.
Definition script_with_packet (name : script_name) : M cli unit :=
  c ← gets conf;
  p ← gets packet;
  p' ← outside (run_script c (Some p) name);
  match p' with Some p' => set_packet p' | None => mret tt end.

Definition exit_client (retval : Z) : M cli next :=
  c ← gets conf;
  match pidfile c with
  | None => fail NullDeref
  | Some name => library (delete_pid name);; mret (Some retval)
  end.

Definition background : M cli unit :=
  c ← gets conf;
  match pidfile c with
  | None => fail NullDeref
  | Some name => library (create_pid name getpid);; mret tt
  end.

Definition perform_renew : M cli unit :=
  state ← reading m_state;
  (match state with
   | BOUND => change_mode LISTEN_KERNEL;; set_mach (put_state RENEW_REQUESTED)
   | RENEWING | REBINDING => set_mach (put_state RENEW_REQUESTED)
   | RENEW_REQUESTED =>
       deconfig;; change_mode LISTEN_RAW;; set_mach (put_state INIT_SELECTING)
   | REQUESTING | RELEASED => change_mode LISTEN_RAW;; set_mach (put_state INIT_SELECTING)
   | INIT_SELECTING | INIT_REBOOT => mret tt
   end);;
  set_mach (put_num 0);;
  set_mach (put_timeout 0).

Definition perform_release : M cli unit :=
  m ← gets mach;
  c ← gets conf;
  (match m_state m with
   | BOUND | RENEWING | REBINDING =>
       outside (send_release c (m_server m) (m_requested m));;
       deconfig
   | _ => mret tt
   end);;
  change_mode LISTEN_NONE;;
  set_mach (put_state RELEASED);;
  set_mach (put_timeout 0x7fffffff).

(** ** The timeouts *)

(** No answer to three DISCOVERs. *)
Definition no_lease (now : Z) : M cli next :=
  c ← gets conf;
  if negb (background_if_no_lease c) && abort_if_no_lease c then exit_client 1
  else
    when (background_if_no_lease c) background;;
    set_mach (put_num 0);;
    set_mach (put_timeout (u32 (now + 20)));;
    set_mach (λ m, put_wizard (i32 (m_wizard m + 1)) m);;
    w ← reading m_wizard;
    when (2 <=? w) (library (wizard_api_set_status (interface c) (lit "timeout"));; mret tt);;
    checking ← gets chk;
    if checking : bool then
      detected ← library (gets (get_dhcp_auto_detect_status (interface c)));
      when detected (outside (wlog SYSMSG_LOG_INFO SYSLOG_MSG_DHCP_SERVER_RESUME []));;
      outside (tell (SetAutoDetect (interface c) 0));;
      exit_client 0
    else
      flag ← library (syslog_get_flag (interface c));
      when (flag =? 0)
        (library (syslog_set_flag (interface c) 1);;
         outside (wlog SYSMSG_LOG_INFO (lit "%s ( %s )")
           [AStr SYSLOG_MSG_DHCPC_SERVER_TIMEOUT; AStr (get_wan_name (interface c))]));;
      mret None.

Definition timeout_selecting (now : Z) : M cli next :=
  m ← gets mach;
  c ← gets conf;
  if m_num m <? 3 then
    when (m_num m =? 0) (x ← outside random_xid; set_mach (put_xid x));;
    x ← reading m_xid;
    outside (send_discover c x (m_requested m));;
    set_mach (put_timeout (u32 (now + (if m_num m =? 2 then 4 else 2))));;
    set_mach (put_num (m_num m + 1));;
    mret None
  else no_lease now.

(** RENEW_REQUESTED and REQUESTING *)
Definition timeout_requesting (now : Z) : M cli next :=
  m ← gets mach;
  c ← gets conf;
  let renew := bool_decide (m_state m = RENEW_REQUESTED) in
  if m_num m <? 3 then
    (if renew then
       x ← outside random_xid;
       set_mach (put_xid x);;
       outside (send_renew c x (m_server m) (m_requested m))
     else outside (send_selecting c (m_xid m) (m_server m) (m_requested m)));;
    set_mach (put_timeout (u32 (now + (if m_num m =? 2 then 10 else 2))));;
    set_mach (put_num (m_num m + 1));;
    mret None
  else
    when renew deconfig;;
    set_mach (put_state INIT_SELECTING);;
    set_mach (put_timeout now);;
    set_mach (put_num 0);;
    change_mode LISTEN_RAW;;
    mret None.

Definition put_times (t1 t2 : Z) (m : machine) : machine :=
  Mach (m_state m) (m_requested m) (m_server m) (m_timeout m) (m_num m) (m_fd m) (m_listen m)
    (m_xid m) t1 t2 (m_start m) (m_lease m) (m_wizard m).

Definition need_lease (m : machine) : M cli Z :=
  match m_lease m with Some l => mret l | None => fail Uninit end.

Definition timeout_renewing (now : Z) : M cli next :=
  m ← gets mach;
  c ← gets conf;
  lease ← need_lease m;
  if u32 (m_t2 m - m_t1 m) <=? lease / 14400 + 1 then
    set_mach (put_state REBINDING);;
    set_mach (put_timeout (u32 (now + u32 (m_t2 m - m_t1 m))));;
    mret None
  else
    x ← outside random_xid;
    set_mach (put_xid x);;
    outside (send_renew c x (m_server m) (m_requested m));;
    let t1 := u32 (u32 (m_t2 m - m_t1 m) / 2 + m_t1 m) in
    set_mach (put_times t1 (m_t2 m));;
    set_mach (put_timeout (u32 (t1 + m_start m)));;
    mret None.

Definition timeout_rebinding (now : Z) : M cli next :=
  m ← gets mach;
  c ← gets conf;
  lease ← need_lease m;
  if u32 (lease - m_t2 m) <=? lease / 14400 + 1 then
    set_mach (put_state INIT_SELECTING);;
    outside (tell SignalWan);;
    outside (wlog SYSMSG_LOG_INFO (lit "%s( %s )")
      [AStr SYSLOG_MSG_DHCPC_LEASE; AStr (get_wan_name (interface c))]);;
    deconfig;;
    set_mach (put_timeout now);;
    set_mach (put_num 0);;
    change_mode LISTEN_RAW;;
    mret None
  else
    x ← outside random_xid;
    set_mach (put_xid x);;
    outside (send_renew c x 0 (m_requested m));;
    let t2 := u32 (u32 (lease - m_t2 m) / 2 + m_t2 m) in
    set_mach (put_times (m_t1 m) t2);;
    set_mach (put_timeout (u32 (t2 + m_start m)));;
    mret None.

Definition timed_out (now : Z) : M cli next :=
  state ← reading m_state;
  match state with
  | INIT_SELECTING => timeout_selecting now
  | RENEW_REQUESTED | REQUESTING => timeout_requesting now
  | BOUND =>
      set_mach (put_state RENEWING);;
      change_mode LISTEN_KERNEL;;
      timeout_renewing now
  | RENEWING => timeout_renewing now
  | REBINDING => timeout_rebinding now
  | RELEASED => set_mach (put_timeout 0x7fffffff);; mret None
  | INIT_REBOOT => mret None
  end.

(** ** The check of an offer *)
Definition A_CLASS_PREFIX : Z := 0xff000000.
Definition A_CLASS_PRVIATE_IP : Z := 0x0a000000.
Definition B_CLASS_PREFIX : Z := 0xfff00000.
Definition B_CLASS_PRVIATE_IP : Z := 0xac100000.
Definition C_CLASS_PREFIX : Z := 0xffff0000.
Definition C_CLASS_PRVIATE_IP : Z := 0xc0a80000.
Definition SYSMSG_LOG_WANRING : Z := 2.

Definition makeip (cap : Z) (ip : bytes) : res str := sprintip cap [] [] ip.

Definition check_same_network2 (ip1str ip1mask ip2str ip2mask : str) : bool :=
  Z.land (htonl (inet_addr ip1str)) (htonl (inet_addr ip1mask))
    =? Z.land (htonl (inet_addr ip2str)) (htonl (inet_addr ip2mask)).

(** [if (ptr[2]) ptr[2] -= 1; else ptr[2] = 255;] on the bytes of an address *)
Definition previous_net (ip : bytes) : bytes :=
  alter (λ b, if b =? 0 then 255 else b - 1) 2%nat ip.

(** strrchr: the text before the last one of [c]. *)
Definition cut_last (c : ascii) (s : str) : option str :=
  r ← after c (rev s);
  Some (rev r).

(** The search of a network for the services of the router: it moves on while
    the network is the one of the address, of the server or of the relay. *)
Fixpoint service_loop (fuel : nat) (srv_net wanip wanmask server_ip relay_ip : str) : res str :=
  let srv_mask := lit "255.255.255.0" in
  match fuel with
  | O => NoFuel
  | S fuel =>
      if check_same_network2 srv_net srv_mask wanip wanmask
         || check_same_network2 srv_net srv_mask server_ip srv_mask
         || check_same_network2 srv_net srv_mask relay_ip srv_mask
      then
        srv_net ← makeip 32 (previous_net (le_bytes 4 (inet_addr srv_net)));
        service_loop fuel srv_net wanip wanmask server_ip relay_ip
      else mret srv_net
  end.

Definition service_network (wanip wanmask : str) (p : dhcpMessage) : M cli unit :=
  net ← library (gets get_iptime_service_network);
  srv_net ← strcpy 32 net;
  srv_net ← strcpy 32 (srv_net ++ lit ".0");
  server_ip ← of_res (makeip 32 (le_bytes 4 (siaddr p)));
  relay_ip ← of_res (makeip 32 (le_bytes 4 (giaddr p)));
  srv_net ← of_res (service_loop 4 srv_net wanip wanmask server_ip relay_ip);
  match cut_last "." srv_net with
  | Some net => outside (tell (SetServiceNetwork net))
  | None => mret tt
  end.

Definition is_private (ip : Z) : bool :=
  (Z.land ip A_CLASS_PREFIX =? A_CLASS_PRVIATE_IP)
  || (Z.land ip B_CLASS_PREFIX =? B_CLASS_PRVIATE_IP)
  || (Z.land ip C_CLASS_PREFIX =? C_CLASS_PRVIATE_IP).

Definition check_private_ip (ifname : str) (p : dhcpMessage) : M cli Z :=
  c ← gets conf;
  wanip ← of_res (makeip 32 (le_bytes 4 (yiaddr p)));
  ptr ← of_res (get_option p DHCP_SUBNET);
  match ptr with
  | None => mret 0
  | Some (data, _) =>
      wanmask ← of_res (makeip 32 data);
      '(_, lanip, lanmask) ← library (get_ifconfig IF_LOCAL);
      if check_same_network2 lanip lanmask wanip wanmask then
        outside (wlog SYSMSG_LOG_WANRING SYSLOG_SAME_SUBNET_IP_ASSIGN [AStr wanip]);;
        library (istatus_set_intvalue_direct (lit "lanwan_samenetwork") 1);;
        library (wizard_api_set_status (interface c) (lit "timeout"));;
        mret 1
      else
        library (istatus_remove_status_tag (lit "lanwan_samenetwork"));;
        block ← library (gets (get_dhclient_block_private_ip ifname));
        if (block : bool) && is_private (htonl (yiaddr p)) then
          outside (wlog SYSMSG_LOG_WANRING SYSLOG_PRIVATE_IP_ASSIGN [AStr wanip]);;
          library (istatus_set_intvalue_direct (lit "privateip") 1);;
          mret 1
        else
          when block (library (istatus_remove_status_tag (lit "privateip"));; mret tt);;
          service_network wanip wanmask p;;
          mret 0
  end.

(** ** Messages *)

(** INIT_SELECTING: an OFFER *)
Definition handle_offer (now : Z) : M cli unit :=
  p ← gets packet;
  c ← gets conf;
  temp ← of_res (get_option p DHCP_SERVER_ID);
  match temp with
  | None => mret tt
  | Some (data, _) =>
      server ← of_res (get4 data);
      bad ← check_private_ip (interface c) p;
      when (bad =? 0) (
        set_mach (put_server server);;
        library (istatus_set_value_direct (lit "dhcpserver") (Some (inet_ntoa server)));;
        set_mach (put_xid (xid p));;
        set_mach (put_requested (yiaddr p));;
        set_mach (put_state REQUESTING);;
        set_mach (put_timeout now);;
        set_mach (put_num 0))
  end.

(** The lease time of an ACK *)
Definition ack_lease (p : dhcpMessage) : res Z :=
  temp ← get_option p DHCP_LEASE_TIME;
  match temp with
  | None => mret (60 * 60)
  | Some (data, _) => l ← get4 data; mret (ntohl l)
  end.

Definition put_bound (lease now yiaddr : Z) (m : machine) : machine :=
  Mach (m_state m) yiaddr (m_server m) (u32 (lease / 2 + now)) (m_num m) (m_fd m) (m_listen m)
    (m_xid m) (lease / 2) (Z.shiftr (u32 (lease * 7)) 3) now (Some lease) (m_wizard m).

Definition handle_ack (now : Z) : M cli next :=
  p ← gets packet;
  c ← gets conf;
  lease ← of_res (ack_lease p);
  outside (tell (SetLeaseTime (interface c) lease));;
  set_mach (put_bound lease now (yiaddr p));;
  state ← reading m_state;
  script_with_packet (match state with RENEWING | REBINDING => Renew | _ => Bound end);;
  set_mach (put_state BOUND);;
  change_mode LISTEN_NONE;;
  if quit_after_lease c then exit_client 0
  else
    when (negb (foreground c)) background;;
    mret None.

Definition handle_nak (now : Z) : M cli unit :=
  script_with_packet Nak;;
  state ← reading m_state;
  when (negb (bool_decide (state = REQUESTING))) deconfig;;
  set_mach (put_state INIT_SELECTING);;
  set_mach (put_timeout now);;
  set_mach (put_requested 0);;
  set_mach (put_num 0);;
  change_mode LISTEN_RAW;;
  outside (tell (Sleep 3)).

(** dhclientchk: any answer shows a server. *)
Definition option_ip (p : dhcpMessage) (code : Z) : M cli (option str) :=
  ptr ← of_res (get_option p code);
  match ptr with
  | None => mret None
  | Some (data, _) => t ← of_res (makeip 32 data); mret (Some t)
  end.
Definition server_detected : M cli next :=
  p ← gets packet;
  c ← gets conf;
  known ← library (gets (get_dhcp_auto_detect_status (interface c)));
  when (negb known) (outside (wlog SYSMSG_LOG_INFO SYSLOG_MSG_DHCP_SERVER_SUSPENDED []));;
  outside (tell (SetAutoDetect (interface c) 1));;
  wanip ← of_res (makeip 32 (le_bytes 4 (yiaddr p)));
  wanmask ← option_ip p DHCP_SUBNET;
  (match wanmask with
   | None => mret tt
   | Some wanmask =>
       router ← option_ip p DHCP_ROUTER;
       dns ← option_ip p DHCP_DNS_SERVER;
       outside (tell (SetChkInfo (interface c) wanip wanmask (default (lit "null") router)
                        (default (lit "null") dns)))
   end);;
  exit_client 0.

Definition dispatch (now message : Z) : M cli next :=
  state ← reading m_state;
  match state with
  | INIT_SELECTING => when (message =? DHCPOFFER) (handle_offer now);; mret None
  | RENEW_REQUESTED | REQUESTING | RENEWING | REBINDING =>
      if message =? DHCPACK then handle_ack now
      else when (message =? DHCPNAK) (handle_nak now);; mret None
  | BOUND | RELEASED | INIT_REBOOT => mret None
  end.

(** What read() gives, as the argument of get_packet: the bytes that are not
    received are zero. *)
Definition kernel_input (input : option bytes) : option (Z * dhcpMessage) :=
  match input with
  | None => None
  | Some got =>
      let got := take 548 got in
      Some (Z.of_nat (length got), msg_of_bytes (got ++ replicate (548 - length got) 0))
  end.

Definition client_packet (now : Z) (input : option bytes) (eintr : bool) : M cli next :=
  p ← gets packet;
  mode ← reading m_listen;
  '(len, p) ← of_res (match mode with
                      | LISTEN_KERNEL => get_packet (kernel_input input)
                      | _ => get_raw_packet p input
                      end);
  set_packet p;;
  when ((len =? -1) && negb eintr) (change_mode mode);;
  if len <? 0 then mret None
  else
    x ← reading m_xid;
    if negb (xid p =? x) then mret None
    else
      checking ← gets chk;
      if checking : bool then server_detected
      else
        message ← of_res (get_option p DHCP_MESSAGE_TYPE);
        match message with
        | None => mret None
        | Some (data, _) => type ← of_res (rd data 0); dispatch now type
        end.

(** ** The loop *)
Definition SIGUSR1 : Z := 10.
Definition SIGUSR2 : Z := 12.

(** What select() reports, and what the descriptor gives: a message takes
    precedence over a signal.  read() takes one byte of a signal, sizeof(signal);
    [None] is an error. *)
Inductive wakeup :=
  | Quiet
  | Datagram (input : option bytes) (eintr : bool)
  | Signal (byte : option Z)
  | Failed.

Definition signalled (byte : option Z) : M cli next :=
  match byte with
  | None => mret None
  | Some sig =>
      if sig =? SIGUSR1 then perform_renew;; mret None
      else if sig =? SIGUSR2 then perform_release;; mret None
      else if sig =? SIGTERM then exit_client 0
      else mret None
  end.

(** The seconds select() may wait. *)
Definition tv_sec (timeout now : Z) : Z :=
  let tv := i32 (timeout - now) in
  if (tv <? 0) && negb (timeout =? 0) then 1 else tv.

Definition open_socket (m : machine) : machine :=
  Mach (m_state m) (m_requested m) (m_server m) (m_timeout m) (m_num m)
    (match m_listen m with LISTEN_NONE => m_fd m | _ => true end)
    (m_listen m) (m_xid m) (m_t1 m) (m_t2 m) (m_start m) (m_lease m) (m_wizard m).

(** [opens]: whether a socket can be opened. *)
Definition pass (opens : bool) (w : wakeup) : M cli next :=
  t ← reading m_timeout;
  now ← outside wtime;
  m ← gets mach;
  if negb (bool_decide (m_listen m = LISTEN_NONE)) && negb (m_fd m) && negb opens
  then exit_client 0
  else
    set_mach open_socket;;
    let w := if 0 <? tv_sec t now then w else Quiet in
    now ← outside wtime;
    match w with
    | Quiet => timed_out now
    | Datagram input eintr =>
        match m_listen m with LISTEN_NONE => mret None | _ => client_packet now input eintr end
    | Signal byte => signalled byte
    | Failed => mret None
    end.

Fixpoint client (ins : list (bool * wakeup)) : M cli next :=
  match ins with
  | [] => mret None
  | (opens, w) :: ins =>
      r ← pass opens w;
      match r with None => client ins | Some status => mret (Some status) end
  end.

(** ** udhcpc_main up to the loop *)

(** What getopt_long gives. *)
Inductive copt :=
  | OptClientid (arg : str) | OptForeground | OptBackground | OptHostname (arg : str)
  | OptInterface (arg : str) | OptNow | OptPidfile (arg : str) | OptQuit | OptRequest (arg : str)
  | OptScript (arg : str) | OptVersion | OptUnknown.

(** An option of the message with the text, at most 255 bytes of it. *)
Definition text_option (code : Z) (arg : str) : bytes :=
  let t := get_bytes (take 255 arg) in code :: Z.of_nat (length t) :: t.

(** The block has strlen + 2 bytes, and its byte 2 is written first. *)
Definition clientid_option (arg : str) : res bytes :=
  match arg with
  | [] => Fault Overflow
  | _ => mret (text_option DHCP_CLIENT_ID arg)
  end.

Definition default_config : client_config_t :=
  CConf false false false false IF_LOCAL None (lit "/usr/share/udhcpc/default.script") None None
    0 (replicate 6 0).

Definition set_conf (c : client_config_t) : M cli unit :=
  modify (λ s, Cli c (chk s) (mach s) (packet s) (wrld s)).

(** One option of the command line; a status when the process ends. *)
Definition take_option (o : copt) : M cli next :=
  c ← gets conf;
  match o with
  | OptClientid arg =>
      id ← of_res (clientid_option arg);
      set_conf (CConf (foreground c) (quit_after_lease c) (abort_if_no_lease c)
        (background_if_no_lease c) (interface c) (pidfile c) (script c) (Some id) (hostname c)
        (ifindex c) (arp c));; mret None
  | OptForeground =>
      set_conf (CConf true (quit_after_lease c) (abort_if_no_lease c) (background_if_no_lease c)
        (interface c) (pidfile c) (script c) (clientid c) (hostname c) (ifindex c) (arp c));;
      mret None
  | OptBackground =>
      set_conf (CConf (foreground c) (quit_after_lease c) (abort_if_no_lease c) true
        (interface c) (pidfile c) (script c) (clientid c) (hostname c) (ifindex c) (arp c));;
      mret None
  | OptHostname arg =>
      set_conf (CConf (foreground c) (quit_after_lease c) (abort_if_no_lease c)
        (background_if_no_lease c) (interface c) (pidfile c) (script c) (clientid c)
        (Some (text_option DHCP_HOST_NAME arg)) (ifindex c) (arp c));; mret None
  | OptInterface arg =>
      set_conf (CConf (foreground c) (quit_after_lease c) (abort_if_no_lease c)
        (background_if_no_lease c) arg (pidfile c) (script c) (clientid c) (hostname c)
        (ifindex c) (arp c));; mret None
  | OptNow =>
      set_conf (CConf (foreground c) (quit_after_lease c) true (background_if_no_lease c)
        (interface c) (pidfile c) (script c) (clientid c) (hostname c) (ifindex c) (arp c));;
      mret None
  | OptPidfile arg =>
      set_conf (CConf (foreground c) (quit_after_lease c) (abort_if_no_lease c)
        (background_if_no_lease c) (interface c) (Some arg) (script c) (clientid c) (hostname c)
        (ifindex c) (arp c));; mret None
  | OptQuit =>
      set_conf (CConf (foreground c) true (abort_if_no_lease c) (background_if_no_lease c)
        (interface c) (pidfile c) (script c) (clientid c) (hostname c) (ifindex c) (arp c));;
      mret None
  | OptRequest arg => set_mach (put_requested (inet_addr arg));; mret None
  | OptScript arg =>
      set_conf (CConf (foreground c) (quit_after_lease c) (abort_if_no_lease c)
        (background_if_no_lease c) (interface c) (pidfile c) arg (clientid c) (hostname c)
        (ifindex c) (arp c));; mret None
  | OptVersion => exit_client 0
  | OptUnknown => mret (Some 0)
  end.

Fixpoint take_options (opts : list copt) : M cli next :=
  match opts with
  | [] => mret None
  | o :: opts =>
      r ← take_option o;
      match r with None => take_options opts | Some status => mret (Some status) end
  end.

(** The state of the process when udhcpc_main is called: [stack] is what is in the
    message before the first one. *)
Definition fresh_client (argv0 : str) (stack : dhcpMessage) (w : world) : cli :=
  Cli default_config (streq argv0 (lit "/sbin/dhclientchk"))
    (Mach INIT_SELECTING 0 0 0 0 true LISTEN_NONE 0 0 0 0 None 0) stack w.

(** [hw] is what read_interface finds: the index and the hardware address. *)
Definition client_start (opts : list copt) (hw : option (Z * bytes)) : M cli next :=
  r ← take_options opts;
  match r with
  | Some status => mret (Some status)
  | None =>
      background;;
      match hw with
      | None => exit_client 1
      | Some (index, mac) =>
          c ← gets conf;
          set_conf (CConf (foreground c) (quit_after_lease c) (abort_if_no_lease c)
            (background_if_no_lease c) (interface c) (pidfile c) (script c)
            (Some (default ([DHCP_CLIENT_ID; 7; 1] ++ take 6 mac) (clientid c))) (hostname c)
            index mac);;
          set_mach (put_state INIT_SELECTING);;
          checking ← gets chk;
          when (negb checking) deconfig;;
          change_mode LISTEN_RAW;;
          mret None
      end
  end.

Definition udhcpc_main (opts : list copt) (hw : option (Z * bytes)) (ins : list (bool * wakeup))
    : M cli next :=
  r ← client_start opts hw;
  match r with None => client ins | Some status => mret (Some status) end.
End client.
