(* ===== verification/ClientWire.v ===== *)
(** * From the server's datagram to the client

    The client's get_raw_packet takes the message out of the datagram that
    raw_packet builds; it rejects or accepts every other input without a fault,
    but for datagrams that are shorter than their headers. *)
From S2P Require Import Prelude CLib Heap System Bytes Genconfig GenconfigSpec GenconfigOps.
From S2P Require Import GenconfigFile Cconfig SystemApi Syslog Dhcp DhcpOptions DhcpPacket.
From S2P Require Import DhcpLeases DhcpFiles DhcpServer ClientPacket.

(** ** Fields of arrays *)
Lemma field_skip a b k n :
  (length a ≤ k)%nat → field k n (a ++ b) = field (k - length a) n b.
Proof. intros Hk. unfold field. by rewrite drop_app_ge. Qed.
Lemma field_here a b n : length a = n → field 0 n (a ++ b) = a.
Proof. intros Hn. unfold field. rewrite drop_0. by apply take_app_length'. Qed.
Lemma field_all a n : length a = n → field 0 n a = a.
Proof. intros Hn. unfold field. rewrite drop_0. apply take_ge. lia. Qed.
Lemma field_length k n a : (k + n ≤ length a)%nat → length (field k n a) = n.
Proof. intros H. unfold field. rewrite length_take, length_drop. lia. Qed.
Lemma field_is_bytes k n a : is_bytes a → is_bytes (field k n a).
Proof. intros H. by apply Forall_take, Forall_drop. Qed.
Lemma num_u8 k a : is_bytes a → is_byte (num k 1 a).
Proof.
  intros H. unfold num, is_byte. pose proof (field_is_bytes k 1 a H) as Hb.
  pose proof (of_le_range _ Hb) as Hr.
  assert (length (field k 1 a) ≤ 1)%nat as Hl by (unfold field; rewrite length_take; lia).
  destruct (field k 1 a) as [|b [|]]; simpl in *; lia.
Qed.

(** Finds a field of a concatenation of arrays whose lengths are known. *)
Ltac lengths :=
  rewrite ?le_bytes_length;
  repeat match goal with H : length ?x = _ |- context [length ?x] => rewrite H end.
Ltac find_field :=
  repeat first [rewrite field_here by (lengths; done)
               |rewrite field_all by (lengths; done)
               |rewrite field_skip by (lengths; simpl; lia); lengths; cbn [length Nat.sub]].

(** ** The message in memory *)
Record in_width (m : dhcpMessage) : Prop := {
  iw_head : is_bytes [op m; htype m; hlen m; hops m];
  iw_xid : is_u32 (xid m); iw_secs : 0 ≤ secs m < 2 ^ 16; iw_flags : 0 ≤ flags m < 2 ^ 16;
  iw_ciaddr : is_u32 (ciaddr m); iw_yiaddr : is_u32 (yiaddr m);
  iw_siaddr : is_u32 (siaddr m); iw_giaddr : is_u32 (giaddr m); iw_cookie : is_u32 (cookie m)
}.

Lemma of_le_4 z : is_u32 z → of_le (le_bytes 4 z) = z.
Proof. intros Hz. rewrite of_le_bytes. by apply Z.mod_small. Qed.
Lemma of_le_2 z : 0 ≤ z < 2 ^ 16 → of_le (le_bytes 2 z) = z.
Proof. intros Hz. rewrite of_le_bytes. by apply Z.mod_small. Qed.

Definition header_bytes (p : dhcpMessage) : Prop := is_bytes [op p; htype p; hlen p; hops p].

(** What is read back of a message: its bytes, and its numbers at their width *)
Definition reread (m : dhcpMessage) : dhcpMessage :=
  Msg (op m) (htype m) (hlen m) (hops m) (u32 (xid m)) (secs m mod 2 ^ 16) (flags m mod 2 ^ 16)
    (u32 (ciaddr m)) (u32 (yiaddr m)) (u32 (siaddr m)) (u32 (giaddr m)) (chaddr m) (sname m) (file m)
    (u32 (cookie m)) (options m).

Lemma msg_reread m : wf_message m → header_bytes m → msg_of_bytes (msg_bytes m) = reread m.
Proof.
  intros [Hc Hs Hf Ho _ _ _ _] Hh. unfold msg_of_bytes.
  assert (∀ k b, [op m; htype m; hlen m; hops m] !! k = Some b → num k 1 (msg_bytes m) = b) as Hn.
  { intros k b Hk. unfold num, msg_bytes.
    do 4 (destruct k as [|k]; [injection Hk as <-; cbn; lia|]). done. }
  rewrite (Hn 0%nat (op m)), (Hn 1%nat (htype m)), (Hn 2%nat (hlen m)), (Hn 3%nat (hops m)) by done.
  assert (msg_bytes m = [op m; htype m; hlen m; hops m] ++ le_bytes 4 (xid m) ++ le_bytes 2 (secs m)
    ++ le_bytes 2 (flags m) ++ le_bytes 4 (ciaddr m) ++ le_bytes 4 (yiaddr m)
    ++ le_bytes 4 (siaddr m) ++ le_bytes 4 (giaddr m) ++ chaddr m ++ sname m ++ file m
    ++ le_bytes 4 (cookie m) ++ options m) as -> by done.
  unfold num. find_field.
  by rewrite !of_le_bytes.
Qed.

Lemma msg_of_msg_bytes m : wf_message m → in_width m → msg_of_bytes (msg_bytes m) = m.
Proof.
  intros Hwf [Hh ? ? ? ? ? ? ? ?]. rewrite msg_reread by done. unfold reread, u32.
  rewrite !Z.mod_small by done. by destruct m.
Qed.

(** ** Datagrams *)

(** A datagram with a header of the client's liking; [check] of the UDP header may
    be any. *)
Definition datagram (tot_len saddr daddr source len check ip_check : Z) (data : bytes) : bytes :=
  ip_bytes (Z.lor (Z.shiftr 20 2) (Z.shiftl IPVERSION 4)) (htons tot_len) IPDEFTTL ip_check saddr daddr
  ++ udp_bytes source (htons CLIENT_PORT) (htons len) check ++ data.

Lemma num_ip_check tot s d sp len uc ic data :
  0 ≤ ic < 2 ^ 16 → num 10 2 (datagram tot s d sp len uc ic data) = ic.
Proof. intros Hc. by rewrite <- (of_le_2 ic Hc) at 2. Qed.
Lemma num_udp_check tot s d sp len uc ic data :
  0 ≤ uc < 2 ^ 16 → num 26 2 (datagram tot s d sp len uc ic data) = uc.
Proof. intros Hc. by rewrite <- (of_le_2 uc Hc) at 2. Qed.
Lemma num_udp_len tot s d sp len uc ic data :
  num 24 2 (datagram tot s d sp len uc ic data) = of_le (le_bytes 2 (htons len)).
Proof. done. Qed.
Lemma num_tot_len tot s d sp len uc ic data :
  num 2 2 (datagram tot s d sp len uc ic data) = of_le (le_bytes 2 (htons tot)).
Proof. done. Qed.

Lemma header_without_check tot s d sp len uc ic data :
  take 20 (without_check (datagram tot s d sp len uc ic data)) =
  ip_bytes (Z.lor (Z.shiftr 20 2) (Z.shiftl IPVERSION 4)) (htons tot) IPDEFTTL 0 s d.
Proof. done. Qed.
Lemma datagram_pseudo tot s d sp len uc ic data :
  pseudo_packet (datagram tot s d sp len uc ic data) =
  ip_bytes 0 (htons len) 0 0 s d ++ udp_bytes sp (htons CLIENT_PORT) (htons len) 0 ++ data.
Proof. done. Qed.

Lemma le_2_htons z : of_le (le_bytes 2 (htons z)) = htons z.
Proof.
  apply of_le_2. unfold htons, ntohs. pose proof (of_le_range (rev (le_bytes 2 z))) as H.
  rewrite length_rev, le_bytes_length in H. apply H. apply Forall_rev, le_bytes_is_bytes.
Qed.
Lemma ntohs_htons z : 0 ≤ z < 2 ^ 16 → ntohs (htons z) = z.
Proof.
  intros Hz. unfold htons, ntohs.
  assert (le_bytes 2 (of_le (rev (le_bytes 2 z))) = rev (le_bytes 2 z)) as ->.
  { rewrite <- (le_bytes_of_le (rev (le_bytes 2 z))) at 2 by apply Forall_rev, le_bytes_is_bytes.
    by rewrite length_rev, le_bytes_length. }
  rewrite rev_involutive. by apply of_le_2.
Qed.

(** What is left to check of a datagram with a right header. *)
Definition accepted (payload : dhcpMessage) (tot uc : Z) (packet : bytes) : res (Z * dhcpMessage) :=
  bad ← (if uc =? 0 then mret false
         else sum ← checksum (take (Z.to_nat tot) packet); mret (negb (uc =? sum)));
  if bad : bool then mret (-2, payload)
  else
    let size := u32 (tot - (20 + 8)) in
    if 548 <? size then Fault Overflow
    else
      let n := Z.to_nat size in
      let payload := msg_of_bytes (field 28 n packet ++ drop n (msg_bytes payload)) in
      if negb (ntohl (cookie payload) =? DHCP_MAGIC) then mret (-2, payload)
      else mret (i32 (tot - (20 + 8)), payload).

Lemma get_raw_accept payload tot s d sp uc ic data :
  20 ≤ tot ≤ 28 + Z.of_nat (length data) → (length data ≤ 548)%nat →
  0 ≤ uc < 2 ^ 16 → 0 ≤ ic < 2 ^ 16 →
  checksum (ip_bytes (Z.lor (Z.shiftr 20 2) (Z.shiftl IPVERSION 4)) (htons tot) IPDEFTTL 0 s d) = Ok ic →
  get_raw_packet payload (Some (datagram tot s d sp (tot - 20) uc ic data)) =
  accepted payload tot uc
    (pseudo_packet (datagram tot s d sp (tot - 20) uc ic (data ++ replicate (548 - length data) 0))).
Proof.
  intros Htot Hlen Huc Hic Hsum.
  assert (∀ data, length (datagram tot s d sp (tot - 20) uc ic data) = (28 + length data)%nat) as Hl
    by done.
  unfold get_raw_packet. rewrite (take_ge (datagram _ _ _ _ _ _ _ data))
    by (rewrite Hl; unfold PACKET_SIZE; lia).
  rewrite Hl. replace (PACKET_SIZE - (28 + length data))%nat with (548 - length data)%nat
    by (unfold PACKET_SIZE; lia).
  assert (datagram tot s d sp (tot - 20) uc ic data ++ replicate (548 - length data) 0 =
    datagram tot s d sp (tot - 20) uc ic (data ++ replicate (548 - length data) 0)) as -> by done.
  set (packet := datagram _ _ _ _ _ _ _ (data ++ _)).
  assert (num 2 2 packet = htons tot) as -> by apply le_2_htons.
  assert (num 24 2 packet = htons (tot - 20)) as -> by apply le_2_htons.
  assert (num 9 1 packet = IPPROTO_UDP) as -> by done.
  assert (num 0 1 packet = 69) as -> by done.
  assert (num 22 2 packet = htons CLIENT_PORT) as -> by apply le_2_htons.
  unfold packet. rewrite num_ip_check, num_udp_check, header_without_check, Hsum by done.
  rewrite !ntohs_htons by lia.
  rewrite (proj2 (Z.ltb_ge _ _)), (proj2 (Z.ltb_ge (Z.of_nat _) tot)) by lia.
  change (69 ≫ 4 =? IPVERSION) with true. change (Z.land 69 15 =? 20 ≫ 2) with true.
  rewrite !Z.eqb_refl. cbn [negb orb].
  rewrite (proj2 (Z.ltb_ge _ tot)) by (unfold PACKET_SIZE; lia).
  assert (i16 (u32 (tot - 20)) = tot - 20) as ->.
  { assert (u32 (tot - 20) = tot - 20) as -> by (apply Z.mod_small; lia).
    unfold i16. rewrite Z.mod_small by lia. lia. }
  rewrite Z.eqb_refl. cbn [negb orb].
  unfold mbind at 1, res_bind at 1. rewrite Z.eqb_refl. reflexivity.
Qed.

Lemma raw_packet_read m payload saddr daddr :
  wf_message m → header_bytes m → cookie m = htonl DHCP_MAGIC → wf_message payload →
  ∃ d, raw_packet m saddr SERVER_PORT daddr CLIENT_PORT = Ok d ∧
    get_raw_packet payload (Some d) = Ok (548, reread m).
Proof.
  intros Hwf Hw Hc Hp. pose proof (msg_bytes_length _ Hwf) as Hl.
  pose proof (msg_bytes_is_bytes _ Hwf Hw) as Hb. unfold raw_packet.
  destruct (checksum_spec (ip_bytes 0 (htons (8 + 548)) 0 0 saddr daddr ++
    udp_bytes (htons SERVER_PORT) (htons CLIENT_PORT) (htons (8 + 548)) 0 ++ msg_bytes m))
    as (uc & Euc & Huc & _).
  { rewrite !is_bytes_app. split_and!; [apply ip_is_bytes; split; lia|apply udp_is_bytes|done]. }
  { rewrite !length_app, ip_length, udp_length, Hl. lia. }
  destruct (checksum_spec (ip_bytes (Z.lor (Z.shiftr 20 2) (Z.shiftl IPVERSION 4))
    (htons (20 + 8 + 548)) IPDEFTTL 0 saddr daddr)) as (ic & Eic & Hic & _).
  { apply ip_is_bytes; vm_compute; split; congruence. }
  { rewrite ip_length. lia. }
  unfold mbind at 1, res_bind at 1. rewrite Euc. unfold mbind at 1, res_bind at 1. rewrite Eic.
  eexists. split; [reflexivity|].
  etrans; [apply (get_raw_accept payload (20 + 8 + 548) saddr daddr (htons SERVER_PORT) uc ic
    (msg_bytes m)); [lia|lia|lia|lia|exact Eic]|].
  rewrite Hl, Nat.sub_diag, app_nil_r, datagram_pseudo. unfold accepted.
  change (20 + 8 + 548 - 20) with (8 + 548).
  rewrite take_ge by (rewrite !length_app, ip_length, udp_length, Hl; simpl; lia).
  rewrite Euc. cbn [mbind res_bind mret res_ret]. rewrite Z.eqb_refl.
  assert ((if uc =? 0 then mret false else mret (negb true)) = Ok false) as -> by by destruct (uc =? 0).
  unfold mbind, res_bind.
  change (u32 (20 + 8 + 548 - (20 + 8))) with 548. change (Z.to_nat 548) with 548%nat.
  rewrite (drop_ge (msg_bytes payload)) by (rewrite msg_bytes_length; done || lia).
  change 28%nat with (20 + 8)%nat.
  rewrite field_skip by (rewrite ip_length; lia). rewrite field_skip by (rewrite ip_length, udp_length; lia).
  rewrite ip_length, udp_length. cbn [Nat.add Nat.sub].
  rewrite field_all by done. rewrite app_nil_r, msg_reread by done.
  unfold reread. rewrite Hc. done.
Qed.

(** C24: the datagram that the server's raw_packet builds for a message is taken
    apart by the client's get_raw_packet into the same message, whatever the buffer
    held before. *)
Theorem raw_packet_received m payload saddr daddr :
  wf_message m → in_width m → cookie m = htonl DHCP_MAGIC → wf_message payload →
  ∃ d, raw_packet m saddr SERVER_PORT daddr CLIENT_PORT = Ok d ∧
    get_raw_packet payload (Some d) = Ok (548, m).
Proof.
  intros Hwf Hw Hc Hp.
  destruct (raw_packet_read m payload saddr daddr) as (d & Ed & E); [done|apply Hw|done..|].
  exists d. split; [done|]. by rewrite <- msg_reread, msg_of_msg_bytes in E by (done || apply Hw).
Qed.

(** C39: a datagram whose total length is that of its headers without a part of
    the UDP header passes every check of get_raw_packet, and memcpy is called with
    a negative length: one packet of the network stops the client. *)
Theorem short_datagram_overflows tot saddr daddr source data payload :
  20 ≤ tot < 28 → (length data ≤ 548)%nat →
  ∃ ip_check, get_raw_packet payload
    (Some (datagram tot saddr daddr source (tot - 20) 0 ip_check data)) = Fault Overflow.
Proof.
  intros Htot Hl.
  destruct (checksum_spec (ip_bytes (Z.lor (Z.shiftr 20 2) (Z.shiftl IPVERSION 4))
    (htons tot) IPDEFTTL 0 saddr daddr)) as (ic & Eic & Hic & _).
  { apply ip_is_bytes; vm_compute; split; congruence. }
  { rewrite ip_length. lia. }
  exists ic. rewrite get_raw_accept by (done || lia). unfold accepted.
  rewrite Z.eqb_refl. cbn [mbind res_bind mret res_ret].
  rewrite (proj2 (Z.ltb_lt _ _)); [done|]. unfold u32.
  rewrite <- (Z.mod_add _ 1), Z.mod_small by lia. lia.
Qed.

Lemma short_datagram_overflows_witness :
  ∃ ip_check, get_raw_packet zero_message
    (Some (datagram 27 0x0100a8c0 0xffffffff 0x4300 7 0 ip_check [])) = Fault Overflow.
Proof.
  apply (short_datagram_overflows 27 0x0100a8c0 0xffffffff 0x4300 [] zero_message); [lia|simpl; lia].
Defined.

Lemma msg_of_bytes_wf a : is_bytes a → length a = 548%nat → wf_message (msg_of_bytes a).
Proof.
  intros Hb Hl. split; cbn [msg_of_bytes chaddr sname file options];
    first [apply field_length; lia|by apply field_is_bytes].
Qed.

(** The messages of the client's buffer *)
Definition sendable (m : dhcpMessage) : Prop := wf_message m ∧ header_bytes m.

Lemma msg_of_bytes_sendable a : is_bytes a → length a = 548%nat → sendable (msg_of_bytes a).
Proof.
  intros Hb Hl. split; [by apply msg_of_bytes_wf|].
  unfold header_bytes, is_bytes. rewrite !Forall_cons. cbn [msg_of_bytes op htype hlen hops].
  split_and!; try by apply num_u8. done.
Qed.

Lemma field_take k n m a : (k + n ≤ m)%nat → field k n (take m a) = field k n a.
Proof.
  intros H. unfold field. rewrite skipn_firstn_comm, take_take. f_equal. lia.
Qed.
Lemma field_app k n a b : (k + n ≤ length a)%nat → field k n (a ++ b) = field k n a.
Proof. intros H. unfold field. rewrite drop_app_le, take_app_le by (rewrite ?length_drop; lia). done. Qed.

Lemma pseudo_packet_bytes a : is_bytes a → is_bytes (pseudo_packet a).
Proof.
  intros H. unfold pseudo_packet, IPPROTO_UDP. rewrite !is_bytes_app.
  split_and!; first [by apply field_is_bytes|by apply Forall_drop|simpl; byte_list].
Qed.

Lemma ntohs_range z : 0 ≤ ntohs z < 2 ^ 16.
Proof.
  unfold ntohs. pose proof (of_le_range (rev (le_bytes 2 z))) as H.
  rewrite length_rev, le_bytes_length in H. apply H. apply Forall_rev, le_bytes_is_bytes.
Qed.

(** The lengths of the two headers agree only from 20 bytes on. *)
Lemma udp_len_ge tot z : 0 ≤ tot < 2 ^ 15 → ntohs z = i16 (u32 (tot - 20)) → 20 ≤ tot.
Proof.
  intros Ht E. pose proof (ntohs_range z) as Hz. destruct (decide (20 ≤ tot)); [done|].
  assert (u32 (tot - 20) = tot - 20 + 2 ^ 32) as Eu.
  { unfold u32. rewrite <- (Z.mod_add _ 1), Z.mod_small by lia. lia. }
  rewrite Eu in E. unfold i16 in E.
  replace (tot - 20 + 2 ^ 32 + 2 ^ 15) with (tot - 20 + 2 ^ 15 + 2 ^ 16 * 2 ^ 16) in E by lia.
  rewrite Z.mod_add, Z.mod_small in E by lia. lia.
Qed.

Lemma accepted_safe payload tot uc pk :
  sendable payload → is_bytes pk → length pk = 576%nat → 20 ≤ tot ≤ 576 →
  match accepted payload tot uc pk with
  | Ok (r, p) => sendable p ∧ r ≤ 548
  | Fault e => e = Overflow ∧ tot < 28
  | NoFuel => False
  end.
Proof.
  intros [Hp Hh] Hb Hl Ht. unfold accepted.
  assert (∃ bad, (if uc =? 0 then mret false
      else sum ← checksum (take (Z.to_nat tot) pk); mret (negb (uc =? sum))) = Ok bad) as [bad ->].
  { destruct (uc =? 0); [by exists false|].
    destruct (checksum_spec (take (Z.to_nat tot) pk)) as (c & -> & _);
      [by apply Forall_take|rewrite length_take; lia|]. by eexists. }
  unfold mbind, res_bind. destruct bad; [by split|].
  destruct (decide (tot < 28)).
  { rewrite (proj2 (Z.ltb_lt _ _)); [done|]. unfold u32.
    rewrite <- (Z.mod_add _ 1), Z.mod_small by lia. lia. }
  assert (u32 (tot - (20 + 8)) = tot - 28) as -> by (apply Z.mod_small; lia).
  rewrite (proj2 (Z.ltb_ge _ _)) by lia. set (p := msg_of_bytes _).
  assert (sendable p) as Hw.
  { apply msg_of_bytes_sendable.
    - apply is_bytes_app. split; [by apply field_is_bytes|].
      by apply Forall_drop, msg_bytes_is_bytes.
    - rewrite length_app, field_length, length_drop, msg_bytes_length by (done || lia). lia. }
  destruct (negb _); [by split|]. split; [done|]. rewrite i32_id by lia. lia.
Qed.

Lemma pseudo_packet_length a : length a = 576%nat → length (pseudo_packet a) = 576%nat.
Proof.
  intros H. unfold pseudo_packet. rewrite !length_app, length_drop, !field_length, H by lia. done.
Qed.

Lemma raw_input_safe payload d :
  sendable payload → is_bytes d →
  match get_raw_packet payload (Some d) with
  | Ok (r, p) => sendable p ∧ r ≤ 548
  | Fault e => e = Overflow ∧ 20 ≤ ntohs (num 2 2 d) < 28
  | NoFuel => False
  end.
Proof.
  intros Hp Hd. unfold get_raw_packet. set (got := take PACKET_SIZE d).
  assert (is_bytes got) as Hg by by apply Forall_take.
  assert (length got ≤ 576)%nat as Hlg by (unfold got; rewrite length_take; apply Nat.le_min_l).
  set (pk := got ++ _).
  assert (length pk = 576)%nat as Hlp
    by (unfold pk; rewrite length_app, length_replicate; unfold PACKET_SIZE; lia).
  assert (is_bytes pk) as Hb.
  { apply is_bytes_app. split; [done|]. apply Forall_replicate. unfold is_byte. lia. }
  destruct (Z.ltb_spec (Z.of_nat (length got)) (20 + 8)) as [|Hge]; [by split|].
  assert (num 2 2 pk = num 2 2 d) as En.
  { unfold num, pk. rewrite field_app by lia. unfold got.
    by rewrite field_take by (unfold PACKET_SIZE; lia). }
  rewrite En. set (tot := ntohs (num 2 2 d)).
  destruct (Z.ltb_spec (Z.of_nat (length got)) tot) as [|Hle]; [by split|].
  repeat match goal with |- context [if ?b || ?c then _ else _] =>
    destruct c eqn:?; [rewrite orb_true_r; by split|]; rewrite orb_false_r end.
  destruct (negb (num 9 1 pk =? IPPROTO_UDP)); [by split|].
  destruct (checksum_spec (take 20 (without_check pk))) as (c & -> & _).
  { apply Forall_take. unfold without_check. rewrite !is_bytes_app.
    split_and!; [by apply Forall_take|byte_list|by apply Forall_drop]. }
  { rewrite length_take. lia. }
  unfold mbind at 1, res_bind at 1. destruct (negb (num 10 2 pk =? c)); [by split|].
  assert (20 ≤ tot ≤ 576) as Ht.
  { split; [|lia]. apply (udp_len_ge tot (num 24 2 pk)); [pose proof (ntohs_range (num 2 2 d)); lia|].
    by apply Z.eqb_eq, negb_false_iff. }
  pose proof (accepted_safe payload tot (num 26 2 pk) (pseudo_packet pk) Hp
    (pseudo_packet_bytes pk Hb) ltac:(by rewrite pseudo_packet_length) Ht) as Hacc.
  change (match accepted payload tot (num 26 2 pk) (pseudo_packet pk) with
    | Ok (r, p) => sendable p ∧ r ≤ 548
    | Fault e => e = Overflow ∧ 20 ≤ tot < 28
    | NoFuel => False
    end).
  destruct (accepted _ _ _ _) as [[r p]|e|]; [done| |done]. destruct Hacc. split; [done|lia].
Qed.

(** C25: whatever a datagram holds, get_raw_packet returns, and leaves a message in
    the buffer; the exception are total lengths from 20 to 27, for which the copy
    leaves the buffer. *)
Theorem get_raw_packet_safe payload d :
  sendable payload → is_bytes d →
  match get_raw_packet payload (Some d) with
  | Ok (r, p) => sendable p ∧ r ≤ 548
  | Fault e => e = Overflow ∧ 20 ≤ ntohs (num 2 2 d) < 28
  | NoFuel => False
  end.
Proof. apply raw_input_safe. Qed.

(** ** Samples *)
Definition empty_offer : dhcpMessage :=
  Msg BOOTREPLY ETH_10MB ETH_10MB_LEN 0 0x1234 0 0 0 (htonl 0xc0a80005) 0 0 (replicate 16 0)
    (replicate 64 0) (replicate 128 0) (htonl DHCP_MAGIC) (<[0%nat := DHCP_END]> (replicate 308 0)).

Lemma zeros_wf : wf_message zero_message.
Proof. split; try done; by apply Forall_replicate. Qed.
Lemma empty_offer_wf : wf_message empty_offer.
Proof.
  split; try done; try by apply Forall_replicate.
  apply Forall_insert; [by apply Forall_replicate|done].
Qed.
Lemma empty_offer_width : in_width empty_offer.
Proof. split; [cbn; byte_list|vm_compute; split; congruence..]. Qed.

Lemma raw_packet_received_witness :
  ∃ d, raw_packet empty_offer (htonl 0xc0a80001) SERVER_PORT 0xffffffff CLIENT_PORT = Ok d ∧
    get_raw_packet zero_message (Some d) = Ok (548, empty_offer).
Proof.
  apply (raw_packet_received empty_offer zero_message (htonl 0xc0a80001) 0xffffffff);
    [exact empty_offer_wf|exact empty_offer_width|reflexivity|exact zeros_wf].
Defined.

Lemma get_raw_packet_safe_witness :
  match get_raw_packet zero_message (Some (replicate 28 69)) with
  | Ok (r, p) => sendable p ∧ r ≤ 548
  | Fault e => e = Overflow ∧ 20 ≤ ntohs (num 2 2 (replicate 28 69)) < 28
  | NoFuel => False
  end.
Proof.
  apply (get_raw_packet_safe zero_message (replicate 28 69));
    [split; [exact zeros_wf|cbn; byte_list]|by apply Forall_replicate].
Defined.
