(* ===== verification/Dhcpd.v ===== *)
(** * udhcp-0.9.8/dhcpd.c: the server's main loop

    [startup] is main() up to the loop, [iteration] one pass of the loop with
    what select() and the sockets give in it, [handle_packet] the switch on the
    type of a received message.  [serve] is a run of the loop on a sequence of
    inputs. *)
From S2P Require Import Prelude CLib Heap System Bytes Genconfig GenconfigSpec GenconfigOps.
From S2P Require Import GenconfigFile Cconfig SystemApi Syslog Dhcp DhcpOptions DhcpPacket.
From S2P Require Import DhcpLeases DhcpFiles DhcpServer.

Definition DHCPD_CONF_FILE : str := lit "/etc/udhcpd.conf".
Definition LEASE_TIME : Z := 60 * 60 * 24 * 10.
Definition SIGUSR1 : Z := 10.

Section dhcpd.
Context `{!Net, !Interfaces, !Services, !Resolver}.

(** memset(lease->chaddr, 0, 16) on the entry [i]. *)
Definition blank_entry (i : nat) : M srv unit :=
  modify (λ s, set_leases (alter (λ l, Lease blank_chaddr (l_yiaddr l) (l_expires l) (l_hostname l))
                                 i (leases s)) s).
(** lease->expires = t *)
Definition expire_entry (i : nat) (t : Z) : M srv unit :=
  modify (λ s, set_leases (alter (λ l, Lease (l_chaddr l) (l_yiaddr l) t (l_hostname l))
                                 i (leases s)) s).

(** A host with a twin IP asks for an address of the pool's network, or a host
    without one asks for an address of another network. *)
Definition wrong_net (packet : dhcpMessage) (requested : option Z) : M srv bool :=
  match requested with
  | None => mret false
  | Some req =>
      c ← gets cfg;
      '(twin, _) ← lib (check_ipclone_ipaddr (chaddr packet));
      if negb (twin =? 0) && negb (other_net c req) then mret true
      else
        '(twin, _) ← lib (check_ipclone_ipaddr (chaddr packet));
        mret ((twin =? 0) && other_net c req)
  end.

(** REQUEST from a host that has an entry with the address [yi]. *)
Definition request_known (packet : dhcpMessage) (requested server_id : option Z) (yi : Z)
    : M srv unit :=
  wrong ← wrong_net packet requested;
  if wrong : bool then sendNAK packet;; mret tt
  else
    match server_id, requested with
    | Some id, req =>
        (** SELECTING *)
        c ← gets cfg;
        when ((id =? c_server c) && bool_decide (req = Some yi))
          (sendACK packet yi;; mret tt)
    | None, Some req =>
        (** INIT-REBOOT *)
        if yi =? req then sendACK packet yi;; mret tt else sendNAK packet;; mret tt
    | None, None =>
        (** RENEWING or REBINDING *)
        if yi =? ciaddr packet then sendACK packet yi;; mret tt else sendNAK packet;; mret tt
    end.

(** REQUEST from a host without an entry. *)
Definition request_unknown (packet : dhcpMessage) (requested server_id : option Z) : M srv unit :=
  match server_id, requested with
  | Some _, _ => mret tt
  | None, Some req =>
      (** INIT-REBOOT *)
      static_lease_ip ← find_static_lease_by_chaddr (chaddr packet);
      if negb (static_lease_ip =? 0) && negb (static_lease_ip =? req) then mret tt
      else
        l ← find_lease_by_yiaddr req;
        match l with
        | Some (i, l) =>
            expired ← lease_expired l;
            if expired : bool then blank_entry i else sendNAK packet;; mret tt
        | None =>
            c ← gets cfg;
            if (ntohl req <? ntohl (c_start c)) || (ntohl (c_end c) <? ntohl req)
            then sendNAK packet;; mret tt
            else
              st ← find_static_lease_by_yiaddr req;
              match st with
              | Some _ => sendNAK packet;; mret tt
              | None => sendACK packet req;; mret tt
              end
        end
  | None, None =>
      (** RENEWING or REBINDING *)
      sendNAK packet;; mret tt
  end.

Definition handle_request (packet : dhcpMessage) (l : option (nat * lease)) : M srv unit :=
  requested ← of_res (get_option packet DHCP_REQUESTED_IP);
  server_id ← of_res (get_option packet DHCP_SERVER_ID);
  requested ← (match requested with
               | Some (data, _) => a ← of_res (get4 data); mret (Some a)
               | None => mret None
               end);
  server_id ← (match server_id with
               | Some (data, _) => a ← of_res (get4 data); mret (Some a)
               | None => mret None
               end);
  match l with
  | Some (_, l) => request_known packet requested server_id (l_yiaddr l)
  | None => request_unknown packet requested server_id
  end;;
  write_leases.

(** The switch on the type of the message. *)
Definition handle_packet (packet : dhcpMessage) : M srv unit :=
  state ← of_res (get_option packet DHCP_MESSAGE_TYPE);
  match state with
  | None => mret tt
  | Some (data, _) =>
      l ← find_lease_by_chaddr (chaddr packet);
      type ← of_res (rd data 0);
      if type =? DHCPDISCOVER then sendOffer packet;; write_leases
      else if type =? DHCPREQUEST then handle_request packet l
      else if type =? DHCPDECLINE then
        match l with
        | Some (i, _) =>
            blank_entry i;;
            now ← time0;
            c ← gets cfg;
            expire_entry i (u32 (now + c_decline_time c))
        | None => mret tt
        end
      else if type =? DHCPRELEASE then
        (match l with
         | Some (i, _) => now ← time0; expire_entry i now
         | None => mret tt
         end);;
        write_leases;;
        policy ← lib (gets get_dhcp_access_policy);
        when policy (lib (modify (remove_dhcp_access_host (chaddr packet))))
      else if type =? DHCPINFORM then send_inform packet;; mret tt
      else mret tt
  end.

(** ** The loop *)

(** Whether the socket is open, and the time of the next write. *)
Record loop := Loop { opened : bool; timeout_end : Z }.

(** What one pass gets: whether the socket can be opened, the result of select()
    and whether its error is EINTR, the signal in the pipe (its inner value is
    the one read() gives, if it gives one), what read() on the socket gives, and
    whether its error is EINTR. *)
Record input := Input {
  i_listen : bool;
  i_select : Z; i_select_eintr : bool;
  i_signal : option (option Z);
  i_packet : option (Z * dhcpMessage); i_packet_eintr : bool
}.

Definition exit_server : M srv (option loop) :=
  c ← gets cfg;
  (match c_pidfile c with Some f => lib (unlink f) | None => mret tt end);;
  mret None.

(** write_leases(); timeout_end = time(0) + server_config.auto_time; *)
Definition write_and_rearm (l : loop) : M srv (option loop) :=
  write_leases;;
  now ← time0;
  c ← gets cfg;
  mret (Some (Loop (opened l) (u32 (now + c_auto_time c)))).

(** The rest of a pass, when the socket may be read. *)
Definition read_packet (l : loop) (i : input) : M srv (option loop) :=
  '(bytes, packet) ← of_res (get_packet (i_packet i));
  if bytes <? 0 then
    if (bytes =? -1) && negb (i_packet_eintr i) then mret (Some (Loop false (timeout_end l)))
    else mret (Some l)
  else
    c ← gets cfg;
    detect ← lib (gets (get_dhcp_auto_detect_status (c_interface c)));
    if detect : bool then mret (Some l)
    else handle_packet packet;; mret (Some l).

(** One pass; [None] when the process ends. *)
Definition iteration (l : loop) (i : input) : M srv (option loop) :=
  if negb (opened l) && negb (i_listen i) then exit_server
  else
    let l := Loop true (timeout_end l) in
    c ← gets cfg;
    retval ← (if c_auto_time c =? 0 then mret (i_select i)
              else now ← time0;
                   mret (if 0 <? i32 (timeout_end l - now) then i_select i else 0));
    if retval =? 0 then write_and_rearm l
    else if (retval <? 0) && negb (i_select_eintr i) then mret (Some l)
    else
      match i_signal i with
      | Some None => mret (Some l)
      | Some (Some sig) =>
          if sig =? SIGUSR1 then write_and_rearm l
          else if sig =? SIGTERM then exit_server
          else read_packet l i
      | None => read_packet l i
      end.

Fixpoint serve (l : loop) (ins : list input) : M srv (option loop) :=
  match ins with
  | [] => mret (Some l)
  | i :: ins =>
      r ← iteration l i;
      match r with Some l => serve l ins | None => mret None end
  end.

(** ** main() up to the loop

    [argv1] is the configuration file of the command line; [hw] is what
    read_interface finds: the address and the hardware address. *)
Definition startup (argv1 : option str) (getpid : Z) (hw : option (Z * bytes))
    : M srv (option loop) :=
  modify (set_cfg zero_config);;
  read_config (default DHCPD_CONF_FILE argv1);;
  c ← gets cfg;
  '(_, _, netmask) ← lib (get_ifconfig (c_interface c));
  modify (λ s, set_cfg (with_sys_netmask (htonl (inet_addr netmask)) (cfg s)) s);;
  lib (create_pid (lit "dhcpd") getpid);;
  opt ← of_res (find_option (c_options c) DHCP_LEASE_TIME);
  lease ← (match opt with
           | Some data => t ← of_res (get4 (drop 2 data)); mret (ntohl t)
           | None => mret LEASE_TIME
           end);
  modify (λ s, set_cfg (with_lease lease (cfg s)) s);;
  modify (set_leases (replicate (Z.to_nat (c_max_leases c)) blank_lease));;
  modify (set_statics []);;
  read_leases (c_lease_file c);;
  modify (set_statics (replicate (Z.to_nat (c_max_static c)) blank_static));;
  read_static_leases (c_static_file c);;
  match hw with
  | None => exit_server
  | Some (server, arp) =>
      modify (λ s, set_cfg (with_arp arp (with_server server (cfg s))) s);;
      now ← time0;
      mret (Some (Loop false (u32 (now + c_auto_time c))))
  end.
End dhcpd.
