(* ===== verification/DhcpInv.v ===== *)
(** * The DHCP server: replies

    Specifications of the functions of serverpacket.c that build and send
    messages, in terms of what they leave alone in the server's state
    ([evolves]) and of the message they hand to the network ([replies]). *)
From S2P Require Import Prelude CLib Heap System Bytes Genconfig GenconfigSpec GenconfigOps.
From S2P Require Import GenconfigFile Cconfig SystemApi Syslog LibEnds Dhcp DhcpOptions.
From S2P Require Import DhcpPacket DhcpLeases DhcpTable DhcpFiles DhcpServer.

(** The message of an output. *)
Definition payload (o : output) : dhcpMessage :=
  match o with ToRelay m => m | ToClient _ _ m _ => m end.

(** [m] answers [p] with a message of the type [type] and the address [yi]; its
    option field is well-formed and starts with the type and the server. *)
Record replies (p : dhcpMessage) (type server yi : Z) (opts : list (Z * bytes))
    (m : dhcpMessage) : Prop := {
  re_wf : wf_message m;
  re_head : [op m; htype m; hlen m; hops m] = [BOOTREPLY; ETH_10MB; ETH_10MB_LEN; 0];
  re_xid : xid m = xid p;
  re_chaddr : chaddr m = chaddr p;
  re_flags : flags m = flags p;
  re_giaddr : giaddr m = giaddr p;
  re_ciaddr : ciaddr m = ciaddr p;
  re_yiaddr : yiaddr m = yi;
  re_cookie : cookie m = htonl DHCP_MAGIC;
  re_opts : holds (options m)
    ((DHCP_MESSAGE_TYPE, [type]) :: (DHCP_SERVER_ID, le_bytes 4 server) :: opts)
}.

(** The options of the configuration are encoded options, the pool ends below
    255.255.255.255. *)
Record wf_cfg (c : server_config_t) : Prop := {
  wc_options : ∃ os, c_options c = encode_opt <$> os ∧ Forall wf_opt os;
  wc_end : ntohl (c_end c) + 1 < 2 ^ 32
}.

Record srv_ok (s : srv) : Prop := {
  sk_table : table_ok (leases s);
  sk_cfg : wf_cfg (cfg s);
  sk_statics : Forall (λ l, is_u32 (s_yiaddr l)) (statics s)
}.

Section inv.
Context `{net : !Net, ifs : !Interfaces, svc : !Services}.
Implicit Types s : srv.

(** From [s] to [s'] the outputs [outs] have been sent; the configuration and
    the reserved addresses are the same, and the entries of hosts are where they
    were, but for the ones in [R] and the ones that have gone. *)
Record evolves (R : lease → Prop) (outs : list output) (s s' : srv) : Prop := {
  ev_statics : statics s' = statics s;
  ev_cfg : cfg s' = cfg s;
  ev_length : length (leases s') = length (leases s);
  ev_ticks : (ticks s ≤ ticks s')%nat;
  ev_calls : (calls s ≤ calls s')%nat;
  ev_sent : sent s' = sent s ++ outs;
  ev_keeps : keeps R s s'
}.

(** Nothing but the clock and the system. *)
Record quiet (s s' : srv) : Prop := {
  qu_leases : leases s' = leases s;
  qu_statics : statics s' = statics s;
  qu_cfg : cfg s' = cfg s;
  qu_ticks : (ticks s ≤ ticks s')%nat;
  qu_calls : (calls s ≤ calls s')%nat;
  qu_sent : sent s' = sent s
}.

#[export] Instance quiet_refl : Reflexive quiet.
Proof. intros s. by split. Qed.
#[export] Instance quiet_trans : Transitive quiet.
Proof. intros s1 s2 s3 [] []. split; congruence || lia. Qed.

Lemma quiet_evolves R s s' : quiet s s' → evolves R [] s s'.
Proof.
  intros []. split; try done; [by f_equal|by rewrite app_nil_r|by apply keeps_same].
Qed.

Lemma quiet_ok s s' : quiet s s' → srv_ok s → srv_ok s'.
Proof. intros [] []. split; congruence. Qed.

Lemma evolves_refl R s : evolves R [] s s.
Proof. by apply quiet_evolves. Qed.

Lemma evolves_went R o1 o2 s s1 s2 s3 l :
  evolves R o1 s s1 → evolves R o2 s2 s3 → went s1 s2 l → went s s3 l.
Proof.
  intros [] [] [(k & Hk & He)|(k & Hk & He)]; [left|right]; exists k; (split; [lia|done]).
Qed.

(** The entries that may go in the second part may have gone in the first. *)
Lemma evolves_trans R o1 o2 s s1 s2 :
  evolves R o1 s s1 → evolves (λ l, R l ∨ went s s1 l) o2 s1 s2 → evolves R (o1 ++ o2) s s2.
Proof.
  intros H1 H2. split.
  - by rewrite (ev_statics _ _ _ _ H2), (ev_statics _ _ _ _ H1).
  - by rewrite (ev_cfg _ _ _ _ H2), (ev_cfg _ _ _ _ H1).
  - by rewrite (ev_length _ _ _ _ H2), (ev_length _ _ _ _ H1).
  - destruct H1, H2. lia.
  - destruct H1, H2. lia.
  - rewrite (ev_sent _ _ _ _ H2), (ev_sent _ _ _ _ H1). by rewrite (assoc_L (++)).
  - intros i l Hi Hb. destruct (ev_keeps _ _ _ _ H1 i l Hi Hb) as [Hi1|[?|Hw]].
    + destruct (ev_keeps _ _ _ _ H2 i l Hi1 Hb) as [?|[[?|Hw]|Hw]]; [by left|by right; left|..];
        right; right.
      * eapply evolves_went; [apply evolves_refl|exact H2|done].
      * eapply evolves_went; [exact H1|apply evolves_refl|done].
    + by right; left.
    + right; right. eapply evolves_went; [apply evolves_refl|exact H2|done].
  Unshelve. all: done.
Qed.

Lemma evolves_mono R R' o s s' : (∀ l, R l → R' l) → evolves R o s s' → evolves R' o s s'.
Proof.
  intros HR []. split; try done. intros i l Hi Hb.
  destruct (ev_keeps0 i l Hi Hb) as [|[|]]; auto.
Qed.

Lemma evolves_app R o1 o2 s s1 s2 :
  evolves R o1 s s1 → evolves R o2 s1 s2 → evolves R (o1 ++ o2) s s2.
Proof.
  intros H1 H2. eapply evolves_trans; [done|]. eapply evolves_mono; [|done]. auto.
Qed.

Lemma evolves_quiet R o s s1 s2 : evolves R o s s1 → quiet s1 s2 → evolves R o s s2.
Proof.
  intros H1 H2. rewrite <- (app_nil_r o). eapply evolves_trans; [done|]. by apply quiet_evolves.
Qed.

Lemma quiet_evolves_trans R o s s1 s2 : quiet s s1 → evolves R o s1 s2 → evolves R o s s2.
Proof.
  intros H1 H2. change o with ([] ++ o). eapply evolves_trans; [by apply quiet_evolves|].
  eapply evolves_mono; [|done]. auto.
Qed.

(** ** Calls that leave the server alone *)
Lemma wp_lib {A} (m : M sys A) s : Ends m → wp any_fault (lib m) (λ _ s', quiet s s') s.
Proof.
  intros Hm. specialize (Hm (os s)). unfold wp, lib in *.
  destruct (m (os s)) as [[a o]|e|]; [by split|done|done].
Qed.

Lemma wp_time0 {F} s : wp F time0 (λ _ s', quiet s s') s.
Proof. unfold wp, time0. split; simpl; try done; lia. Qed.

Lemma wp_res {A} (r : res A) s :
  res_ends r → wp any_fault (of_res r) (λ a s', s' = s ∧ r = Ok a) s.
Proof. unfold wp, of_res. by destruct r. Qed.

Lemma wp_stays {A} (f : srv → A) s : wp any_fault (gets f) (λ _ s', quiet s s') s.
Proof. unfold wp, gets. done. Qed.
End inv.
