(* ===== verification/DhcpReply.v ===== *)
(** * The DHCP server: construction and transmission of replies

    The functions of serverpacket.c from init_packet to send_packet: the message
    that is handed to the network answers the received one, and its option field
    holds the configured options, in order, as far as there is room. *)
From S2P Require Import Prelude CLib Heap System Bytes Genconfig GenconfigSpec GenconfigOps.
From S2P Require Import GenconfigFile Cconfig SystemApi Syslog LibEnds Dhcp DhcpOptions.
From S2P Require Import DhcpPacket DhcpLeases DhcpTable DhcpFiles DhcpServer DhcpInv.

(** The options that are packed behind [base]: each one that fits. *)
Fixpoint pack (base os : list (Z * bytes)) : list (Z * bytes) :=
  match os with
  | [] => base
  | o :: os =>
      pack (if (length (encode base) + length o.2 + 3 <? 308)%nat then base ++ [o] else base) os
  end.

(** The options of the configuration that go into a reply. *)
Definition reply_options (os : list (Z * bytes)) : list (Z * bytes) :=
  filter (λ o, o.1 ≠ DHCP_LEASE_TIME) os.

Lemma pack_prefix base os : ∃ os', pack base os = base ++ os'.
Proof.
  revert base. induction os as [|o os IH]; intros base; simpl.
  - exists []. by rewrite app_nil_r.
  - destruct (IH (if (length (encode base) + length o.2 + 3 <? 308)%nat
                  then base ++ [o] else base)) as [os' ->].
    destruct (_ <? _)%nat; [|eauto]. exists (o :: os'). by rewrite <- (assoc_L (++)).
Qed.

Section reply.
Context `{net : !Net, ifs : !Interfaces, svc : !Services}.
Implicit Types (s : srv) (m p : dhcpMessage).

(** ** The skeleton of a reply *)
Lemma empty_options_hold : holds (<[0%nat := DHCP_END]> (replicate 308 0)) [].
Proof.
  split.
  - by exists (replicate 307 0).
  - done.
  - apply Forall_insert; [by apply Forall_replicate|done].
  - constructor.
Qed.

Definition reply_type (type : Z) : Prop := type = DHCPOFFER ∨ type = DHCPACK ∨ type = DHCPNAK.

Lemma add_simple_ok a os code z :
  holds a os → 0 < code < 255 → code ≠ DHCP_OPTION_OVER → 0 < simple_length code ≤ 4 →
  (length (encode os) ≤ 290)%nat →
  ∃ r a', add_simple_option a code z = Ok (r, a') ∧
    holds a' (os ++ [(code, le_bytes (Z.to_nat (simple_length code)) z)]).
Proof.
  intros Hh Hc Ho Hl Hlen. pose proof (add_simple_option_holds a os code z Hh Hc Ho Hl) as H.
  simpl in H. rewrite decide_True in H by (rewrite le_bytes_length; lia).
  destruct H as (a' & E & H). eauto.
Qed.

Lemma init_header_ok type :
  reply_type type →
  ∃ m, init_header type = Ok m ∧ holds (options m) [(DHCP_MESSAGE_TYPE, [type])] ∧
    m = Msg BOOTREPLY ETH_10MB ETH_10MB_LEN 0 0 0 0 0 0 0 0 (replicate 16 0) (replicate 64 0)
            (replicate 128 0) (htonl DHCP_MAGIC) (options m).
Proof.
  intros Ht. unfold init_header.
  destruct (add_simple_ok _ [] DHCP_MESSAGE_TYPE type empty_options_hold)
    as (r & a' & E & Hh); [done..|simpl; lia|].
  rewrite E. eexists. split; [done|]. split.
  - by destruct Ht as [->|[->| ->]].
  - by destruct Ht as [->|[->| ->]].
Qed.

Lemma init_packet_ok {F} p type s :
  wf_message p → reply_type type →
  wp F (init_packet p type) (λ m s', s' = s ∧
    replies p type (c_server (cfg s)) 0 [] m) s.
Proof.
  intros Hp Ht. unfold init_packet.
  destruct (init_header_ok type Ht) as (m & E & Hh & Em).
  apply wp_of_res. rewrite E. apply wp_gets.
  destruct (add_simple_ok _ _ DHCP_SERVER_ID (c_server (cfg s)) Hh)
    as (r & a' & E' & Hh'); [done..|simpl; lia|].
  apply wp_of_res. rewrite E'. apply wp_ret. split; [done|].
  rewrite Em. destruct Hp. split; try done. split; cbn [chaddr sname file options];
    try done; try apply Hh'; by apply Forall_replicate.
Qed.

(** ** Changes of the fields *)
Lemma replies_yiaddr p type server yi yi' opts m :
  replies p type server yi opts m → replies p type server yi' opts (set_yiaddr yi' m).
Proof. intros [Hwf]. destruct m. split; try done. by destruct Hwf; split. Qed.

Lemma replies_options p type server yi opts opts' a m :
  replies p type server yi opts m →
  holds a ((DHCP_MESSAGE_TYPE, [type]) :: (DHCP_SERVER_ID, le_bytes 4 server) :: opts') →
  replies p type server yi opts' (set_options a m).
Proof.
  intros [Hwf] Ha. destruct m. split; try done.
  destruct Hwf; split; try done; apply Ha.
Qed.

Lemma strncpy_field_ok dst t :
  is_bytes dst → (0 < length dst)%nat →
  length (strncpy_field dst t) = length dst ∧ is_bytes (strncpy_field dst t).
Proof.
  intros Hd Hl. unfold strncpy_field. split.
  - rewrite !length_app, length_replicate, length_drop, length_take. lia.
  - rewrite !is_bytes_app. split_and!; [|by apply Forall_replicate|by apply Forall_drop].
    apply Forall_take, get_bytes_is_bytes.
Qed.

Lemma add_bootp_options_ok {F} p type server yi opts m s :
  replies p type server yi opts m →
  wp F (add_bootp_options m) (λ m' s', s' = s ∧ replies p type server yi opts m') s.
Proof.
  intros [Hwf]. unfold add_bootp_options. apply wp_gets, wp_ret. split; [done|].
  split; try done. destruct Hwf.
  assert (∀ f n o, length f = n → (0 < n)%nat → is_bytes f →
    length (match o with Some t => strncpy_field f t | None => f end) = n ∧
    is_bytes (match o with Some t => strncpy_field f t | None => f end)) as Hf.
  { intros f n [t|] <- Hn Hb; [|done]. by apply strncpy_field_ok. }
  destruct (Hf _ _ (c_sname (cfg s)) wm_sname ltac:(lia) wm_sname_b).
  destruct (Hf _ _ (c_boot_file (cfg s)) wm_file ltac:(lia) wm_file_b).
  by split.
Qed.

(** ** Transmission *)
Lemma arptable_runs fuel ip max first content :
  (length content < fuel)%nat → ∃ r, arptable_loop fuel ip max first content = Ok r.
Proof.
  revert first content. induction fuel as [|fuel IH]; intros first content Hf; [lia|].
  cbn [arptable_loop]. destruct (fgets 128 content) as [[buf rest]|] eqn:E; [|by eexists].
  apply fgets_shorter in E; [|lia].
  assert (∀ f, ∃ r, arptable_loop fuel ip max f rest = Ok r) as Hr by (intros; apply IH; lia).
  destruct first; [done|]. destruct (strtok blanks (cstr buf)) as [[ptr|] t]; [|done].
  destruct (streq ip ptr); [|done]. destruct (strtok blanks t) as [? t1].
  destruct (strtok blanks t1) as [? t2]. by destruct (strtok blanks t2) as [[]]; eexists.
Qed.

#[export] Instance ends_get_hwaddr ip max : Ends (get_hwaddr_from_arptable ip max).
Proof.
  unfold get_hwaddr_from_arptable. apply ends_bind; [apply _|]. intros [content|]; [|apply _].
  apply ends_bind; [|apply _].
  apply ends_of_res. destruct (arptable_runs (S (length content)) ip max true content) as [r E];
    [lia|]. unfold res_ends. by rewrite E.
Qed.

#[export] Instance ends_checked_dest m d : Ends (checked_dest m d).
Proof. unfold checked_dest. apply _. Qed.

Lemma transmit_ok {F} R o s :
  wp F (transmit o) (λ r s', r = send_result (calls s) ∧ leases s' = leases s ∧
    calls s' = S (calls s) ∧ evolves R [o] s s') s.
Proof.
  unfold wp, transmit. split; [done|]. split; [done|]. split; [done|].
  split; simpl; try done; try lia. by apply keeps_same.
Qed.

(** The message goes out once, to the relay it came through or to the client. *)
Definition carries (c : server_config_t) (m : dhcpMessage) (o : output) : Prop :=
  match o with
  | ToRelay m' => m' = m ∧ giaddr m ≠ 0
  | ToClient dest arp m' datagram => m' = m ∧ giaddr m = 0 ∧
      raw_packet m (c_server c) SERVER_PORT dest CLIENT_PORT = Ok datagram
  end.

Lemma send_packet_ok R p type server yi opts m fb s :
  replies p type server yi opts m →
  wp any_fault (send_packet m fb) (λ r s', leases s' = leases s ∧
    ∃ o, evolves R [o] s s' ∧ carries (cfg s) m o ∧
      ∃ k, (calls s ≤ k < calls s')%nat ∧ r = send_result k) s.
Proof.
  intros Hm. unfold send_packet. destruct (Z.eqb_spec (giaddr m) 0) as [Hg|Hg]; cbn [negb].
  - unfold send_packet_to_client. eapply wp_seq; [apply wp_lib, _|].
    intros dest s1 Hq. simpl. apply wp_gets. rewrite (qu_cfg _ _ Hq).
    destruct (raw_packet_ok m (c_server (cfg s)) SERVER_PORT dest.1 CLIENT_PORT)
      as (ip & udp & E & _); [apply Hm|rewrite (re_head _ _ _ _ _ _ Hm); byte_list|].
    apply wp_of_res. rewrite E. eapply wp_mono; [apply (transmit_ok R)|].
    intros r s' (-> & Hl & Hcl & Hev). split; [by rewrite Hl; apply Hq|]. eexists.
    split; [by apply (quiet_evolves_trans R _ s s1 s')|]. split; [done|].
    eexists. split; [|done]. rewrite Hcl. pose proof (qu_calls _ _ Hq). lia.
  - eapply wp_mono; [apply (transmit_ok R)|]. intros r s' (-> & Hl & Hcl & Hev).
    split; [done|]. eexists. split; [done|]. split; [done|]. eexists. split; [|done]. lia.
Qed.

(** ** Options *)
Lemma add_option_ok {F} p type server yi opts m c d s :
  let base := (DHCP_MESSAGE_TYPE, [type]) :: (DHCP_SERVER_ID, le_bytes 4 server) :: opts in
  replies p type server yi opts m → wf_opt (c, d) →
  wp F (with_option m (add_option_string (options m) (encode_opt (c, d)))) (λ m' s',
    s' = s ∧ ∃ opts', pack base [(c, d)] =
      (DHCP_MESSAGE_TYPE, [type]) :: (DHCP_SERVER_ID, le_bytes 4 server) :: opts' ∧
      replies p type server yi opts' m') s.
Proof.
  intros base Hm Ho. unfold with_option.
  pose proof (add_option_string_holds _ _ c d [] (re_opts _ _ _ _ _ _ Hm) Ho) as Hadd.
  rewrite app_nil_r in Hadd. fold base in Hadd. cbn [pack snd].
  destruct (decide (length (encode base) + length d + 3 < 308)%nat) as [Hfit|Hfit].
  - destruct Hadd as (a & E & Ha). rewrite (proj2 (Nat.ltb_lt _ _)) by done.
    apply wp_of_res. rewrite E. apply wp_ret. split; [done|]. exists (opts ++ [(c, d)]).
    split; [done|]. by eapply replies_options.
  - rewrite (proj2 (Nat.ltb_ge _ _)) by lia. apply wp_of_res. rewrite Hadd. apply wp_ret.
    split; [done|]. exists opts. split; [done|]. eapply replies_options; [done|]. apply Hm.
Qed.

(** [twin] may change the data of the options, as [T] says. *)
Lemma add_options_ok {F} (T : Z * bytes → Z * bytes → Prop) c0 twin p type server yi os opts m s :
  (∀ s o, cfg s = c0 → wf_opt o → wp F (twin (encode_opt o)) (λ r s', quiet s s' ∧
     ∃ o', r = encode_opt o' ∧ wf_opt o' ∧ T o o') s) →
  cfg s = c0 → Forall wf_opt os → replies p type server yi opts m →
  wp F (add_options twin (encode_opt <$> os) m) (λ m' s', quiet s s' ∧
    ∃ os' opts', Forall2 T (reply_options os) os' ∧
      pack ((DHCP_MESSAGE_TYPE, [type]) :: (DHCP_SERVER_ID, le_bytes 4 server) :: opts) os' =
        (DHCP_MESSAGE_TYPE, [type]) :: (DHCP_SERVER_ID, le_bytes 4 server) :: opts' ∧
      replies p type server yi opts' m') s.
Proof.
  intros Htwin Hc Hos. revert opts m s Hc.
  induction Hos as [|[c d] os Ho Hos IH]; intros opts m s Hc Hm; cbn [add_options fmap list_fmap].
  { apply wp_ret. split; [done|]. exists [], opts. split; [constructor|done]. }
  change (rd (encode_opt (c, d)) OPT_CODE) with (Ok c). apply wp_of_res.
  unfold reply_options. destruct (Z.eqb_spec c DHCP_LEASE_TIME) as [->|Hne].
  - rewrite filter_cons_False by (intros []; done). apply wp_bind, wp_ret. by apply IH.
  - rewrite filter_cons_True by done. apply wp_bind.
    eapply wp_seq; [by apply Htwin|]. intros r s1 (Hq & [c' d'] & -> & Ho' & HT).
    eapply wp_mono; [by apply add_option_ok|]. intros m1 ? (-> & opts1 & Hpack & Hm1).
    eapply wp_mono; [apply IH; [by rewrite (qu_cfg _ _ Hq)|done]|].
    intros m2 s2 (Hq2 & os' & opts' & HF & Hpack' & Hm2). split; [by transitivity s1|].
    exists ((c', d') :: os'), opts'. split; [by constructor|]. split; [|done].
    simpl in Hpack. simpl. rewrite <- Hpack'. f_equal. exact Hpack.
Qed.
End reply.
