(* ===== verification/DhcpChoice.v ===== *)
(** * The DHCP server: the choice of an address

    find_address returns an address of the pool that may be given out, or 0 when
    there is none; offer_address returns the address reserved for the client, the
    address it has, the one it asks for, or a free one. *)
From S2P Require Import Prelude CLib Heap System Bytes Genconfig GenconfigSpec GenconfigOps.
From S2P Require Import GenconfigFile Cconfig SystemApi Syslog LibEnds Dhcp DhcpOptions.
From S2P Require Import DhcpPacket DhcpLeases DhcpTable DhcpFiles DhcpServer DhcpInv DhcpReply.

Definition reserved (s : srv) (a : Z) : Prop := Exists (λ l, s_yiaddr l = a) (statics s).

Definition in_pool (c : server_config_t) (a : Z) : Prop :=
  ntohl (c_start c) ≤ ntohl a ≤ ntohl (c_end c).

Section choice.
Context `{net : !Net, ifs : !Interfaces, svc : !Services}.
Implicit Types (s : srv) (p : dhcpMessage).

Lemma get_option_ends p code : wf_message p → res_ends (get_option p code).
Proof.
  intros Hp E. pose proof (get_option_bounds p code Hp) as H. by rewrite E in H.
Qed.

Lemma get_option_data p code data l :
  wf_message p → get_option p code = Ok (Some (data, l)) →
  0 ≤ l ≤ Z.of_nat (length data) ∧ is_bytes data.
Proof. intros Hp E. pose proof (get_option_bounds p code Hp) as H. by rewrite E in H. Qed.

Lemma get4_cases data :
  is_bytes data → (∃ a, get4 data = Ok a ∧ is_u32 a) ∨ get4 data = Fault Overflow.
Proof.
  intros Hd. unfold get4. destruct (Nat.ltb_spec (length data) 4) as [|Hl]; [by right|].
  left. eexists. split; [done|]. unfold is_u32.
  pose proof (of_le_range (take 4 data) ltac:(by apply Forall_take)) as H.
  rewrite length_take_le in H by lia. apply H.
Qed.

(** ** Searches in the tables *)
Lemma find_lease_cases (f : lease → bool) s :
  (find_lease f s = Ok (None, s) ∧ Forall (λ l, f l = false) (leases s)) ∨
  (∃ i l, find_lease f s = Ok (Some (i, l), s) ∧ leases s !! i = Some l ∧ f l = true).
Proof.
  unfold find_lease. rewrite bind_gets.
  destruct (list_find (λ l, f l = true) (leases s)) as [[i l]|] eqn:E.
  - apply list_find_Some in E as (Hi & Hl & _). right. by exists i, l.
  - apply list_find_None_1 in E. left. split; [done|]. eapply Forall_impl; [done|].
    intros l Hl. simpl in Hl. by destruct (f l).
Qed.

Lemma find_by_yiaddr_cases a s :
  (find_lease_by_yiaddr a s = Ok (None, s) ∧ Forall (λ l, l_yiaddr l ≠ a) (leases s)) ∨
  (∃ i l, find_lease_by_yiaddr a s = Ok (Some (i, l), s) ∧ leases s !! i = Some l ∧
     l_yiaddr l = a).
Proof.
  destruct (find_lease_cases (λ l, l_yiaddr l =? a) s) as [[E H]|(i & l & E & Hi & Hl)].
  - left. split; [done|]. eapply Forall_impl; [done|]. intros l. apply Z.eqb_neq.
  - right. exists i, l. split_and!; [done..|]. by apply Z.eqb_eq.
Qed.

Lemma find_by_chaddr_cases a s :
  (find_lease_by_chaddr a s = Ok (None, s) ∧ Forall (λ l, l_chaddr l ≠ a) (leases s)) ∨
  (∃ i l, find_lease_by_chaddr a s = Ok (Some (i, l), s) ∧ leases s !! i = Some l ∧
     l_chaddr l = a).
Proof.
  destruct (find_lease_cases (λ l, bool_decide (l_chaddr l = a)) s) as [[E H]|(i & l & E & Hi & Hl)].
  - left. split; [done|]. eapply Forall_impl; [done|]. intros l. apply bool_decide_eq_false.
  - right. exists i, l. split_and!; [done..|]. by apply bool_decide_eq_true in Hl.
Qed.

Lemma static_by_yiaddr_cases a s :
  (find_static_lease_by_yiaddr a s = Ok (None, s) ∧ ¬ reserved s a) ∨
  (∃ l, find_static_lease_by_yiaddr a s = Ok (Some l, s) ∧ reserved s a).
Proof.
  unfold find_static_lease_by_yiaddr, reserved. rewrite bind_gets.
  destruct (list_find (λ l, s_yiaddr l = a) (statics s)) as [[i l]|] eqn:E.
  - apply list_find_Some in E as (Hi & Hl & _). right. exists l. split; [done|].
    apply Exists_exists. exists l. split; [by eapply list_elem_of_lookup_2|done].
  - apply list_find_None_1 in E. left. split; [done|]. by apply Forall_not_Exists.
Qed.

Lemma static_by_chaddr_ok a s :
  srv_ok s →
  ∃ yi, find_static_lease_by_chaddr a s = Ok (yi, s) ∧ is_u32 yi ∧ (yi ≠ 0 → reserved s yi).
Proof.
  intros Hok. unfold find_static_lease_by_chaddr. rewrite bind_gets. eexists. split; [done|].
  destruct (list_find (λ l, s_chaddr l = a) (statics s)) as [[i l]|] eqn:E.
  - apply list_find_Some in E as (Hi & _). pose proof (sk_statics _ Hok) as Hst.
    rewrite Forall_lookup in Hst. split; [by eapply Hst|]. intros _.
    apply Exists_exists. exists l. split; [by eapply list_elem_of_lookup_2|done].
  - split; [split; lia|done].
Qed.

(** lease_expired reads the clock once. *)
Lemma lease_expired_ok l s :
  wp any_fault (lease_expired l) (λ b s', quiet s s' ∧ ticks s' = S (ticks s) ∧
    (b = true → went s s' l)) s.
Proof.
  unfold lease_expired. apply wp_bind. unfold time0, wp at 1. apply wp_ret. simpl.
  split; [split; simpl; try done; lia|]. split; [done|]. intros Hlt%Z.ltb_lt.
  left. exists (ticks s). split; [simpl; lia|done].
Qed.

(** ** find_address *)
Lemma probing_evolves R s s' : probing s s' → evolves R [] s s'.
Proof.
  intros [[] Hk]. split; try done; [by rewrite app_nil_r|]. intros i l Hi Hb.
  destruct (Hk i l Hi Hb) as [|[[]|]]; auto.
Qed.

Lemma find_address_ok R ce s :
  srv_ok s →
  wp any_fault (find_address ce) (λ a s', srv_ok s' ∧ evolves R [] s s' ∧ is_u32 a ∧
    (a = 0 ∨ ∃ local, assignable (ticks s) ce local
       (ntohl (c_start (cfg s))) (ntohl (c_end (cfg s))) s' a)) s.
Proof.
  intros Hok. unfold find_address. eapply wp_seq; [apply wp_lib, _|].
  intros [[r ip] mask] s1 Hq. cbv beta iota. pose proof (quiet_ok _ _ Hq Hok) as Hok1.
  destruct (sk_cfg _ Hok1) as [_ He]. apply wp_gets. rewrite <- (qu_cfg _ _ Hq).
  pose proof (ntohl_range (c_start (cfg s1))) as Hr1.
  pose proof (ntohl_range (c_end (cfg s1))) as Hr2. unfold is_u32 in *.
  pose proof (find_address_loop_ok (ticks s)
    (S (Z.to_nat (ntohl (c_end (cfg s1)) + 1 - ntohl (c_start (cfg s1))))) ce (inet_addr ip)
    (ntohl (c_start (cfg s1))) (ntohl (c_start (cfg s1))) (ntohl (c_end (cfg s1))) s1
    (sk_table _ Hok1) (qu_ticks _ _ Hq) ltac:(lia) ltac:(lia) ltac:(lia)) as Hloop.
  unfold wp in *. destruct (find_address_loop _ _ _ _ _ s1) as [[a s']|e|]; [|done..].
  destruct Hloop as (Htab & Hp & Ha). split; [|split; [|split]].
  - destruct Hok1, Hp as [[] _]. split; congruence.
  - eapply quiet_evolves_trans; [done|]. by apply probing_evolves.
  - destruct Ha as [->|Has]; [lia|apply Has].
  - destruct Ha as [|]; eauto.
Qed.

(** ** The address of an OFFER *)

(** The entries that have the address [yi] are the sender's or have gone, or the
    address is reserved. *)
Definition yields (p : dhcpMessage) (s s' : srv) (yi : Z) : Prop :=
  ∀ i l, leases s' !! i = Some l → l_yiaddr l = yi →
    l_chaddr l = chaddr p ∨ reserved s yi ∨ went s s' l.

(** The outcome of a step of the choice, with an address from [src]. *)
Definition choice (p : dhcpMessage) (src : Z → Prop) (s : srv) (yi : Z) (s' : srv) : Prop :=
  srv_ok s' ∧ evolves (λ _, False) [] s s' ∧ is_u32 yi ∧ (yi ≠ 0 → yields p s s' yi ∧ src yi).

Lemma evolves_reserved R o s s' a : evolves R o s s' → reserved s a ↔ reserved s' a.
Proof. intros []. unfold reserved. by rewrite ev_statics. Qed.

Lemma choice_later p src s s1 yi s' :
  evolves (λ _, False) [] s s1 → choice p src s1 yi s' → choice p src s yi s'.
Proof.
  intros H1 (Hok & H2 & Hu & Hof). split_and!; [done| |done|].
  - by apply (evolves_app _ [] [] s s1 s').
  - intros Hne. destruct (Hof Hne) as [He Hs]. split; [|done].
    intros i l Hi Hy. destruct (He i l Hi Hy) as [|[|Hw]]; [by left|..].
    + right; left. by rewrite (evolves_reserved _ _ _ _ _ H1).
    + right; right.
      by apply (evolves_went (λ _, False) [] [] s s1 s' s' l H1 (evolves_refl _ s')).
Qed.

Lemma choice_mono p (src src' : Z → Prop) s yi s' :
  (∀ a, src a → src' a) → choice p src s yi s' → choice p src' s yi s'.
Proof. intros H (Hok & Hev & Hu & Hy). split_and!; [done..|]. naive_solver. Qed.

Lemma choice_done p (src : Z → Prop) s yi s' :
  srv_ok s → quiet s s' → is_u32 yi → (yi ≠ 0 → yields p s s' yi) → src yi →
  choice p src s yi s'.
Proof.
  intros Hok Hq Hu Hy Hs. split_and!; [by eapply quiet_ok|by apply quiet_evolves|done|auto].
Qed.

Lemma find_address_choice p ce s :
  srv_ok s → wp any_fault (find_address ce) (choice p (in_pool (cfg s)) s) s.
Proof.
  intros Hok. eapply wp_mono; [by apply (find_address_ok (λ _, False))|].
  intros a s' (Hok' & Hev & Hu & Ha). split_and!; [done..|]. intros Hne.
  destruct Ha as [|[local [Hr _ _ _ _ Hl]]]; [done|]. split; [|done].
  intros i l Hi Hy. destruct (Hl i l Hi Hy) as (_ & k & Hk & He).
  right; right. left. by exists k.
Qed.

(** The two searches, with either test between them. *)
Lemma find_twice_choice p (again : Z → bool) s :
  srv_ok s →
  wp any_fault (yi ← find_address false; if again yi then find_address true else mret yi)
    (choice p (in_pool (cfg s)) s) s.
Proof.
  intros Hok. eapply wp_seq; [by apply find_address_choice|]. intros yi s1 Hc.
  destruct (again yi); [|by apply wp_ret].
  destruct Hc as (Hok1 & Hev & _). eapply wp_mono; [by apply find_address_choice|].
  intros a s' Hc. rewrite (ev_cfg _ _ _ _ Hev) in Hc. by eapply choice_later.
Qed.

Lemma requested_address_ok p s :
  srv_ok s → wf_message p →
  wp any_fault (requested_address p) (λ r s', quiet s s' ∧
    match r with
    | Some a => is_u32 a ∧ in_pool (cfg s) a ∧ (a ≠ 0 → yields p s s' a)
    | None => True
    end) s.
Proof.
  intros Hok Hp. unfold requested_address.
  apply wp_of_res. pose proof (get_option_ends p DHCP_REQUESTED_IP Hp) as Hne.
  destruct (get_option p DHCP_REQUESTED_IP) as [[[data len]|]|e|] eqn:E; [|by apply wp_ret|done..].
  destruct (get_option_data p _ _ _ Hp E) as [_ Hb].
  apply wp_of_res. destruct (get4_cases data Hb) as [(a & -> & Ha)| ->]; [|done].
  apply wp_gets. destruct ((_ <=? _) && _) eqn:Er; [|by apply wp_ret].
  apply andb_true_iff in Er as [H1%Z.leb_le H2%Z.leb_le].
  apply wp_bind. unfold wp at 1.
  destruct (static_by_yiaddr_cases a s) as [[-> _]|(l & -> & Hres)].
  2:{ apply wp_ret. split; [done|]. split_and!; [done..|]. intros _ i l' _ _. by right; left. }
  apply wp_bind. unfold wp at 1.
  destruct (find_by_yiaddr_cases a s) as [[-> Hall]|(i & l & -> & Hi & Hy)].
  - apply wp_ret. split; [done|]. split_and!; [done..|]. intros _ i l Hi Hy.
    rewrite Forall_lookup in Hall. by destruct (Hall i l Hi).
  - eapply wp_seq; [apply lease_expired_ok|]. intros b s1 (Hq & _ & Hw). apply wp_ret.
    split; [done|]. destruct b; [|done]. split_and!; [done..|]. intros Hne0 j l' Hj Hy'.
    rewrite (qu_leases _ _ Hq) in Hj.
    assert (j = i) as -> by (eapply (to_ips _ (sk_table _ Hok)); [done..|congruence|congruence]).
    assert (l' = l) as -> by congruence. right; right. by apply Hw.
Qed.

(** Where an offered address comes from. *)
Definition offer_source (p : dhcpMessage) (s : srv) (yi : Z) : Prop :=
  reserved s yi ∨ in_pool (cfg s) yi ∨
  ∃ i l, leases s !! i = Some l ∧ l_chaddr l = chaddr p ∧ l_yiaddr l = yi.

Lemma requested_choice p s :
  srv_ok s → wf_message p →
  wp any_fault
    (req ← requested_address p;
     match req with
     | Some req_align =>
         taken ← check_ip req_align;
         if taken : bool then
           yi ← find_address false;
           if negb (yi =? 0) then find_address true else mret yi
         else mret req_align
     | None =>
         static ← find_static_lease_by_chaddr (chaddr p);
         if negb (static =? 0) then mret static else find_address_or_expired
     end) (choice p (offer_source p s) s) s.
Proof.
  intros Hok Hp. eapply wp_seq; [by apply requested_address_ok|]. intros req s1 [Hq Hreq].
  pose proof (quiet_ok _ _ Hq Hok) as Hok1.
  pose proof (quiet_evolves (λ _, False) _ _ Hq) as Hev.
  assert (∀ a, in_pool (cfg s1) a → offer_source p s a) as Hpool.
  { intros a Ha. right; left. by rewrite <- (qu_cfg _ _ Hq). }
  destruct req as [a|].
  - destruct Hreq as (Ha & Hin & Hyields).
    pose proof (check_ip_ok a s1 (sk_table _ Hok1) Ha) as Hw.
    apply wp_inv in Hw as [(taken & s2 & E & Htab & Hpr & _ & Hsame)|(? & _ & [])].
    apply wp_bind. unfold wp at 1. rewrite E.
    assert (srv_ok s2) as Hok2 by (destruct Hok1, Hpr as [[] _]; split; congruence).
    pose proof (probing_evolves (λ _, False) _ _ Hpr) as Hev2.
    pose proof (evolves_app _ [] [] s s1 s2 Hev Hev2) as Hev3.
    destruct taken.
    + eapply wp_mono; [by apply find_twice_choice|]. intros yi s' Hc.
      eapply choice_later; [done|]. eapply choice_mono; [|done].
      intros x Hx. apply Hpool. by rewrite <- (ev_cfg _ _ _ _ Hev2).
    + destruct (Hsame eq_refl) as [Hl Ht]. apply wp_ret. split_and!; [done..|].
      intros Hne. split; [|by right; left]. intros i l Hi Hy.
      rewrite Hl in Hi. destruct (Hyields Hne i l Hi Hy) as [|[|Hw]]; [by left|by right; left|].
      right; right. by apply (evolves_went _ [] [] s s s1 s2 l (evolves_refl (λ _, False) s) Hev2).
  - apply wp_bind. unfold wp at 1.
    destruct (static_by_chaddr_ok (chaddr p) s1 Hok1) as (yi & -> & Hu & Hres).
    destruct (Z.eqb_spec yi 0) as [->|Hne]; cbn [negb].
    + unfold find_address_or_expired. eapply wp_mono; [by apply find_twice_choice|].
      intros a s' Hc. eapply choice_later; [done|]. by eapply choice_mono.
    + apply wp_ret. specialize (Hres Hne). rewrite <- (evolves_reserved _ _ _ _ _ Hev) in Hres.
      apply choice_done; [done..| |by left]. intros _ i l _ _. by right; left.
Qed.

Lemma offer_address_ok p s :
  srv_ok s → wf_message p →
  wp any_fault (offer_address p) (λ r s', choice p (offer_source p s) s r.1 s') s.
Proof.
  intros Hok Hp. unfold offer_address. apply wp_gets. apply wp_bind. unfold wp at 1.
  destruct (static_by_chaddr_ok (chaddr p) s Hok) as (yi & -> & Hu & Hres).
  destruct (Z.eqb_spec yi 0) as [->|Hne]; cbn [negb].
  2:{ apply wp_ret. apply choice_done; [done..| |left; auto]. intros _ i l _ _. right; left; auto. }
  apply wp_bind. unfold wp at 1.
  destruct (find_by_chaddr_cases (chaddr p) s) as [[-> Hall]|(i & l & -> & Hi & Hc)].
  { apply wp_assoc. eapply wp_seq; [by apply requested_choice|]. intros yi s' Hch.
    by apply wp_ret. }
  eapply wp_seq; [apply lease_expired_ok|]. intros b s1 (Hq1 & _).
  eapply wp_seq with (P := λ _ s2, quiet s s2).
  { destruct b; [by apply wp_ret|]. eapply wp_seq; [apply wp_time0|]. intros now s2 Hq2.
    apply wp_ret. by transitivity s1. }
  intros t s2 Hq. pose proof (quiet_ok _ _ Hq Hok) as Hok2. apply wp_bind. unfold wp at 1.
  pose proof (Forall_lookup_1 _ _ _ _ (to_wf _ (sk_table _ Hok)) Hi) as Hwf.
  assert (offer_source p s (l_yiaddr l)) as Hsrc by (right; right; eauto).
  destruct (static_by_yiaddr_cases (l_yiaddr l) s2) as [[-> _]|(st & -> & _)].
  - apply wp_bind, wp_ret, wp_ret. apply choice_done; [done..|apply Hwf| |done].
    intros Hne j l' Hj Hy. simpl in Hne, Hy. rewrite (qu_leases _ _ Hq) in Hj. left.
    assert (j = i) as -> by (eapply (to_ips _ (sk_table _ Hok)); [done..|congruence|congruence]).
    congruence.
  - eapply wp_seq; [by apply (find_twice_choice p)|]. intros yi s3 Hch. apply wp_ret.
    eapply choice_later; [by apply quiet_evolves|]. eapply choice_mono; [|done].
    intros a Ha. right; left. by rewrite <- (qu_cfg _ _ Hq).
Qed.
End choice.
