(* ===== verification/DhcpEvents.v ===== *)
(** * The DHCP server: OFFER, ACK and NAK

    What the handlers of serverpacket.c send and what they do to the lease
    table. *)
From S2P Require Import Prelude CLib Heap System Bytes Genconfig GenconfigSpec GenconfigOps.
From S2P Require Import GenconfigFile Cconfig SystemApi Syslog LibEnds Dhcp DhcpOptions.
From S2P Require Import DhcpPacket DhcpLeases DhcpTable DhcpFiles DhcpServer DhcpInv DhcpReply.
From S2P Require Import DhcpChoice.

(** An option of the configuration and the one of a reply: hosts of the pool's
    network get it unchanged, a twin IP host may get other data. *)
Definition same_or_twin (c : server_config_t) (yi : Z) (o o' : Z * bytes) : Prop :=
  o'.1 = o.1 ∧ (other_net c yi = false → o' = o).

(** The options behind the type and the server: the lease time, then the ones of
    the configuration. *)
Definition reply_opts (c : server_config_t) (type yi : Z) (time : option Z)
    (opts : list (Z * bytes)) : Prop :=
  ∃ os os', c_options c = encode_opt <$> os ∧
    Forall2 (same_or_twin c yi) (reply_options os) os' ∧
    pack ([(DHCP_MESSAGE_TYPE, [type]); (DHCP_SERVER_ID, le_bytes 4 (c_server c))]
          ++ match time with Some t => [(DHCP_LEASE_TIME, le_bytes 4 (htonl t))] | None => [] end)
      os' =
      (DHCP_MESSAGE_TYPE, [type]) :: (DHCP_SERVER_ID, le_bytes 4 (c_server c)) :: opts.

(** [o] carries the answer of the type [type] to [p]. *)
Definition answers (c : server_config_t) (p : dhcpMessage) (type yi : Z) (time : option Z)
    (o : output) : Prop :=
  ∃ m opts, carries c m o ∧ replies p type (c_server c) yi opts m ∧
    reply_opts c type yi time opts.

(** A lease time that the server grants to hosts of its pool. *)
Definition granted (c : server_config_t) (t : Z) : Prop :=
  t = c_lease c ∨ c_min_lease c ≤ t ≤ c_lease c.

Section events.
Context `{net : !Net, ifs : !Interfaces, svc : !Services}.
Implicit Types (s : srv) (p : dhcpMessage).

(** The table binds [yi] to the hardware address for [dur] seconds from a time
    after the [since]-th reading of the clock. *)
Definition bound (since : nat) (s : srv) (chaddr : bytes) (yi dur : Z) (host : bytes) : Prop :=
  ∃ i l k, leases s !! i = Some l ∧ l_chaddr l = chaddr ∧ l_yiaddr l = yi ∧
    (since ≤ k < ticks s)%nat ∧ l_expires l = u32 (u32 (clock k) + dur) ∧
    (host ++ [0]) `prefix_of` l_hostname l.

(** Every entry of the table was in use at a time after the [since]-th reading of
    the clock. *)
Definition full (since : nat) (s : srv) : Prop :=
  ∃ k, (since ≤ k < ticks s)%nat ∧ Forall (λ l, u32 (clock k) ≤ l_expires l) (leases s).

(** The entries that an answer to [p] may replace. *)
Definition owner (p : dhcpMessage) (s : srv) (l : lease) : Prop :=
  l_chaddr l = chaddr p ∨ reserved s (l_yiaddr l).

Lemma add_lease_server R p yi dur host s :
  srv_ok s → wf_message p → is_u32 yi → host_fits host →
  (∀ i l, leases s !! i = Some l → clears (chaddr p) yi l = true → R l) →
  wp any_fault (add_lease (chaddr p) yi dur host) (λ r s', srv_ok s' ∧ evolves R [] s s' ∧
    match r with
    | Some _ => bound (ticks s) s' (chaddr p) yi dur (default [] host)
    | None => full (ticks s) s'
    end) s.
Proof.
  intros Hok [] Hu Hh HR.
  pose proof (add_lease_ok (chaddr p) yi dur host s (sk_table _ Hok) wm_chaddr wm_chaddr_b Hu Hh)
    as Hw.
  apply wp_inv in Hw as [(r & s' & E & Htab & Hs & Hcalls & Hr)|(? & _ & [])].
  pose proof (add_lease_keeps R _ _ _ _ _ _ _ (sk_table _ Hok) wm_chaddr wm_chaddr_b Hu Hh HR E)
    as Hk.
  apply (wp_Ok _ _ _ _ _ E). split_and!.
  - destruct Hok, Hs. split; congruence.
  - destruct Hs. split; try done. by rewrite app_nil_r.
  - destruct r as [i|].
    + destruct Hr as (l & old & k & Hi & Hc & Hy & Hk' & He & Hpre & _).
      exists i, l, k. split_and!; try done; lia.
    + destruct Hr as (_ & Hlt & Hall). by exists (ticks s).
Qed.

Lemma clears_true chaddr yi l :
  clears chaddr yi l = true →
  l_chaddr l = chaddr ∨ (yi ≠ 0 ∧ l_yiaddr l = yi).
Proof.
  intros [[_ H]%andb_true_iff|[H1 H2]%andb_true_iff]%orb_true_iff.
  - left. by apply bool_decide_eq_true in H.
  - right. apply negb_true_iff, Z.eqb_neq in H1. by apply Z.eqb_eq in H2.
Qed.

(** ** Options *)
Lemma with_address_ok o ip s :
  wf_opt o →
  wp any_fault (of_res (with_address (encode_opt o) ip)) (λ r s', quiet s s' ∧
    ∃ o', r = encode_opt o' ∧ wf_opt o' ∧ o'.1 = o.1) s.
Proof.
  destruct o as [c d]. intros (Hc & Hov & Hd & Hl). unfold with_address.
  change (rd (encode_opt (c, d)) OPT_LEN) with (Ok (Z.of_nat (length d))).
  unfold mbind, res_bind. destruct (_ || _) eqn:E; [done|].
  apply orb_false_iff in E as [_ E%Z.ltb_ge]. unfold wp, of_res. cbv beta iota delta [mret res_ret].
  split; [done|]. exists (c, take (length d) (le_bytes 4 ip)).
  assert (length (take (length d) (le_bytes 4 ip)) = length d) as Hlen.
  { rewrite length_take, le_bytes_length. lia. }
  rewrite Nat2Z.id. split; [unfold encode_opt; cbn [fst snd take firstn app]; do 2 f_equal; congruence|].
  split; [|done]. repeat split; cbn [fst snd] in *; try lia. apply Forall_take, le_bytes_is_bytes.
Qed.

Lemma twin_option_ok yi wan ifname o s :
  Ends ifname → wf_opt o →
  wp any_fault (twin_option yi wan ifname (encode_opt o)) (λ r s', quiet s s' ∧
    ∃ o', r = encode_opt o' ∧ wf_opt o' ∧ o'.1 = o.1) s.
Proof.
  intros Hif Ho. unfold twin_option.
  assert (∀ s s1, quiet s s1 → ∀ ip, wp any_fault (of_res (with_address (encode_opt o) ip))
    (λ r s', quiet s s' ∧ ∃ o', r = encode_opt o' ∧ wf_opt o' ∧ o'.1 = o.1) s1) as Haddr.
  { intros s0 s1 Hq ip. eapply wp_mono; [by apply with_address_ok|]. intros r s2 [Hq2 H].
    split; [by transitivity s1|done]. }
  assert (∀ s s1, quiet s s1 → wp any_fault (mret (encode_opt o))
    (λ r s', quiet s s' ∧ ∃ o', r = encode_opt o' ∧ wf_opt o' ∧ o'.1 = o.1) s1) as Hsame.
  { intros s0 s1 Hq. apply wp_ret. split; [done|]. by exists o. }
  eapply wp_seq; [apply wp_lib, _|]. intros info s1 Hq1. cbv beta in Hq1.
  destruct o as [c d]. change (rd (encode_opt (c, d)) OPT_CODE) with (Ok c).
  apply wp_of_res, wp_gets. destruct (c =? DHCP_ROUTER).
  - eapply wp_seq with (P := λ _ s2, quiet s s2); [|intros gw s2 Hq2; by apply Haddr].
    destruct (streq info (lit "pppoe")); [by apply wp_ret|].
    eapply wp_seq; [apply wp_lib, _|]. intros n s2 Hq2. cbv beta in Hq2.
    eapply wp_seq; [apply wp_lib, _|]. intros [k g] s3 Hq3. cbv beta in Hq3. apply wp_ret.
    transitivity s1; [done|]. by transitivity s2.
  - destruct (c =? DHCP_SUBNET); [|by apply Hsame].
    destruct (streq info (lit "pppoe")); [by apply Hsame|].
    eapply wp_seq; [apply wp_lib, _|]. intros n s2 Hq2. cbv beta in Hq2.
    eapply wp_seq; [apply wp_lib, _|]. intros [[r ip] mask] s3 Hq3. cbv beta in Hq3.
    apply Haddr. transitivity s1; [done|]. by transitivity s2.
Qed.

(** The options of the configuration in a reply, with a rewriting that applies in
    other networks only. *)
Lemma config_options_ok {F} p type yi m opts time twin s :
  wf_cfg (cfg s) → replies p type (c_server (cfg s)) yi opts m →
  (DHCP_MESSAGE_TYPE, [type]) :: (DHCP_SERVER_ID, le_bytes 4 (c_server (cfg s))) :: opts =
    [(DHCP_MESSAGE_TYPE, [type]); (DHCP_SERVER_ID, le_bytes 4 (c_server (cfg s)))]
    ++ match time with Some t => [(DHCP_LEASE_TIME, le_bytes 4 (htonl t))] | None => [] end →
  (∀ s1 o, cfg s1 = cfg s → wf_opt o →
     wp F (twin (encode_opt o)) (λ r s', quiet s1 s' ∧
       ∃ o', r = encode_opt o' ∧ wf_opt o' ∧ same_or_twin (cfg s) yi o o') s1) →
  wp F (add_options twin (c_options (cfg s)) m) (λ m' s', quiet s s' ∧
    ∃ opts', replies p type (c_server (cfg s)) yi opts' m' ∧
      reply_opts (cfg s) type yi time opts') s.
Proof.
  intros [(os & Hos & Hwf) _] Hm Hbase Htwin. rewrite Hos.
  eapply wp_mono; [by apply (add_options_ok (same_or_twin (cfg s) yi) (cfg s) twin p type
    (c_server (cfg s)) yi os opts m s)|].
  intros m' s' (Hq & os' & opts' & HF & Hpack & Hm'). split; [done|]. exists opts'.
  split; [done|]. exists os, os'. split_and!; [done..|]. by rewrite <- Hbase.
Qed.

Lemma offer_options_ok p type yi m t wan s :
  wf_cfg (cfg s) → yiaddr m = yi →
  replies p type (c_server (cfg s)) yi [(DHCP_LEASE_TIME, le_bytes 4 (htonl t))] m →
  wp any_fault (offer_options wan m) (λ m' s', quiet s s' ∧
    ∃ opts', replies p type (c_server (cfg s)) yi opts' m' ∧
      reply_opts (cfg s) type yi (Some t) opts') s.
Proof.
  intros Hc Hy Hm. unfold offer_options. apply wp_gets.
  eapply config_options_ok; [done..|]. intros s1 o Hcfg Ho. rewrite Hy.
  destruct (negb _ && other_net (cfg s) yi) eqn:E.
  - apply andb_true_iff in E as [_ E]. eapply wp_mono; [apply twin_option_ok; [apply _|done]|].
    intros r s2 (Hq & o' & -> & Ho' & Hcode). split; [done|]. exists o'.
    split_and!; [done..|]. split; [done|]. by rewrite E.
  - apply wp_ret. split; [done|]. by exists o.
Qed.

Lemma ack_options_ok p type yi m t s :
  wf_cfg (cfg s) → yiaddr m = yi →
  replies p type (c_server (cfg s)) yi [(DHCP_LEASE_TIME, le_bytes 4 (htonl t))] m →
  wp any_fault (ack_options m) (λ m' s', quiet s s' ∧
    ∃ opts', replies p type (c_server (cfg s)) yi opts' m' ∧
      reply_opts (cfg s) type yi (Some t) opts') s.
Proof.
  intros Hc Hy Hm. unfold ack_options. apply wp_gets.
  eapply config_options_ok; [done..|]. intros s1 o Hcfg Ho. rewrite Hy.
  destruct (other_net (cfg s) yi) eqn:E.
  2:{ apply wp_ret. split; [done|]. by exists o. }
  assert (∀ o', o'.1 = o.1 → same_or_twin (cfg s) yi o o') as Hany.
  { intros o' Hcode. split; [done|]. by rewrite E. }
  eapply wp_seq; [apply wp_lib, _|]. intros [r wan] s2 Hq. cbv beta in Hq.
  destruct (r =? 0).
  - apply wp_ret. split; [done|]. exists o. auto.
  - eapply wp_mono; [apply twin_option_ok; [apply _|done]|].
    intros x s3 (Hq3 & o' & -> & Ho' & Hcode). split; [by transitivity s2|]. exists o'. auto.
Qed.

(** ** Lease times *)
Lemma get4_ends data : res_ends (get4 data).
Proof. unfold get4, res_ends. by destruct (_ <? _)%nat. Qed.

Lemma offer_time_quiet p t s :
  wf_message p → wp any_fault (offer_time p t) (λ _ s', quiet s s') s.
Proof.
  intros Hp. unfold offer_time. apply wp_gets, wp_of_res.
  pose proof (get_option_ends p DHCP_LEASE_TIME Hp) as Hne.
  destruct (get_option p DHCP_LEASE_TIME) as [[[data len]|]|e|]; [|..|done|done].
  - apply wp_bind, wp_of_res. pose proof (get4_ends data).
    destruct (get4 data); [|done|done]. by apply wp_ret, wp_ret.
  - by apply wp_bind, wp_ret, wp_ret.
Qed.

Lemma ack_time_ok p s :
  wf_message p → wp any_fault (ack_time p) (λ t s', quiet s s' ∧ granted (cfg s) t) s.
Proof.
  intros Hp. unfold ack_time. apply wp_gets, wp_of_res.
  pose proof (get_option_ends p DHCP_LEASE_TIME Hp) as Hne.
  destruct (get_option p DHCP_LEASE_TIME) as [[[data len]|]|e|]; [|..|done|done].
  - apply wp_of_res. pose proof (get4_ends data).
    destruct (get4 data) as [x| |]; [|done|done]. apply wp_ret. split; [done|].
    unfold granted. destruct (Z.ltb_spec (c_lease (cfg s)) (ntohl x)); [by left|].
    destruct (Z.ltb_spec (ntohl x) (c_min_lease (cfg s))); [by left|]. right. lia.
  - apply wp_ret. split; [done|by left].
Qed.

(** The lease time option behind the type and the server. *)
Lemma lease_time_option_ok {F} p type yi m t s :
  replies p type (c_server (cfg s)) yi [] m →
  wp F (with_option m (add_simple_option (options m) DHCP_LEASE_TIME (htonl t)))
    (λ m' s', s' = s ∧ replies p type (c_server (cfg s)) yi
       [(DHCP_LEASE_TIME, le_bytes 4 (htonl t))] m') s.
Proof.
  intros Hm. unfold with_option.
  destruct (add_simple_ok _ _ DHCP_LEASE_TIME (htonl t) (re_opts _ _ _ _ _ _ Hm))
    as (r & a & E & Ha); [done..| |].
  { rewrite !encode_cons, !length_app, !encode_opt_length. cbn [snd].
    rewrite le_bytes_length. simpl. lia. }
  apply wp_of_res. rewrite E. apply wp_ret. split; [done|]. by eapply replies_options.
Qed.

(** ** NAK *)
Lemma sendNAK_sends R p s :
  wf_message p →
  wp any_fault (sendNAK p) (λ _ s', leases s' = leases s ∧ ∃ o m, evolves R [o] s s' ∧
    carries (cfg s) m o ∧ replies p DHCPNAK (c_server (cfg s)) 0 [] m) s.
Proof.
  intros Hp. unfold sendNAK.
  eapply wp_seq; [apply init_packet_ok; [done|by right; right]|]. intros m ? [-> Hm].
  eapply wp_mono; [by eapply (send_packet_ok R)|].
  intros r s' (Hl & o & Hev & Hc & _). split; [done|]. by exists o, m.
Qed.

Lemma sendNAK_ok R p s :
  srv_ok s → wf_message p →
  wp any_fault (sendNAK p) (λ _ s', srv_ok s' ∧ ∃ o m, evolves R [o] s s' ∧
    carries (cfg s) m o ∧ replies p DHCPNAK (c_server (cfg s)) 0 [] m) s.
Proof.
  intros Hok Hp. eapply wp_mono; [by apply (sendNAK_sends R)|].
  intros r s' (Hl & o & m & Hev & Hrest). split; [|by exists o, m].
  destruct Hok, Hev. split; congruence.
Qed.

(** ** INFORM *)
Lemma send_inform_ok R p s :
  srv_ok s → wf_message p →
  wp any_fault (send_inform p) (λ _ s', srv_ok s' ∧
    ∃ o, evolves R [o] s s' ∧ answers (cfg s) p DHCPACK 0 None o) s.
Proof.
  intros Hok Hp. unfold send_inform.
  eapply wp_seq; [apply init_packet_ok; [done|by right; left]|]. intros m ? [-> Hm].
  apply wp_gets. eapply wp_seq; [eapply (config_options_ok _ _ _ _ _ None); [apply Hok|done|done|]|].
  { intros s1 o _ Ho. apply wp_ret. split; [done|]. by exists o. }
  intros m1 s1 (Hq & opts & Hm1 & Hopts).
  eapply wp_seq; [by apply add_bootp_options_ok|]. intros m2 ? [-> Hm2].
  eapply wp_mono; [by eapply (send_packet_ok R)|].
  intros r s' (Hl & o & Hev & Hc & _). rewrite (qu_cfg _ _ Hq) in Hc.
  pose proof (quiet_evolves_trans _ _ _ _ _ Hq Hev) as Hev'.
  pose proof (quiet_ok _ _ Hq Hok) as Hok1. split.
  - destruct Hok1, Hev. split; congruence.
  - exists o. split; [done|]. by exists m2, opts.
Qed.

(** ** OFFER *)
Lemma bound_later since since' s s' ch yi dur host :
  bound since s ch yi dur host → leases s' = leases s → (ticks s ≤ ticks s')%nat →
  (since' ≤ since)%nat → bound since' s' ch yi dur host.
Proof.
  intros (i & l & k & Hi & Hc & Hy & Hk & He & Hp) El Ht Hs. exists i, l, k.
  rewrite El. split_and!; try done; lia.
Qed.

Lemma host_fits_none : host_fits None.
Proof. split; [simpl; unfold HOSTNAME_LEN; lia|constructor]. Qed.

(** The address is entered for the client. *)
Lemma offer_entry_ok p s yi s1 :
  wf_message p → choice p (offer_source p s) s yi s1 → yi ≠ 0 →
  wp any_fault (add_lease (chaddr p) yi (c_offer_time (cfg s1)) None) (λ r s2,
    srv_ok s2 ∧ evolves (owner p s) [] s s2 ∧
    (is_Some r → bound (ticks s) s2 (chaddr p) yi (c_offer_time (cfg s)) [])) s1.
Proof.
  intros Hp (Hok1 & Hev1 & Hu & Hy) Hne. destruct (Hy Hne) as [Hyields _].
  eapply wp_mono; [apply (add_lease_server (λ l, owner p s l ∨ went s s1 l));
    [done..|apply host_fits_none|]|].
  - intros i l Hi [Hc|[_ Hyi]]%clears_true; [left; by left|].
    destruct (Hyields i l Hi Hyi) as [|[Hr|]]; [left; by left|left; right; by rewrite Hyi|by right].
  - intros r s2 (Hok2 & Hev2 & Hr). split; [done|]. split.
    + eapply (evolves_trans _ [] []); [|done]. eapply evolves_mono; [|done]. by intros l [].
    + intros [i ->]. eapply bound_later; [|done..|]; [|apply Hev1].
      by rewrite <- (ev_cfg _ _ _ _ Hev1).
Qed.

(** The lease time of a twin IP host, and whether the server is to answer. *)
Lemma offer_go_quiet p yi t s :
  wp any_fault
    (if other_net (cfg s) yi then
       '(r, wan_name) ← lib (check_ipclone_ipaddr (chaddr p));
       t ← (if r =? 0 then mret t else t ← lib (get_ipclone_lease_time wan_name); mret (u32 t));
       mret (true, t, wan_name)
     else
       op ← lib dhcpd_get_op;
       mret (negb (op =? 0), t, [])) (λ _ s', quiet s s') s.
Proof.
  assert (∀ wan, Ends (get_ipclone_lease_time wan)) by (intros; unfold get_ipclone_lease_time; apply _).
  destruct (other_net (cfg s) yi).
  - eapply wp_seq; [apply wp_lib, _|]. intros [r wan] s1 H1. cbv beta in H1.
    eapply wp_seq with (P := λ _ s2, quiet s s2); [|intros; by apply wp_ret].
    destruct (r =? 0); [by apply wp_ret|]. eapply wp_seq; [apply wp_lib, _|].
    intros x s2 H2. apply wp_ret. by transitivity s1.
  - eapply wp_seq; [apply wp_lib, _|]. intros x s1 H1. by apply wp_ret.
Qed.

(** The rest of sendOffer: the message with the address [yi]. *)
Lemma offer_message_ok R p yi t wan m s :
  srv_ok s → replies p DHCPOFFER (c_server (cfg s)) yi [] m →
  wp any_fault
    (packet ← with_option m (add_simple_option (options m) DHCP_LEASE_TIME (htonl t));
     packet ← offer_options wan packet;
     packet ← add_bootp_options packet;
     send_packet packet false) (λ _ s', srv_ok s' ∧ leases s' = leases s ∧
       ∃ o, evolves R [o] s s' ∧ answers (cfg s) p DHCPOFFER yi (Some t) o) s.
Proof.
  intros Hok Hm. eapply wp_seq; [by apply lease_time_option_ok|]. intros m1 ? [-> Hm1].
  eapply wp_seq; [apply offer_options_ok; [apply Hok|apply Hm1|done]|].
  intros m2 s2 (Hq & opts & Hm2 & Hopts).
  eapply wp_seq; [by apply add_bootp_options_ok|]. intros m3 ? [-> Hm3].
  eapply wp_mono; [by eapply (send_packet_ok R)|].
  intros r s' (Hl & o & Hev & Hc & _). rewrite (qu_cfg _ _ Hq) in Hc.
  pose proof (quiet_evolves_trans _ _ _ _ _ Hq Hev) as Hev'. split_and!.
  - destruct (quiet_ok _ _ Hq Hok), Hev. split; congruence.
  - rewrite Hl. apply Hq.
  - exists o. split; [done|]. by exists m3, opts.
Qed.

Lemma sendOffer_ok p s :
  srv_ok s → wf_message p →
  wp any_fault (sendOffer p) (λ _ s', srv_ok s' ∧ ∃ outs, evolves (owner p s) outs s s' ∧
    (outs = [] ∨ ∃ o yi t, outs = [o] ∧ yi ≠ 0 ∧ offer_source p s yi ∧
       answers (cfg s) p DHCPOFFER yi (Some t) o ∧
       bound (ticks s) s' (chaddr p) yi (c_offer_time (cfg s)) [])) s.
Proof.
  intros Hok Hp. unfold sendOffer.
  eapply wp_seq; [apply init_packet_ok; [done|by left]|]. intros m ? [-> Hm].
  eapply wp_seq; [by apply offer_address_ok|]. intros [yi t] s1 Hch. cbn [fst] in Hch.
  assert (∀ s2, srv_ok s2 → evolves (owner p s) [] s s2 →
    wp any_fault (mret (-1)) (λ _ s', srv_ok s' ∧ ∃ outs, evolves (owner p s) outs s s' ∧
      (outs = [] ∨ ∃ o yi t, outs = [o] ∧ yi ≠ 0 ∧ offer_source p s yi ∧
       answers (cfg s) p DHCPOFFER yi (Some t) o ∧
       bound (ticks s) s' (chaddr p) yi (c_offer_time (cfg s)) [])) s2) as Hstop.
  { intros s2 Hok2 Hev2. apply wp_ret. split; [done|]. exists []. auto. }
  destruct (Z.eqb_spec yi 0) as [->|Hne].
  { destruct Hch as (Hok1 & Hev1 & _). apply Hstop; [done|].
    eapply evolves_mono; [|done]. by intros l []. }
  apply wp_gets. change (chaddr (set_yiaddr yi m)) with (chaddr m).
  rewrite (re_chaddr _ _ _ _ _ _ Hm).
  eapply wp_seq; [by eapply offer_entry_ok|]. intros r s2 (Hok2 & Hev2 & Hb).
  destruct r as [i|]; [|by apply Hstop]. specialize (Hb ltac:(eauto)).
  assert (∀ s3, quiet s2 s3 → srv_ok s3 ∧ evolves (owner p s) [] s s3) as Hquiet.
  { intros s3 Hq. split; [by eapply quiet_ok|by eapply evolves_quiet]. }
  eapply wp_seq; [by apply offer_time_quiet|]. intros t' s3 Hq3. cbv beta in Hq3.
  assert (cfg s1 = cfg s3) as ->.
  { destruct Hch as (_ & [] & _). destruct (Hquiet _ Hq3) as [_ []]. congruence. }
  eapply wp_seq; [apply offer_go_quiet|]. intros [[go t''] wan] s4 Hq4. cbv beta in Hq4.
  assert (quiet s2 s4) as Hq24 by by transitivity s3.
  destruct (Hquiet _ Hq24) as [Hok4 Hev4]. destruct go; cbn [negb]; [|by apply Hstop].
  eapply wp_seq; [apply wp_lib, _|]. intros x0 s5 Hq5. cbv beta in Hq5.
  assert (quiet s2 s5) as Hq25 by by transitivity s4.
  destruct (Hquiet _ Hq25) as [Hok5 Hev5]. pose proof (ev_cfg _ _ _ _ Hev5) as Hc5.
  eapply wp_mono; [apply (offer_message_ok (λ l, owner p s l ∨ went s s5 l)); [done|]|].
  { rewrite Hc5. by eapply replies_yiaddr. }
  intros x s' (Hok' & Hl' & o & Hev' & Ha). split; [done|]. exists [o].
  split; [by apply (evolves_trans _ [] [o] s s5 s')|]. right. exists o, yi, t''.
  rewrite Hc5 in Ha. destruct Hch as (_ & _ & _ & Hsrc). destruct (Hsrc Hne) as [_ ?].
  split_and!; [done..|]. eapply bound_later; [done| | |done].
  - rewrite Hl'. apply Hq25.
  - destruct Hq25, Hev'. lia.
Qed.

(** ** ACK *)
Lemma log_offer_quiet fmt args s : wp any_fault (log_offer fmt args) (λ _ s', quiet s s') s.
Proof.
  unfold log_offer. eapply wp_seq; [apply wp_lib, _|]. intros flag s1 H1. cbv beta in H1.
  unfold when. destruct (negb (flag =? 0)); [|by apply wp_ret].
  eapply wp_seq; [apply wp_time0|]. intros now s2 H2. cbv beta in H2.
  eapply wp_seq; [apply wp_lib, _|]. intros x s3 H3. cbv beta in H3.
  eapply wp_seq; [apply wp_lib, _|]. intros y s4 H4. cbv beta in H4. apply wp_ret.
  transitivity s1; [done|]. transitivity s2; [done|]. by transitivity s3.
Qed.

#[export] Instance ends_set_ipclone wan : Ends (set_ipclone_address wan).
Proof.
  unfold set_ipclone_address. apply ends_bind; [apply _|]. intros fp.
  destruct (match fp with Some _ => _ | None => _ end) as [a0 a1].
  apply ends_bind; [apply _|]. intros [r ip].
  destruct (streq WAN2_NAME wan); apply _.
Qed.

(** The lease time of an ACK, with the log entry and the address of a twin IP
    host on the way. *)
Lemma ack_log_ok m yi t s :
  granted (cfg s) t →
  wp any_fault
    (if other_net (cfg s) yi then
       '(r, wan_name) ← lib (check_ipclone_ipaddr (chaddr m));
       if r =? 0 then mret t
       else
         t ← lib (get_ipclone_lease_time wan_name);
         lib (set_ipclone_address wan_name);;
         log_offer (lit "%s: %s (TWIN IP)") [AStr SYSLOG_MSG_DHCPD_OFFER_IP; AStr (inet_ntoa yi)];;
         mret (u32 t)
     else
       log_offer (lit "%s: %s (MAC : %02X-%02X-%02X-%02X-%02X-%02X)")
         (AStr SYSLOG_MSG_DHCPD_OFFER_IP :: AStr (inet_ntoa yi) :: (AInt <$> take 6 (chaddr m)));;
       mret t) (λ t' s', quiet s s' ∧ (other_net (cfg s) yi = false → granted (cfg s) t')) s.
Proof.
  intros Hg.
  assert (∀ wan, Ends (get_ipclone_lease_time wan)) by (intros; unfold get_ipclone_lease_time; apply _).
  destruct (other_net (cfg s) yi).
  - eapply wp_seq; [apply wp_lib, _|]. intros [r wan] s1 H1. cbv beta in H1.
    destruct (r =? 0); [by apply wp_ret|].
    eapply wp_seq; [apply wp_lib, _|]. intros x s2 H2. cbv beta in H2.
    eapply wp_seq; [apply wp_lib, _|]. intros y s3 H3. cbv beta in H3.
    eapply wp_seq; [apply log_offer_quiet|]. intros z s4 H4. cbv beta in H4. apply wp_ret.
    split; [|done]. transitivity s1; [done|]. transitivity s2; [done|]. by transitivity s3.
  - eapply wp_seq; [apply log_offer_quiet|]. intros z s1 H1. by apply wp_ret.
Qed.

Lemma bytes_cstr_take bs : ∃ n, bytes_cstr bs = take n bs.
Proof.
  unfold bytes_cstr. destruct (list_find _ bs) as [[k b]|]; [by exists k|].
  exists (length bs). by rewrite take_ge.
Qed.

Lemma ack_hostname_ok p s :
  wf_message p →
  wp any_fault (ack_hostname p) (λ h s', s' = s ∧ host_fits (Some h)) s.
Proof.
  intros Hp. unfold ack_hostname. apply wp_of_res.
  pose proof (get_option_ends p DHCP_HOST_NAME Hp) as Hne.
  destruct (get_option p DHCP_HOST_NAME) as [hnp|e|] eqn:E; [|done|done].
  apply wp_ret. split; [done|].
  assert (∀ h, (length h < HOSTNAME_LEN)%nat → is_bytes h → host_fits (Some (bytes_cstr h))) as Hfit.
  { intros h Hl Hb. destruct (bytes_cstr_take h) as [n ->]. split; simpl.
    - rewrite length_take. lia.
    - by apply Forall_take. }
  destruct (check_unpermitted_chars _).
  { split; [simpl; unfold HOSTNAME_LEN; lia|constructor]. }
  destruct hnp as [[data l]|].
  - destruct (get_option_data p _ _ _ Hp E) as [Hl Hb]. apply Hfit.
    + rewrite length_take. unfold HOSTNAME_LEN. lia.
    + by apply Forall_take.
  - apply Hfit; [simpl; unfold HOSTNAME_LEN; lia|constructor].
Qed.

(** The end of sendACK: the entry and the access policy. *)
Lemma ack_entry_ok p yi t s :
  srv_ok s → wf_message p → is_u32 yi →
  (∀ i l, leases s !! i = Some l → l_yiaddr l = yi → yi ≠ 0 → l_chaddr l = chaddr p) →
  wp any_fault
    (hostname ← ack_hostname p;
     add_lease (chaddr p) yi t (Some hostname);;
     policy ← lib (gets get_dhcp_access_policy);
     when policy (lib (modify (add_dhcp_access_host (chaddr p) (inet_ntoa yi))));;
     mret 0) (λ r s', r = 0 ∧ srv_ok s' ∧ evolves (λ l, l_chaddr l = chaddr p) [] s s' ∧
       ((∃ host, bound (ticks s) s' (chaddr p) yi t host) ∨ full (ticks s) s')) s.
Proof.
  intros Hok Hp Hu Hown.
  eapply wp_seq; [by apply ack_hostname_ok|]. intros h ? [-> Hh].
  eapply wp_seq; [apply (add_lease_server (λ l, l_chaddr l = chaddr p)); [done..|]|].
  { intros i l Hi [Hc|[Hne Hy]]%clears_true; [done|by eapply Hown]. }
  intros r s1 (Hok1 & Hev1 & Hr).
  eapply wp_seq; [apply wp_lib, _|]. intros policy s2 H2. cbv beta in H2.
  eapply wp_seq with (P := λ _ s3, quiet s1 s3).
  { unfold when. destruct policy; [|by apply wp_ret]. eapply wp_mono; [apply wp_lib, _|].
    intros x s3 H3. by transitivity s2. }
  intros x s3 H3. apply wp_ret. split; [done|]. split; [by eapply quiet_ok|].
  split; [by eapply evolves_quiet|]. destruct r as [i|].
  - left. eexists. eapply bound_later; [done|apply H3..|done].
  - right. destruct Hr as (k & Hk & Hall). exists k. destruct H3.
    split; [lia|by rewrite qu_leases].
Qed.

Lemma sendACK_ok p yi s :
  srv_ok s → wf_message p → is_u32 yi →
  (∀ i l, leases s !! i = Some l → l_yiaddr l = yi → yi ≠ 0 → l_chaddr l = chaddr p) →
  wp any_fault (sendACK p yi) (λ r s', srv_ok s' ∧ ∃ o t,
    evolves (λ l, l_chaddr l = chaddr p) [o] s s' ∧
    answers (cfg s) p DHCPACK yi (Some t) o ∧
    (other_net (cfg s) yi = false → granted (cfg s) t) ∧
    ((∃ host, bound (ticks s) s' (chaddr p) yi t host) ∨ full (ticks s) s' ∨
     ∃ k, (calls s ≤ k < calls s')%nat ∧ send_result k < 0)) s.
Proof.
  intros Hok Hp Hu Hown. unfold sendACK.
  eapply wp_seq; [apply init_packet_ok; [done|by right; left]|]. intros m ? [-> Hm].
  eapply wp_seq; [by apply ack_time_ok|]. intros t0 s1 [H1 Hg]. apply wp_gets.
  rewrite <- (qu_cfg _ _ H1) in Hg.
  eapply wp_seq; [by apply ack_log_ok|]. intros t s2 [H2 Ht].
  rewrite (qu_cfg _ _ H1) in Ht.
  assert (quiet s s2) as Hq by by transitivity s1.
  assert (replies p DHCPACK (c_server (cfg s2)) yi [] (set_yiaddr yi m)) as Hm'.
  { rewrite (qu_cfg _ _ Hq). by eapply replies_yiaddr. }
  eapply wp_seq; [by apply lease_time_option_ok|]. intros m1 ? [-> Hm1].
  eapply wp_seq; [apply ack_options_ok; [apply (quiet_ok _ _ Hq Hok)|apply Hm1|done]|].
  intros m2 s3 (H3 & opts & Hm2 & Hopts).
  eapply wp_seq; [by apply add_bootp_options_ok|]. intros m3 ? [-> Hm3].
  set (R l := l_chaddr l = chaddr p).
  eapply wp_seq; [by eapply (send_packet_ok R)|]. intros r s4 (Hl & o & Hev & Hc & k & Hk & Hr).
  assert (quiet s s3) as Hq3 by by transitivity s2.
  pose proof (quiet_evolves_trans _ _ _ _ _ Hq3 Hev) as Hev4.
  assert (srv_ok s4) as Hok4 by (destruct (quiet_ok _ _ Hq3 Hok), Hev; split; congruence).
  assert (answers (cfg s) p DHCPACK yi (Some t) o) as Ha.
  { exists m3, opts. rewrite <- (qu_cfg _ _ Hq), <- (qu_cfg _ _ H3) at 1.
    rewrite (qu_cfg _ _ Hq) in Hm3, Hopts. done. }
  destruct (Z.ltb_spec r 0).
  { apply wp_ret. split; [done|]. exists o, t. split_and!; [done..|]. right; right.
    exists k. destruct Hq3. split; [lia|congruence]. }
  rewrite (re_chaddr _ _ _ _ _ _ Hm3).
  eapply wp_mono; [apply ack_entry_ok; [done..|]|].
  - intros i l. rewrite Hl, (qu_leases _ _ Hq3). apply Hown.
  - intros r' s' (-> & Hok' & Hev' & Hb). split; [done|]. exists o, t.
    split; [by apply (evolves_app R [o] [] s s4 s')|]. split_and!; [done..|].
    destruct Hb as [[host Hb]|(k' & Hk' & Hall)]; [left|right; left].
    + exists host. eapply bound_later; [done..|]. apply Hev4.
    + exists k'. destruct Hev4. split; [lia|done].
Qed.
End events.
