(* ===== verification/DhcpLoop.v ===== *)
(** * The DHCP server: events

    Every message that the server receives leaves it in a well-formed state, is
    answered at most once, and costs no other host its entry. *)
From S2P Require Import Prelude CLib Heap System Bytes Genconfig GenconfigSpec GenconfigOps.
From S2P Require Import GenconfigFile Cconfig SystemApi Syslog LibEnds Dhcp DhcpOptions.
From S2P Require Import DhcpPacket DhcpLeases DhcpTable DhcpFiles DhcpServer Dhcpd DhcpInv.
From S2P Require Import DhcpReply DhcpChoice DhcpEvents.

(** The type of a received message. *)
Definition sends (p : dhcpMessage) (type : Z) : Prop :=
  ∃ data l, get_option p DHCP_MESSAGE_TYPE = Ok (Some (data, l)) ∧ rd data 0 = Ok type.

Definition has_entry (s : srv) (p : dhcpMessage) (yi : Z) : Prop :=
  ∃ i l, leases s !! i = Some l ∧ l_chaddr l = chaddr p ∧ l_yiaddr l = yi.

(** The addresses that the server acknowledges: the one of the client's entry, or
    one of the pool that no host has or is entitled to. *)
Definition ack_source (p : dhcpMessage) (s : srv) (yi : Z) : Prop :=
  has_entry s p yi ∨
  (in_pool (cfg s) yi ∧ ¬ reserved s yi ∧ Forall (λ l, l_yiaddr l ≠ yi) (leases s)).

Section loop.
Context `{net : !Net, ifs : !Interfaces, svc : !Services}.
Implicit Types (s : srv) (p : dhcpMessage).

(** What the server sends for the message [p], from the state [s] to [s']. *)
Inductive answered (p : dhcpMessage) (s s' : srv) : list output → Prop :=
  | no_answer : answered p s s' []
  | offered o yi t :
      sends p DHCPDISCOVER → yi ≠ 0 → offer_source p s yi →
      answers (cfg s) p DHCPOFFER yi (Some t) o →
      bound (ticks s) s' (chaddr p) yi (c_offer_time (cfg s)) [] →
      answered p s s' [o]
  | acked o yi t :
      sends p DHCPREQUEST → ack_source p s yi →
      answers (cfg s) p DHCPACK yi (Some t) o →
      (other_net (cfg s) yi = false → granted (cfg s) t) →
      ((∃ host, bound (ticks s) s' (chaddr p) yi t host) ∨ full (ticks s) s' ∨
       ∃ k, (calls s ≤ k < calls s')%nat ∧ send_result k < 0) →
      answered p s s' [o]
  | refused o m :
      sends p DHCPREQUEST → carries (cfg s) m o →
      replies p DHCPNAK (c_server (cfg s)) 0 [] m →
      answered p s s' [o]
  | informed o :
      sends p DHCPINFORM → answers (cfg s) p DHCPACK 0 None o →
      answered p s s' [o].

(** The outcome of the handling of [p]. *)
Definition handled (p : dhcpMessage) (s s' : srv) : Prop :=
  srv_ok s' ∧ ∃ outs, evolves (owner p s) outs s s' ∧ answered p s s' outs.

Lemma answered_later p s s1 s2 outs :
  quiet s1 s2 → answered p s s1 outs → answered p s s2 outs.
Proof.
  intros [] Ha. assert (∀ ch yi d h, bound (ticks s) s1 ch yi d h → bound (ticks s) s2 ch yi d h)
    as Hb by (intros; by eapply bound_later).
  destruct Ha as [|o yi t|o yi t ? ? ? ? Hr|o m|o].
  - constructor.
  - eapply offered; eauto.
  - eapply acked; [done..|]. destruct Hr as [[h Hh]|[(k & Hk & Hall)|(k & Hk & ?)]]; [left; eauto|..].
    + right; left. exists k. split; [lia|by rewrite qu_leases].
    + right; right. exists k. split; [lia|done].
  - by eapply refused.
  - by eapply informed.
Qed.

Lemma handled_quiet p s s1 s2 : handled p s s1 → quiet s1 s2 → handled p s s2.
Proof.
  intros (Hok & outs & Hev & Ha) Hq. split; [by eapply quiet_ok|]. exists outs.
  split; [by eapply evolves_quiet|by eapply answered_later].
Qed.

Lemma handled_none p s s' : srv_ok s' → evolves (owner p s) [] s s' → handled p s s'.
Proof. intros Hok Hev. split; [done|]. exists []. split; [done|constructor]. Qed.

Lemma handled_same p s : srv_ok s → handled p s s.
Proof. intros Hok. apply handled_none; [done|apply evolves_refl]. Qed.

(** The state may have been quiet before. *)
Lemma handled_first p s s1 s2 : quiet s s1 → handled p s1 s2 → handled p s s2.
Proof.
  intros Hq (Hok & outs & Hev & Ha). split; [done|]. exists outs.
  pose proof (quiet_evolves (λ _, False) _ _ Hq) as Hq'.
  assert (∀ a, reserved s1 a → reserved s a) as Hres
    by (intros a; by rewrite (evolves_reserved _ _ _ _ _ Hq')).
  split.
  - eapply quiet_evolves_trans; [done|]. eapply evolves_mono; [|done].
    intros l [|]; [by left|right; auto].
  - destruct Hq. assert (∀ ch yi d h, bound (ticks s1) s2 ch yi d h → bound (ticks s) s2 ch yi d h)
      as Hb by (intros; by eapply bound_later).
    assert (∀ yi, has_entry s1 p yi → has_entry s p yi) as Hent
      by (unfold has_entry; by rewrite qu_leases).
    destruct Ha as [|o yi t ? ? Hs|o yi t ? Hs ? ? Hr|o m|o]; rewrite ?qu_cfg in *.
    + constructor.
    + eapply offered; eauto. unfold offer_source in *. rewrite qu_cfg in Hs.
      destruct Hs as [|[|]]; [left|right; left|right; right]; auto. by apply Hent.
    + eapply acked; [done|..|done|done|].
      * destruct Hs as [|(? & Hn & ?)]; [left; auto|]. right. rewrite qu_cfg, qu_leases in *.
        split_and!; [done| |done]. unfold reserved in *. by rewrite qu_statics in Hn.
      * destruct Hr as [[h Hh]|[(k & Hk & Hall)|(k & Hk & ?)]].
        -- left; eauto.
        -- right; left. exists k. split; [lia|done].
        -- right; right. exists k. split; [lia|done].
    + by eapply refused.
    + by eapply informed.
Qed.

(** ** The lease file *)
Lemma write_leases_loop_quiet path curr ls s :
  wp any_fault (write_leases_loop path curr ls) (λ _ s', quiet s s') s.
Proof.
  revert s. induction ls as [|l ls IH]; intros s; [by apply wp_ret|]. cbn [write_leases_loop].
  eapply wp_seq with (P := λ _ s1, quiet s s1).
  - unfold when. destruct (negb _); [|by apply wp_ret]. apply wp_gets.
    eapply wp_seq with (P := λ _ s1, quiet s s1).
    + destruct (negb _); [|by apply wp_ret]. eapply wp_seq; [apply lease_expired_ok|].
      intros b s1 [Hq _]. by apply wp_ret.
    + intros t s1 H1. eapply wp_mono; [apply wp_lib, _|]. intros x s2 H2. by transitivity s1.
  - intros x s1 H1. eapply wp_mono; [apply IH|]. intros y s2 H2. by transitivity s1.
Qed.

Lemma write_leases_quiet s : wp any_fault write_leases (λ _ s', quiet s s') s.
Proof.
  unfold write_leases. eapply wp_seq; [apply wp_time0|]. intros curr s1 H1. cbv beta in H1.
  apply wp_gets. destruct (c_lease_file (cfg s1)) as [path|]; [|done].
  eapply wp_seq; [apply wp_lib, _|]. intros fp s2 H2. cbv beta in H2.
  assert (quiet s s2) as Hq by by transitivity s1.
  destruct (negb fp); [by apply wp_ret|]. apply wp_gets.
  eapply wp_seq; [apply write_leases_loop_quiet|]. intros x s3 H3. cbv beta in H3.
  assert (quiet s s3) as Hq3 by by transitivity s2.
  destruct (c_notify_file (cfg s1)) as [notify|]; [|by apply wp_ret].
  eapply wp_seq; [apply wp_lib, _|]. intros buf s4 H4. cbv beta in H4.
  eapply wp_mono; [apply wp_lib, _|]. intros y s5 H5.
  transitivity s3; [done|]. by transitivity s4.
Qed.

(** ** Changes of one entry *)
Lemma alter_entry_ok R (f : lease → lease) i s :
  srv_ok s →
  (∀ l, leases s !! i = Some l → wf_lease l → R l ∧ wf_lease (f l) ∧
     l_yiaddr (f l) = l_yiaddr l ∧ (l_chaddr (f l) = l_chaddr l ∨ l_chaddr (f l) = blank_chaddr)) →
  srv_ok (set_leases (alter f i (leases s)) s) ∧
  evolves R [] s (set_leases (alter f i (leases s)) s).
Proof.
  intros Hok Hf.
  assert (∀ j l, alter f i (leases s) !! j = Some l → ∃ l0, leases s !! j = Some l0 ∧
    l_yiaddr l = l_yiaddr l0 ∧ (l_chaddr l = l_chaddr l0 ∨ l_chaddr l = blank_chaddr) ∧
    wf_lease l ∧ (j ≠ i → l = l0)) as Hlook.
  { intros j l Hj. pose proof (to_wf _ (sk_table _ Hok)) as Hwf. rewrite Forall_lookup in Hwf.
    destruct (decide (j = i)) as [->|Hne].
    - rewrite list_lookup_alter_eq in Hj. apply fmap_Some in Hj as (l0 & Hl0 & ->).
      destruct (Hf l0 Hl0 (Hwf _ _ Hl0)) as (_ & ? & ? & ?). by exists l0.
    - rewrite list_lookup_alter_ne in Hj by done. exists l. split_and!; auto. by eapply Hwf. }
  split.
  - destruct Hok as [[_ Hips Hmacs] Hc Hs]. split; [|done..]. simpl. split.
    + apply Forall_lookup. intros j l Hj. by destruct (Hlook j l Hj) as (l0 & _ & _ & _ & ? & _).
    + intros j k l l' Hj Hk E Hne. destruct (Hlook j l Hj) as (l0 & Hl0 & Hy & _).
      destruct (Hlook k l' Hk) as (l1 & Hl1 & Hy' & _). eapply Hips; [done..|congruence|congruence].
    + intros j k l l' Hj Hk E Hne. destruct (Hlook j l Hj) as (l0 & Hl0 & _ & Hm & _).
      destruct (Hlook k l' Hk) as (l1 & Hl1 & _ & Hm' & _).
      destruct Hm as [Hm|Hm]; [|congruence]. destruct Hm' as [Hm'|Hm']; [|congruence].
      eapply Hmacs; [done..|congruence|congruence].
  - split; simpl; try done; [by rewrite length_alter|by rewrite app_nil_r|].
    intros j l Hj Hb. simpl. destruct (decide (j = i)) as [->|Hne].
    + pose proof (to_wf _ (sk_table _ Hok)) as Hwf. rewrite Forall_lookup in Hwf.
      right; left. by apply Hf; [|eapply Hwf].
    + left. by rewrite list_lookup_alter_ne.
Qed.

Lemma blank_entry_ok R i l s :
  srv_ok s → leases s !! i = Some l → R l →
  wp any_fault (blank_entry i) (λ _ s', srv_ok s' ∧ evolves R [] s s' ∧
    leases s' !! i = Some (Lease blank_chaddr (l_yiaddr l) (l_expires l) (l_hostname l))) s.
Proof.
  intros Hok Hi HR. unfold wp, blank_entry, modify. cbn [leases set_leases].
  set (f l := Lease blank_chaddr (l_yiaddr l) (l_expires l) (l_hostname l)).
  destruct (alter_entry_ok R f i s Hok) as [H1 H2].
  { intros l' Hl' []. assert (l' = l) as -> by congruence. split; [done|]. split; [|auto].
    split; simpl; try done. by apply Forall_replicate. }
  split_and!; [done..|]. by rewrite list_lookup_alter_eq, Hi.
Qed.

Lemma expire_entry_ok R i l t s :
  srv_ok s → leases s !! i = Some l → R l → is_u32 t →
  wp any_fault (expire_entry i t) (λ _ s', srv_ok s' ∧ evolves R [] s s') s.
Proof.
  intros Hok Hi HR Ht. unfold wp, expire_entry, modify.
  apply (alter_entry_ok R (λ l, Lease (l_chaddr l) (l_yiaddr l) t (l_hostname l)) i s Hok).
  intros l' Hl' []. assert (l' = l) as -> by congruence. by split_and!; [|split|..]; auto.
Qed.

(** ** REQUEST *)
Lemma nak_handled p s s1 :
  srv_ok s → wf_message p → sends p DHCPREQUEST → quiet s s1 →
  wp any_fault (sendNAK p;; mret tt) (λ _ s', handled p s s') s1.
Proof.
  intros Hok Hp Hreq Hq. pose proof (quiet_ok _ _ Hq Hok) as Hok1.
  eapply wp_seq; [by apply (sendNAK_ok (owner p s1))|].
  intros r s2 (Hok2 & o & m & Hev & Hc & Hm). apply wp_ret.
  eapply handled_first; [done|]. split; [done|]. exists [o]. split; [done|]. by eapply refused.
Qed.

Lemma ack_handled p yi s s1 :
  srv_ok s → wf_message p → sends p DHCPREQUEST → quiet s s1 →
  is_u32 yi → ack_source p s1 yi →
  wp any_fault (sendACK p yi;; mret tt) (λ _ s', handled p s s') s1.
Proof.
  intros Hok Hp Hreq Hq Hu Hsrc. pose proof (quiet_ok _ _ Hq Hok) as Hok1.
  eapply wp_seq; [apply sendACK_ok; [done..|]|].
  - intros i l Hi Hy Hne. destruct Hsrc as [(j & l' & Hj & Hc & Hy')|(_ & _ & Hall)].
    + assert (i = j) as -> by
        (eapply (to_ips _ (sk_table _ Hok1)); [done..|congruence|congruence]). congruence.
    + rewrite Forall_lookup in Hall. by destruct (Hall i l Hi).
  - intros r s2 (Hok2 & o & t & Hev & Ha & Hg & Hb). apply wp_ret.
    eapply handled_first; [done|]. split; [done|]. exists [o]. split.
    + eapply evolves_mono; [|done]. intros l Hl. by left.
    + by eapply acked.
Qed.

Lemma wrong_net_quiet p req s : wp any_fault (wrong_net p req) (λ _ s', quiet s s') s.
Proof.
  unfold wrong_net. destruct req as [a|]; [|by apply wp_ret]. apply wp_gets.
  eapply wp_seq; [apply wp_lib, _|]. intros [twin w] s1 H1. cbv beta in H1.
  destruct (_ && _); [by apply wp_ret|].
  eapply wp_seq; [apply wp_lib, _|]. intros [twin' w'] s2 H2. apply wp_ret. by transitivity s1.
Qed.

Lemma request_known_ok p req id i l s :
  srv_ok s → wf_message p → sends p DHCPREQUEST →
  leases s !! i = Some l → l_chaddr l = chaddr p →
  wp any_fault (request_known p req id (l_yiaddr l)) (λ _ s', handled p s s') s.
Proof.
  intros Hok Hp Hreq Hi Hc. unfold request_known.
  eapply wp_seq; [apply wrong_net_quiet|]. intros wrong s1 Hq. cbv beta in Hq.
  assert (wp any_fault (sendNAK p;; mret tt) (λ _ s', handled p s s') s1) as Hnak
    by by apply nak_handled.
  assert (wp any_fault (sendACK p (l_yiaddr l);; mret tt) (λ _ s', handled p s s') s1) as Hack.
  { apply ack_handled; [done..| |].
    - pose proof (to_wf _ (sk_table _ Hok)) as Hwf. rewrite Forall_lookup in Hwf. by eapply Hwf.
    - left. exists i, l. by rewrite (qu_leases _ _ Hq). }
  destruct wrong; [done|]. destruct id as [id|].
  - apply wp_gets. unfold when. destruct (_ && _); [done|]. apply wp_ret.
    eapply handled_quiet; [by apply handled_same|done].
  - destruct req as [req|].
    + by destruct (l_yiaddr l =? req).
    + by destruct (l_yiaddr l =? ciaddr p).
Qed.

Lemma request_unknown_ok p req id s :
  srv_ok s → wf_message p → sends p DHCPREQUEST →
  (∀ a, req = Some a → is_u32 a) →
  wp any_fault (request_unknown p req id) (λ _ s', handled p s s') s.
Proof.
  intros Hok Hp Hreq Hu. unfold request_unknown.
  destruct id as [id|]; [by apply wp_ret, handled_same|].
  destruct req as [a|]; [|by apply nak_handled]. specialize (Hu a eq_refl).
  apply wp_bind. unfold wp at 1.
  destruct (static_by_chaddr_ok (chaddr p) s Hok) as (yi & -> & _).
  destruct (_ && _); [by apply wp_ret, handled_same|]. apply wp_bind. unfold wp at 1.
  destruct (find_by_yiaddr_cases a s) as [[-> Hall]|(i & l & -> & Hi & Hy)].
  - apply wp_gets. destruct (_ || _) eqn:Er; [by apply nak_handled|].
    apply orb_false_iff in Er as [H1%Z.ltb_ge H2%Z.ltb_ge]. apply wp_bind. unfold wp at 1.
    destruct (static_by_yiaddr_cases a s) as [[-> Hn]|(st & -> & _)]; [|by apply nak_handled].
    apply ack_handled; [done..|]. right. split_and!; [|done..]. split; lia.
  - eapply wp_seq; [apply lease_expired_ok|]. intros b s1 (Hq & _ & Hw).
    destruct b; [|by apply nak_handled]. specialize (Hw eq_refl).
    pose proof (quiet_ok _ _ Hq Hok) as Hok1.
    eapply wp_mono; [apply (blank_entry_ok (λ l, owner p s l ∨ went s s1 l) i l);
      [done|by rewrite (qu_leases _ _ Hq)|by right]|].
    intros x s2 (Hok2 & Hev & _). apply handled_none; [done|].
    apply (evolves_trans _ [] [] s s1 s2); [by apply quiet_evolves|done].
Qed.

(** The value of a four-byte option. *)
Lemma option4_ok p code s :
  wf_message p →
  match get_option p code with
  | Ok o => wp any_fault
      (match o with
       | Some (data, _) => a ← of_res (get4 data); mret (Some a)
       | None => mret None
       end) (λ r s', s' = s ∧ ∀ a, r = Some a → is_u32 a) s
  | Fault _ => True
  | NoFuel => False
  end.
Proof.
  intros Hp. pose proof (get_option_ends p code Hp) as Hne.
  destruct (get_option p code) as [[[data l]|]|e|] eqn:E; [|by apply wp_ret|done..].
  destruct (get_option_data p _ _ _ Hp E) as [_ Hb]. apply wp_of_res.
  destruct (get4_cases data Hb) as [(a & -> & Ha)| ->]; [|done].
  apply wp_ret. split; [done|]. by intros ? [= <-].
Qed.

Lemma handle_request_ok p l s :
  srv_ok s → wf_message p → sends p DHCPREQUEST →
  (∀ i x, l = Some (i, x) → leases s !! i = Some x ∧ l_chaddr x = chaddr p) →
  wp any_fault (handle_request p l) (λ _ s', handled p s s') s.
Proof.
  intros Hok Hp Hreq Hl. unfold handle_request.
  pose proof (option4_ok p DHCP_REQUESTED_IP s Hp) as H1.
  pose proof (option4_ok p DHCP_SERVER_ID s Hp) as H2.
  apply wp_of_res. destruct (get_option p DHCP_REQUESTED_IP) as [o1| |]; [|done..].
  apply wp_of_res. destruct (get_option p DHCP_SERVER_ID) as [o2| |]; [|done..].
  eapply wp_seq; [exact H1|]. intros req ? [-> Hu]. eapply wp_seq; [exact H2|].
  intros id ? [-> _]. eapply wp_seq with (P := λ _ s', handled p s s').
  - destruct l as [[i x]|]; [|by apply request_unknown_ok].
    destruct (Hl i x eq_refl). by eapply request_known_ok.
  - intros u s1 Hh. eapply wp_mono; [apply write_leases_quiet|]. intros v s2 Hq.
    by eapply handled_quiet.
Qed.

(** ** Messages *)
Lemma decline_ok p i l s :
  srv_ok s → leases s !! i = Some l → l_chaddr l = chaddr p →
  wp any_fault
    (blank_entry i;;
     now ← time0;
     c ← gets cfg;
     expire_entry i (u32 (now + c_decline_time c))) (λ _ s', handled p s s') s.
Proof.
  intros Hok Hi Hc. eapply wp_seq; [by apply (blank_entry_ok (owner p s) i l); [..|left]|].
  intros u s1 (Hok1 & Hev1 & Hi1). eapply wp_seq; [apply wp_time0|]. intros now s2 Hq.
  cbv beta in Hq. apply wp_gets. pose proof (evolves_quiet _ _ _ _ _ Hev1 Hq) as Hev2.
  rewrite <- (qu_leases _ _ Hq) in Hi1.
  (* The entry has no hardware address any more. *)
  unfold wp, expire_entry, modify.
  destruct (alter_entry_ok (λ _, True) (λ l, Lease (l_chaddr l) (l_yiaddr l)
    (u32 (now + c_decline_time (cfg s2))) (l_hostname l)) i s2 (quiet_ok _ _ Hq Hok1))
    as [Hok3 _].
  { intros l' _ []. split; [done|]. split; [|auto]. split; try done. apply u32_range. }
  apply handled_none; [done|]. split; simpl; try apply Hev2.
  - by rewrite length_alter, (ev_length _ _ _ _ Hev2).
  - intros j x Hj Hb. simpl. destruct (decide (j = i)) as [->|Hne].
    + right; left. left. congruence.
    + rewrite list_lookup_alter_ne by done. by apply (ev_keeps _ _ _ _ Hev2).
Qed.

Lemma release_ok p l s :
  srv_ok s → (∀ i x, l = Some (i, x) → leases s !! i = Some x ∧ l_chaddr x = chaddr p) →
  wp any_fault
    ((match l with
      | Some (i, _) => now ← time0; expire_entry i now
      | None => mret tt
      end);;
     write_leases;;
     policy ← lib (gets get_dhcp_access_policy);
     when policy (lib (modify (remove_dhcp_access_host (chaddr p))))) (λ _ s', handled p s s') s.
Proof.
  intros Hok Hl. eapply wp_seq with (P := λ _ s1, handled p s s1).
  - destruct l as [[i x]|]; [|by apply wp_ret, handled_same].
    destruct (Hl i x eq_refl) as [Hi Hc]. apply wp_bind. unfold time0, wp at 1.
    set (s1 := Srv _ _ _ _ _ _ _). assert (quiet s s1) as Hq by (split; simpl; try done; lia).
    eapply wp_mono; [apply (expire_entry_ok (owner p s) i x); [by eapply quiet_ok|done|by left|
      apply u32_range]|].
    intros u s2 [Hok2 Hev]. apply handled_none; [done|]. by eapply quiet_evolves_trans.
  - intros u s1 Hh. eapply wp_seq; [apply write_leases_quiet|]. intros v s2 H2. cbv beta in H2.
    eapply wp_seq; [apply wp_lib, _|]. intros policy s3 H3. cbv beta in H3.
    assert (quiet s1 s3) as H13 by by transitivity s2.
    unfold when. destruct policy; [|apply wp_ret; by eapply handled_quiet].
    eapply wp_mono; [apply wp_lib, _|]. intros w s4 H4.
    eapply handled_quiet; [done|]. by transitivity s3.
Qed.

Lemma handle_packet_ok p s :
  srv_ok s → wf_message p → wp any_fault (handle_packet p) (λ _ s', handled p s s') s.
Proof.
  intros Hok Hp. unfold handle_packet. apply wp_of_res.
  pose proof (get_option_ends p DHCP_MESSAGE_TYPE Hp) as Hne.
  destruct (get_option p DHCP_MESSAGE_TYPE) as [[[data n]|]|e|] eqn:E;
    [|by apply wp_ret, handled_same|done..].
  apply wp_bind. unfold wp at 1.
  assert (∃ l, find_lease_by_chaddr (chaddr p) s = Ok (l, s) ∧
    ∀ i x, l = Some (i, x) → leases s !! i = Some x ∧ l_chaddr x = chaddr p) as (l & -> & Hl).
  { destruct (find_by_chaddr_cases (chaddr p) s) as [[-> _]|(i & x & -> & Hi & Hc)].
    - by exists None.
    - exists (Some (i, x)). split; [done|]. by intros ? ? [= <- <-]. }
  apply wp_of_res. destruct (rd data 0) as [type| |] eqn:Et; [|done|].
  2:{ by destruct data. }
  assert (∀ ty, type = ty → sends p ty) as Hs by (intros ? ->; by exists data, n).
  destruct (Z.eqb_spec type DHCPDISCOVER) as [->|].
  { eapply wp_seq; [by apply sendOffer_ok|]. intros r s1 (Hok1 & outs & Hev & Ha).
    eapply wp_mono; [apply write_leases_quiet|]. intros u s2 Hq.
    apply (handled_quiet p s s1 s2); [|done]. split; [done|]. exists outs. split; [done|].
    destruct Ha as [->|(o & yi & t & -> & ? & ? & ? & ?)]; [constructor|].
    eapply offered; eauto. }
  destruct (Z.eqb_spec type DHCPREQUEST) as [->|]; [by apply handle_request_ok; auto|].
  destruct (type =? DHCPDECLINE).
  { destruct l as [[i x]|]; [|by apply wp_ret, handled_same].
    destruct (Hl i x eq_refl). by eapply decline_ok. }
  destruct (type =? DHCPRELEASE); [by apply release_ok|].
  destruct (Z.eqb_spec type DHCPINFORM) as [->|]; [|by apply wp_ret, handled_same].
  eapply wp_seq; [by apply (send_inform_ok (owner p s))|].
  intros r s1 (Hok1 & o & Hev & Ha). apply wp_ret. split; [done|]. exists [o].
  split; [done|]. by apply informed; [apply Hs|].
Qed.

(** ** The loop *)
Definition wf_input (i : input) : Prop :=
  match i_packet i with Some (_, m) => wf_message m | None => True end.

(** The message that a pass takes from the socket. *)
Definition received (i : input) (p : dhcpMessage) : Prop :=
  ∃ n, get_packet (i_packet i) = Ok (n, p) ∧ 0 ≤ n.

(** A pass of the loop handles the message it receives, or nothing. *)
Definition passed (i : input) (s s' : srv) : Prop :=
  srv_ok s' ∧ (quiet s s' ∨ ∃ p, received i p ∧ wf_message p ∧ handled p s s').

Lemma get_packet_ok i :
  wf_input i →
  match get_packet (i_packet i) with
  | Ok (_, p) => wf_message p
  | Fault _ => True
  | NoFuel => False
  end.
Proof.
  unfold wf_input, get_packet. destruct (i_packet i) as [[n m]|].
  - intros Hm. destruct (negb _); [done|]. destruct (op m =? BOOTREQUEST); [|done].
    pose proof (get_option_ends m DHCP_VENDOR Hm) as Hne.
    destruct (get_option m DHCP_VENDOR) as [[[data l]|]|e|]; [|done..].
    unfold mbind, res_bind, mret, res_ret. destruct (_ && _); [|done].
    by destruct Hm; split.
  - intros _. split; try done; cbn [zero_message chaddr sname file options];
      by apply Forall_replicate.
Qed.

Lemma passed_quiet i s s' : srv_ok s → quiet s s' → passed i s s'.
Proof. intros Hok Hq. split; [by eapply quiet_ok|by left]. Qed.

Lemma read_packet_ok l i s s1 :
  srv_ok s → wf_input i → quiet s s1 →
  wp any_fault (read_packet l i) (λ _ s', passed i s s') s1.
Proof.
  intros Hok Hi Hq. unfold read_packet. apply wp_of_res. pose proof (get_packet_ok i Hi) as Hp.
  destruct (get_packet (i_packet i)) as [[n p]|e|] eqn:E; [|done..].
  destruct (Z.ltb_spec n 0) as [|Hn].
  { destruct (_ && _); by apply wp_ret, passed_quiet. }
  apply wp_gets. eapply wp_seq; [apply wp_lib, _|]. intros detect s2 H2. cbv beta in H2.
  assert (quiet s s2) as Hq2 by by transitivity s1.
  destruct detect; [by apply wp_ret, passed_quiet|].
  eapply wp_seq; [apply handle_packet_ok; [by eapply quiet_ok|done]|].
  intros u s3 Hh. apply wp_ret. split; [apply Hh|]. right. exists p.
  split; [by exists n|]. split; [done|]. by eapply handled_first.
Qed.

Lemma exit_server_quiet s s1 i :
  srv_ok s → quiet s s1 → wp any_fault exit_server (λ _ s', passed i s s') s1.
Proof.
  intros Hok Hq. unfold exit_server. apply wp_gets.
  eapply wp_seq with (P := λ _ s2, quiet s s2).
  - destruct (c_pidfile (cfg s1)); [|by apply wp_ret]. eapply wp_mono; [apply wp_lib, _|].
    intros u s2 H2. by transitivity s1.
  - intros u s2 H2. by apply wp_ret, passed_quiet.
Qed.

Lemma write_and_rearm_quiet l s s1 i :
  srv_ok s → quiet s s1 → wp any_fault (write_and_rearm l) (λ _ s', passed i s s') s1.
Proof.
  intros Hok Hq. unfold write_and_rearm. eapply wp_seq; [apply write_leases_quiet|].
  intros u s2 H2. cbv beta in H2. eapply wp_seq; [apply wp_time0|]. intros now s3 H3.
  cbv beta in H3. apply wp_gets, wp_ret, passed_quiet; [done|].
  transitivity s1; [done|]. by transitivity s2.
Qed.

Lemma iteration_ok l i s :
  srv_ok s → wf_input i → wp any_fault (iteration l i) (λ _ s', passed i s s') s.
Proof.
  intros Hok Hi. unfold iteration. destruct (_ && _); [by apply exit_server_quiet|].
  apply wp_gets. eapply wp_seq with (P := λ _ s1, quiet s s1).
  { destruct (_ =? 0); [by apply wp_ret|]. eapply wp_seq; [apply wp_time0|].
    intros now s1 H1. by apply wp_ret. }
  intros retval s1 Hq. destruct (retval =? 0); [by apply write_and_rearm_quiet|].
  destruct (_ && _); [by apply wp_ret, passed_quiet|].
  destruct (i_signal i) as [[sig|]|].
  - destruct (sig =? SIGUSR1); [by apply write_and_rearm_quiet|].
    destruct (sig =? SIGTERM); [by apply exit_server_quiet|by apply read_packet_ok].
  - by apply wp_ret, passed_quiet.
  - by apply read_packet_ok.
Qed.

(** A run of the loop is a sequence of passes. *)
Inductive runs : list input → srv → srv → Prop :=
  | runs_nil s : runs [] s s
  | runs_stop i ins s s' : passed i s s' → runs (i :: ins) s s'
  | runs_cons i ins s s1 s' : passed i s s1 → runs ins s1 s' → runs (i :: ins) s s'.

Lemma serve_ok l ins s :
  srv_ok s → Forall wf_input ins →
  wp any_fault (serve l ins) (λ _ s', srv_ok s' ∧ runs ins s s') s.
Proof.
  intros Hok Hins. revert l s Hok. induction Hins as [|i ins Hi Hins IH]; intros l s Hok.
  { apply wp_ret. split; [done|constructor]. }
  cbn [serve]. eapply wp_seq; [by apply iteration_ok|]. intros [l'|] s1 Hp.
  - eapply wp_mono; [apply IH, Hp|]. intros r s' [Hok' Hr]. split; [done|].
    by eapply runs_cons.
  - apply wp_ret. split; [apply Hp|by apply runs_stop].
Qed.
End loop.
