(* ===== verification/DhcpStart.v ===== *)
(** * The DHCP server: start

    Whatever the configuration and the lease files hold, main() reaches the loop
    in a well-formed state (or stops): the options are sorted and well-formed,
    and the lease table has no duplicates. *)
From S2P Require Import Prelude CLib Heap System Bytes Genconfig GenconfigSpec GenconfigOps.
From S2P Require Import GenconfigFile Cconfig SystemApi Syslog LibEnds Dhcp DhcpOptions.
From S2P Require Import DhcpPacket DhcpLeases DhcpTable DhcpFiles DhcpServer Dhcpd DhcpInv.
From S2P Require Import DhcpReply DhcpChoice DhcpEvents DhcpLoop.

(** ** The options of the configuration *)
Definition opts_ok (l : list bytes) : Prop :=
  ∃ os, l = encode_opt <$> os ∧ sorted_above 0 os ∧ Forall wf_opt os.

Lemma sorted_lookup lo os :
  sorted_above lo os → ∀ c d, (c, d) ∈ os ↔ lookup_opt c os = Some d.
Proof.
  revert lo. induction os as [|[c0 d0] os IH]; intros lo Hs c d; simpl.
  { split; [by intros ?%not_elem_of_nil|done]. }
  destruct Hs as (Hlo & Hd & Hs). rewrite elem_of_cons.
  destruct (Z.eqb_spec c0 c) as [->|Hne].
  - split; [|intros [= ->]; by left]. intros [[= ->]|Hin]; [done|].
    apply (IH c Hs) in Hin. by rewrite (lookup_opt_below c os c Hs ltac:(lia)) in Hin.
  - rewrite <- (IH c0 Hs). split; [|by right]. intros [[= -> ->]|]; done.
Qed.

Lemma sorted_wf lo os :
  sorted_above lo os → (∀ c d, lookup_opt c os = Some d → wf_opt (c, d)) → Forall wf_opt os.
Proof.
  intros Hs Hw. apply Forall_forall. intros [c d] Hin. apply Hw. by apply (sorted_lookup lo os Hs).
Qed.

(** The codes of the table of options. *)
Lemma option_table_codes o :
  o ∈ option_table → 0 < o_code o < 255 ∧ o_code o ≠ DHCP_OPTION_OVER.
Proof.
  assert (Forall (λ o, 0 < o_code o < 255 ∧ o_code o ≠ DHCP_OPTION_OVER) option_table) as H.
  { unfold option_table. repeat (apply Forall_cons_2; [by vm_compute; split|]). constructor. }
  rewrite Forall_forall in H. apply H.
Qed.

Lemma attach_option_ok l o buffer :
  opts_ok l → o ∈ option_table → is_bytes buffer → (length buffer < 256)%nat →
  ∃ l', attach_option l o buffer (Z.of_nat (length buffer)) = Ok l' ∧ opts_ok l'.
Proof.
  intros (os & -> & Hs & Hwf) Ho Hb Hl. destruct (option_table_codes o Ho) as [Hc Hov].
  destruct (attach_option_spec os o buffer (length buffer) Hs) as (os' & E & Hs' & Hlook);
    [lia|done|done|].
  eexists. split; [done|]. exists os'. split_and!; [done..|].
  apply (sorted_wf 0); [done|]. intros c d Hd. rewrite Hlook in Hd.
  destruct (Z.eqb_spec c (o_code o)) as [->|].
  - injection Hd as <-. split_and!; simpl; [lia..|done| |]; rewrite take_ge by lia; unfold attached;
      destruct (lookup_opt (o_code o) os) as [d|] eqn:Ed; try done;
      apply (sorted_lookup 0 os Hs) in Ed; rewrite Forall_forall in Hwf;
      destruct (Hwf _ Ed) as (_ & _ & Hdb & Hdl); simpl in Hdb, Hdl.
    + destruct (_ && _); [by rewrite is_bytes_app|done].
    + destruct (_ && _) eqn:E1; [|done]. apply andb_true_iff in E1 as [_ E1%Nat.leb_le].
      rewrite length_app. lia.
  - apply (sorted_lookup 0 os Hs) in Hd. rewrite Forall_forall in Hwf. by apply Hwf.
Qed.

Lemma strtok_shorter ds s t r : strtok ds s = (Some t, r) → (length r < length s)%nat.
Proof.
  unfold strtok. pose proof (span_app (one_of ds) s) as H1.
  destruct (span (one_of ds) s) as [a s1]. simpl in H1.
  destruct s1 as [|c s1]; [done|]. pose proof (span_app (λ c, negb (one_of ds c)) (c :: s1)) as H2.
  destruct (span (λ c, negb (one_of ds c)) (c :: s1)) as [tok r1] eqn:E. intros [= <- <-].
  simpl in H2. apply (f_equal length) in H1, H2. rewrite length_app in H1, H2. simpl in *.
  destruct r1 as [|x r1]; simpl in *; lia.
Qed.

Section config.
Context `{rs : !Resolver}.

Lemma read_opt_value_ok type val s data s' :
  read_opt_value type val s = (Some data, s') →
  is_bytes data ∧ (length data < 256)%nat ∧ (length s' ≤ length s)%nat.
Proof.
  assert (∀ n z (s s' : str) (b : bool), (n ≤ 8)%nat →
    (if b then Some (le_bytes n z) else None, s) = (Some data, s') →
    is_bytes data ∧ (length data < 256)%nat ∧ (length s' ≤ length s)%nat) as Hnum.
  { intros n z t t' b Hn E. destruct b; [|done]. injection E as <- <-.
    rewrite le_bytes_length. split; [apply le_bytes_is_bytes|lia]. }
  unfold read_opt_value.
  destruct (type =? OPTION_IP).
  { destruct (read_ip val) as [a|]; [|done]. intros E. apply (Hnum 4%nat a s s' true); [lia|done]. }
  destruct (type =? OPTION_IP_PAIR).
  { destruct (strtok _ s) as [[val2|] s1] eqn:Es; [|done]. apply strtok_shorter in Es.
    destruct (read_ip val) as [a|]; [|done]. cbn [mbind option_bind]. destruct (read_ip val2) as [b|]; [|done].
    intros [E <-]%pair_equal_spec. apply (inj Some) in E as <-.
    rewrite length_app, !le_bytes_length, is_bytes_app.
    split_and!; try apply le_bytes_is_bytes; lia. }
  destruct (type =? OPTION_STRING).
  { intros [= <- <-]. rewrite length_fmap, length_take.
    split; [apply (get_bytes_is_bytes (take 254 val))|lia]. }
  destruct (type =? OPTION_BOOLEAN).
  { destruct (read_yn val) as [a|]; [|done]. intros E. apply (Hnum 1%nat a s s' true); [lia|done]. }
  repeat (match goal with |- context [if ?b then _ else _] => destruct b end;
    [solve [destruct (strtoul0 val) as [[z ?] e]; apply Hnum; lia
           | destruct (strtol0 val) as [z e]; apply Hnum; lia]|]).
  done.
Qed.

Lemma read_opt_loop_ok fuel o retval s l :
  opts_ok l → o ∈ option_table → (length s < fuel)%nat →
  ∃ r l', read_opt_loop fuel o retval s l = Ok (r, l') ∧ opts_ok l'.
Proof.
  revert retval s l. induction fuel as [|fuel IH]; intros retval s l Hl Ho Hf; [lia|].
  cbn [read_opt_loop]. destruct (strtok _ s) as [[val|] s1] eqn:Es; [|by eexists _, _].
  apply strtok_shorter in Es.
  destruct (read_opt_value _ val s1) as [[data|] s2] eqn:Ev; [|by eexists _, _].
  apply read_opt_value_ok in Ev as (Hb & Hlen & Hs2).
  destruct (attach_option_ok l o data Hl Ho Hb Hlen) as (l' & E & Hl').
  unfold mbind, res_bind. rewrite E. destruct (_ =? 0); [by eexists _, _|].
  apply IH; [done..|lia].
Qed.

Lemma read_opt_ok line l :
  opts_ok l → ∃ r l', read_opt line l = Ok (r, l') ∧ opts_ok l'.
Proof.
  intros Hl. unfold read_opt. destruct (strtok _ line) as [[opt|] s]; [|by eexists _, _].
  destruct (option_by_name opt) as [o|] eqn:Eo; [|by eexists _, _].
  apply read_opt_loop_ok; [done| |lia]. unfold option_by_name in Eo.
  apply last_Some_elem_of, list_elem_of_filter in Eo. apply Eo.
Qed.

(** A handler always returns, and keeps the options well-formed. *)
Definition handler_ok (h : handler) : Prop :=
  ∀ line c, opts_ok (c_options c) →
    ∃ r c', h line c = Ok (r, c') ∧ opts_ok (c_options c').

Lemma keywords_ok : Forall (λ k, handler_ok (k_handler k)) keywords.
Proof.
  assert (∀ set : Z → server_config_t → server_config_t,
    (∀ z c, c_options (set z c) = c_options c) →
    handler_ok (on_ip set) ∧ handler_ok (on_u32 set) ∧ handler_ok (on_yn set)) as Hz.
  { intros set Hset. split_and!; intros line c Hc.
    - unfold on_ip. destruct (read_ip line); eexists _, _; (split; [done|]); by rewrite ?Hset.
    - unfold on_u32. destruct (read_u32 line). eexists _, _. split; [done|]. by rewrite Hset.
    - unfold on_yn. destruct (read_yn line); eexists _, _; (split; [done|]); by rewrite ?Hset. }
  assert (∀ set : option str → server_config_t → server_config_t,
    (∀ z c, c_options (set z c) = c_options c) → handler_ok (on_str set)) as Hstr.
  { intros set Hset line c Hc. eexists _, _. split; [done|]. by rewrite Hset. }
  assert (handler_ok on_opt) as Hopt.
  { intros line c Hc. unfold on_opt. destruct (read_opt_ok line _ Hc) as (r & l & -> & Hl).
    eexists _, _. split; [done|]. by destruct c. }
  assert (handler_ok on_interface) as Hif.
  { intros line c Hc. eexists _, _. split; [done|]. by destruct c. }
  unfold keywords.
  repeat (apply Forall_cons_2; [
    first [exact Hopt | exact Hif | apply Hstr; by intros z [] | apply Hz; by intros z []]|]).
  constructor.
Qed.

Lemma config_defaults_ok ks c :
  Forall (λ k, handler_ok (k_handler k)) ks → opts_ok (c_options c) →
  ∃ c', config_defaults ks c = Ok c' ∧ opts_ok (c_options c').
Proof.
  intros Hks. revert c. induction Hks as [|k ks Hk Hks IH]; intros c Hc; [by eexists|].
  cbn [config_defaults]. destruct (streq (k_def k) []); [by apply IH|].
  destruct (Hk (k_def k) c Hc) as (r & c' & E & Hc'). unfold mbind, res_bind. rewrite E.
  by apply IH.
Qed.

Lemma config_line_ok ks token line c :
  Forall (λ k, handler_ok (k_handler k)) ks → opts_ok (c_options c) →
  ∃ c', config_line ks token line c = Ok c' ∧ opts_ok (c_options c').
Proof.
  intros Hks. revert c. induction Hks as [|k ks Hk Hks IH]; intros c Hc; [by eexists|].
  cbn [config_line]. destruct (strcaseeq token (k_name k)); [|by apply IH].
  destruct (Hk line c Hc) as (r & c' & E & Hc'). unfold mbind, res_bind. rewrite E.
  destruct r; [by apply IH|]. destruct (Hk (k_def k) c' Hc') as (r' & c2 & E2 & Hc2).
  rewrite E2. by apply IH.
Qed.

Lemma read_config_loop_ok fuel content c :
  (length content < fuel)%nat → opts_ok (c_options c) →
  ∃ c', read_config_loop fuel content c = Ok c' ∧ opts_ok (c_options c').
Proof.
  revert content c. induction fuel as [|fuel IH]; intros content c Hf Hc; [lia|].
  cbn [read_config_loop]. destruct (fgets 80 content) as [[buf rest]|] eqn:E; [|by eexists].
  apply fgets_shorter in E; [|lia]. destruct (split_line buf) as [[token line]|].
  - destruct (config_line_ok keywords token line c keywords_ok Hc) as (c' & E' & Hc').
    unfold mbind, res_bind. rewrite E'. apply IH; [lia|done].
  - apply IH; [lia|done].
Qed.

(** read_config leaves a configuration with well-formed options. *)
Lemma read_config_ok file s :
  opts_ok (c_options (cfg s)) →
  wp any_fault (read_config file) (λ _ s', opts_ok (c_options (cfg s')) ∧
    leases s' = leases s ∧ statics s' = statics s ∧ sent s' = sent s) s.
Proof.
  intros Hc. unfold read_config. apply wp_gets.
  destruct (config_defaults_ok keywords (cfg s) keywords_ok Hc) as (c & E & Hc1).
  apply wp_of_res. rewrite E. apply wp_modify. unfold fopen_r. apply wp_bind.
  unfold wp at 1, lib, gets. cbv beta iota.
  destruct (files _ !! file) as [content|]; [|by apply wp_ret].
  destruct (read_config_loop_ok (S (length content)) content c) as (c' & E' & Hc2); [lia|done|].
  apply wp_of_res. rewrite E'. apply wp_modify. by apply wp_ret.
Qed.
End config.

(** ** The lease files *)
Section files.
Context `{net : !Net}.
Implicit Types s : srv.

(** add_lease with any string: a host name that does not fit is a fault. *)
Lemma add_lease_any chaddr yi dur host s :
  table_ok (leases s) → length chaddr = 16%nat → is_bytes chaddr → is_u32 yi → is_bytes host →
  wp any_fault (add_lease chaddr yi dur (Some host)) (λ _ s',
    table_ok (leases s') ∧ same_rest s s') s.
Proof.
  intros Hok Hlen Hb Hu Hh. destruct (decide (length host < HOSTNAME_LEN)%nat) as [Hl|Hl].
  - pose proof (add_lease_ok chaddr yi dur (Some host) s Hok Hlen Hb Hu (conj Hl Hh)) as Hw.
    apply wp_inv in Hw as [(r & s' & E & Ht & Hs & _)|(? & _ & [])]. by eapply wp_Ok.
  - unfold add_lease, clear_lease. apply wp_modify.
    fold (cleared chaddr yi (leases s)). set (ls1 := cleared chaddr yi (leases s)).
    assert (table_ok ls1) as Hok1 by by apply cleared_ok.
    apply wp_bind. unfold oldest_expired_lease. apply wp_bind. unfold time0 at 1, wp at 1.
    apply wp_gets, wp_ret. cbn [leases set_leases]. fold ls1.
    pose proof (oldest_loop_spec ls1 0 ls1 None (u32 (clock (ticks s))) I ltac:(done)) as Hold.
    destruct (oldest_loop ls1 0 None _) as [i|].
    + destruct Hold as (old & Hold & _). apply wp_bind. unfold time0, wp at 1. apply wp_gets.
      cbn [leases]. rewrite Hold. apply wp_of_res. unfold strcpy_bytes.
      pose proof (Forall_lookup_1 _ _ _ _ (to_wf _ Hok1) Hold) as [].
      by rewrite (proj2 (Nat.ltb_ge _ _)) by (rewrite wl_hostname; simpl; lia).
    + apply wp_ret. split; [done|]. split; simpl; try done; [|lia].
      unfold ls1, cleared. by rewrite length_fmap.
Qed.

(** Fields of a record that has been read. *)
Lemma field_u32 bs k : is_bytes bs → is_u32 (of_le (take 4 (drop k bs))).
Proof.
  intros Hb. pose proof (of_le_range (take 4 (drop k bs))) as H.
  specialize (H ltac:(by apply Forall_take, Forall_drop)). unfold is_u32.
  assert (256 ^ Z.of_nat (length (take 4 (drop k bs))) ≤ 2 ^ 32) as Hle.
  { change (2 ^ 32) with (256 ^ 4). apply Z.pow_le_mono_r; [lia|]. rewrite length_take. lia. }
  lia.
Qed.

(** The readers change nothing but the tables, the clock and the system. *)
Record reads (s s' : srv) : Prop := {
  rd_cfg : cfg s' = cfg s;
  rd_sent : sent s' = sent s
}.

#[export] Instance reads_refl : Reflexive reads.
Proof. by intros s. Qed.
#[export] Instance reads_trans : Transitive reads.
Proof. intros s1 s2 s3 [] []. split; congruence. Qed.

Lemma read_leases_loop_ok fuel i content s :
  table_ok (leases s) → (length content < fuel)%nat →
  wp any_fault (read_leases_loop fuel i content) (λ _ s',
    table_ok (leases s') ∧ reads s s') s.
Proof.
  revert i content s. induction fuel as [|fuel IH]; intros i content s Hok Hf; [lia|].
  cbn [read_leases_loop]. apply wp_gets. destruct (negb _); [by apply wp_ret|].
  destruct (Nat.ltb_spec (length content) 48) as [|Hl]; [by apply wp_ret|].
  set (rec := take 48 content). set (bs := get_bytes rec).
  assert (is_bytes bs) as Hb by apply get_bytes_is_bytes.
  assert (length bs = 48%nat) as Hlen by (unfold bs, get_bytes, rec; rewrite length_fmap, length_take; lia).
  assert (length (drop 48 content) < fuel)%nat as Hf' by (rewrite length_drop; lia).
  destruct (_ && _); [|by apply IH].
  eapply wp_seq with (P := λ _ s1, table_ok (leases s1) ∧ reads s s1).
  { destruct (_ =? 0); [|by apply wp_ret]. apply wp_bind. unfold time0, wp at 1. by apply wp_ret. }
  intros expires s1 [Hok1 Hr1]. eapply wp_seq.
  { apply add_lease_any; [done|..].
    - unfold parse_lease. cbn [l_chaddr]. fold bs. rewrite length_take. lia.
    - by apply Forall_take.
    - by apply field_u32.
    - destruct (bytes_cstr_take (l_hostname (parse_lease rec))) as [n ->].
      by apply Forall_take, Forall_take, Forall_drop. }
  intros [j|] s2 [Hok2 Hs].
  - eapply wp_mono; [by apply IH|]. intros u s3 [Hok3 Hr3]. split; [done|].
    transitivity s1; [done|]. transitivity s2; [|done]. by destruct Hs.
  - apply wp_ret. split; [done|]. transitivity s1; [done|]. by destruct Hs.
Qed.

Lemma read_leases_ok file s :
  table_ok (leases s) →
  wp any_fault (read_leases file) (λ _ s', table_ok (leases s') ∧ reads s s') s.
Proof.
  intros Hok. unfold read_leases. destruct file as [file|]; [|done].
  apply wp_bind. unfold wp at 1, lib, fopen_r, gets. cbv beta iota.
  destruct (files _ !! file) as [content|]; [|by apply wp_ret].
  eapply wp_mono; [apply read_leases_loop_ok; [done|lia]|]. intros u s' [? []]. by split.
Qed.

Lemma read_static_loop_ok fuel i content s :
  Forall (λ l, is_u32 (s_yiaddr l)) (statics s) → (length content < fuel)%nat →
  wp any_fault (read_static_loop fuel i content) (λ _ s',
    Forall (λ l, is_u32 (s_yiaddr l)) (statics s') ∧ leases s' = leases s ∧ reads s s') s.
Proof.
  revert i content s. induction fuel as [|fuel IH]; intros i content s Hok Hf; [lia|].
  cbn [read_static_loop]. apply wp_gets. destruct (negb _); [by apply wp_ret|].
  destruct (Nat.ltb_spec (length content) 24) as [|Hl]; [by apply wp_ret|].
  eapply wp_seq with (P := λ _ s1, Forall (λ l, is_u32 (s_yiaddr l)) (statics s1) ∧
    leases s1 = leases s ∧ reads s s1).
  { unfold add_static_lease. apply wp_gets. destruct (list_find _ _) as [[k x]|]; [|by apply wp_ret].
    apply wp_bind. unfold time0, wp at 1. apply wp_modify, wp_ret. simpl. split; [|done].
    apply Forall_insert; [done|]. apply field_u32, get_bytes_is_bytes. }
  intros [j|] s1 (Hok1 & El & Hr1); [|by apply wp_ret].
  eapply wp_mono; [apply IH; [done|rewrite length_drop; lia]|].
  intros u s2 (? & ? & ?). split_and!; [done|congruence|by transitivity s1].
Qed.

Lemma read_static_leases_ok file s :
  Forall (λ l, is_u32 (s_yiaddr l)) (statics s) →
  wp any_fault (read_static_leases file) (λ _ s',
    Forall (λ l, is_u32 (s_yiaddr l)) (statics s') ∧ leases s' = leases s ∧ reads s s') s.
Proof.
  intros Hok. unfold read_static_leases. destruct file as [file|]; [|done].
  apply wp_bind. unfold wp at 1, lib, fopen_r, gets. cbv beta iota.
  destruct (files _ !! file) as [content|]; [|by apply wp_ret].
  eapply wp_mono; [apply read_static_loop_ok; [done|lia]|]. intros u s' (? & ? & []). by split_and!.
Qed.
End files.

(** ** main() up to the loop *)
Section startup.
Context `{net : !Net, ifs : !Interfaces, svc : !Services, rs : !Resolver}.
Implicit Types s : srv.

Lemma find_option_ends l code : res_ends (find_option l code).
Proof.
  unfold res_ends. induction l as [|data l IH]; [done|]. cbn [find_option].
  destruct (rd_cases data OPT_CODE) as [(c & -> & _)| ->]; [|done].
  unfold mbind, res_bind. destruct (c <? code); [done|]. by destruct (c =? code).
Qed.

Lemma blank_table n : table_ok (replicate n blank_lease).
Proof.
  split.
  - apply Forall_replicate, wf_blank.
  - intros i j l l' Hi _ _ Hne. apply lookup_replicate in Hi as [-> _]. done.
  - intros i j l l' Hi _ _ Hne. apply lookup_replicate in Hi as [-> _]. done.
Qed.

(** The options and the end of the pool are the ones of the file. *)
Lemma startup_ok argv1 pid hw s :
  wp any_fault (startup argv1 pid hw) (λ _ s',
    sent s' = sent s ∧ (ntohl (c_end (cfg s')) + 1 < 2 ^ 32 → srv_ok s')) s.
Proof.
  assert (Ends (create_pid (lit "dhcpd") pid)) as Hpid by (unfold create_pid; apply _).
  unfold startup. apply wp_modify. eapply wp_seq.
  { apply read_config_ok. exists []. by split_and!. }
  intros r s1 (Ho & _ & _ & Hsent). apply wp_gets.
  eapply wp_seq; [apply wp_lib, _|]. intros [[x ip] mask] s2 H2. cbv beta iota in H2 |- *.
  apply wp_modify. eapply wp_seq; [apply wp_lib, _|]. intros y s3 H3. cbv beta in H3.
  apply wp_of_res. pose proof (find_option_ends (c_options (cfg s1)) DHCP_LEASE_TIME) as Hfo.
  destruct (find_option _ _) as [opt|e|]; [|done|done].
  eapply wp_seq with (P := λ _ s4, s4 = s3).
  { destruct opt as [data|]; [|by apply wp_ret]. apply wp_of_res. pose proof (get4_ends (drop 2 data)).
    destruct (get4 (drop 2 data)); [|done..]. by apply wp_ret. }
  intros lease ? ->. apply wp_modify, wp_modify, wp_modify.
  eapply wp_seq; [apply read_leases_ok, blank_table|]. intros u s5 [Htab [Hc5 Hs5]].
  apply wp_modify. eapply wp_seq; [apply read_static_leases_ok|].
  { apply Forall_replicate. split; simpl; lia. }
  intros v s6 (Hst & Hl6 & [Hc6 Hs6]). cbn [leases set_statics] in Hl6.
  assert (opts_ok (c_options (cfg s6)) ∧ sent s6 = sent s) as [Ho6 Hsent6].
  { destruct H2, H3. rewrite Hc6, Hs6. cbn [cfg sent set_statics]. rewrite Hc5, Hs5.
    cbn [cfg sent set_statics set_leases set_cfg] in *.
    split; [|congruence]. rewrite qu_cfg0. destruct (cfg s2) eqn:E2. rewrite <- qu_cfg in Ho. done. }
  assert (∀ s7, cfg s7 = cfg s6 ∨ (∃ a b, cfg s7 = with_arp a (with_server b (cfg s6))) →
    leases s7 = leases s6 → statics s7 = statics s6 → sent s7 = sent s6 →
    sent s7 = sent s ∧ (ntohl (c_end (cfg s7)) + 1 < 2 ^ 32 → srv_ok s7)) as Hend.
  { intros s7 Hc7 El Es E. split; [congruence|]. intros Hpool. split.
    - rewrite El, Hl6. exact Htab.
    - split; [|done]. destruct Ho6 as (os & Eos & _ & Hwf). exists os. split; [|done].
      rewrite <- Eos. destruct Hc7 as [->|(a & b & ->)]; [done|]. by destruct (cfg s6).
    - rewrite Es. exact Hst. }
  destruct hw as [[server arp]|].
  - apply wp_modify. eapply wp_seq; [apply wp_time0|]. intros now s7 []. apply wp_ret.
    apply Hend; [|done..]. right. by exists arp, server.
  - unfold exit_server. apply wp_gets. eapply wp_seq with (P := λ _ s7, quiet s6 s7).
    + destruct (c_pidfile (cfg s6)); [apply wp_lib, _|by apply wp_ret].
    + intros w s7 []. apply wp_ret. by apply Hend; auto.
Qed.
End startup.
