(* ===== verification/DhcpLeaseFile.v ===== *)
(** * The lease file: round trip

    A server that is restarted gets back the leases that the old one has
    written, each with the time that remains. *)
From S2P Require Import Prelude CLib Heap System Bytes Genconfig GenconfigSpec GenconfigOps.
From S2P Require Import GenconfigFile Cconfig SystemApi Syslog LibEnds Dhcp DhcpOptions.
From S2P Require Import DhcpPacket DhcpLeases DhcpTable DhcpFiles DhcpServer DhcpInv DhcpReply.
From S2P Require Import DhcpChoice DhcpEvents DhcpLoop DhcpStart.

(** The time that remains of a lease at [t0]. *)
Definition remains (t0 : Z) (l : lease) : Z := if l_expires l <? t0 then 0 else l_expires l - t0.

Definition written (ls : list lease) : list lease := filter (λ l, l_yiaddr l ≠ 0) ls.

Definition image (t0 : Z) (ls : list lease) : str :=
  concat ((λ l, lease_record l (remains t0 l)) <$> written ls).

(** The entry that is made of a record at [t1]. *)
Definition restored (t0 t1 : Z) (l : lease) : lease :=
  Lease (l_chaddr l) (l_yiaddr l) (t1 + remains t0 l)
        (bytes_cstr (l_hostname l) ++ replicate (24 - length (bytes_cstr (l_hostname l))) 0).

(** ** Records *)
Lemma lease_record_length l t : wf_lease l → length (lease_record l t) = 48%nat.
Proof.
  intros []. unfold lease_record, put_bytes.
  rewrite length_fmap, !length_app, !le_bytes_length, wl_chaddr, wl_hostname. done.
Qed.

Lemma parse_lease_record l t :
  wf_lease l → is_u32 t →
  parse_lease (lease_record l t) = Lease (l_chaddr l) (l_yiaddr l) (htonl t) (l_hostname l).
Proof.
  intros [] Ht. unfold parse_lease, lease_record. rewrite get_put_bytes.
  2:{ rewrite !is_bytes_app. split_and!; try done; apply le_bytes_is_bytes. }
  assert (∀ z, is_u32 z → of_le (le_bytes 4 z) = z) as Hle.
  { intros z Hz. rewrite of_le_bytes. by apply Z.mod_small. }
  rewrite take_app_length' by done.
  rewrite (drop_app_length' (l_chaddr l)) by done. rewrite take_app_length' by by rewrite le_bytes_length.
  rewrite Hle by done.
  rewrite (drop_app_ge (l_chaddr l)) by lia. rewrite wl_chaddr.
  rewrite (drop_app_length' (le_bytes 4 (l_yiaddr l))) by by rewrite le_bytes_length.
  rewrite take_app_length' by by rewrite le_bytes_length. rewrite Hle by apply ntohl_range.
  rewrite (drop_app_ge (l_chaddr l)) by lia. rewrite wl_chaddr.
  rewrite (drop_app_ge (le_bytes 4 (l_yiaddr l))) by (rewrite le_bytes_length; lia).
  rewrite le_bytes_length. rewrite (drop_app_length' (le_bytes 4 (htonl t))) by by rewrite le_bytes_length.
  rewrite take_ge by (rewrite wl_hostname; done). done.
Qed.

(** ** Writing *)
Section writing.
Context `{net : !Net}.
Variable t0 : Z.
Hypothesis Hclock : ∀ k, clock k = t0.
Hypothesis Ht0 : is_u32 t0.
Implicit Types s : srv.

Lemma time0_now s : ∃ s', time0 s = Ok (t0, s') ∧ quiet s s' ∧ os s' = os s.
Proof.
  eexists. split.
  - unfold time0. rewrite Hclock. unfold u32. by rewrite Z.mod_small.
  - split; [|done]. split; simpl; try done; lia.
Qed.

Definition content_of (path : str) (s : srv) : str := default [] (files (env (os s)) !! path).

Lemma fprintf_content path text s :
  ∃ s', lib (fprintf path text) s = Ok (tt, s') ∧ quiet s s' ∧
    files (env (os s')) !! path = Some (content_of path s ++ text) ∧
    unwritable (env (os s')) = unwritable (env (os s)).
Proof.
  eexists. split; [done|]. split; [by split|]. simpl. by rewrite lookup_insert_eq.
Qed.

Lemma remains_u32 l : wf_lease l → u32 (l_expires l - t0) = l_expires l - t0 ∨ l_expires l < t0.
Proof.
  intros []. destruct (Z.lt_ge_cases (l_expires l) t0); [by right|left].
  unfold u32, is_u32 in *. apply Z.mod_small. lia.
Qed.

Lemma write_one_ok path l s :
  wf_lease l → c_remaining (cfg s) ≠ 0 → l_yiaddr l ≠ 0 →
  ∃ s', (when (negb (l_yiaddr l =? 0))
     (c ← gets cfg;
      lease_time ← (if negb (c_remaining c =? 0) then
                      expired ← lease_expired l;
                      mret (if expired : bool then 0 else u32 (l_expires l - t0))
                    else mret (l_expires l));
      lib (fprintf path (lease_record l lease_time)))) s = Ok (tt, s') ∧ quiet s s' ∧
    files (env (os s')) !! path = Some (content_of path s ++ lease_record l (remains t0 l)).
Proof.
  intros Hwf Hrem Hy. rewrite (proj2 (Z.eqb_neq _ _)) by done. cbn [negb when].
  rewrite bind_gets, (proj2 (Z.eqb_neq (c_remaining _) _)) by done. cbn [negb].
  unfold lease_expired. destruct (time0_now s) as (s1 & E1 & H1 & Hos).
  rewrite !bind_assoc, (bind_Ok _ _ _ _ _ E1), !bind_ret.
  replace (if l_expires l <? t0 then 0 else u32 (l_expires l - t0)) with (remains t0 l).
  - destruct (fprintf_content path (lease_record l (remains t0 l)) s1) as (s2 & E2 & H2 & Hf & _).
    exists s2. split; [done|]. split; [by transitivity s1|]. rewrite Hf.
    unfold content_of. by rewrite Hos.
  - unfold remains. destruct (Z.ltb_spec (l_expires l) t0); [done|].
    destruct (remains_u32 l Hwf); [done|lia].
Qed.

Lemma write_records_ok path ls s :
  Forall wf_lease ls → c_remaining (cfg s) ≠ 0 → is_Some (files (env (os s)) !! path) →
  ∃ s', write_leases_loop path t0 ls s = Ok (tt, s') ∧ quiet s s' ∧
    files (env (os s')) !! path = Some (content_of path s ++ image t0 ls).
Proof.
  intros Hls. revert s. induction Hls as [|l ls Hl Hls IH]; intros s Hrem [c Hc].
  { exists s. split; [done|]. split; [done|]. unfold content_of, image. rewrite Hc.
    by rewrite app_nil_r. }
  cbn [write_leases_loop]. unfold image, written. destruct (decide (l_yiaddr l = 0)) as [Hy|Hy].
  - rewrite filter_cons_False by auto. rewrite Hy. cbn [negb Z.eqb when].
    rewrite bind_ret. by apply IH.
  - rewrite filter_cons_True by done. destruct (write_one_ok path l s Hl Hrem Hy)
      as (s1 & E1 & H1 & Hf1). rewrite (bind_Ok _ _ _ _ _ E1).
    destruct (IH s1) as (s2 & E2 & H2 & Hf2); [by rewrite (qu_cfg _ _ H1)|by rewrite Hf1|].
    exists s2. split; [done|]. split; [by transitivity s1|]. rewrite Hf2. unfold content_of at 1.
    rewrite Hf1. cbn [default from_option id]. rewrite fmap_cons. cbn [concat].
    by rewrite <- (assoc_L (++)).
Qed.

Lemma write_leases_image path s :
  table_ok (leases s) → c_lease_file (cfg s) = Some path → path ∉ unwritable (env (os s)) →
  c_remaining (cfg s) ≠ 0 → c_notify_file (cfg s) = None →
  ∃ s', write_leases s = Ok (tt, s') ∧ quiet s s' ∧
    files (env (os s')) !! path = Some (image t0 (leases s)).
Proof.
  intros Hok Hpath Hw Hrem Hnote. unfold write_leases.
  destruct (time0_now s) as (s1 & E1 & H1 & Hos). rewrite (bind_Ok _ _ _ _ _ E1), bind_gets.
  rewrite (qu_cfg _ _ H1), Hpath.
  assert (∃ s2, lib (fopen_w path) s1 = Ok (true, s2) ∧ quiet s1 s2 ∧
    files (env (os s2)) !! path = Some []) as (s2 & E2 & H2 & Hf2).
  { unfold lib, fopen_w. rewrite bind_gets, Hos, bool_decide_eq_false_2 by done.
    eexists. split; [done|]. split; [by split|]. simpl. by rewrite lookup_insert_eq. }
  rewrite (bind_Ok _ _ _ _ _ E2). cbn [negb]. rewrite bind_gets.
  assert (quiet s s2) as Hq2 by by transitivity s1.
  destruct (write_records_ok path (leases s) s2) as (s3 & E3 & H3 & Hf3);
    [apply Hok|by rewrite (qu_cfg _ _ Hq2)|by rewrite Hf2|].
  rewrite (qu_leases _ _ Hq2), (bind_Ok _ _ _ _ _ E3), Hnote. exists s3. split; [done|].
  split; [by transitivity s2|]. rewrite Hf3. unfold content_of. by rewrite Hf2.
Qed.
End writing.

(** ** Reading *)
Lemma remains_nonneg t l : 0 ≤ remains t l.
Proof. unfold remains. destruct (Z.ltb_spec (l_expires l) t); lia. Qed.

Section reading.
Context `{net : !Net}.
Variables t0 t1 : Z.
Hypothesis Hclock : ∀ k, clock k = t1.
Hypothesis Ht1 : 0 < t1 < 2 ^ 32.
Hypothesis Ht0 : is_u32 t0.
Implicit Types s : srv.

(** The records that read_leases takes: the comparison is one of addresses as
    they are stored, in network order. *)
Definition kept (c : server_config_t) (ls : list lease) : list lease :=
  filter (λ l, c_start c ≤ l_yiaddr l ≤ c_end c) ls.

(** A lease that can be read back. *)
Record readable (l : lease) : Prop := {
  ra_wf : wf_lease l;
  ra_ip : l_yiaddr l ≠ 0;
  ra_host : 0 ∈ l_hostname l;
  ra_time : t1 + remains t0 l < 2 ^ 32
}.

(** Leases with different addresses and different hardware addresses. *)
Definition distinct (l l' : lease) : Prop :=
  l_yiaddr l ≠ l_yiaddr l' ∧ (l_chaddr l = blank_chaddr ∨ l_chaddr l ≠ l_chaddr l').

Lemma restored_kept done_ l :
  Forall (λ l', distinct l l') done_ → l_yiaddr l ≠ 0 →
  (λ x, if clears (l_chaddr l) (l_yiaddr l) x then blank_lease else x)
    <$> (restored t0 t1 <$> done_) = restored t0 t1 <$> done_.
Proof.
  intros Hd Hy. induction Hd as [|x xs [Hxy Hxm] _ IH]; [done|]. rewrite !fmap_cons, IH. f_equal.
  destruct (clears _ _ _) eqn:E; [|done]. exfalso.
  unfold clears in E. apply orb_true_iff in E as [E|E]; apply andb_true_iff in E as [E1 E2].
  - apply bool_decide_eq_true in E2. cbn [restored l_chaddr] in E2.
    destruct Hxm as [Hb|Hne]; [|congruence]. rewrite Hb in E1. done.
  - apply Z.eqb_eq in E2. cbn [restored l_yiaddr] in E2. congruence.
Qed.

Lemma blanks_kept ch yi n :
  (λ x, if clears ch yi x then blank_lease else x) <$> replicate n blank_lease
    = replicate n blank_lease.
Proof.
  induction n as [|n IH]; [done|]. cbn [replicate]. rewrite fmap_cons, IH.
  by destruct (clears _ _ _).
Qed.

(** The first free entry is used. *)
Lemma oldest_first done_ n k :
  Forall (λ l, t1 ≤ l_expires l) done_ →
  oldest_loop (done_ ++ replicate (S n) blank_lease) k None t1 = Some (k + length done_)%nat.
Proof.
  intros Hd. revert k. induction Hd as [|x xs Hx _ IH]; intros k; cbn [app oldest_loop].
  - cbn [replicate oldest_loop]. change (l_expires blank_lease) with 0.
    rewrite (proj2 (Z.ltb_lt _ _)) by lia. rewrite Nat.add_0_r. generalize (S k).
    induction n as [|n IHn]; intros j; [done|]. cbn [replicate oldest_loop]. apply IHn.
  - rewrite (proj2 (Z.ltb_ge _ _)) by done. rewrite IH. f_equal. simpl. lia.
Qed.

Lemma bytes_cstr_short h :
  0 ∈ h → (length (bytes_cstr h) < length h)%nat.
Proof.
  intros Hin. unfold bytes_cstr. destruct (list_find (λ b, b = 0) h) as [[k b]|] eqn:E.
  - apply list_find_Some in E as (Hk & _). apply lookup_lt_Some in Hk. rewrite length_take. lia.
  - apply list_find_None_1 in E. rewrite Forall_forall in E. by destruct (E 0).
Qed.

Lemma add_restored done_ n l s :
  leases s = (restored t0 t1 <$> done_) ++ replicate (S n) blank_lease →
  Forall (λ l', distinct l l') done_ → Forall (λ l', t1 ≤ l_expires (restored t0 t1 l')) done_ →
  readable l →
  ∃ s', add_lease (l_chaddr l) (l_yiaddr l) (remains t0 l) (Some (bytes_cstr (l_hostname l))) s
      = Ok (Some (length done_), s') ∧ cfg s' = cfg s ∧ os s' = os s ∧
    leases s' = (restored t0 t1 <$> done_ ++ [l]) ++ replicate n blank_lease.
Proof.
  intros Hls Hd Ht [[] Hy Hh Hrt]. pose proof (remains_nonneg t0 l) as Hrn. unfold add_lease, clear_lease, oldest_expired_lease.
  rewrite (bind_Ok _ (modify _) s tt _ eq_refl), !bind_assoc.
  set (s0 := set_leases _ s).
  assert (is_u32 t1) as Hu by (unfold is_u32; lia).
  destruct (time0_now t1 Hclock Hu s0) as (s1 & E1 & H1 & Hos1).
  rewrite (bind_Ok _ _ _ _ _ E1), !bind_assoc, bind_gets, bind_ret.
  assert (leases s1 = (restored t0 t1 <$> done_) ++ replicate (S n) blank_lease) as Hl1.
  { rewrite (qu_leases _ _ H1). unfold s0. cbn [leases set_leases]. rewrite Hls, fmap_app.
    by rewrite restored_kept, blanks_kept. }
  rewrite Hl1, oldest_first by by rewrite Forall_fmap. rewrite length_fmap. cbn [Nat.add].
  destruct (time0_now t1 Hclock Hu s1) as (s2 & E2 & H2 & Hos2).
  rewrite (bind_Ok _ _ _ _ _ E2), bind_gets, (qu_leases _ _ H2), Hl1.
  rewrite lookup_app_r by (rewrite length_fmap; lia). rewrite length_fmap, Nat.sub_diag.
  cbn [replicate]. change ((blank_lease :: ?x) !! 0%nat) with (Some blank_lease). cbv iota.
  cbn [default from_option id]. unfold strcpy_bytes.
  pose proof (bytes_cstr_short _ Hh) as Hlt. rewrite wl_hostname in Hlt.
  change (length (l_hostname blank_lease)) with HOSTNAME_LEN.
  rewrite (proj2 (Nat.ltb_lt _ _)) by done. eexists. split; [done|].
  split; [cbn [cfg set_leases]; by rewrite (qu_cfg _ _ H2), (qu_cfg _ _ H1)|].
  split; [cbn [os set_leases]; by rewrite Hos2, Hos1|].
  cbn [leases set_leases]. rewrite fmap_app, <- (assoc_L (++)).
  rewrite insert_app_r_alt by (rewrite length_fmap; lia). rewrite length_fmap, Nat.sub_diag.
  f_equal. cbn [fmap list_fmap app]. change (<[0%nat:=?x]> (?y :: ?z)) with (x :: z). f_equal.
  unfold restored. f_equal.
  - unfold u32. apply Z.mod_small. lia.
  - f_equal. change (l_hostname blank_lease) with (replicate 24 0).
    rewrite drop_replicate. unfold HOSTNAME_LEN in Hlt.
    replace (24 - length (bytes_cstr (l_hostname l)))%nat
      with (S (24 - S (length (bytes_cstr (l_hostname l))))) by lia. done.
Qed.

Lemma distinct_rows done_ l todo :
  ForallOrdPairs (λ x y, distinct y x) (done_ ++ l :: todo) → Forall (λ l', distinct l l') done_.
Proof.
  induction done_ as [|x xs IH]; [constructor|]. simpl. inversion_clear 1 as [|? ? Hx Hxs].
  constructor; [|by apply IH]. apply Forall_app in Hx as [_ Hx]. by apply Forall_cons in Hx as [? _].
Qed.

Lemma distinct_skip done_ l todo :
  ForallOrdPairs (λ x y, distinct y x) (done_ ++ l :: todo) →
  ForallOrdPairs (λ x y, distinct y x) (done_ ++ todo).
Proof.
  induction done_ as [|x xs IH]; simpl; inversion_clear 1 as [|? ? Hx Hxs]; [done|].
  constructor; [|by apply IH]. apply Forall_app in Hx as [Hx1 Hx2].
  apply Forall_cons in Hx2 as [_ Hx2]. by apply Forall_app.
Qed.

Lemma written_distinct ls :
  table_ok ls → ForallOrdPairs (λ x y, distinct y x) (written ls).
Proof.
  intros [_ Hips Hmacs]. induction ls as [|l ls IH]; [constructor|]. unfold written.
  assert (ForallOrdPairs (λ x y, distinct y x) (written ls)) as IH'.
  { apply IH; intros i j l1 l2 Hi Hj E Hne.
    - by specialize (Hips (S i) (S j) l1 l2 Hi Hj E Hne) as [= ->].
    - by specialize (Hmacs (S i) (S j) l1 l2 Hi Hj E Hne) as [= ->]. }
  destruct (decide (l_yiaddr l = 0)) as [Hy|Hy]; [by rewrite filter_cons_False by auto|].
  rewrite filter_cons_True by done. constructor; [|done]. apply Forall_forall. intros x Hx.
  apply list_elem_of_filter in Hx as [Hxy Hx]. apply list_elem_of_lookup in Hx as [j Hj].
  split; [|destruct (decide (l_chaddr x = blank_chaddr)) as [|Hb]; [by left|right]]; intros E.
  - by specialize (Hips (S j) 0%nat x l Hj eq_refl E Hxy).
  - by specialize (Hmacs (S j) 0%nat x l Hj eq_refl E Hb).
Qed.

Lemma read_records_ok fuel i done_ todo m s :
  (length todo < fuel)%nat → c_remaining (cfg s) ≠ 0 →
  Forall wf_lease todo → Forall readable (done_ ++ kept (cfg s) todo) →
  ForallOrdPairs (λ x y, distinct y x) (done_ ++ todo) →
  i + Z.of_nat (length (kept (cfg s) todo)) ≤ c_max_leases (cfg s) →
  leases s = (restored t0 t1 <$> done_)
               ++ replicate (length (kept (cfg s) todo) + m) blank_lease →
  ∃ s', read_leases_loop fuel i (concat ((λ l, lease_record l (remains t0 l)) <$> todo)) s
      = Ok (tt, s') ∧ cfg s' = cfg s ∧
    leases s' = (restored t0 t1 <$> done_ ++ kept (cfg s) todo) ++ replicate m blank_lease.
Proof.
  revert i done_ todo s. induction fuel as [|fuel IH]; intros i done_ todo s Hfu Hrem Hwf Hrd Hdis
    Hmax Hls; [lia|]. cbn [read_leases_loop]. rewrite bind_gets.
  destruct (Z.ltb_spec i (c_max_leases (cfg s))) as [Hi|Hi]; cbn [negb].
  2:{ assert (kept (cfg s) todo = []) as Hk by (apply nil_length_inv; lia).
      exists s. rewrite Hk, app_nil_r in *. by rewrite Hls. }
  destruct todo as [|l todo].
  { exists s. cbn [kept] in *. rewrite app_nil_r in *. by rewrite Hls. }
  apply Forall_cons in Hwf as [Hl Hwf]. rewrite fmap_cons. cbn [concat length] in *.
  pose proof (lease_record_length l (remains t0 l) Hl) as Hlen.
  rewrite length_app, Hlen, (proj2 (Nat.ltb_ge _ _)) by lia.
  rewrite take_app_length', drop_app_length' by done.
  assert (is_u32 (remains t0 l)) as Hr.
  { destruct Hl. unfold is_u32, remains in *.
    destruct (Z.ltb_spec (l_expires l) t0); lia. }
  rewrite parse_lease_record by done. cbn [l_yiaddr l_chaddr l_expires l_hostname].
  destruct (decide (c_start (cfg s) ≤ l_yiaddr l ≤ c_end (cfg s))) as [Hin|Hout].
  - rewrite !(proj2 (Z.leb_le _ _)) by lia. cbn [andb]. unfold kept in *.
    rewrite filter_cons_True in * by done. cbn [length] in *.
    rewrite (proj2 (Z.eqb_neq _ 0)) by done. rewrite bind_ret, ntohl_htonl by done.
    destruct (add_restored done_ (length (kept (cfg s) todo) + m) l s) as (s1 & E1 & Hc & Hos & Hl1).
    + done.
    + by apply distinct_rows in Hdis.
    + apply Forall_app in Hrd as [Hrd _]. eapply Forall_impl; [done|]. intros x [].
      cbn [restored l_expires]. pose proof (remains_nonneg t0 x). lia.
    + rewrite Forall_app, Forall_cons in Hrd. naive_solver.
    + rewrite (bind_Ok _ _ _ _ _ E1). edestruct (IH (i + 1) (done_ ++ [l]) todo s1)
        as (s2 & E2 & Hc2 & Hl2); rewrite ?Hc; unfold kept; try done; try lia.
      * by rewrite <- (assoc_L (++)).
      * by rewrite <- (assoc_L (++)).
      * exists s2. split; [done|]. rewrite Hc2, Hl2, Hc. by rewrite <- (assoc_L (++)).
  - assert ((c_start (cfg s) <=? l_yiaddr l) && (l_yiaddr l <=? c_end (cfg s)) = false) as ->.
    { apply andb_false_iff. rewrite !Z.leb_gt. lia. }
    unfold kept in *. rewrite filter_cons_False in * by done.
    apply IH; try done; [lia|by apply distinct_skip in Hdis].
Qed.
End reading.

(** A server whose table is empty reads the image of another one's table. *)
Lemma read_leases_image `{net : !Net} t0 t1 path ls n s :
  (∀ k, clock k = t1) → 0 < t1 < 2 ^ 32 → is_u32 t0 → table_ok ls →
  files (env (os s)) !! path = Some (image t0 ls) → leases s = replicate n blank_lease →
  c_remaining (cfg s) ≠ 0 → Forall (readable t0 t1) (kept (cfg s) (written ls)) →
  (length (kept (cfg s) (written ls)) ≤ n)%nat →
  Z.of_nat (length (kept (cfg s) (written ls))) ≤ c_max_leases (cfg s) →
  ∃ s', read_leases (Some path) s = Ok (tt, s') ∧ cfg s' = cfg s ∧
    leases s' = (restored t0 t1 <$> kept (cfg s) (written ls))
                  ++ replicate (n - length (kept (cfg s) (written ls))) blank_lease.
Proof.
  intros Hclock Ht1 Ht0 Hok Hfile Hls Hrem Hrd Hn Hmax. unfold read_leases.
  assert (lib (fopen_r path) s = Ok (Some (image t0 ls), s)) as E.
  { unfold lib, fopen_r, gets. rewrite Hfile. by destruct s. }
  rewrite (bind_Ok _ _ _ _ _ E). unfold image.
  assert (Forall wf_lease (written ls)) as Hwf .
  { apply Forall_forall. intros x [_ Hx]%list_elem_of_filter. revert x Hx. apply Forall_forall, Hok. }
  apply (read_records_ok t0 t1 Hclock Ht1 Ht0 _ 0 [] (written ls)
           (n - length (kept (cfg s) (written ls)))%nat); try done.
  - clear -Hwf. apply Nat.lt_succ_r. induction Hwf as [|l xs Hl _ IH]; [done|].
    rewrite fmap_cons. cbn [concat length]. rewrite length_app, lease_record_length by done. lia.
  - by apply written_distinct.
  - rewrite Hls. cbn [fmap list_fmap app]. f_equal. lia.
Qed.
