(* ===== verification/DhcpLive.v ===== *)
(** * The DHCP server: progress

    When the environment does its part, the server finds a free address, renews
    the lease of a client and refuses a request for a foreign address; nothing
    stops it on the way. *)
From S2P Require Import Prelude CLib Heap System Bytes Genconfig GenconfigSpec GenconfigOps.
From S2P Require Import GenconfigFile Cconfig SystemApi Syslog LibEnds Dhcp DhcpOptions.
From S2P Require Import DhcpPacket DhcpLeases DhcpTable DhcpFiles DhcpServer Dhcpd DhcpInv.
From S2P Require Import DhcpReply DhcpChoice DhcpEvents DhcpLoop.

(** A call with a specification that cannot fault. *)
Lemma wp_total {S A} (m : M S A) (Q : A → S → Prop) s :
  wp any_fault m Q s → wp no_fault m (λ _ _, True) s → ∃ a s', m s = Ok (a, s') ∧ Q a s'.
Proof. unfold wp. destruct (m s) as [[a s']|e|]; [eauto|done..]. Qed.

Definition ARP_FILE : str := lit "/proc/net/arp".

Section live.
Context `{net : !Net, ifs : !Interfaces, svc : !Services} {F : fault → Prop}.
Implicit Types (s : srv) (p : dhcpMessage).

(** ** Options of a received message *)
Lemma ack_time_total p os s :
  holds (options p) os → (∀ d, lookup_opt DHCP_LEASE_TIME os = Some d → (4 ≤ length d)%nat) →
  wp F (ack_time p) (λ _ s', s' = s) s.
Proof.
  intros Hos Hd. unfold ack_time. apply wp_gets, wp_of_res.
  destruct (get_option_encoded p DHCP_LEASE_TIME os Hos) as [data ->]; [done|].
  destruct (lookup_opt _ _) as [d|]; [|by apply wp_ret]. specialize (Hd d eq_refl).
  apply wp_of_res. unfold get4. rewrite (proj2 (Nat.ltb_ge _ _)) by (rewrite length_app; lia).
  by apply wp_ret.
Qed.

Lemma ack_hostname_total p os s :
  wf_message p → holds (options p) os →
  wp F (ack_hostname p) (λ h s', s' = s ∧ host_fits (Some h)) s.
Proof.
  intros Hp Hos. pose proof (ack_hostname_ok p s Hp) as Hok. unfold ack_hostname in *.
  destruct (get_option_encoded p DHCP_HOST_NAME os Hos) as [data E]; [done|].
  by rewrite E in *.
Qed.

(** ** Sending *)
Lemma checked_dest_total m d σ :
  is_Some (files (env σ) !! ARP_FILE) → ∃ r, checked_dest m d σ = Ok (r, σ).
Proof.
  intros [content Hc]. unfold checked_dest. destruct (_ =? INADDR_BROADCAST); [by eexists|].
  unfold get_hwaddr_from_arptable. rewrite bind_assoc. unfold fopen_r. rewrite bind_gets.
  change (lit "/proc/net/arp") with ARP_FILE. rewrite Hc.
  set (addr := if negb _ then _ else _).
  destruct (arptable_runs (S (length content)) (inet_ntoa addr) 32 true content) as [r E]; [lia|].
  rewrite E. destruct r as [hw|]; [|by eexists].
  change (1 =? 0) with false. cbv iota. rewrite bind_assoc.
  unfold of_res, mbind, M_bind, mret, M_ret. cbv beta iota.
  change (1 =? 0) with false. cbv iota. by destruct (bool_decide _); eexists.
Qed.

Lemma send_packet_total p type server yi opts m fb s :
  replies p type server yi opts m → is_Some (files (env (os s)) !! ARP_FILE) →
  wp F (send_packet m fb) (λ r s', leases s' = leases s ∧ cfg s' = cfg s ∧
    statics s' = statics s) s.
Proof.
  intros Hm Harp. unfold send_packet. destruct (negb _).
  { eapply wp_mono; [apply (transmit_ok (λ _, False))|]. intros r s' (_ & Hl & _ & []). done. }
  unfold send_packet_to_client. apply wp_bind.
  destruct (checked_dest_total m (client_dest m fb) (os s) Harp) as [dest E].
  apply (wp_Ok _ _ _ dest s); [unfold lib; rewrite E; by destruct s|]. apply wp_gets.
  destruct (raw_packet_ok m (c_server (cfg s)) SERVER_PORT dest.1 CLIENT_PORT)
    as (ip & udp & E' & _); [apply Hm|rewrite (re_head _ _ _ _ _ _ Hm); byte_list|].
  apply wp_of_res. rewrite E'.
  eapply wp_mono; [apply (transmit_ok (λ _, False))|]. intros r s' (_ & Hl & _ & []). done.
Qed.

(** ** ACK *)

(** The log is off: the flag that sendOffer sets is not set (and reading it
    leaves the kernel's ARP table alone). *)
Definition log_off (s : srv) : Prop :=
  ∃ σ, syslog_get_flag (lit "dhcpd") (os s) = Ok (0, σ) ∧
    files (env σ) !! ARP_FILE = files (env (os s)) !! ARP_FILE.

Lemma log_offer_off fmt args s :
  log_off s → ∃ s', log_offer fmt args s = Ok (tt, s') ∧ quiet s s' ∧
    files (env (os s')) !! ARP_FILE = files (env (os s)) !! ARP_FILE.
Proof.
  intros (σ & E & He). unfold log_offer. eexists. split; [|split].
  - unfold mbind at 1, M_bind at 1, lib at 1. rewrite E. done.
  - by split.
  - done.
Qed.

(** The line of an ACK can be written: the log is off, or it takes the line. *)
Definition logs (yi : Z) (mac : bytes) (s : srv) : Prop :=
  ∃ s', log_offer (lit "%s: %s (MAC : %02X-%02X-%02X-%02X-%02X-%02X)")
    (AStr SYSLOG_MSG_DHCPD_OFFER_IP :: AStr (inet_ntoa yi) :: (AInt <$> take 6 mac)) s = Ok (tt, s') ∧
    files (env (os s')) !! ARP_FILE = files (env (os s)) !! ARP_FILE.

Lemma log_off_logs yi mac s : log_off s → logs yi mac s.
Proof. intros H. edestruct log_offer_off as (s' & E & _ & Ha); [done|]. by exists s'. Qed.

(** A host of the pool's network gets the options of the configuration. *)
Lemma ack_options_total p type yi m t s :
  wf_cfg (cfg s) → yiaddr m = yi → other_net (cfg s) yi = false →
  replies p type (c_server (cfg s)) yi [(DHCP_LEASE_TIME, le_bytes 4 (htonl t))] m →
  wp F (ack_options m) (λ m' s', s' = s ∧ ∃ opts', replies p type (c_server (cfg s)) yi opts' m') s.
Proof.
  intros [(os & Hos & Hwf) _] Hy Hnet Hm. unfold ack_options. apply wp_gets.
  rewrite Hy, Hnet, Hos.
  enough (∀ opts m, replies p type (c_server (cfg s)) yi opts m →
    wp F (add_options mret (encode_opt <$> os) m) (λ m' s', s' = s ∧
      ∃ opts', replies p type (c_server (cfg s)) yi opts' m') s) as H by by eapply H.
  clear m Hy Hm Hos. induction Hwf as [|[c d] os Ho Hwf IH]; intros opts m Hm.
  { apply wp_ret. eauto. }
  rewrite fmap_cons. cbn [add_options]. change (rd (encode_opt (c, d)) OPT_CODE) with (Ok c).
  apply wp_of_res. destruct (c =? DHCP_LEASE_TIME); [apply wp_bind, wp_ret; by eapply IH|].
  apply wp_bind, wp_bind, wp_ret. eapply wp_mono; [by apply add_option_ok|].
  intros m' ? (-> & opts' & _ & Hm'). by eapply IH.
Qed.

(** What a message must hold for the handlers to read it. *)
Record legible (p : dhcpMessage) (po : list (Z * bytes)) : Prop := {
  lg_wf : wf_message p;
  lg_holds : holds (options p) po;
  lg_time d : lookup_opt DHCP_LEASE_TIME po = Some d → (4 ≤ length d)%nat
}.

Lemma ack_log_total p yi t s :
  other_net (cfg s) yi = false → logs yi (chaddr p) s →
  wp F (if other_net (cfg s) yi then
          '(r, wan_name) ← lib (check_ipclone_ipaddr (chaddr p));
          if r =? 0 then mret t
          else
            t ← lib (get_ipclone_lease_time wan_name);
            lib (set_ipclone_address wan_name);;
            log_offer (lit "%s: %s (TWIN IP)")
              [AStr SYSLOG_MSG_DHCPD_OFFER_IP; AStr (inet_ntoa yi)];;
            mret (u32 t)
        else
          log_offer (lit "%s: %s (MAC : %02X-%02X-%02X-%02X-%02X-%02X)")
            (AStr SYSLOG_MSG_DHCPD_OFFER_IP :: AStr (inet_ntoa yi)
               :: (AInt <$> take 6 (chaddr p)));;
          mret t) (λ t' s', t' = t ∧ quiet s s' ∧
    files (env (os s')) !! ARP_FILE = files (env (os s)) !! ARP_FILE) s.
Proof.
  intros Hnet (s' & E & He). rewrite Hnet.
  pose proof (log_offer_quiet (lit "%s: %s (MAC : %02X-%02X-%02X-%02X-%02X-%02X)")
    (AStr SYSLOG_MSG_DHCPD_OFFER_IP :: AStr (inet_ntoa yi) :: (AInt <$> take 6 (chaddr p))) s) as Hq.
  unfold wp in Hq. rewrite E in Hq. apply wp_bind, (wp_Ok _ _ _ _ _ E). by apply wp_ret.
Qed.

Lemma sendACK_total p po yi s :
  srv_ok s → legible p po → is_u32 yi → other_net (cfg s) yi = false → logs yi (chaddr p) s →
  is_Some (files (env (os s)) !! ARP_FILE) →
  wp F (sendACK p yi) (λ _ s', cfg s' = cfg s) s.
Proof.
  intros Hok [Hp Hpo Htime] Hu Hnet Hlog Harp. unfold sendACK.
  eapply wp_seq; [apply init_packet_ok; [done|by right; left]|]. intros m ? [-> Hm].
  eapply wp_seq; [by eapply ack_time_total|]. intros t ? ->. apply wp_gets.
  assert (logs yi (chaddr (set_yiaddr yi m)) s) as Hlog'.
  { change (chaddr (set_yiaddr yi m)) with (chaddr m). by rewrite (re_chaddr _ _ _ _ _ _ Hm). }
  eapply wp_seq; [by apply ack_log_total|]. intros ? s1 (-> & Hq & He).
  assert (replies p DHCPACK (c_server (cfg s1)) yi [] (set_yiaddr yi m)) as Hm'.
  { rewrite (qu_cfg _ _ Hq). by eapply replies_yiaddr. }
  eapply wp_seq; [by apply lease_time_option_ok|]. intros m1 ? [-> Hm1].
  eapply wp_seq; [apply (ack_options_total p DHCPACK yi m1 t);
    [apply (quiet_ok _ _ Hq Hok)|apply (re_yiaddr _ _ _ _ _ _ Hm1)|by rewrite (qu_cfg _ _ Hq)|exact Hm1]|].
  intros m2 ? (-> & opts & Hm2).
  eapply wp_seq; [by apply add_bootp_options_ok|]. intros m3 ? [-> Hm3].
  eapply wp_seq; [eapply send_packet_total; [done|by rewrite He]|].
  intros r s2 (Hl & Hc & Hs). rewrite (qu_cfg _ _ Hq) in Hc.
  destruct (r <? 0); [by apply wp_ret|].
  eapply wp_seq; [by eapply ack_hostname_total|]. intros h ? [-> Hh].
  assert (table_ok (leases s2)) as Htab by (rewrite Hl, (qu_leases _ _ Hq); apply Hok).
  rewrite (re_chaddr _ _ _ _ _ _ Hm3).
  pose proof (add_lease_ok (chaddr p) yi t (Some h) s2 Htab (wm_chaddr _ Hp) (wm_chaddr_b _ Hp) Hu Hh)
    as Hadd. apply wp_inv in Hadd as [(r' & s3 & E & _ & Hsame & _)|(? & _ & [])].
  apply wp_bind, (wp_Ok _ _ _ _ _ E). apply wp_bind. unfold wp at 1, lib, gets. cbv beta iota.
  unfold when. assert (cfg s3 = cfg s) as Hc3 by (destruct Hsame; congruence).
  destruct (get_dhcp_access_policy _); by apply wp_bind, wp_ret.
Qed.

(** ** The lease file *)
Lemma write_loop_total path t ls s :
  wp F (write_leases_loop path t ls) (λ _ s', quiet s s') s.
Proof.
  revert s. induction ls as [|l ls IH]; intros s; [by apply wp_ret|]. cbn [write_leases_loop].
  eapply wp_seq with (P := λ _ s1, quiet s s1).
  - unfold when. destruct (negb _); [|by apply wp_ret]. apply wp_gets.
    eapply wp_seq with (P := λ _ s1, quiet s s1).
    + destruct (negb _); [|by apply wp_ret]. unfold lease_expired. apply wp_bind.
      eapply wp_seq; [apply wp_time0|]. intros now s1 Hq. by apply wp_ret, wp_ret.
    + intros r s1 [].  by split.
  - intros x s1 H1. eapply wp_mono; [apply IH|]. intros y s2 H2. by transitivity s1.
Qed.

Lemma write_leases_total path s :
  c_lease_file (cfg s) = Some path → c_notify_file (cfg s) = None →
  wp F write_leases (λ _ s', quiet s s') s.
Proof.
  intros Hpath Hnote. unfold write_leases. eapply wp_seq; [apply wp_time0|]. intros now s1 H1.
  cbv beta in H1. apply wp_gets. rewrite (qu_cfg _ _ H1), Hpath, Hnote.
  assert (∃ b s2, lib (fopen_w path) s1 = Ok (b, s2) ∧ quiet s1 s2) as (b & s2 & E & H2).
  { unfold lib, fopen_w. rewrite bind_gets.
    destruct (bool_decide _); eexists _, _; (split; [done|by split]). }
  apply wp_bind, (wp_Ok _ _ _ _ _ E). assert (quiet s s2) by by transitivity s1.
  destruct (negb b); [by apply wp_ret|]. apply wp_gets.
  eapply wp_seq; [apply write_loop_total|]. intros u s3 H3. apply wp_ret. by transitivity s2.
Qed.

(** ** REQUEST *)
Lemma handle_request_path p po d l s :
  legible p po → lookup_opt DHCP_MESSAGE_TYPE po = Some (DHCPREQUEST :: d) →
  find_lease_by_chaddr (chaddr p) s = Ok (l, s) →
  handle_packet p s = handle_request p l s.
Proof.
  intros [_ Hpo _] Htype Hl. unfold handle_packet.
  destruct (get_option_encoded p DHCP_MESSAGE_TYPE po Hpo) as [data ->]; [done|].
  rewrite Htype, bind_of_res, (bind_Ok _ _ _ _ _ Hl). done.
Qed.

Lemma find_by_chaddr_unique i l s :
  table_ok (leases s) → leases s !! i = Some l → l_chaddr l ≠ blank_chaddr →
  find_lease_by_chaddr (l_chaddr l) s = Ok (Some (i, l), s).
Proof.
  intros Hok Hi Hb. destruct (find_by_chaddr_cases (l_chaddr l) s) as [[_ Hall]|(j & l' & E & Hj & Hc)].
  - rewrite Forall_lookup in Hall. by destruct (Hall i l Hi).
  - assert (i = j) as <- by (by eapply (to_macs _ Hok)). by assert (l' = l) as -> by congruence.
Qed.

(** RENEWING: neither a server nor an address in the options. *)
Lemma renew_path p po l s :
  legible p po → lookup_opt DHCP_REQUESTED_IP po = None → lookup_opt DHCP_SERVER_ID po = None →
  l_yiaddr l.2 = ciaddr p →
  handle_request p (Some l) s = ((sendACK p (l_yiaddr l.2);; mret tt);; write_leases) s.
Proof.
  intros [_ Hpo _] Hreq Hid Hy. unfold handle_request.
  destruct (get_option_encoded p DHCP_REQUESTED_IP po Hpo) as [d1 ->]; [done|].
  destruct (get_option_encoded p DHCP_SERVER_ID po Hpo) as [d2 ->]; [done|].
  rewrite Hreq, Hid. destruct l as [i l]. cbn [snd] in *.
  unfold request_known, wrong_net. rewrite Hy, Z.eqb_refl. done.
Qed.

(** INIT-REBOOT of a host without an entry for the address [a]. *)
Record rebooting (p : dhcpMessage) (po : list (Z * bytes)) (a : Z) (s : srv) : Prop := {
  rb_legible : legible p po;
  rb_type : ∃ d, lookup_opt DHCP_MESSAGE_TYPE po = Some (DHCPREQUEST :: d);
  rb_requested : lookup_opt DHCP_REQUESTED_IP po = Some (le_bytes 4 a);
  rb_server : lookup_opt DHCP_SERVER_ID po = None;
  rb_u32 : is_u32 a;
  rb_entry : Forall (λ l, l_chaddr l ≠ chaddr p) (leases s);
  rb_free : Forall (λ l, l_yiaddr l ≠ a) (leases s)
}.

Lemma reboot_path p po a s :
  rebooting p po a s →
  handle_packet p s = (request_unknown p (Some a) None;; write_leases) s.
Proof.
  intros [Hp [d Htype] Hreq Hid Ha Hent _].
  destruct (find_by_chaddr_cases (chaddr p) s) as [[El _]|(i & l & _ & Hi & Hc)].
  2:{ rewrite Forall_lookup in Hent. by destruct (Hent i l Hi). }
  erewrite handle_request_path by done. destruct Hp as [_ Hpo _]. unfold handle_request.
  destruct (get_option_encoded p DHCP_REQUESTED_IP po Hpo) as [d1 ->]; [done|].
  destruct (get_option_encoded p DHCP_SERVER_ID po Hpo) as [d2 ->]; [done|].
  rewrite Hreq, Hid.
  assert (get4 (le_bytes 4 a ++ d1) = Ok a) as E.
  { unfold get4. rewrite (proj2 (Nat.ltb_ge _ _)) by (rewrite length_app, le_bytes_length; lia).
    rewrite take_app_length' by by rewrite le_bytes_length. rewrite of_le_bytes.
    rewrite Z.mod_small by done. done. }
  rewrite !bind_of_res, !bind_assoc, E, bind_of_res, !bind_ret. reflexivity.
Qed.

(** What happens behind the test for the reserved address of the client. *)
Lemma unknown_free p po a yi s :
  rebooting p po a s → find_static_lease_by_chaddr (chaddr p) s = Ok (yi, s) → yi = 0 ∨ yi = a →
  request_unknown p (Some a) None s =
    (if (ntohl a <? ntohl (c_start (cfg s))) || (ntohl (c_end (cfg s)) <? ntohl a)
     then sendNAK p;; mret tt
     else
       st ← find_static_lease_by_yiaddr a;
       match st with
       | Some _ => sendNAK p;; mret tt
       | None => sendACK p a;; mret tt
       end) s.
Proof.
  intros Hr Hst Hyi. unfold request_unknown. rewrite (bind_Ok _ _ _ _ _ Hst).
  assert (negb (yi =? 0) && negb (yi =? a) = false) as ->.
  { destruct Hyi as [-> | ->]; [done|]. rewrite Z.eqb_refl. apply andb_false_r. }
  destruct (find_by_yiaddr_cases a s) as [[E' _]|(i & l & _ & Hi & Hy)].
  2:{ pose proof (rb_free _ _ _ _ Hr) as Hfree. rewrite Forall_lookup in Hfree.
      by destruct (Hfree i l Hi). }
  rewrite (bind_Ok _ _ _ _ _ E'), bind_gets. reflexivity.
Qed.

Lemma sendNAK_total p s :
  wf_message p → wp F (sendNAK p) (λ _ s', cfg s' = cfg s) s.
Proof.
  intros Hp. unfold sendNAK.
  eapply wp_seq; [apply init_packet_ok; [done|by right; right]|]. intros m ? [-> Hm].
  unfold send_packet. destruct (negb _).
  { eapply wp_mono; [apply (transmit_ok (λ _, False))|]. by intros r s' (_ & _ & _ & []). }
  unfold send_packet_to_client. apply wp_bind, (wp_Ok _ _ _ (INADDR_BROADCAST, MAC_BCAST_ADDR) s);
    [by destruct s|]. apply wp_gets.
  destruct (raw_packet_ok m (c_server (cfg s)) SERVER_PORT INADDR_BROADCAST CLIENT_PORT)
    as (ip & udp & E' & _); [apply Hm|rewrite (re_head _ _ _ _ _ _ Hm); byte_list|].
  apply wp_of_res. cbn [fst]. rewrite E'.
  eapply wp_mono; [apply (transmit_ok (λ _, False))|]. by intros r s' (_ & _ & _ & []).
Qed.

(** ** find_address *)

(** No host has the address or is entitled to it. *)
Definition unclaimed (s : srv) (a : Z) : Prop :=
  ¬ reserved s a ∧ Forall (λ l, l_yiaddr l ≠ a) (leases s).

(** A conflict puts the probed address in the table, and no other. *)
Lemma check_ip_unclaimed a b s :
  table_ok (leases s) → is_u32 b → a ≠ 0 → a ≠ b → unclaimed s a →
  wp F (check_ip b) (λ _ s', table_ok (leases s') ∧ unclaimed s' a) s.
Proof.
  intros Hok Hb Ha Hne [Hres Hall]. unfold wp, check_ip.
  destruct (arpping (calls s) b =? 0); [|by split].
  set (s1 := Srv _ _ _ _ _ _ _).
  assert (host_fits None) as Hf by (split; [simpl; unfold HOSTNAME_LEN; lia|constructor]).
  assert (is_bytes blank_chaddr) as Hbl by by apply Forall_replicate.
  pose proof (add_lease_ok blank_chaddr b (c_conflict_time (cfg s)) None s1 Hok eq_refl Hbl Hb Hf)
    as Hw. apply wp_inv in Hw as [(r & s' & E & Hok' & Hr & _ & Hcase)|(? & _ & [])].
  rewrite (bind_Ok _ _ _ _ _ E). split; [done|]. split.
  { unfold reserved. by rewrite (sr_statics _ _ Hr). }
  assert (∀ j l, cleared blank_chaddr b (leases s1) !! j = Some l → l_yiaddr l ≠ a) as Hcl.
  { intros j l [->|[Hj _]]%cleared_lookup; [done|]. rewrite Forall_lookup in Hall. by eapply Hall. }
  apply Forall_lookup. intros j l Hj. destruct r as [i|].
  - destruct Hcase as (l' & _ & _ & Hi & _ & Hy & _ & _ & _ & _ & _ & Hother).
    destruct (decide (j = i)) as [->|Hji]; [congruence|]. rewrite Hother in Hj by done. by eapply Hcl.
  - rewrite (proj1 Hcase) in Hj. by eapply Hcl.
Qed.

Lemma find_address_loop_finds fuel ce local addr hi a s :
  table_ok (leases s) → 0 ≤ addr ≤ ntohl a → ntohl a ≤ hi → hi + 1 < 2 ^ 32 → is_u32 a →
  hi + 1 - addr < Z.of_nat fuel →
  ntohl a ≠ ntohl local → Z.land (ntohl a) 255 ≠ 0 → Z.land (ntohl a) 255 ≠ 255 →
  (∀ k, arpping k a ≠ 0) → unclaimed s a →
  wp F (find_address_loop fuel ce local addr hi) (λ r _, r ≠ 0) s.
Proof.
  intros Hok Haddr Hhi Hmax Hu Hf Hloc Hlo Hlo' Harp. revert addr s Hok Haddr Hf.
  induction fuel as [|fuel IH]; intros addr s Hok Haddr Hf Hun; [lia|].
  cbn [find_address_loop]. rewrite (proj2 (Z.ltb_ge _ _)) by lia.
  assert (u32 (addr + 1) = addr + 1) as -> by (unfold u32; rewrite Z.mod_small; lia).
  assert (∀ s', table_ok (leases s') → unclaimed s' a → addr ≠ ntohl a →
    wp F (find_address_loop fuel ce local (addr + 1) hi) (λ r _, r ≠ 0) s') as Hnext.
  { intros s' Hok' Hun' Hne. apply IH; [done|lia|lia|done]. }
  destruct (Z.eqb_spec addr (ntohl local)); [by apply Hnext; [..|congruence]|].
  destruct (Z.eqb_spec (Z.land addr 255) 0) as [|H0]; [by apply Hnext; [..|congruence]|].
  destruct (Z.eqb_spec (Z.land addr 255) 255); [by apply Hnext; [..|congruence]|].
  assert (ntohl (htonl addr) = addr) as Hn by (apply ntohl_htonl; split; lia).
  assert (addr = ntohl a → htonl addr = a) as Heq.
  { intros ->. apply ntohl_inj; [apply ntohl_range|done|done]. }
  assert (htonl addr ≠ 0) as Hnz by (intros Hz; rewrite Hz in Hn; by rewrite <- Hn in H0).
  assert (a ≠ 0) as Ha0 by by intros ->.
  apply wp_bind. unfold wp at 1.
  destruct (static_by_yiaddr_cases (htonl addr) s) as [[-> _]|(st & -> & Hres)].
  2:{ apply Hnext; [done..|]. intros E%Heq. rewrite E in Hres. by destruct Hun. }
  apply wp_bind. unfold wp at 1.
  assert (∀ s1, leases s1 = leases s → statics s1 = statics s →
    wp F (taken ← check_ip (htonl addr);
          if taken : bool then find_address_loop fuel ce local (addr + 1) hi
          else mret (htonl addr)) (λ r _, r ≠ 0) s1) as Hcheck.
  { intros s1 Hl Hs. assert (unclaimed s1 a) as Hun1 by (unfold unclaimed, reserved; by rewrite Hl, Hs).
    destruct (decide (addr = ntohl a)) as [E|Hne].
    - rewrite (Heq E). apply wp_bind. unfold wp at 1, check_ip.
      rewrite (proj2 (Z.eqb_neq _ _)) by done. by apply wp_ret.
    - eapply wp_seq; [apply (check_ip_unclaimed a); [by rewrite Hl|apply ntohl_range|done| |done]|].
      { intros E. by rewrite E, Hn in Hne. }
      intros [] s2 [Hok2 Hun2]; [by apply Hnext|by apply wp_ret]. }
  destruct (find_by_yiaddr_cases (htonl addr) s) as [[-> _]|(i & l & -> & Hi & Hy)].
  { apply wp_bind, wp_ret. cbn [negb]. by apply Hcheck. }
  assert (addr ≠ ntohl a) as Hne.
  { intros E%Heq. destruct Hun as [_ Hall]. rewrite Forall_lookup in Hall.
    destruct (Hall i l Hi). congruence. }
  destruct ce; [|by apply wp_bind, wp_ret, Hnext].
  unfold lease_expired. apply wp_bind, wp_bind. unfold wp at 1, time0. apply wp_ret.
  destruct (_ <? _); cbn [negb]; [by apply Hcheck|by apply Hnext].
Qed.

Lemma find_address_finds_ok ce local a s :
  srv_ok s → ifaddr IF_LOCAL = Some local → is_u32 local → is_u32 a → in_pool (cfg s) a →
  a ≠ local → Z.land (ntohl a) 255 ≠ 0 → Z.land (ntohl a) 255 ≠ 255 →
  (∀ k, arpping k a ≠ 0) → unclaimed s a →
  wp F (find_address ce) (λ r _, r ≠ 0) s.
Proof.
  intros [Hok [_ He] _] Hif Hl Ha [Hlo Hhi] Hne H0 H255 Harp Hun. unfold find_address.
  assert (∃ r mask, get_ifconfig IF_LOCAL (os s) = Ok (r, inet_ntoa local, mask, os s))
    as (r & mask & E).
  { unfold get_ifconfig. change (strcpy 16 IF_LOCAL) with (mret (M := M sys) IF_LOCAL).
    rewrite bind_ret, Hif. destruct (ifmask IF_LOCAL); by eexists _, _. }
  apply wp_bind, (wp_Ok _ _ _ (r, inet_ntoa local, mask) s).
  { unfold lib. rewrite E. by destruct s. }
  apply wp_gets. rewrite inet_addr_ntoa by done.
  pose proof (ntohl_range (c_start (cfg s))) as [Hr _].
  apply (find_address_loop_finds _ _ _ _ _ a); try done; try lia.
  intros E'. apply Hne. by apply ntohl_inj.
Qed.
End live.

(** A request that goes to sendNAK is refused. *)
Lemma nak_run `{net : !Net, ifs : !Interfaces, svc : !Services} p path s :
  wf_message p → c_lease_file (cfg s) = Some path → c_notify_file (cfg s) = None →
  ∃ s' o m, ((sendNAK p;; mret tt);; write_leases) s = Ok (tt, s') ∧ sent s' = sent s ++ [o] ∧
    leases s' = leases s ∧ carries (cfg s) m o ∧ replies p DHCPNAK (c_server (cfg s)) 0 [] m.
Proof.
  intros Hp Hpath Hnote.
  destruct (wp_total (sendNAK p) _ s (sendNAK_sends (λ _, False) p s Hp))
    as (r & s1 & E & Hl & o & m & Hev & Hc & Hm).
  { eapply wp_mono; [by eapply sendNAK_total|done]. }
  destruct (wp_inv write_leases (λ _ s', quiet s1 s') s1 (write_leases_total (F := no_fault) path s1
    ltac:(by rewrite (ev_cfg _ _ _ _ Hev)) ltac:(by rewrite (ev_cfg _ _ _ _ Hev))))
    as [([] & s2 & E2 & Hq)|(? & _ & [])].
  exists s2, o, m. rewrite bind_assoc, (bind_Ok _ _ _ _ _ E), bind_ret, E2.
  destruct Hq, Hev. split_and!; [done|congruence|congruence|done..].
Qed.
