(* ===== verification/DhcpSample.v ===== *)
(** * A configured DHCP server

    A home network: the pool 192.168.0.2-192.168.0.20, one reserved address, a
    quiet network, and a client's messages.  The theorems about the server are
    applied to it. *)
From S2P Require Import Prelude CLib Heap System Bytes Genconfig GenconfigSpec GenconfigOps.
From S2P Require Import GenconfigFile Cconfig SystemApi Syslog LibEnds Dhcp DhcpOptions.
From S2P Require Import DhcpPacket DhcpLeases DhcpTable DhcpFiles DhcpServer Dhcpd DhcpInv.
From S2P Require Import DhcpReply DhcpChoice DhcpEvents DhcpLoop DhcpStart DhcpLive.

Module Sample.
(** A clock that moves on at each reading; nobody answers to ARP, every message
    is sent. *)
#[export] Instance net : Net :=
  {| clock k := 1000 + Z.of_nat k; arpping _ _ := 1; send_result _ := 0 |}.
#[export] Instance ifs : Interfaces :=
  {| ifaddr _ := Some (htonl 0xc0a80001); ifmask _ := Some (htonl 0xffffff00) |}.
#[export] Instance resolver : Resolver := λ _, None.
#[export] Instance services : Services :=
  {| strtomac _ := replicate 6 0; check_unpermitted_chars _ := false;
     get_dhcp_access_policy _ := false; add_dhcp_access_host _ _ σ := σ;
     remove_dhcp_access_host _ σ := σ; get_dhcp_auto_detect_status _ _ := false;
     localtime _ := Tm 0 2012 1 1 1 1 1; get_ux_text_syslog _ := [];
     SYSLOG_MSG_DHCPD_OFFER_IP := lit "offer" |}.

Definition conf : str := lit "start 192.168.0.2
end 192.168.0.20 # comment
max_leases 4
max_static 3
option subnet 255.255.255.0
opt router 192.168.0.1
opt dns 168.126.63.1 168.126.63.2
option lease 7200
".
Definition mac : bytes := [0; 1; 2; 3; 4; 5] ++ replicate 10 0.
Definition mac' : bytes := [0; 9; 9; 9; 9; 9] ++ replicate 10 0.
Definition environment : osenv :=
  Env (<[ARP_FILE := lit "IP address"]> {[ DHCPD_CONF_FILE := conf ]}) ∅ ∅ [].
Definition off : srv := Srv [] [] zero_config 0 0 [] (Sys ∅ ∅ environment).

Definition state {A} (r : res (A * srv)) : srv := match r with Ok (_, s) => s | _ => off end.

Definition boot : res (option loop * srv) :=
  startup None 77 (Some (htonl 0xc0a80001, [1; 2; 3; 4; 5; 6])) off.
Definition booted : srv := state boot.

(** 192.168.0.7 is reserved for another host. *)
Definition ready : srv :=
  set_statics [SLease mac' (htonl 0xc0a80007) 0] booted.

(** The options of a message, and the message. *)
Definition field (opts : list (Z * bytes)) : bytes :=
  let e := encode opts ++ [DHCP_END] in e ++ replicate (308 - length e) 0.
Definition message (ch : bytes) (ci : Z) (opts : list (Z * bytes)) : dhcpMessage :=
  Msg BOOTREQUEST ETH_10MB ETH_10MB_LEN 0 1234 0 0 ci 0 0 0 ch (replicate 64 0)
      (replicate 128 0) (htonl DHCP_MAGIC) (field opts).

Definition discover_opts : list (Z * bytes) :=
  [(DHCP_MESSAGE_TYPE, [DHCPDISCOVER]); (DHCP_HOST_NAME, [104; 111; 115; 116])].
Definition discover : dhcpMessage := message mac 0 discover_opts.
Definition offered : srv := state (handle_packet discover ready).

Definition leased : Z := htonl 0xc0a80002.
Definition request_opts : list (Z * bytes) :=
  [(DHCP_MESSAGE_TYPE, [DHCPREQUEST]); (DHCP_REQUESTED_IP, le_bytes 4 leased);
   (DHCP_SERVER_ID, le_bytes 4 (htonl 0xc0a80001)); (DHCP_HOST_NAME, [104; 111; 115; 116])].
Definition request : dhcpMessage := message mac 0 request_opts.
Definition acked : srv := state (handle_packet request offered).

Definition renew_opts : list (Z * bytes) := [(DHCP_MESSAGE_TYPE, [DHCPREQUEST])].
Definition renew : dhcpMessage := message mac leased renew_opts.

(** INIT-REBOOT for an address of another network. *)
Definition foreign : Z := htonl 0x0a000005.
Definition foreign_opts : list (Z * bytes) :=
  [(DHCP_MESSAGE_TYPE, [DHCPREQUEST]); (DHCP_REQUESTED_IP, le_bytes 4 foreign)].
Definition reboot : dhcpMessage := message mac' 0 foreign_opts.

(** INIT-REBOOT of the host with the reserved address. *)
Definition own_opts : list (Z * bytes) :=
  [(DHCP_MESSAGE_TYPE, [DHCPREQUEST]); (DHCP_REQUESTED_IP, le_bytes 4 (htonl 0xc0a80007))].
Definition own : dhcpMessage := message mac' 0 own_opts.

Definition decline_opts : list (Z * bytes) := [(DHCP_MESSAGE_TYPE, [DHCPDECLINE])].
Definition decline : dhcpMessage := message mac 0 decline_opts.

Definition arrives (m : dhcpMessage) : input := Input true 1 false None (Some (548, m)) false.

(** ** Well-formedness *)
Lemma message_wf ch ci opts :
  bool_decide (length ch = 16%nat ∧ Forall (λ b, 0 ≤ b < 256) ch) = true →
  bool_decide (length (field opts) = 308%nat ∧ Forall (λ b, 0 ≤ b < 256) (field opts)) = true →
  wf_message (message ch ci opts).
Proof.
  intros [Hl Hb]%bool_decide_eq_true [Hl' Hb']%bool_decide_eq_true.
  split; try done; by apply Forall_replicate.
Qed.

Lemma field_holds opts :
  bool_decide (length (field opts) = 308%nat ∧ Forall (λ b, 0 ≤ b < 256) (field opts)) = true →
  Forall wf_opt opts → holds (field opts) opts.
Proof.
  intros [Hl Hb]%bool_decide_eq_true Ho. split; try done.
  unfold field. eexists. by rewrite <- (assoc_L (++)).
Qed.

Lemma wf_opts opts :
  forallb (λ o, (0 <? o.1) && (o.1 <? 255) && negb (o.1 =? DHCP_OPTION_OVER)
                && forallb (λ b, (0 <=? b) && (b <? 256)) o.2 && (length o.2 <? 256)%nat) opts
    = true → Forall wf_opt opts.
Proof.
  intros H. apply Forall_forall. intros o Ho. rewrite forallb_forall in H.
  specialize (H o). rewrite <- list_elem_of_In in H. specialize (H Ho).
  rewrite !andb_true_iff in H. destruct H as ((((H1 & H2) & H3) & H4) & H5).
  apply Z.ltb_lt in H1, H2. apply negb_true_iff, Z.eqb_neq in H3. apply Nat.ltb_lt in H5.
  split_and!; try done. apply Forall_forall. intros b Hb. rewrite forallb_forall in H4.
  specialize (H4 b). rewrite <- list_elem_of_In in H4. specialize (H4 Hb).
  apply andb_true_iff in H4 as [?%Z.leb_le ?%Z.ltb_lt]. by split.
Qed.

Lemma returned {A} (r : res (A * srv)) :
  match r with Ok _ => true | _ => false end = true → ∃ a, r = Ok (a, state r).
Proof. destruct r as [[a s]| |]; [by exists a|done..]. Qed.

Lemma boot_ok : ∃ l, boot = Ok (Some l, booted).
Proof.
  unfold booted. destruct (returned boot) as [[l|] E]; [vm_compute; reflexivity|by exists l|].
  assert (match boot with Ok (Some _, _) => true | _ => false end = true) as H
    by (vm_compute; reflexivity).
  rewrite E in H. discriminate.
Qed.

Lemma wp_elim {A} (m : M srv A) (Q : A → srv → Prop) s a s' :
  wp any_fault m Q s → m s = Ok (a, s') → Q a s'.
Proof. unfold wp. intros H E. by rewrite E in H. Qed.

Lemma booted_srv_ok : srv_ok booted.
Proof.
  destruct boot_ok as [l E]. unfold boot in E.
  pose proof (wp_elim _ _ _ _ _ (startup_ok _ _ _ _) E) as H. cbv beta in H.
  destruct H as [_ H]. apply H. vm_compute. reflexivity.
Qed.

Lemma reserving_ok ss s :
  srv_ok s → Forall (λ l, is_u32 (s_yiaddr l)) ss → srv_ok (set_statics ss s).
Proof. intros [] Hss. by split. Qed.

Lemma ready_ok : srv_ok ready.
Proof.
  unfold ready. apply reserving_ok; [exact booted_srv_ok|].
  constructor; [|constructor]. split; vm_compute; [discriminate|reflexivity].
Qed.

Lemma legible_message ch ci opts :
  bool_decide (length ch = 16%nat ∧ Forall (λ b, 0 ≤ b < 256) ch) = true →
  bool_decide (length (field opts) = 308%nat ∧ Forall (λ b, 0 ≤ b < 256) (field opts)) = true →
  forallb (λ o, (0 <? o.1) && (o.1 <? 255) && negb (o.1 =? DHCP_OPTION_OVER)
                && forallb (λ b, (0 <=? b) && (b <? 256)) o.2 && (length o.2 <? 256)%nat) opts
    = true →
  lookup_opt DHCP_LEASE_TIME opts = None → legible (message ch ci opts) opts.
Proof.
  intros Hch Hf Ho Ht. split; [by apply message_wf|by apply field_holds, wf_opts|].
  by rewrite Ht.
Qed.

Lemma discover_legible : legible discover discover_opts.
Proof. apply legible_message; vm_compute; reflexivity. Qed.
Lemma request_legible : legible request request_opts.
Proof. apply legible_message; vm_compute; reflexivity. Qed.
Lemma renew_legible : legible renew renew_opts.
Proof. apply legible_message; vm_compute; reflexivity. Qed.
Lemma reboot_legible : legible reboot foreign_opts.
Proof. apply legible_message; vm_compute; reflexivity. Qed.
Lemma own_legible : legible own own_opts.
Proof. apply legible_message; vm_compute; reflexivity. Qed.
Lemma decline_legible : legible decline decline_opts.
Proof. apply legible_message; vm_compute; reflexivity. Qed.
Lemma discover_wf : wf_message discover.
Proof. apply discover_legible. Qed.
Lemma request_wf : wf_message request.
Proof. apply request_legible. Qed.

Lemma offered_run : handle_packet discover ready = Ok (tt, offered).
Proof.
  destruct (returned (handle_packet discover ready)) as [[] E]; [by vm_compute|exact E].
Qed.
Lemma acked_run : handle_packet request offered = Ok (tt, acked).
Proof.
  destruct (returned (handle_packet request offered)) as [[] E]; [by vm_compute|exact E].
Qed.

Lemma offered_ok : srv_ok offered.
Proof.
  pose proof (wp_elim _ _ _ _ _ (handle_packet_ok _ _ ready_ok discover_wf) offered_run) as [H _].
  exact H.
Qed.
Lemma acked_ok : srv_ok acked.
Proof.
  pose proof (wp_elim _ _ _ _ _ (handle_packet_ok _ _ offered_ok request_wf) acked_run) as [H _].
  exact H.
Qed.

(** The entry of the client once it has its lease. *)
Definition entry : lease := Lease mac leased 8207 ([104; 111; 115; 116] ++ replicate 20 0).
Lemma acked_entry : leases acked !! 0%nat = Some entry.
Proof. vm_compute. reflexivity. Qed.
End Sample.
