(* ===== verification/DhcpProps.v ===== *)
(** * The DHCP server: theorems

    The properties of udhcp-0.9.8: what a run of the server keeps, how it
    answers, that it makes progress, what its files and messages contain, and
    where it does not do what it means to. *)
From S2P Require Import Prelude CLib Heap System Bytes Genconfig GenconfigSpec GenconfigOps.
From S2P Require Import GenconfigFile Cconfig SystemApi Syslog LibEnds Dhcp DhcpOptions.
From S2P Require Import DhcpPacket DhcpLeases DhcpTable DhcpFiles DhcpServer Dhcpd DhcpInv.
From S2P Require Import DhcpReply DhcpChoice DhcpEvents DhcpLoop DhcpStart DhcpLeaseFile DhcpLive.
From S2P Require Import DhcpSample.

Section props.
Context `{net : !Net, ifs : !Interfaces, svc : !Services, rs : !Resolver}.
Implicit Types (s : srv) (p : dhcpMessage).

(** ** Runs *)

(** The entries that the messages of a run may cost: the ones of the clients that
    sent them, and the ones with a reserved address. *)
Definition concerned (ins : list input) (s : srv) (l : lease) : Prop :=
  (∃ i p, i ∈ ins ∧ received i p ∧ l_chaddr l = chaddr p) ∨ reserved s (l_yiaddr l).

(** The outputs of a run, all of them well-formed messages. *)
Definition replies_wf (outs : list output) : Prop := Forall (λ o, wf_message (payload o)) outs.

Lemma carries_wf c m o : wf_message m → carries c m o → wf_message (payload o).
Proof. destruct o; simpl; [by intros ? [-> _]|by intros ? (-> & _)]. Qed.

Lemma answered_wf p s s' outs : answered p s s' outs → replies_wf outs.
Proof.
  assert (∀ c type yi t o, answers c p type yi t o → wf_message (payload o)) as Hans.
  { intros c type yi t o (m & opts & Hc & Hm & _). eapply carries_wf; [apply Hm|done]. }
  destruct 1 as [|o yi t|o yi t|o m ? ? Hm|o]; [constructor|..]; apply Forall_singleton;
    try by eapply Hans.
  eapply carries_wf; [apply Hm|done].
Qed.

Lemma passed_evolves i ins s s' :
  passed i s s' → ∃ outs, evolves (concerned (i :: ins) s) outs s s' ∧ replies_wf outs.
Proof.
  intros [_ [Hq|(p & Hp & _ & _ & outs & Hev & Ha)]].
  { exists []. split; [by apply quiet_evolves|constructor]. }
  exists outs. split; [|by eapply answered_wf]. eapply evolves_mono; [|done]. intros l [Hc|Hr].
  - left. exists i, p. split; [by constructor|done].
  - by right.
Qed.

Lemma runs_evolves ins s s' :
  runs ins s s' → ∃ outs, evolves (concerned ins s) outs s s' ∧ replies_wf outs.
Proof.
  induction 1 as [s|i ins s s' Hp|i ins s s1 s' Hp Hr (outs & Hev & Hwf)].
  - exists []. split; [apply evolves_refl|constructor].
  - by eapply passed_evolves.
  - destruct (passed_evolves i ins s s1 Hp) as (outs1 & Hev1 & Hwf1).
    exists (outs1 ++ outs). split; [|by apply Forall_app]. eapply evolves_app; [done|].
    eapply evolves_mono; [|done]. intros l [(j & p & Hj & Hrest)|Hres].
    + left. exists j, p. split; [by constructor|done].
    + right. unfold reserved in *. by rewrite (ev_statics _ _ _ _ Hev1) in Hres.
Qed.

(** C1: whatever the files and the network hold, the start of the server ends
    (or stops at an undefined operation of C) without having sent anything; with a
    pool that ends below 255.255.255.255, every sequence of passes of the loop
    that follows ends too, and leaves a well-formed state: no two entries of the
    lease table with the same address or the same client, options that can be
    encoded, every step of it one of [passed]. *)
Theorem dhcpd_run_ok argv1 pid hw ins s :
  Forall wf_input ins →
  wp any_fault (startup argv1 pid hw) (λ l s1, sent s1 = sent s ∧
    (ntohl (c_end (cfg s1)) + 1 < 2 ^ 32 →
     match l with
     | Some l => wp any_fault (serve l ins) (λ _ s2, srv_ok s2 ∧ runs ins s1 s2) s1
     | None => True
     end)) s.
Proof.
  intros Hins. eapply wp_mono; [apply startup_ok|]. intros l s1 [Hs Hok]. split; [done|].
  intros He. destruct l as [l|]; [|done]. apply serve_ok; auto.
Qed.

(** C2: over any sequence of passes of the server's loop, from a well-formed state,
    an entry of a client leaves the table or changes only when that client has sent
    one of the messages, when its address is reserved for a host, when its lease had
    expired at a reading of the clock during the run, or when another host had
    answered to an ARP probe for its address during the run.  What the server sends
    on the way is well-formed. *)
Theorem dhcpd_bindings_kept L ins s :
  srv_ok s → Forall wf_input ins →
  wp any_fault (serve L ins) (λ _ s',
    (∀ i l, leases s !! i = Some l → l_chaddr l ≠ blank_chaddr →
       leases s' !! i = Some l ∨ concerned ins s l ∨ went s s' l) ∧
    ∃ outs, sent s' = sent s ++ outs ∧ replies_wf outs) s.
Proof.
  intros Hok Hins. eapply wp_mono; [by apply serve_ok|]. intros u s' [_ Hr].
  destruct (runs_evolves _ _ _ Hr) as (outs & Hev & Hwf).
  split; [apply Hev|]. exists outs. split; [apply Hev|done].
Qed.

(** ** Answers *)
Lemma sends_fun p a b : sends p a → sends p b → a = b.
Proof. intros (d & n & E & Ed) (d' & n' & E' & Ed'). congruence. Qed.

Lemma handle_packet_answered p s :
  srv_ok s → wf_message p →
  wp any_fault (handle_packet p) (λ _ s', ∃ outs, sent s' = sent s ++ outs ∧ answered p s s' outs) s.
Proof.
  intros Hok Hp. eapply wp_mono; [by apply handle_packet_ok|].
  intros u s' (_ & outs & Hev & Ha). exists outs. split; [apply Hev|done].
Qed.

(** C9: a DISCOVER is answered by nothing or by one OFFER.  The address of an
    OFFER is not 0; it is in the pool, reserved for a host, or the one of the
    client's entry; the message is addressed to the client with its transaction
    id, has the server and a lease time in its options, then the options of the
    configuration as far as they fit; and the lease table binds the address to
    the client for the time of an offer. *)
Theorem discover_answer p s :
  srv_ok s → wf_message p → sends p DHCPDISCOVER →
  wp any_fault (handle_packet p) (λ _ s', sent s' = sent s ∨
    ∃ o yi t, sent s' = sent s ++ [o] ∧ yi ≠ 0 ∧ offer_source p s yi ∧
      answers (cfg s) p DHCPOFFER yi (Some t) o ∧
      bound (ticks s) s' (chaddr p) yi (c_offer_time (cfg s)) []) s.
Proof.
  intros Hok Hp Hd. eapply wp_mono; [by apply handle_packet_answered|].
  intros u s' (outs & Hs & Ha). rewrite Hs.
  destruct Ha as [|o yi t|o yi t Hr|o m Hr|o Hr];
    try by pose proof (sends_fun _ _ _ Hd Hr).
  - left. by rewrite app_nil_r.
  - right. by exists o, yi, t.
Qed.

(** C8: a REQUEST is answered by nothing, by one NAK, or by one ACK.  The address
    of an ACK is the one of the client's entry, or an address of the pool that no
    entry has and no host has reserved; for a host of the pool's network the lease
    time is the configured one or between the minimum and it; and the table binds
    the address to the client for that time, unless the table is full or a call of
    the network that was made while the message was handled has failed. *)
Theorem request_answer p s :
  srv_ok s → wf_message p → sends p DHCPREQUEST →
  wp any_fault (handle_packet p) (λ _ s', sent s' = sent s ∨
    (∃ o m, sent s' = sent s ++ [o] ∧ carries (cfg s) m o ∧
       replies p DHCPNAK (c_server (cfg s)) 0 [] m) ∨
    ∃ o yi t, sent s' = sent s ++ [o] ∧ ack_source p s yi ∧
      answers (cfg s) p DHCPACK yi (Some t) o ∧
      (other_net (cfg s) yi = false → granted (cfg s) t) ∧
      ((∃ host, bound (ticks s) s' (chaddr p) yi t host) ∨ full (ticks s) s' ∨
       ∃ k, (calls s ≤ k < calls s')%nat ∧ send_result k < 0)) s.
Proof.
  intros Hok Hp Hd. eapply wp_mono; [by apply handle_packet_answered|].
  intros u s' (outs & Hs & Ha). rewrite Hs.
  destruct Ha as [|o yi t Hr|o yi t|o m|o Hr];
    try by pose proof (sends_fun _ _ _ Hd Hr).
  - left. by rewrite app_nil_r.
  - right; right. by exists o, yi, t.
  - right; left. by exists o, m.
Qed.

Lemma message_type p po type d :
  legible p po → lookup_opt DHCP_MESSAGE_TYPE po = Some (type :: d) →
  ∃ data, get_option p DHCP_MESSAGE_TYPE = Ok (Some (type :: data, Z.of_nat (S (length d)))).
Proof.
  intros [_ Hpo _] Htype. destruct (get_option_encoded p DHCP_MESSAGE_TYPE po Hpo) as [data ->];
    [done|]. rewrite Htype. by exists (d ++ data).
Qed.

(** a DECLINE takes the address out of use: the client's entry loses the
    client, keeps the address, and lasts for the decline time of the
    configuration from the time at which the message is handled; no other entry
    changes and nothing is sent. *)
Theorem decline_quarantines p po d i l s :
  table_ok (leases s) → legible p po →
  lookup_opt DHCP_MESSAGE_TYPE po = Some (DHCPDECLINE :: d) →
  leases s !! i = Some l → l_chaddr l = chaddr p → chaddr p ≠ blank_chaddr →
  ∃ s', handle_packet p s = Ok (tt, s') ∧ sent s' = sent s ∧
    leases s' = <[i := Lease blank_chaddr (l_yiaddr l)
      (u32 (u32 (clock (ticks s)) + c_decline_time (cfg s))) (l_hostname l)]> (leases s).
Proof.
  intros Hok Hp Htype Hi Hc Hb. rewrite <- Hc in Hb.
  pose proof (find_by_chaddr_unique i l s Hok Hi Hb) as Hfind. rewrite Hc in Hfind.
  destruct (message_type p po _ d Hp Htype) as [data E].
  unfold handle_packet. rewrite E, bind_of_res, (bind_Ok _ _ _ _ _ Hfind). eexists.
  split; [reflexivity|]. split; [done|]. cbn [leases set_leases].
  apply list_eq. intros j. destruct (decide (j = i)) as [->|Hne].
  - rewrite !list_lookup_alter_eq, Hi, list_lookup_insert_eq by by eapply lookup_lt_Some. done.
  - by rewrite !list_lookup_alter_ne, list_lookup_insert_ne by done.
Qed.

(** ** Progress *)

(** An ACK for the address of an entry, and what is left to do behind it *)
Lemma ack_run p po path i l s :
  srv_ok s → legible p po → leases s !! i = Some l → l_chaddr l = chaddr p →
  chaddr p ≠ blank_chaddr → other_net (cfg s) (l_yiaddr l) = false →
  c_lease_file (cfg s) = Some path → c_notify_file (cfg s) = None →
  logs (l_yiaddr l) (chaddr p) s → is_Some (files (env (os s)) !! ARP_FILE) →
  ∃ s', ((sendACK p (l_yiaddr l);; mret tt);; write_leases) s = Ok (tt, s') ∧
  ∃ o t, sent s' = sent s ++ [o] ∧
    answers (cfg s) p DHCPACK (l_yiaddr l) (Some t) o ∧ granted (cfg s) t ∧
    ((∃ host, bound (ticks s) s' (chaddr p) (l_yiaddr l) t host) ∨ full (ticks s) s' ∨
     ∃ k, (calls s ≤ k < calls s')%nat ∧ send_result k < 0).
Proof.
  intros Hok Hp Hi Hc Hb Hnet Hpath Hnote Hlog Harp. rewrite <- Hc in Hb.
  assert (is_u32 (l_yiaddr l)) as Hu.
  { pose proof (to_wf _ (sk_table _ Hok)) as Hwf. rewrite Forall_lookup in Hwf. by eapply Hwf. }
  destruct (wp_total (sendACK p (l_yiaddr l)) _ s (sendACK_ok p (l_yiaddr l) s Hok (lg_wf _ _ Hp) Hu
    ltac:(intros j l' Hj Hy' Hne; assert (j = i) as -> by
      (eapply (to_ips _ (sk_table _ Hok)); [done..|congruence|congruence]); congruence)))
    as (r & s1 & E & Hok1 & o & t & Hev & Ha & Hg & Hbound).
  { eapply wp_mono; [by eapply sendACK_total|done]. }
  destruct (wp_inv write_leases (λ _ s', quiet s1 s') s1 (write_leases_total (F := no_fault) path s1
    ltac:(by rewrite (ev_cfg _ _ _ _ Hev)) ltac:(by rewrite (ev_cfg _ _ _ _ Hev))))
    as [([] & s2 & E2 & Hq)|(? & _ & [])].
  exists s2. rewrite bind_assoc, (bind_Ok _ _ _ _ _ E), bind_ret, E2. split; [done|].
  exists o, t. rewrite (qu_sent _ _ Hq), (ev_sent _ _ _ _ Hev).
  split_and!; [done|done|by apply Hg|]. destruct Hbound as [[h Hh]|[(k & Hk & Hall)|(k & Hk & ?)]].
  - left. exists h. destruct Hq. by eapply bound_later.
  - right; left. exists k. destruct Hq. split; [lia|congruence].
  - right; right. exists k. destruct Hq. split; [lia|done].
Qed.

(** C14: the client of an entry that renews its lease gets an ACK for its address:
    the handler returns, whatever else the message and the table hold, when the
    address is in the pool's network, a lease file and no notify file is configured,
    the log is off and the kernel's ARP table can be read; and the table binds the
    address to the client anew, unless it is full or a call of the network that the
    handler made for this message has failed. *)
Theorem renew_acked p po d path i l s :
  srv_ok s → legible p po → lookup_opt DHCP_MESSAGE_TYPE po = Some (DHCPREQUEST :: d) →
  lookup_opt DHCP_REQUESTED_IP po = None → lookup_opt DHCP_SERVER_ID po = None →
  leases s !! i = Some l → l_chaddr l = chaddr p → chaddr p ≠ blank_chaddr →
  l_yiaddr l = ciaddr p → other_net (cfg s) (ciaddr p) = false →
  c_lease_file (cfg s) = Some path → c_notify_file (cfg s) = None →
  log_off s → is_Some (files (env (os s)) !! ARP_FILE) →
  ∃ s', handle_packet p s = Ok (tt, s') ∧ ∃ o t, sent s' = sent s ++ [o] ∧
    answers (cfg s) p DHCPACK (ciaddr p) (Some t) o ∧ granted (cfg s) t ∧
    ((∃ host, bound (ticks s) s' (chaddr p) (ciaddr p) t host) ∨ full (ticks s) s' ∨
     ∃ k, (calls s ≤ k < calls s')%nat ∧ send_result k < 0).
Proof.
  intros Hok Hp Htype Hreq Hid Hi Hc Hb Hy Hnet Hpath Hnote Hlog Harp.
  pose proof Hb as Hb'. rewrite <- Hc in Hb'.
  pose proof (find_by_chaddr_unique i l s (sk_table _ Hok) Hi Hb') as Hfind.
  rewrite Hc in Hfind. erewrite handle_request_path by done. erewrite renew_path by done.
  cbn [snd]. rewrite <- Hy in *. eapply ack_run; try done. by apply log_off_logs.
Qed.

(** A client without an entry that asks for an address outside the pool
    (INIT-REBOOT) is refused: the handler returns, one NAK is sent and the table
    stays as it is. *)
Theorem reboot_foreign_refused p po a path s :
  rebooting p po a s → find_static_lease_by_chaddr (chaddr p) s = Ok (0, s) →
  ¬ in_pool (cfg s) a → c_lease_file (cfg s) = Some path → c_notify_file (cfg s) = None →
  ∃ s' o m, handle_packet p s = Ok (tt, s') ∧ sent s' = sent s ++ [o] ∧ leases s' = leases s ∧
    carries (cfg s) m o ∧ replies p DHCPNAK (c_server (cfg s)) 0 [] m.
Proof.
  intros Hr Hst Hout Hpath Hnote.
  destruct (nak_run p path s (lg_wf _ _ (rb_legible _ _ _ _ Hr)) Hpath Hnote)
    as (s' & o & m & E & Hrest). exists s', o, m. split; [|done].
  rewrite (reboot_path _ _ _ _ Hr). unfold mbind at 1, M_bind at 1.
  rewrite (unknown_free _ _ _ _ _ Hr Hst) by by left.
  destruct (_ || _) eqn:Eb; [exact E|]. destruct Hout.
  apply orb_false_iff in Eb as [H1%Z.ltb_ge H2%Z.ltb_ge]. split; lia.
Qed.

(** a client that has an address of the pool reserved, and no entry yet, is
    refused when it asks for that very address after a reboot: the handler finds
    the reservation and sends a NAK. *)
Theorem reboot_reserved_refused p po a path s :
  rebooting p po a s → find_static_lease_by_chaddr (chaddr p) s = Ok (a, s) → reserved s a →
  c_lease_file (cfg s) = Some path → c_notify_file (cfg s) = None →
  ∃ s' o m, handle_packet p s = Ok (tt, s') ∧ sent s' = sent s ++ [o] ∧ leases s' = leases s ∧
    carries (cfg s) m o ∧ replies p DHCPNAK (c_server (cfg s)) 0 [] m.
Proof.
  intros Hr Hst Hres Hpath Hnote.
  destruct (nak_run p path s (lg_wf _ _ (rb_legible _ _ _ _ Hr)) Hpath Hnote)
    as (s' & o & m & E & Hrest). exists s', o, m. split; [|done].
  rewrite (reboot_path _ _ _ _ Hr). unfold mbind at 1, M_bind at 1.
  rewrite (unknown_free _ _ _ _ _ Hr Hst) by by right.
  destruct (_ || _); [exact E|].
  destruct (static_by_yiaddr_cases a s) as [[_ Hn]|(l & El & _)]; [done|].
  rewrite (bind_Ok _ _ _ _ _ El). exact E.
Qed.

(** Find_address ends; the address that it gives, if any, is in the pool, not
    the router's own, not a network or broadcast address, not reserved for a
    host, and no entry of the table has it, or (on the second try) the lease of
    the entry that has it has expired. *)
Theorem find_address_assignable ce s :
  srv_ok s →
  wp any_fault (find_address ce) (λ a s', srv_ok s' ∧ evolves (λ _, False) [] s s' ∧
    (a = 0 ∨ ∃ local, assignable (ticks s) ce local
       (ntohl (c_start (cfg s))) (ntohl (c_end (cfg s))) s' a)) s.
Proof.
  intros Hok. eapply wp_mono; [by apply (find_address_ok (λ _, False))|].
  by intros a s' (? & ? & _ & ?).
Qed.

(** C20: while an address of the pool is free (no host has it or is entitled to
    it, nobody answers to ARP for it, it is not the router's and not a network or
    broadcast address), find_address returns an address, without a fault. *)
Theorem find_address_finds ce local a s :
  srv_ok s → ifaddr IF_LOCAL = Some local → is_u32 local → is_u32 a → in_pool (cfg s) a →
  a ≠ local → Z.land (ntohl a) 255 ≠ 0 → Z.land (ntohl a) 255 ≠ 255 →
  (∀ k, arpping k a ≠ 0) → unclaimed s a →
  ∃ r s', find_address ce s = Ok (r, s') ∧ r ≠ 0.
Proof.
  intros. destruct (wp_inv (E := no_fault) (find_address ce) (λ r _, r ≠ 0) s)
    as [(r & s' & E & Hr)|(? & _ & [])]; [by eapply find_address_finds_ok|]. by exists r, s'.
Qed.
End props.

(** ** The lease file *)

(** C16: a restarted server gets back the leases of the one before.  The table
    that write_leases has saved at [t0] is read at [t1]: each entry with an
    address of the pool comes back with its hardware address, its address, its
    host name up to the first NUL, and the time that remained of its lease;
    the others are free.  (The pool is an interval of addresses as they are
    stored; a restarted server's clock may differ.) *)
Theorem lease_file_roundtrip (before after : Net) t0 t1 path n s :
  (∀ k, @clock before k = t0) → is_u32 t0 → (∀ k, @clock after k = t1) → 0 < t1 < 2 ^ 32 →
  table_ok (leases s) → c_lease_file (cfg s) = Some path → path ∉ unwritable (env (os s)) →
  c_remaining (cfg s) ≠ 0 → c_notify_file (cfg s) = None →
  ∃ s1, @write_leases before s = Ok (tt, s1) ∧
    ∀ s2, files (env (os s2)) !! path = files (env (os s1)) !! path →
      leases s2 = replicate n blank_lease → c_remaining (cfg s2) ≠ 0 →
      let ls := kept (cfg s2) (written (leases s)) in
      Forall (readable t0 t1) ls → (length ls ≤ n)%nat →
      Z.of_nat (length ls) ≤ c_max_leases (cfg s2) →
      ∃ s3, @read_leases after (Some path) s2 = Ok (tt, s3) ∧ cfg s3 = cfg s2 ∧
        leases s3 = (restored t0 t1 <$> ls) ++ replicate (n - length ls) blank_lease.
Proof.
  intros Hc0 Ht0 Hc1 Ht1 Hok Hpath Hw Hrem Hnote.
  destruct (@write_leases_image before t0 Hc0 Ht0 path s Hok Hpath Hw Hrem Hnote)
    as (s1 & E1 & _ & Hf). exists s1. split; [done|].
  intros s2 Hf2 Hl2 Hrem2 ls Hrd Hn Hmax. rewrite Hf in Hf2.
  by apply (@read_leases_image after t0 t1 path (leases s) n s2).
Qed.

(** Read_leases compares addresses as they are stored, in network order.
    With a pool whose end is below its start in that order, such as
    192.168.0.20-192.168.1.10, it drops every saved lease: the table is the empty
    one, whatever was saved. *)
Theorem read_leases_drops (before after : Net) t0 t1 path n s :
  (∀ k, @clock before k = t0) → is_u32 t0 → (∀ k, @clock after k = t1) → 0 < t1 < 2 ^ 32 →
  table_ok (leases s) → c_lease_file (cfg s) = Some path → path ∉ unwritable (env (os s)) →
  c_remaining (cfg s) ≠ 0 → c_notify_file (cfg s) = None →
  ∃ s1, @write_leases before s = Ok (tt, s1) ∧
    ∀ s2, files (env (os s2)) !! path = files (env (os s1)) !! path →
      leases s2 = replicate n blank_lease → c_remaining (cfg s2) ≠ 0 →
      0 ≤ c_max_leases (cfg s2) → c_end (cfg s2) < c_start (cfg s2) →
      ∃ s3, @read_leases after (Some path) s2 = Ok (tt, s3) ∧
        leases s3 = replicate n blank_lease.
Proof.
  intros Hc0 Ht0 Hc1 Ht1 Hok Hpath Hw Hrem Hnote.
  destruct (@write_leases_image before t0 Hc0 Ht0 path s Hok Hpath Hw Hrem Hnote)
    as (s1 & E1 & _ & Hf). exists s1. split; [done|].
  intros s2 Hf2 Hl2 Hrem2 Hmax Hlt. rewrite Hf in Hf2.
  assert (kept (cfg s2) (written (leases s)) = []) as Hk.
  { unfold kept. induction (written (leases s)) as [|l ls IH]; [done|].
    rewrite filter_cons_False by lia. done. }
  destruct (@read_leases_image after t0 t1 path (leases s) n s2) as (s3 & E3 & _ & Hl3);
    rewrite ?Hk; try done; [simpl; lia|]. exists s3. split; [done|].
  rewrite Hl3, Hk. simpl. by rewrite Nat.sub_0_r.
Qed.

(** ** Options and datagrams *)

(** C33: what is put in the option field is found there.  add_option_string returns
    on every field that holds options [os]: it adds the option and returns its size
    when it fits, and returns 0 and leaves the field alone when it does not; then
    get_option finds the new option, unless an option of the same code is in front of
    it, and finds the others as before. *)
Theorem option_added_found m os c d :
  holds (options m) os → wf_opt (c, d) →
  let fits := (length (encode os) + length d + 3 <? 308)%nat in
  ∃ a', add_option_string (options m) (encode_opt (c, d))
      = Ok (if fits then Z.of_nat (length d) + 2 else 0, a') ∧
    (fits = false → a' = options m) ∧
    ∀ code, code ≠ DHCP_END → ∃ data, get_option (set_options a' m) code =
      Ok (match lookup_opt code os with
          | Some d' => Some (d' ++ data, Z.of_nat (length d'))
          | None => if fits && (c =? code) then Some (d ++ data, Z.of_nat (length d)) else None
          end).
Proof.
  intros Hh Ho fits.
  pose proof (add_option_string_holds (options m) os c d [] Hh Ho) as H. rewrite app_nil_r in H.
  unfold fits. destruct (Nat.ltb_spec (length (encode os) + length d + 3) 308) as [Hf|Hf].
  - rewrite decide_True in H by done. destruct H as (a & E & Ha). exists a.
    split; [done|]. split; [done|]. intros code Hcode.
    destruct (get_option_encoded (set_options a m) code (os ++ [(c, d)]) Ha Hcode) as [data ->].
    exists data. f_equal. clear. induction os as [|[c' d'] os IH]; simpl; [by destruct (c =? code)|].
    by destruct (c' =? code).
  - rewrite decide_False in H by lia. exists (options m). split; [done|]. split; [done|].
    intros code Hcode. by apply (get_option_encoded (set_options (options m) m)).
Qed.

(** Attach_option keeps the options of the configuration sorted by code and
    is a map update: the data of a new code is added, the one of a list option is
    extended while its length fits a byte, and any other is left as it is. *)
Theorem attach_option_updates os option buffer n :
  sorted_above 0 os → 0 < o_code option → (n ≤ length buffer)%nat → (n < 256)%nat →
  ∃ os', attach_option (encode_opt <$> os) option buffer (Z.of_nat n) = Ok (encode_opt <$> os') ∧
    sorted_above 0 os' ∧
    ∀ c, lookup_opt c os' =
      if c =? o_code option
      then Some (attached (negb (Z.land (o_flags option) OPTION_LIST =? 0))
                   (lookup_opt (o_code option) os) (take n buffer))
      else lookup_opt c os.
Proof. intros. by apply attach_option_spec. Qed.

(** Get_option ends on every received message, whatever its option field
    holds; the value that it gives lies in an array of the message, as long as the
    length that it reports.  The only fault is a read behind an array. *)
Theorem get_option_in_bounds m code : wf_message m → in_bounds (get_option m code).
Proof. apply get_option_bounds. Qed.

(** The datagrams of raw_packet verify at the receiver: the checksum of the
    IP header and the one of the UDP datagram with its pseudo-header are right,
    the payload is the message. *)
Theorem raw_packet_verifies m s sp d dp :
  wf_message m → is_bytes [op m; htype m; hlen m; hops m] →
  ∃ ip udp, raw_packet m s sp d dp = Ok (ip ++ udp ++ msg_bytes m) ∧
    length ip = 20%nat ∧ length udp = 8%nat ∧ checksum ip = Ok 0 ∧
    checksum (pseudo s d (htons (8 + 548)) ++ udp ++ msg_bytes m) = Ok 0.
Proof. apply raw_packet_ok. Qed.

(** C32: the checksum of packet.c, with its 32-bit accumulator and the folding
    loop, is the complement of the sum of the 16-bit words modulo 65535, for
    arrays of up to 65534 bytes. *)
Theorem checksum_equals a :
  is_bytes a → Z.of_nat (length a) ≤ 65534 →
  checksum a = Ok (if total a =? 0 then 65535 else (- total a) mod 65535).
Proof.
  intros Ha Hl. destruct (checksum_spec a Ha Hl) as (c & E & Hc & Hs & Hlt).
  pose proof (total_nonneg a Ha) as Hnn. destruct (Z.eqb_spec (total a) 0) as [H0|H0].
  - unfold checksum. by rewrite sum_words_total, H0 by (done || lia).
  - rewrite E. f_equal. specialize (Hlt ltac:(lia)). apply Z.mod_divide in Hs as [k Hk]; [|lia].
    apply Z.mod_unique with (q := - k); [left; lia|lia].
Qed.

(** ** The theorems at the sample server *)
Import Sample.

Lemma dhcpd_run_ok_witness :
  ∃ l, boot = Ok (Some l, booted) ∧
    wp any_fault (serve l [arrives discover])
      (λ _ s2, srv_ok s2 ∧ runs [arrives discover] booted s2) booted.
Proof.
  destruct boot_ok as [l E]. exists l. split; [exact E|]. unfold boot in E.
  assert (Forall wf_input [arrives discover]) as Hins
    by (constructor; [exact discover_wf|constructor]).
  pose proof (wp_elim _ _ _ _ _ (dhcpd_run_ok _ _ _ [arrives discover] _ Hins) E) as H.
  cbv beta iota in H. destruct H as [_ H]. apply H. vm_compute. reflexivity.
Defined.

(** Another host's DISCOVER. *)
Definition second : dhcpMessage := message mac' 0 discover_opts.
Lemma second_legible : legible second discover_opts.
Proof. apply legible_message; vm_compute; reflexivity. Qed.
Definition crowded : srv := state (serve (Loop true 100000) [arrives second] acked).

Lemma crowded_run : ∃ a, serve (Loop true 100000) [arrives second] acked = Ok (a, crowded).
Proof. apply (returned (serve (Loop true 100000) [arrives second] acked)). vm_compute. reflexivity. Qed.

Lemma dhcpd_bindings_kept_witness :
  leases acked !! 0%nat = Some entry ∧
  ((leases crowded !! 0%nat = Some entry ∨ concerned [arrives second] acked entry
    ∨ went acked crowded entry) ∧
   ∃ outs, sent crowded = sent acked ++ outs ∧ replies_wf outs).
Proof.
  split; [exact acked_entry|]. destruct crowded_run as [a E].
  assert (Forall wf_input [arrives second]) as Hins
    by (constructor; [apply second_legible|constructor]).
  destruct (wp_elim _ _ _ _ _ (dhcpd_bindings_kept (Loop true 100000) [arrives second] acked acked_ok Hins)
    E) as [H Hs].
  split; [apply (H 0%nat entry acked_entry); discriminate|exact Hs].
Defined.

Lemma discover_sends : sends discover DHCPDISCOVER.
Proof. eexists _, _. split; vm_compute; reflexivity. Qed.
Lemma request_sends : sends request DHCPREQUEST.
Proof. eexists _, _. split; vm_compute; reflexivity. Qed.

Lemma discover_answer_witness :
  handle_packet discover ready = Ok (tt, offered) ∧
  ∃ o yi t, sent offered = sent ready ++ [o] ∧ answers (cfg ready) discover DHCPOFFER yi (Some t) o.
Proof.
  split; [exact offered_run|].
  destruct (wp_elim _ _ _ _ _ (discover_answer discover ready ready_ok discover_wf discover_sends)
    offered_run) as [H|(o & yi & t & Hs & _ & _ & Ha & _)].
  - exfalso. apply (f_equal length) in H. vm_compute in H. discriminate.
  - exists o, yi, t. split; [exact Hs|exact Ha].
Defined.

Lemma request_answer_witness :
  handle_packet request offered = Ok (tt, acked) ∧
  ∃ o yi t, sent acked = sent offered ++ [o] ∧ answers (cfg offered) request DHCPACK yi (Some t) o.
Proof.
  split; [exact acked_run|].
  destruct (wp_elim _ _ _ _ _ (request_answer request offered offered_ok request_wf request_sends)
    acked_run) as [H|[(o & m & Hs & Hc & Hm)|(o & yi & t & Hs & _ & Ha & _)]].
  - exfalso. apply (f_equal length) in H. vm_compute in H. discriminate.
  - exfalso. apply (f_equal (λ l, (λ o, yiaddr (payload o)) <$> last l)) in Hs.
    rewrite last_snoc in Hs.
    assert (payload o = m) as E by (destruct o; apply Hc).
    cbn [fmap option_fmap option_map] in Hs. rewrite E, (re_yiaddr _ _ _ _ _ _ Hm) in Hs.
    vm_compute in Hs. discriminate.
  - exists o, yi, t. split; [exact Hs|exact Ha].
Defined.

Lemma flag_off (r : res (Z * sys)) s :
  match r with
  | Ok (0, σ) => bool_decide (files (env σ) !! ARP_FILE = files (env (os s)) !! ARP_FILE)
  | _ => false
  end = true →
  ∃ σ, r = Ok (0, σ) ∧ files (env σ) !! ARP_FILE = files (env (os s)) !! ARP_FILE.
Proof.
  destruct r as [[[] σ]| |]; try done. intros H%bool_decide_eq_true. by exists σ.
Qed.

Lemma acked_log_off : log_off acked.
Proof. apply (flag_off (syslog_get_flag _ _) acked). vm_compute. reflexivity. Qed.

Lemma renew_acked_witness :
  ∃ s', handle_packet renew acked = Ok (tt, s') ∧
    ∃ o t, sent s' = sent acked ++ [o] ∧ answers (cfg acked) renew DHCPACK leased (Some t) o.
Proof.
  destruct (renew_acked renew renew_opts [] (lit "/var/lib/dhcp/udhcpd.leases") 0 entry acked acked_ok
    renew_legible) as (s' & E & o & t & Hs & Ha & _).
  - vm_compute. reflexivity.
  - vm_compute. reflexivity.
  - vm_compute. reflexivity.
  - exact acked_entry.
  - reflexivity.
  - discriminate.
  - reflexivity.
  - vm_compute. reflexivity.
  - vm_compute. reflexivity.
  - vm_compute. reflexivity.
  - exact acked_log_off.
  - eexists. vm_compute. reflexivity.
  - exists s'. split; [exact E|]. exists o, t. split; [exact Hs|exact Ha].
Defined.

Lemma reboot_rebooting : rebooting reboot foreign_opts foreign booted.
Proof.
  split; [exact reboot_legible|by exists []|done|done|split; vm_compute; congruence|..];
    apply (bool_decide_unpack _); vm_compute; reflexivity.
Qed.

Lemma reboot_foreign_refused_witness :
  ∃ s' o m, handle_packet reboot booted = Ok (tt, s') ∧ sent s' = sent booted ++ [o] ∧
    leases s' = leases booted ∧ carries (cfg booted) m o ∧
    replies reboot DHCPNAK (c_server (cfg booted)) 0 [] m.
Proof.
  apply (reboot_foreign_refused reboot foreign_opts foreign (lit "/var/lib/dhcp/udhcpd.leases") booted
    reboot_rebooting).
  - unfold find_static_lease_by_chaddr. rewrite bind_gets. unfold mret, M_ret. do 2 f_equal.
  - intros [H _]. vm_compute in H. apply H. reflexivity.
  - vm_compute. reflexivity.
  - vm_compute. reflexivity.
Defined.

Lemma own_rebooting : rebooting own own_opts (htonl 0xc0a80007) ready.
Proof.
  split; [exact own_legible|by exists []|done|done|split; vm_compute; congruence|..];
    apply (bool_decide_unpack _); vm_compute; reflexivity.
Qed.

Lemma reboot_reserved_refused_witness :
  ∃ s' o m, handle_packet own ready = Ok (tt, s') ∧ sent s' = sent ready ++ [o] ∧
    leases s' = leases ready ∧ carries (cfg ready) m o ∧
    replies own DHCPNAK (c_server (cfg ready)) 0 [] m.
Proof.
  apply (reboot_reserved_refused own own_opts (htonl 0xc0a80007) (lit "/var/lib/dhcp/udhcpd.leases")
    ready own_rebooting).
  - unfold find_static_lease_by_chaddr. rewrite bind_gets. unfold mret, M_ret. do 2 f_equal.
  - constructor. reflexivity.
  - vm_compute. reflexivity.
  - vm_compute. reflexivity.
Defined.

Lemma find_address_assignable_witness :
  ∃ r s', find_address false ready = Ok (r, s') ∧ (r = 0 ∨ ∃ local, assignable (ticks ready) false
    local (ntohl (c_start (cfg ready))) (ntohl (c_end (cfg ready))) s' r).
Proof.
  destruct (returned (find_address false ready)) as [r E]; [vm_compute; reflexivity|].
  destruct (wp_elim _ _ _ _ _ (find_address_assignable false ready ready_ok) E) as (_ & _ & H).
  exists r, (state (find_address false ready)). split; [exact E|exact H].
Defined.

Lemma find_address_finds_witness : ∃ r s', find_address false ready = Ok (r, s') ∧ r ≠ 0.
Proof.
  apply (find_address_finds false (htonl 0xc0a80001) (htonl 0xc0a80009) ready ready_ok).
  - reflexivity.
  - split; vm_compute; congruence.
  - split; vm_compute; congruence.
  - split; vm_compute; congruence.
  - discriminate.
  - discriminate.
  - discriminate.
  - discriminate.
  - split; [|apply (bool_decide_unpack _); vm_compute; reflexivity].
    intros H. apply (bool_decide_pack _) in H. vm_compute in H. exact H.
Defined.

(** Clocks that stand at 2000 and, after the restart, at 5. *)
Definition still (t : Z) : Net :=
  {| clock _ := t; arpping _ _ := 1; send_result _ := 0 |}.
Definition lease_path : str := lit "/var/lib/dhcp/udhcpd.leases".
Definition restarted (c : server_config_t) (σ : sys) : srv :=
  Srv (replicate 4 blank_lease) [] c 0 0 [] σ.

Lemma acked_path : lease_path ∉ unwritable (env (os acked)).
Proof.
  assert (bool_decide (lease_path ∈ unwritable (env (os acked))) = false) as H
    by (vm_compute; reflexivity). by apply bool_decide_eq_false in H.
Qed.

Lemma acked_kept c :
  c_start c = c_start (cfg acked) → c_end c = c_end (cfg acked) →
  kept c (written (leases acked)) = [entry].
Proof. unfold kept. intros -> ->. vm_compute. reflexivity. Qed.

Lemma acked_readable : readable 2000 5 entry.
Proof.
  split; [|done|apply (bool_decide_unpack _); vm_compute; reflexivity|done].
  pose proof (to_wf _ (sk_table _ acked_ok)) as Hwf. rewrite Forall_lookup in Hwf.
  exact (Hwf _ _ acked_entry).
Qed.

Lemma lease_file_roundtrip_witness :
  ∃ s1, @write_leases (still 2000) acked = Ok (tt, s1) ∧
    ∃ s3, @read_leases (still 5) (Some lease_path) (restarted (cfg acked) (os s1)) = Ok (tt, s3) ∧
      leases s3 = [restored 2000 5 entry; blank_lease; blank_lease; blank_lease].
Proof.
  destruct (lease_file_roundtrip (still 2000) (still 5) 2000 5 lease_path 4 acked)
    as (s1 & E1 & Hread).
  - reflexivity.
  - split; vm_compute; congruence.
  - reflexivity.
  - split; reflexivity.
  - apply acked_ok.
  - vm_compute. reflexivity.
  - exact acked_path.
  - vm_compute. discriminate.
  - vm_compute. reflexivity.
  - exists s1. split; [exact E1|].
    specialize (Hread (restarted (cfg acked) (os s1)) eq_refl eq_refl).
    change (cfg (restarted (cfg acked) (os s1))) with (cfg acked) in Hread.
    rewrite (acked_kept (cfg acked) eq_refl eq_refl) in Hread.
    destruct Hread as (s3 & E3 & _ & Hl); [vm_compute; discriminate|..].
    + constructor; [exact acked_readable|constructor].
    + simpl. lia.
    + vm_compute. discriminate.
    + exists s3. split; [exact E3|exact Hl].
Defined.

(** The pool 192.168.0.20-192.168.1.10, as it is stored. *)
Lemma read_leases_drops_witness :
  let c := with_start (htonl 0xc0a80014) (with_end (htonl 0xc0a8010a) (cfg acked)) in
  ∃ s1, @write_leases (still 2000) acked = Ok (tt, s1) ∧
    ∃ s3, @read_leases (still 5) (Some lease_path) (restarted c (os s1)) = Ok (tt, s3) ∧
      leases s3 = replicate 4 blank_lease.
Proof.
  intros c.
  destruct (read_leases_drops (still 2000) (still 5) 2000 5 lease_path 4 acked)
    as (s1 & E1 & Hread).
  - reflexivity.
  - split; vm_compute; congruence.
  - reflexivity.
  - split; reflexivity.
  - apply acked_ok.
  - vm_compute. reflexivity.
  - exact acked_path.
  - vm_compute. discriminate.
  - vm_compute. reflexivity.
  - exists s1. split; [exact E1|].
    apply (Hread (restarted c (os s1)) eq_refl eq_refl).
    + vm_compute. discriminate.
    + vm_compute. discriminate.
    + vm_compute. reflexivity.
Defined.

Lemma option_added_found_witness :
  ∃ a' data, add_option_string (options discover) (encode_opt (DHCP_SUBNET, [255; 255; 255; 0]))
      = Ok (6, a') ∧
    get_option (set_options a' discover) DHCP_SUBNET = Ok (Some ([255; 255; 255; 0] ++ data, 4)).
Proof.
  destruct (option_added_found discover discover_opts DHCP_SUBNET [255; 255; 255; 0])
    as (a' & E & _ & H).
  - apply discover_legible.
  - apply Forall_singleton, wf_opts. vm_compute. reflexivity.
  - destruct (H DHCP_SUBNET) as [data Hd]; [discriminate|]. exists a', data. split; [exact E|exact Hd].
Defined.

Lemma get_option_in_bounds_witness : in_bounds (get_option discover DHCP_HOST_NAME).
Proof. exact (get_option_in_bounds discover DHCP_HOST_NAME discover_wf). Defined.

Lemma raw_packet_verifies_witness :
  ∃ ip udp, raw_packet discover 0 68 INADDR_BROADCAST 67 = Ok (ip ++ udp ++ msg_bytes discover) ∧
    length ip = 20%nat ∧ length udp = 8%nat ∧ checksum ip = Ok 0 ∧
    checksum (pseudo 0 INADDR_BROADCAST (htons (8 + 548)) ++ udp ++ msg_bytes discover) = Ok 0.
Proof.
  apply (raw_packet_verifies discover 0 68 INADDR_BROADCAST 67 discover_wf).
  apply (bool_decide_unpack _). vm_compute. reflexivity.
Defined.

Lemma checksum_equals_witness : checksum [0x45; 0; 1; 2; 3] = Ok ((- total [0x45; 0; 1; 2; 3]) mod 65535).
Proof.
  apply (checksum_equals [0x45; 0; 1; 2; 3]); [|simpl; lia].
  apply (bool_decide_unpack _). vm_compute. reflexivity.
Defined.

Lemma attach_option_updates_witness :
  ∃ os', attach_option (encode_opt <$> [(1, [255; 255; 0; 0])]) (Opt (lit "dns") (Z.lor OPTION_IP OPTION_LIST) 6)
      [8; 8; 8; 8] 4 = Ok (encode_opt <$> os') ∧ sorted_above 0 os' ∧
    lookup_opt 6 os' = Some [8; 8; 8; 8].
Proof.
  destruct (attach_option_updates [(1, [255; 255; 0; 0])] (Opt (lit "dns") (Z.lor OPTION_IP OPTION_LIST) 6)
    [8; 8; 8; 8] 4) as (os' & E & Hs & Hl).
  - simpl. lia.
  - simpl. lia.
  - simpl. lia.
  - lia.
  - exists os'. split; [exact E|]. split; [exact Hs|]. exact (Hl 6).
Defined.

Lemma decline_quarantines_witness :
  ∃ s', handle_packet decline acked = Ok (tt, s') ∧ sent s' = sent acked ∧
    leases s' = <[0%nat := Lease blank_chaddr leased
      (u32 (u32 (clock (ticks acked)) + c_decline_time (cfg acked))) (l_hostname entry)]>
        (leases acked).
Proof.
  apply (decline_quarantines decline decline_opts [] 0 entry acked (sk_table _ acked_ok)
    decline_legible).
  - reflexivity.
  - exact acked_entry.
  - reflexivity.
  - discriminate.
Defined.
