(* ===== verification/ClientMessages.v ===== *)
(** * The messages of the DHCP client as lists of options

    A client whose identifier and host name are options builds messages whose
    option field holds the type, the identifier, the host name, the vendor and the
    list of the options the client wants, as far as there is room. *)
From S2P Require Import Prelude CLib Heap System Bytes Genconfig GenconfigSpec GenconfigOps.
From S2P Require Import GenconfigFile Cconfig SystemApi Syslog LibEnds Dhcp DhcpOptions.
From S2P Require Import DhcpPacket DhcpLeases DhcpTable DhcpFiles DhcpServer DhcpInv DhcpReply.
From S2P Require Import ClientPacket ClientWire.

(** ** The configuration *)
Record wf_conf (c : client_config_t) (id : bytes) (host : option bytes) : Prop := {
  wc_id : clientid c = Some (encode_opt (DHCP_CLIENT_ID, id));
  wc_id_opt : wf_opt (DHCP_CLIENT_ID, id);
  wc_host : hostname c = (λ h, encode_opt (DHCP_HOST_NAME, h)) <$> host;
  wc_host_opt h : host = Some h → wf_opt (DHCP_HOST_NAME, h);
  wc_arp : length (arp c) = 6%nat ∧ is_bytes (arp c)
}.

Definition VENDOR : Z * bytes := (DHCP_VENDOR, get_bytes (lit "MSFT 5.0")).

Definition client_opts (id : bytes) (host : option bytes) : list (Z * bytes) :=
  (DHCP_CLIENT_ID, id) :: option_list ((DHCP_HOST_NAME,.) <$> host) ++ [VENDOR].

(** The codes of the options with OPTION_REQ. *)
Definition wanted : bytes := [1; 3; 6; 12; 15; 28].
Definition REQUESTS : Z * bytes := (DHCP_PARAM_REQ, wanted).

Definition request_type (type : Z) : Prop :=
  type = DHCPDISCOVER ∨ type = DHCPREQUEST ∨ type = DHCPRELEASE.

(** A message of the client before the options behind [os]. *)
Record client_message (c : client_config_t) (xid_ ci : Z) (os : list (Z * bytes)) (m : dhcpMessage)
    : Prop := {
  cm_eq : m = Msg BOOTREQUEST ETH_10MB ETH_10MB_LEN 0 xid_ 0 0 ci 0 0 0 (arp c ++ replicate 10 0)
                  (replicate 64 0) (replicate 128 0) (htonl DHCP_MAGIC) (options m);
  cm_holds : holds (options m) os
}.

(** ** Additions *)
Lemma add_string_ok a os o :
  holds a os → wf_opt o → ∃ a', add_string a (Some (encode_opt o)) = Ok a' ∧ holds a' (pack os [o]).
Proof.
  intros Hh Ho. destruct o as [code d]. pose proof (add_option_string_holds a os code d [] Hh Ho) as H.
  rewrite app_nil_r in H. unfold add_string. cbn [pack snd].
  destruct (decide _) as [Hf|Hf].
  - destruct H as (a' & -> & H). rewrite (proj2 (Nat.ltb_lt _ _)) by lia. by exists a'.
  - rewrite H, (proj2 (Nat.ltb_ge _ _)) by lia. by exists a.
Qed.

Lemma pack_app base os1 os2 : pack base (os1 ++ os2) = pack (pack base os1) os2.
Proof. revert base. induction os1 as [|o os1 IH]; intros base; [done|]. simpl. apply IH. Qed.

Lemma vendor_ok a os :
  holds a os → ∃ a', add_string a (Some vendor_id) = Ok a' ∧ holds a' (pack os [VENDOR]).
Proof.
  intros Hh. pose proof (add_option_string_holds a os DHCP_VENDOR (get_bytes (lit "MSFT 5.0")) [0] Hh) as H.
  assert (wf_opt VENDOR) as Hv.
  { repeat split; try (vm_compute; congruence); [apply get_bytes_is_bytes|vm_compute; lia]. }
  specialize (H Hv). unfold add_string.
  change vendor_id with (encode_opt (DHCP_VENDOR, get_bytes (lit "MSFT 5.0")) ++ [0]).
  cbn [pack]. destruct (decide _) as [Hf|Hf].
  - destruct H as (a' & -> & H). rewrite (proj2 (Nat.ltb_lt _ _)) by (simpl in *; lia). by exists a'.
  - rewrite H, (proj2 (Nat.ltb_ge _ _)) by (simpl in *; lia). by exists a.
Qed.

Lemma add_simple_pack a os code z :
  holds a os → 0 < code < 255 → code ≠ DHCP_OPTION_OVER → simple_length code = 4 →
  ∃ r a', add_simple_option a code z = Ok (r, a') ∧ holds a' (pack os [(code, le_bytes 4 z)]).
Proof.
  intros Hh Hc Ho Hl. pose proof (add_simple_option_holds a os code z Hh Hc Ho ltac:(lia)) as H.
  rewrite Hl in H. cbn [pack snd]. rewrite le_bytes_length in *. simpl in H.
  destruct (decide _) as [Hf|Hf].
  - destruct H as (a' & E & H). rewrite (proj2 (Nat.ltb_lt _ _)) by lia. eauto.
  - rewrite (proj2 (Nat.ltb_ge _ _)) by lia. eauto.
Qed.

(** ** The list of requests *)
Lemma wr_app pre mid k b :
  (k < length mid)%nat → wr (pre ++ mid) (Z.of_nat (length pre + k)) b = Ok (pre ++ <[k := b]> mid).
Proof.
  intros Hk. unfold wr. rewrite length_app, (proj2 (Z.ltb_ge _ _)), (proj2 (Z.leb_gt _ _)) by lia.
  cbn [orb]. by rewrite Nat2Z.id, insert_app_r.
Qed.

Lemma request_loop_eq opts e :
  request_loop option_table opts e 0 =
    (o ← wr opts (e + 2 + 0) 1; o ← wr o (e + 2 + 1) 3; o ← wr o (e + 2 + 2) 6;
     o ← wr o (e + 2 + 3) 12; o ← wr o (e + 2 + 4) 15; o ← wr o (e + 2 + 5) 28; mret (6, o)).
Proof. reflexivity. Qed.

Lemma requests_written pre t0 t1 t2 t3 t4 t5 t6 t7 t8 rest :
  write_requests (pre ++ t0 :: t1 :: t2 :: t3 :: t4 :: t5 :: t6 :: t7 :: t8 :: rest)
    (Z.of_nat (length pre)) = Ok (pre ++ encode_opt REQUESTS ++ DHCP_END :: rest).
Proof.
  set (e := Z.of_nat (length pre)).
  assert (∀ a i k b, (k < length a)%nat → i = e + Z.of_nat k →
    wr (pre ++ a) i b = Ok (pre ++ <[k := b]> a)) as Hw.
  { intros a i k b Hk ->. unfold e. rewrite <- Nat2Z.inj_add. by apply wr_app. }
  assert (∀ u1, request_loop option_table
      (pre ++ DHCP_PARAM_REQ :: u1 :: t2 :: t3 :: t4 :: t5 :: t6 :: t7 :: t8 :: rest) e 0
    = Ok (6, pre ++ DHCP_PARAM_REQ :: u1 :: wanted ++ t8 :: rest)) as Hloop.
  { intros u1. rewrite request_loop_eq. unfold mbind, res_bind.
    rewrite (Hw _ _ 2%nat), (Hw _ _ 3%nat), (Hw _ _ 4%nat), (Hw _ _ 5%nat), (Hw _ _ 6%nat),
      (Hw _ _ 7%nat) by (rewrite ?length_insert; simpl; lia). done. }
  unfold write_requests, mbind, res_bind.
  rewrite (Hw _ _ 0%nat) by (simpl; unfold OPT_CODE; lia). cbn [insert list_insert].
  rewrite Hloop, (Hw _ _ 1%nat) by (simpl; unfold OPT_LEN; lia).
  rewrite (Hw _ _ 8%nat) by (simpl; unfold OPT_DATA; lia). done.
Qed.

Lemma add_requests_ok c x ci os m :
  client_message c x ci os m → (length (encode os) ≤ 299)%nat →
  ∃ m', add_requests m = Ok m' ∧ client_message c x ci (os ++ [REQUESTS]) m'.
Proof.
  intros [Em Hh] Hl. unfold add_requests. rewrite (end_option_holds _ _ Hh).
  destruct Hh as [[rest Hrest] Hlen Hb Hos]. rewrite Hrest in Hlen, Hb |- *.
  rewrite length_app in Hlen. simpl in Hlen.
  do 8 (destruct rest as [|? rest]; [simpl in Hlen; lia|]).
  unfold mbind, res_bind. rewrite requests_written. eexists. split; [done|].
  split; cbn [options set_options]; [by rewrite Em|].
  rewrite app_assoc. split.
  - exists rest. rewrite encode_app, encode_cons. cbn [encode concat fmap list_fmap]. by rewrite app_nil_r.
  - clear -Hlen. rewrite !length_app. simpl in Hlen |- *. lia.
  - rewrite !is_bytes_app in *. destruct Hb as [Hb1 Hb2]. unfold is_bytes in Hb2.
    rewrite !Forall_cons in Hb2. split; [split; [done|]|].
    + cbn. byte_list.
    + constructor; [done|apply Hb2].
  - apply Forall_app. split; [done|]. constructor; [|done].
    repeat split; try (vm_compute; congruence); [cbn; byte_list|vm_compute; lia].
Qed.

(** Without room the field is left. *)
Lemma request_loop_cases table opts e len : res_ends (request_loop table opts e len).
Proof.
  revert opts len. induction table as [|o table IH]; intros opts len; [done|]. cbn [request_loop].
  destruct (negb _); [|apply IH]. unfold mbind, res_bind, wr. destruct (_ || _); [done|apply IH].
Qed.
Lemma add_requests_ends m os : holds (options m) os → res_ends (add_requests m).
Proof.
  intros Hh. unfold add_requests, write_requests. rewrite (end_option_holds _ _ Hh). unfold mbind, res_bind.
  assert (∀ a i b, res_ends (wr a i b)) as Hw by (intros; unfold wr; by destruct (_ || _)).
  destruct (wr (options m) _ _) as [o1| |] eqn:E1; [|done|by destruct (Hw _ _ _ E1)].
  destruct (request_loop _ _ _ _) as [[len o2]| |] eqn:E2; [|done|by destruct (request_loop_cases _ _ _ _ E2)].
  destruct (wr o2 _ _) as [o3| |] eqn:E3; [|done|by destruct (Hw _ _ _ E3)].
  destruct (wr o3 _ _) as [o4| |] eqn:E4; [done|done|by destruct (Hw _ _ _ E4)].
Qed.

(** ** The messages *)
Lemma pack_all base os : (length (encode (base ++ os)) ≤ 306)%nat → pack base os = base ++ os.
Proof.
  revert base. induction os as [|o os IH]; intros base Hl; [by rewrite app_nil_r|]. cbn [pack].
  rewrite (cons_middle o base os), app_assoc in Hl.
  pose proof Hl as Hl'. rewrite encode_app, length_app, encode_app, length_app in Hl'.
  rewrite encode_cons, length_app, encode_opt_length in Hl'. rewrite (proj2 (Nat.ltb_lt _ _)) by lia.
  rewrite IH by done. by rewrite <- app_assoc.
Qed.

Lemma encode_snoc os o : length (encode (os ++ [o])) = (length (encode os) + length o.2 + 2)%nat.
Proof. rewrite encode_app, length_app, encode_cons, length_app, encode_opt_length. simpl. lia. Qed.

Lemma with_ids_message c x ci x' ci' os m :
  client_message c x ci os m → client_message c x' ci' os (with_ids x' ci' m).
Proof. intros [Em Hh]. split; [|done]. rewrite Em. done. Qed.

Lemma with_simple_ok c x ci os m code z :
  client_message c x ci os m → 0 < code < 255 → code ≠ DHCP_OPTION_OVER → simple_length code = 4 →
  ∃ m', with_simple m code z = Ok m' ∧ client_message c x ci (pack os [(code, le_bytes 4 z)]) m'.
Proof.
  intros [Em Hh] H1 H2 H3. unfold with_simple.
  destruct (add_simple_pack _ _ code z Hh H1 H2 H3) as (r & a & -> & Ha).
  eexists. split; [done|]. split; [by rewrite Em|done].
Qed.

Section messages.
Context (c : client_config_t) (id : bytes) (host : option bytes) (Hc : wf_conf c id host).

Lemma client_init_ok type :
  request_type type →
  ∃ m, client_init_packet c type = Ok m ∧
    client_message c 0 0 (pack [(DHCP_MESSAGE_TYPE, [type])] (client_opts id host)) m.
Proof.
  intros Ht. unfold client_init_packet, init_header.
  destruct (add_simple_ok _ [] DHCP_MESSAGE_TYPE type empty_options_hold)
    as (r & a & E & Hh); [done..|simpl; lia|].
  rewrite E. unfold mbind at 1, res_bind at 1. unfold mbind at 1, res_bind at 1. cbn [mret res_ret chaddr].
  destruct (wc_arp _ _ _ Hc) as [Ha _].
  assert (blit (replicate 16 0) 0 (arp c) 6 = Ok (arp c ++ replicate 10 0)) as ->.
  { unfold blit. rewrite Ha. change (6 <? 0) with false. simpl. rewrite take_ge by lia. done. }
  unfold mbind at 1, res_bind at 1. cbn [options]. rewrite (wc_id _ _ _ Hc).
  destruct (add_string_ok a _ _ Hh (wc_id_opt _ _ _ Hc)) as (a1 & -> & H1).
  unfold mbind at 1, res_bind at 1. rewrite (wc_host _ _ _ Hc).
  assert (∃ a2, (match (λ h, encode_opt (DHCP_HOST_NAME, h)) <$> host with
      | Some h => add_string a1 (Some h) | None => mret a1 end) = Ok a2 ∧
    holds a2 (pack (pack ([] ++ [(DHCP_MESSAGE_TYPE, le_bytes (Z.to_nat (simple_length DHCP_MESSAGE_TYPE)) type)])
      [(DHCP_CLIENT_ID, id)]) (option_list ((DHCP_HOST_NAME,.) <$> host)))) as (a2 & -> & H2).
  { destruct host as [h|] eqn:Eh; [|by exists a1].
    apply (add_string_ok a1 _ _ H1). by apply (wc_host_opt _ _ _ Hc). }
  unfold mbind at 1, res_bind at 1. destruct (vendor_ok a2 _ H2) as (a3 & -> & H3).
  eexists. split; [done|].
  assert (op_eq : ∀ t, request_type t → (if (t =? DHCPDISCOVER) || (t =? DHCPREQUEST) || (t =? DHCPRELEASE)
    || (t =? DHCPINFORM) then BOOTREQUEST
    else if (t =? DHCPOFFER) || (t =? DHCPACK) || (t =? DHCPNAK) then BOOTREPLY else 0) = BOOTREQUEST).
  { by intros t [->|[->| ->]]. }
  split; cbn [options]; [by rewrite op_eq|].
  rewrite <- pack_app, <- pack_app in H3.
  assert (le_bytes (Z.to_nat (simple_length DHCP_MESSAGE_TYPE)) type = [type]) as El
    by (by destruct Ht as [->|[->| ->]]).
  rewrite El in H3. exact H3.
Qed.

(** The messages end, whatever the lengths of the identifier and the name. *)
Lemma discover_ends x requested : res_ends (discover_message c x requested).
Proof.
  unfold discover_message. destruct (client_init_ok DHCPDISCOVER) as (m & -> & Hm); [by left|].
  unfold mbind at 1, res_bind at 1. apply (with_ids_message _ _ _ x (ciaddr m)) in Hm.
  destruct (negb (requested =? 0)).
  - destruct (with_simple_ok _ _ _ _ _ DHCP_REQUESTED_IP requested Hm) as (m' & -> & Hm'); [done..|].
    by eapply add_requests_ends, Hm'.
  - by eapply add_requests_ends, Hm.
Qed.
Lemma select_ends x server requested : res_ends (select_message c x server requested).
Proof.
  unfold select_message. destruct (client_init_ok DHCPREQUEST) as (m & -> & Hm); [by right; left|].
  unfold mbind at 1, res_bind at 1. apply (with_ids_message _ _ _ x (ciaddr m)) in Hm.
  destruct (with_simple_ok _ _ _ _ _ DHCP_REQUESTED_IP requested Hm) as (m1 & -> & Hm1); [done..|].
  unfold mbind at 1, res_bind at 1.
  destruct (with_simple_ok _ _ _ _ _ DHCP_SERVER_ID server Hm1) as (m2 & -> & Hm2); [done..|].
  by eapply add_requests_ends, Hm2.
Qed.
Lemma renew_ends x ci : res_ends (renew_message c x ci).
Proof.
  unfold renew_message. destruct (client_init_ok DHCPREQUEST) as (m & -> & Hm); [by right; left|].
  unfold mbind at 1, res_bind at 1. apply (with_ids_message _ _ _ x ci) in Hm.
  by eapply add_requests_ends, Hm.
Qed.

(** The options of the client, and room for the others. *)
Hypothesis Hroom : (length id + length (default [] host) ≤ 200)%nat.

Definition own_opts (type : Z) : list (Z * bytes) :=
  (DHCP_MESSAGE_TYPE, [type]) :: client_opts id host.

Lemma own_opts_length type : (length (encode (own_opts type)) ≤ 260)%nat.
Proof.
  unfold own_opts, client_opts. rewrite !encode_cons, encode_app, !length_app, !encode_opt_length.
  destruct host; cbn [fmap option_fmap option_map option_list default] in Hroom |- *;
    rewrite ?encode_cons, ?length_app, ?encode_opt_length; simpl in Hroom |- *; rewrite ?app_nil_r; lia.
Qed.

Lemma client_init_all type :
  request_type type →
  ∃ m, client_init_packet c type = Ok m ∧ client_message c 0 0 (own_opts type) m.
Proof.
  intros Ht. destruct (client_init_ok type Ht) as (m & E & Hm). exists m. split; [done|].
  pose proof (own_opts_length type). rewrite pack_all in Hm; [done|]. unfold own_opts in *. simpl in *. lia.
Qed.

Lemma discover_ok x requested :
  requested ≠ 0 →
  ∃ m, discover_message c x requested = Ok m ∧ client_message c x 0
    (own_opts DHCPDISCOVER ++ [(DHCP_REQUESTED_IP, le_bytes 4 requested); REQUESTS]) m.
Proof.
  intros Hr. unfold discover_message. pose proof (own_opts_length DHCPDISCOVER) as Hl.
  destruct (client_init_all DHCPDISCOVER) as (m & -> & Hm); [by left|].
  unfold mbind at 1, res_bind at 1.
  assert (ciaddr m = 0) as -> by by rewrite (cm_eq _ _ _ _ _ Hm). apply (with_ids_message _ _ _ x 0) in Hm.
  rewrite (proj2 (Z.eqb_neq _ _) Hr). cbn [negb].
  destruct (with_simple_ok _ _ _ _ _ DHCP_REQUESTED_IP requested Hm) as (m' & -> & Hm'); [done..|].
  rewrite pack_all in Hm' by (rewrite !encode_snoc; cbn [snd]; rewrite !le_bytes_length; lia).
  unfold mbind at 1, res_bind at 1.
  destruct (add_requests_ok _ _ _ _ _ Hm') as (m2 & -> & Hm2);
    [rewrite !encode_snoc; cbn [snd]; rewrite !le_bytes_length; lia|].
  exists m2. split; [done|]. by rewrite <- app_assoc in Hm2.
Qed.

Lemma select_ok x server requested :
  ∃ m, select_message c x server requested = Ok m ∧ client_message c x 0
    (own_opts DHCPREQUEST ++ [(DHCP_REQUESTED_IP, le_bytes 4 requested);
                              (DHCP_SERVER_ID, le_bytes 4 server); REQUESTS]) m.
Proof.
  unfold select_message. pose proof (own_opts_length DHCPREQUEST) as Hl.
  destruct (client_init_all DHCPREQUEST) as (m & -> & Hm); [by right; left|].
  unfold mbind at 1, res_bind at 1.
  assert (ciaddr m = 0) as -> by by rewrite (cm_eq _ _ _ _ _ Hm). apply (with_ids_message _ _ _ x 0) in Hm.
  destruct (with_simple_ok _ _ _ _ _ DHCP_REQUESTED_IP requested Hm) as (m1 & -> & Hm1); [done..|].
  rewrite pack_all in Hm1 by (rewrite !encode_snoc; cbn [snd]; rewrite !le_bytes_length; lia).
  unfold mbind at 1, res_bind at 1.
  destruct (with_simple_ok _ _ _ _ _ DHCP_SERVER_ID server Hm1) as (m2 & -> & Hm2); [done..|].
  rewrite pack_all in Hm2 by (rewrite !encode_snoc; cbn [snd]; rewrite !le_bytes_length; lia).
  unfold mbind at 1, res_bind at 1.
  destruct (add_requests_ok _ _ _ _ _ Hm2) as (m3 & -> & Hm3);
    [rewrite !encode_snoc; cbn [snd]; rewrite !le_bytes_length; lia|].
  exists m3. split; [done|]. by rewrite <- !app_assoc in Hm3.
Qed.

Lemma renew_ok x ci :
  ∃ m, renew_message c x ci = Ok m ∧ client_message c x ci (own_opts DHCPREQUEST ++ [REQUESTS]) m.
Proof.
  unfold renew_message. pose proof (own_opts_length DHCPREQUEST) as Hl.
  destruct (client_init_all DHCPREQUEST) as (m & -> & Hm); [by right; left|].
  unfold mbind at 1, res_bind at 1. apply (with_ids_message _ _ _ x ci) in Hm.
  apply (add_requests_ok _ _ _ _ _ Hm). lia.
Qed.
End messages.
