(* ===== verification/ClientEnds.v ===== *)
(** * The client's calls come back

    The parts of the DHCP client that talk to the kernel and to the library end
    from every state of the world: with a result or at a fault.  The loops over the
    options of a message and over the routers are bounded by their texts. *)
From S2P Require Import Prelude CLib Heap System Bytes Genconfig GenconfigSpec GenconfigOps.
From S2P Require Import GenconfigFile Cconfig SystemApi Syslog Userland LibEnds Dhcp DhcpOptions.
From S2P Require Import DhcpPacket DhcpLeases DhcpTable DhcpFiles DhcpServer DhcpInv DhcpReply.
From S2P Require Import DhcpChoice DhcpSettings ClientPacket DhcpScript ClientWire ClientMessages.

(** ** The library *)
#[export] Instance ends_need {A} (o : option A) : Ends (need o).
Proof. unfold need. apply _. Qed.
#[export] Instance ends_copy_token n p o : Ends (copy_token n p o).
Proof. unfold copy_token. apply _. Qed.
#[export] Instance ends_dhcpd_read_config c : Ends (dhcpd_read_config c).
Proof. unfold dhcpd_read_config, read_range, read_dns, read_times, read_path. apply _. Qed.
#[export] Instance ends_update_config c : Ends (update_udhcpd_config c).
Proof. unfold update_udhcpd_config. apply _. Qed.
#[export] Instance ends_commit_config c : Ends (dhcpd_commit_config c).
Proof. unfold dhcpd_commit_config. apply _. Qed.
#[export] Instance ends_dhcpd_set_dns alive d1 d2 : Ends (dhcpd_set_dns alive d1 d2).
Proof.
  unfold dhcpd_set_dns, differs, dhcpd_stop, dhcpd_start, kill_process, pid_db_remove_value. apply _.
Qed.
#[export] Instance ends_get_autodns : Ends get_autodns.
Proof. unfold get_autodns. apply _. Qed.
#[export] Instance ends_manual_dns i j : Ends (get_manual_dns_flag i j).
Proof. unfold get_manual_dns_flag. apply _. Qed.
#[export] Instance ends_dns_shadow i j d1 d2 : Ends (set_dns_shadow i j d1 d2).
Proof. unfold set_dns_shadow. apply _. Qed.
#[export] Instance ends_wizard i t : Ends (wizard_api_set_status i t).
Proof. unfold wizard_api_set_status. apply _. Qed.
#[export] Instance ends_create_pid n p : Ends (create_pid n p).
Proof. unfold create_pid. apply _. Qed.
#[export] Instance ends_delete_pid n : Ends (delete_pid n).
Proof. unfold delete_pid, pid_db_remove_value. apply _. Qed.
#[export] Instance ends_file_value f t : Ends (get_file_value f t).
Proof.
  unfold get_file_value. apply ends_bind; [apply _|]. intros [content|]; [|apply _].
  destruct (t =? 1); [destruct (scan_d content) as [[]|]; apply _|].
  destruct (t =? 2); [destruct (scan_X content) as [[]|]; apply _|apply _].
Qed.
#[export] Instance ends_nat_get u : Ends (sysconf_nat_get u).
Proof. unfold sysconf_nat_get. apply _. Qed.
#[export] Instance ends_virtual_host ip : Ends (make_virtual_host_page ip).
Proof. unfold make_virtual_host_page. apply _. Qed.

(** ** The world *)
#[export] Instance ends_syslib {A} (m : M sys A) : Ends m → Ends (syslib m).
Proof.
  intros Hm w. unfold wp, syslib. specialize (Hm (w_os w)). unfold wp in Hm.
  by destruct (m (w_os w)) as [[a o]|e|].
Qed.
#[export] Instance ends_tell e : Ends (tell e).
Proof. unfold tell. apply _. Qed.

Section world.
Context `{kern : !Kernel, svc : !Services, rtr : !Router}.

#[export] Instance ends_ask e : Ends (ask e).
Proof. done. Qed.
#[export] Instance ends_wtime : Ends wtime.
Proof. done. Qed.
#[export] Instance ends_random_xid : Ends random_xid.
Proof. done. Qed.
#[export] Instance ends_wlog level fmt args : Ends (wlog level fmt args).
Proof. unfold wlog. apply _. Qed.
#[export] Instance ends_inet_addr_ptr s : Ends (inet_addr_ptr s).
Proof. unfold inet_addr_ptr. apply _. Qed.
#[export] Instance ends_set_ifconfig i ip m : Ends (set_ifconfig i ip m).
Proof. unfold set_ifconfig. apply _. Qed.
#[export] Instance ends_delete_loop k i : Ends (delete_loop k i).
Proof. induction k; simpl; apply _. Qed.
#[export] Instance ends_set_gateway i g : Ends (set_default_gateway i g).
Proof. unfold set_default_gateway. apply _. Qed.
#[export] Instance ends_set_gateway2 i m g : Ends (set_default_gateway2 i m g).
Proof. unfold set_default_gateway2. apply _. Qed.
#[export] Instance ends_kills l : Ends (kills l).
Proof. induction l as [|[] l IH]; simpl; apply _. Qed.

(** ** Texts *)
Lemma after_shorter c s r : after c s = Some r → (length r < length s)%nat.
Proof.
  unfold after. pose proof (span_app (λ d, negb (is_char c d)) s) as H.
  destruct (span _ s) as [a [|d b]]; simpl in H |- *; [done|]. intros [= <-].
  rewrite <- H, length_app. simpl. lia.
Qed.

Lemma cut_blank_ends b : res_ends (cut_blank b).
Proof. unfold cut_blank. destruct (after _ _); [done|]. by destruct b.2. Qed.
Lemma cut_blank_shorter b t r : cut_blank b = Ok (t, Some r) → (length r.1 < length b.1)%nat.
Proof.
  unfold cut_blank. destruct (after " " b.1) as [r'|] eqn:E.
  - intros [= _ <-]. by apply after_shorter in E.
  - by destruct b.2.
Qed.

Lemma router_loop_ends fuel i sn cur b :
  (length b.1 < fuel)%nat → Ends (router_loop fuel i sn cur b).
Proof.
  revert b. induction fuel as [|fuel IH]; intros b Hf; [lia|]. cbn [router_loop].
  intros w. apply wp_of_res. destruct (cut_blank b) as [[rt rest]| |] eqn:E; [|done|].
  2:{ by destruct (cut_blank_ends b). }
  assert (Ends (match rest with Some rest => router_loop fuel i sn cur rest | None => mret tt end)).
  { destruct rest as [r|]; [|apply _]. apply cut_blank_shorter in E. apply IH. lia. }
  apply ends. all: try apply _.
Qed.
#[export] Instance ends_apply_router i sn r cur : Ends (apply_router i sn r cur).
Proof. unfold apply_router. apply router_loop_ends. lia. Qed.

#[export] Instance ends_apply_dns i dns : Ends (apply_dns i dns).
Proof.
  unfold apply_dns. apply ends_bind; [apply ends_of_res, cut_blank_ends|]. intros [dns1 rest].
  assert (Ends (match rest with
    | None => mret None
    | Some rest => '(dns2, _) ← of_res (cut_blank rest); mret (Some dns2)
    end : M world (option str))).
  { destruct rest as [r|]; [|apply _]. apply ends_bind; [apply ends_of_res, cut_blank_ends|].
    intros []. apply _. }
  apply _.
Qed.
#[export] Instance ends_apply_address i ip sn r cip csn : Ends (apply_address i ip sn r cip csn).
Proof. unfold apply_address, strcmp_ptr. apply _. Qed.
#[export] Instance ends_run_lease c i envp r : Ends (run_lease c i envp r).
Proof. unfold run_lease. apply _. Qed.
#[export] Instance ends_run_discovery envp : Ends (run_discovery envp).
Proof. unfold run_discovery. apply _. Qed.

(** ** The environment of a message *)
Lemma sprintf_ends cap dest t : res_ends (sprintf cap dest t).
Proof. unfold sprintf. by destruct (_ <? _). Qed.
Lemma rd_ends a i : res_ends (rd a i).
Proof. unfold rd. destruct (i <? 0); [done|]. by destruct (_ !! _). Qed.
Lemma get_le_ends n a : res_ends (get_le n a).
Proof. unfold get_le. by destruct (_ <? _)%nat. Qed.
Lemma res_ends_bind {A B} (r : res A) (f : A → res B) :
  res_ends r → (∀ a, res_ends (f a)) → res_ends (r ≫= f).
Proof. intros Hr Hf. unfold res_ends, mbind, res_bind in *. destruct r; [apply Hf|done|done]. Qed.
Lemma sprintip_ends cap dest pre ip : res_ends (sprintip cap dest pre ip).
Proof.
  unfold sprintip. repeat (apply res_ends_bind; [apply rd_ends|intros ?]). apply sprintf_ends.
Qed.
Lemma fill_one_ends type cap dest option : res_ends (fill_one type cap dest option).
Proof.
  unfold fill_one. destruct (type =? OPTION_IP_PAIR).
  - apply res_ends_bind; [apply sprintip_ends|intros ?].
    apply res_ends_bind; [apply sprintf_ends|intros ?].
    apply res_ends_bind; [apply sprintip_ends|done].
  - apply res_ends_bind; [|done].
    repeat case_match; try apply sprintip_ends; try done;
      (apply res_ends_bind; [first [apply rd_ends|apply get_le_ends]|intros ?; apply sprintf_ends]).
Qed.

Lemma fill_loop_ends fuel type optlen cap dest option len :
  1 ≤ optlen → len < Z.of_nat fuel → (0 < fuel)%nat →
  res_ends (fill_loop fuel type optlen cap dest option len).
Proof.
  revert optlen dest option len. induction fuel as [|fuel IH]; intros optlen dest option len Ho Hl Hf;
    [lia|]. cbn [fill_loop].
  destruct (type =? OPTION_STRING); [destruct (_ <? _); [done|apply sprintf_ends]|].
  apply res_ends_bind; [apply fill_one_ends|]. intros [dest' option'].
  destruct (Z.leb_spec (len - (if type =? OPTION_IP_PAIR then 4 else optlen)) 0); [done|].
  destruct (type =? OPTION_IP_PAIR); apply IH; lia.
Qed.

Lemma fill_options_ends cap option len o :
  1 ≤ option_length (option_type o) → 0 ≤ len → res_ends (fill_options cap option len o).
Proof.
  intros Ho Hl. unfold fill_options. apply res_ends_bind; [apply sprintf_ends|]. intros dest.
  apply fill_loop_ends; lia.
Qed.

Lemma table_lengths : Forall (λ o, 1 ≤ option_length (option_type o)) option_table.
Proof. decided. Qed.

Lemma env_options_ends table packet :
  wf_message packet → Forall (λ o, 1 ≤ option_length (option_type o)) table →
  res_ends (env_options table packet).
Proof.
  intros Hp. induction 1 as [|o table Ho Htable IH]; [done|]. cbn [env_options].
  pose proof (get_option_bounds packet (o_code o) Hp) as Hb. unfold in_bounds in Hb.
  unfold mbind at 1, res_bind at 1.
  destruct (get_option packet (o_code o)) as [[[option len]|]|[]|]; try done.
  apply res_ends_bind; [apply fill_options_ends; [done|lia]|]. intros t.
  apply res_ends_bind; [done|]. done.
Qed.

Lemma fill_envp_ends c packet :
  match packet with Some p => wf_message p | None => True end → res_ends (fill_envp c packet).
Proof.
  intros Hp. unfold fill_envp. destruct packet as [p|]; [|done].
  apply res_ends_bind; [by apply get_option_ends|]. intros temp.
  apply res_ends_bind; [destruct temp as [[]|]; [apply rd_ends|done]|]. intros over.
  apply res_ends_bind; [apply sprintip_ends|]. intros ip.
  apply res_ends_bind; [apply env_options_ends; [done|apply table_lengths]|]. intros opts.
  apply res_ends_bind; [|done].
  destruct (_ =? 0); [done|]. apply res_ends_bind; [apply sprintip_ends|done].
Qed.

(** The message stays a message. *)
Lemma closed_ok a n : length a = n → (0 < n)%nat → is_bytes a → length (closed a) = n ∧ is_bytes (closed a).
Proof.
  intros Hl Hn Hb. unfold closed. rewrite length_app, length_take. simpl. split; [lia|].
  apply is_bytes_app. split; [by apply Forall_take|byte_list].
Qed.

Lemma fill_envp_wf c p envp p' :
  wf_message p → header_bytes p → fill_envp c (Some p) = Ok (envp, p') →
  ∃ q, p' = Some q ∧ wf_message q ∧ header_bytes q.
Proof.
  intros Hp Hh. unfold fill_envp, mbind, res_bind.
  destruct (get_option p DHCP_OPTION_OVER) as [temp| |]; [|done..].
  destruct (match temp with Some (data, _) => rd data 0 | None => mret 0 end) as [over| |]; [|done..].
  destruct (env_ip _) as [ip| |]; [|done..]. destruct (env_options _ _) as [opts| |]; [|done..].
  destruct (if siaddr p =? 0 then _ else _) as [si| |]; [|done..].
  intros [= _ <-]. eexists. split; [done|]. split; [|done].
  destruct Hp. destruct (closed_ok (file p) 128) as [? ?]; [done|lia|done|].
  destruct (closed_ok (sname p) 64) as [? ?]; [done|lia|done|].
  split; cbn [chaddr sname file options]; try done; by destruct (_ && _).
Qed.

Lemma run_script_ends c packet name :
  match packet with Some p => wf_message p ∧ header_bytes p | None => True end →
  ∀ w, wp any_fault (run_script c packet name) (λ p _,
    match packet with Some _ => ∃ q, p = Some q ∧ wf_message q ∧ header_bytes q | None => True end) w.
Proof.
  intros Hp w. unfold run_script. apply wp_of_res.
  assert (res_ends (fill_envp c packet)) as He by (apply fill_envp_ends; by destruct packet as [p|]; [apply Hp|]).
  destruct (fill_envp c packet) as [[envp p']| |] eqn:E; [|done|by destruct He].
  destruct (get_env_vars envp (lit "interface=")) as [[ifname|] envp']; [|done].
  eapply (wp_seq _ _ (λ _ _, True)); [destruct name; apply ends|]. intros envp2 w2 _.
  eapply wp_seq; [apply ends; apply _|]. intros _ w3 _. apply wp_ret.
  destruct packet as [p|]; [|done]. destruct Hp. by eapply fill_envp_wf.
Qed.

(** ** The messages *)
Lemma msg_wf c id host x ci os m :
  wf_conf c id host → client_message c x ci os m → wf_message m ∧ header_bytes m.
Proof.
  intros Hc [Em Hh]. destruct (wc_arp _ _ _ Hc) as [Ha Hb]. destruct Hh as [_ Hl Hbytes _].
  rewrite Em. split; [|unfold header_bytes; cbn; byte_list].
  split; cbn [chaddr sname file options]; try done; try by apply Forall_replicate.
  - rewrite length_app, length_replicate. lia.
  - apply is_bytes_app. split; [done|]. by apply Forall_replicate.
Qed.

Lemma raw_packet_ends m s sp d dp :
  wf_message m → header_bytes m → res_ends (raw_packet m s sp d dp).
Proof. intros Hw Hh. destruct (raw_packet_ok m s sp d dp Hw Hh) as (ip & udp & -> & _). done. Qed.

(** What is built of a message that the client may send. *)
Lemma wr_ok a i b a' :
  is_byte b → is_bytes a → wr a i b = Ok a' → length a' = length a ∧ is_bytes a'.
Proof.
  intros Hb Ha. unfold wr. destruct (_ || _); [done|]. intros [= <-].
  split; [by rewrite length_insert|by apply Forall_insert].
Qed.

Lemma request_loop_ok table opts e len len' opts' :
  Forall (λ o, is_byte (o_code o)) table → is_bytes opts → 0 ≤ len → len + Z.of_nat (length table) < 256 →
  request_loop table opts e len = Ok (len', opts') →
  length opts' = length opts ∧ is_bytes opts' ∧ is_byte len'.
Proof.
  intros Ht. revert opts len. induction Ht as [|o table Ho Ht IH]; intros opts len Hb Hl Hr;
    cbn [request_loop length] in *.
  { intros [= <- <-]. split_and!; [done|done|split; lia]. }
  destruct (negb _); [|intros E; eapply IH; [..|done]; done || lia].
  unfold mbind, res_bind. destruct (wr opts _ _) as [o1| |] eqn:E1; [|done..].
  apply wr_ok in E1 as [El Hb1]; [|done..]. intros E. apply IH in E; [|done|lia|lia].
  by rewrite El in E.
Qed.

Lemma table_codes : Forall (λ o, is_byte (o_code o)) option_table.
Proof. unfold is_byte. decided. Qed.

Lemma add_requests_sendable m m' : sendable m → add_requests m = Ok m' → sendable m'.
Proof.
  intros [Hw Hh]. unfold add_requests, write_requests, mbind, res_bind.
  destruct (end_option (options m)) as [e| |]; [|done..].
  destruct (wr (options m) _ _) as [o1| |] eqn:E1; [|done..].
  destruct (request_loop _ o1 _ _) as [[len o2]| |] eqn:E2; [|done..].
  destruct (wr o2 _ _) as [o3| |] eqn:E3; [|done..].
  destruct (wr o3 _ _) as [o4| |] eqn:E4; [|done..]. intros [= <-]. destruct Hw.
  apply wr_ok in E1 as [L1 B1]; [|done..]. apply request_loop_ok in E2 as (L2 & B2 & Bl);
    [|apply table_codes|done|lia|simpl; lia].
  apply wr_ok in E3 as [L3 B3]; [|done..]. apply wr_ok in E4 as [L4 B4]; [|done..].
  split; [|done]. split; cbn [chaddr sname file options set_options]; try done. congruence.
Qed.

Lemma of_message {A} (r : res dhcpMessage) (k : dhcpMessage → M world A) w :
  res_ends r → (∀ m, r = Ok m → sendable m) → (∀ m, sendable m → Ends (k m)) →
  wp any_fault (of_res r ≫= k) (λ _ _, True) w.
Proof.
  intros He Hs Hk. apply wp_of_res. destruct r as [m| |]; [by apply Hk, Hs|done|by destruct He].
Qed.

Lemma ends_broadcast c m src : sendable m → Ends (broadcast c m src).
Proof.
  intros [Hw Hh]. unfold broadcast. apply ends_bind; [by apply ends_of_res, raw_packet_ends|apply _].
Qed.

Section sending.
Context (c : client_config_t) (id : bytes) (host : option bytes) (Hc : wf_conf c id host).

Lemma discover_sendable x r m : discover_message c x r = Ok m → sendable m.
Proof.
  unfold discover_message. destruct (client_init_ok c id host Hc DHCPDISCOVER) as (m0 & -> & Hm); [by left|].
  unfold mbind at 1, res_bind at 1. apply (with_ids_message _ _ _ x (ciaddr m0)) in Hm.
  destruct (negb (r =? 0)).
  - destruct (with_simple_ok _ _ _ _ _ DHCP_REQUESTED_IP r Hm) as (m' & -> & Hm'); [done..|].
    apply add_requests_sendable. by eapply msg_wf.
  - apply add_requests_sendable. by eapply msg_wf.
Qed.
Lemma select_sendable x s r m : select_message c x s r = Ok m → sendable m.
Proof.
  unfold select_message. destruct (client_init_ok c id host Hc DHCPREQUEST) as (m0 & -> & Hm); [by right; left|].
  unfold mbind at 1, res_bind at 1. apply (with_ids_message _ _ _ x (ciaddr m0)) in Hm.
  destruct (with_simple_ok _ _ _ _ _ DHCP_REQUESTED_IP r Hm) as (m1 & -> & Hm1); [done..|].
  unfold mbind at 1, res_bind at 1.
  destruct (with_simple_ok _ _ _ _ _ DHCP_SERVER_ID s Hm1) as (m2 & -> & Hm2); [done..|].
  apply add_requests_sendable. by eapply msg_wf.
Qed.
Lemma renew_sendable x ci m : renew_message c x ci = Ok m → sendable m.
Proof.
  unfold renew_message. destruct (client_init_ok c id host Hc DHCPREQUEST) as (m0 & -> & Hm); [by right; left|].
  apply (with_ids_message _ _ _ x ci) in Hm. apply add_requests_sendable. by eapply msg_wf.
Qed.

Lemma ends_send_discover x r : Ends (send_discover c x r).
Proof.
  intros w. apply of_message; [by eapply discover_ends|apply discover_sendable|].
  intros m Hm. by apply ends_broadcast.
Qed.
Lemma ends_send_selecting x s r : Ends (send_selecting c x s r).
Proof.
  intros w. apply of_message; [by eapply select_ends|apply select_sendable|].
  intros m Hm. by apply ends_broadcast.
Qed.
Lemma ends_send_renew x s ci : Ends (send_renew c x s ci).
Proof.
  intros w. apply of_message; [by eapply renew_ends|apply renew_sendable|].
  intros m Hm. destruct (negb _); [apply _|by apply ends_broadcast].
Qed.
Lemma ends_send_release s ci : Ends (send_release c s ci).
Proof.
  unfold send_release. destruct (client_init_ok c id host Hc DHCPRELEASE) as (m & -> & Hm); [by right; right|].
  intros w. apply wp_of_res. eapply wp_seq; [by apply (ends (m := random_xid))|]. intros x w1 _.
  apply (with_ids_message _ _ _ x ci) in Hm. apply wp_of_res.
  destruct (with_simple_ok _ _ _ _ _ DHCP_REQUESTED_IP ci Hm) as (m1 & -> & Hm1); [done..|].
  apply wp_of_res.
  destruct (with_simple_ok _ _ _ _ _ DHCP_SERVER_ID s Hm1) as (m2 & -> & Hm2); [done..|]. done.
Qed.
End sending.
End world.
