(* ===== verification/ClientCheck.v ===== *)
(** * The check of an offer: the network of the router's services

    check_private_ip looks for a network of 256 addresses that is neither the one
    of the offered address nor the one of the server or of the relay.  The search
    takes at most four rounds, since it visits another network in each. *)
From S2P Require Import Prelude CLib Heap System Bytes Genconfig GenconfigSpec GenconfigOps.
From S2P Require Import GenconfigFile Cconfig SystemApi Syslog Userland Dhcp DhcpOptions.
From S2P Require Import DhcpPacket DhcpLeases DhcpFiles DhcpServer DhcpSettings ClientPacket.
From S2P Require Import DhcpScript Dhcpc.

(** ** The text of an address *)
Lemma fmt_byte b : is_byte b → fmt_d b = fmt_u b ∧ (length (fmt_u b) ≤ 3)%nat.
Proof.
  intros Hb. split.
  - unfold fmt_d. by rewrite (proj2 (Z.ltb_ge _ _)) by apply Hb.
  - apply Nat.leb_le.
    pose proof (forallb_forall (λ b, Nat.leb (length (fmt_u b)) 3) (seqZ 0 256)) as [H _].
    apply H; [by vm_compute|]. apply list_elem_of_In, elem_of_seqZ. unfold is_byte in Hb. lia.
Qed.

Lemma aton_parts_blank fuel parts b :
  is_byte b → length parts = 3%nat →
  aton_parts (S fuel) parts (fmt_u b ++ lit " ") = Some (of_le (parts ++ [b])).
Proof.
  intros Hb Hp. unfold is_byte in Hb. cbn [aton_parts].
  destruct (fmt_u_first b (lit " ")) as (c & s & Es & Hc); [lia|].
  rewrite Es, Hc, <- Es. cbn [negb]. rewrite strtoul0_fmt_u by (done || lia).
  cbn [lit String.list_ascii_of_string]. unfold aton_end. rewrite Hp.
  change (256 ^ Z.of_nat (4 - 3)) with 256. rewrite (proj2 (Z.leb_gt _ _)) by lia.
  change (4 - 3)%nat with 1%nat. rewrite le_bytes_S, Z.mod_small by lia. done.
Qed.

Lemma ip_text_addr b0 b1 b2 b3 :
  is_bytes [b0; b1; b2; b3] → inet_addr (ip_text b0 b1 b2 b3) = of_le [b0; b1; b2; b3].
Proof.
  intros Hb. unfold is_bytes in Hb. rewrite !Forall_cons in Hb. destruct Hb as (H0 & H1 & H2 & H3 & _).
  unfold inet_addr, inet_aton, ip_text.
  rewrite (proj1 (fmt_byte b0 H0)), (proj1 (fmt_byte b1 H1)), (proj1 (fmt_byte b2 H2)),
    (proj1 (fmt_byte b3 H3)).
  rewrite aton_parts_dot by (done || simpl; lia). cbn [app].
  rewrite aton_parts_dot by (done || simpl; lia). cbn [app].
  rewrite aton_parts_dot by (done || simpl; lia). cbn [app].
  by rewrite aton_parts_blank.
Qed.

Lemma ip_text_length b0 b1 b2 b3 :
  is_bytes [b0; b1; b2; b3] → (length (ip_text b0 b1 b2 b3) ≤ 16)%nat.
Proof.
  intros Hb. unfold is_bytes in Hb. rewrite !Forall_cons in Hb. destruct Hb as (H0 & H1 & H2 & H3 & _).
  unfold ip_text. rewrite !length_app. change (length (lit ".")) with 1%nat.
  change (length (lit " ")) with 1%nat.
  destruct (fmt_byte b0 H0) as [-> ?], (fmt_byte b1 H1) as [-> ?], (fmt_byte b2 H2) as [-> ?],
    (fmt_byte b3 H3) as [-> ?]. lia.
Qed.

Lemma makeip_ok b0 b1 b2 b3 :
  is_bytes [b0; b1; b2; b3] → makeip 32 [b0; b1; b2; b3] = Ok (ip_text b0 b1 b2 b3).
Proof.
  intros Hb. pose proof (ip_text_length _ _ _ _ Hb).
  change (sprintf 32 [] (ip_text b0 b1 b2 b3) = Ok (ip_text b0 b1 b2 b3)).
  unfold sprintf. rewrite (proj2 (Z.ltb_lt _ _)); [done|]. unfold slen. cbn [app]. lia.
Qed.

(** ** What inet_addr reads fits in 32 bits *)
Lemma scan_base_nonneg base s : 0 ≤ base → ∀ acc, 0 ≤ acc → 0 ≤ (scan_base base acc s).1.
Proof.
  intros Hbase. induction s as [|c s IH]; intros acc Hacc; cbn [scan_base]; [done|].
  destruct (hex_val c) as [d|] eqn:Hd; [|done]. destruct (d <? base); [|done].
  apply IH. unfold hex_val in Hd. repeat case_match; simplify_eq; lia.
Qed.

Lemma number0_nonneg s neg z r : number0 s = Some (neg, z, r) → 0 ≤ z.
Proof.
  unfold number0. intros H.
  destruct (match (span is_space s).2 with [] => _ | _ => _ end) as [neg' s2].
  destruct (match s2 with [] => _ | _ => _ end) as [base s3] eqn:Eb.
  assert (0 ≤ base) as Hbase by (repeat case_match; simplify_eq; lia).
  destruct (match s3 with [] => _ | _ => _ end); [|done].
  pose proof (scan_base_nonneg base s3 Hbase 0 ltac:(lia)) as Hz.
  destruct (scan_base base 0 s3) as [z' r']. by simplify_eq.
Qed.

Lemma strtoul0_nonneg s : 0 ≤ (strtoul0 s).1.1.
Proof.
  unfold strtoul0. destruct (number0 s) as [[[neg z] r]|] eqn:E; [|done].
  apply number0_nonneg in E. destruct (z <? 2 ^ 32); [|done]. destruct neg; [|done].
  apply (Z.mod_pos_bound (- z) (2 ^ 32)). lia.
Qed.

Lemma aton_end_u32 parts val a :
  is_bytes parts → (length parts ≤ 4)%nat → aton_end parts val = Some a → is_u32 a.
Proof.
  intros Hp Hl. unfold aton_end. destruct (_ <=? _); [done|]. intros [= <-].
  assert (is_bytes (parts ++ rev (le_bytes (4 - length parts) val))) as Hb.
  { apply Forall_app. split; [done|]. apply Forall_rev, le_bytes_is_bytes. }
  pose proof (of_le_range _ Hb) as Hr.
  rewrite length_app, length_rev, le_bytes_length in Hr.
  by replace (length parts + (4 - length parts))%nat with 4%nat in Hr by lia.
Qed.

Lemma aton_parts_u32 fuel : ∀ parts s a,
  is_bytes parts → (length parts ≤ 3)%nat → aton_parts fuel parts s = Some a → is_u32 a.
Proof.
  induction fuel as [|fuel IH]; intros parts s a Hp Hl; [done|]. destruct s as [|c s]; [done|].
  cbn [aton_parts]. destruct (negb _); [done|].
  pose proof (strtoul0_nonneg (c :: s)) as Hv.
  destruct (strtoul0 (c :: s)) as [[val range] r]. cbn [fst] in Hv. destruct range; [done|].
  destruct r as [|d r]; [intros H; apply aton_end_u32 in H; [done|done|lia]|].
  destruct (is_char "." d).
  - destruct (Nat.ltb_spec 2 (length parts)); [done|]. destruct (Z.ltb_spec 255 val); [done|].
    apply IH; [|rewrite length_app; simpl; lia].
    apply Forall_app. split; [done|]. apply Forall_singleton. unfold is_byte. lia.
  - destruct (is_space d); [|done]. intros H. apply aton_end_u32 in H; [done|done|lia].
Qed.

Lemma inet_addr_u32 s : is_u32 (inet_addr s).
Proof.
  unfold inet_addr, inet_aton. destruct (aton_parts 4 [] s) as [a|] eqn:E; [|by vm_compute].
  apply aton_parts_u32 in E; [done|by constructor|simpl; lia].
Qed.

(** ** Networks of 256 addresses *)
Lemma land_net x : is_u32 x → Z.land x 0xffffff00 = 256 * (x / 256).
Proof.
  intros Hx. change 0xffffff00 with (Z.shiftl (Z.ones 24) 8).
  replace (256 * (x / 256)) with (Z.shiftl (Z.shiftr x 8) 8)
    by (rewrite Z.shiftl_mul_pow2, Z.shiftr_div_pow2 by lia; change (2 ^ 8) with 256; lia).
  apply Z.bits_inj'. intros n Hn. rewrite Z.land_spec, !Z.shiftl_spec by lia.
  destruct (decide (n < 8)) as [|Hge].
  { rewrite !(Z.testbit_neg_r _ (n - 8)), andb_false_r by lia. done. }
  rewrite Z.shiftr_spec by lia. replace (n - 8 + 8) with n by lia.
  destruct (decide (n < 32)) as [|Hout].
  - rewrite Z.ones_spec_low by lia. apply andb_true_r.
  - unfold is_u32 in Hx. rewrite <- (Z.mod_small x (2 ^ 32)) by lia.
    rewrite Z.mod_pow2_bits_high by lia. done.
Qed.

Lemma htonl_of_le a : is_bytes a → length a = 4%nat → htonl (of_le a) = of_le (rev a).
Proof. intros Ha El. unfold htonl, ntohl. by rewrite <- El, le_bytes_of_le. Qed.

Definition MASK : str := lit "255.255.255.0".

Lemma net_of s b0 b1 b2 b3 :
  is_bytes [b0; b1; b2; b3] → inet_addr s = of_le [b0; b1; b2; b3] →
  Z.land (htonl (inet_addr s)) (htonl (inet_addr MASK)) = 256 * of_le [b2; b1; b0].
Proof.
  intros Hb ->. change (htonl (inet_addr MASK)) with 0xffffff00. rewrite htonl_of_le by done.
  unfold is_bytes in Hb. rewrite !Forall_cons in Hb. destruct Hb as (H0 & H1 & H2 & H3 & _).
  unfold is_byte in *. rewrite land_net; cbn; [|split; lia].
  Z.to_euclidean_division_equations; lia.
Qed.

(** ** The search *)
Section search.
  Context (wanip wanmask server_ip relay_ip : str).

(** the network is one of those the router hears of with the offer *)
Definition conflicts (net : str) : bool :=
  check_same_network2 net MASK wanip wanmask
  || check_same_network2 net MASK server_ip MASK
  || check_same_network2 net MASK relay_ip MASK.

Notation N1 := (Z.land (htonl (inet_addr wanip)) (htonl (inet_addr wanmask))).
Notation N2 := (Z.land (htonl (inet_addr server_ip)) (htonl (inet_addr MASK))).
Notation N3 := (Z.land (htonl (inet_addr relay_ip)) (htonl (inet_addr MASK))).

Lemma conflicts_true net b0 b1 b2 b3 :
  is_bytes [b0; b1; b2; b3] → inet_addr net = of_le [b0; b1; b2; b3] → conflicts net = true →
  let v := 256 * of_le [b2; b1; b0] in v = N1 ∨ v = N2 ∨ v = N3.
Proof.
  intros Hb E. unfold conflicts, check_same_network2. rewrite (net_of _ _ _ _ _ Hb E).
  intros [[H%Z.eqb_eq|H%Z.eqb_eq]%orb_true_iff|H%Z.eqb_eq]%orb_true_iff; auto.
Qed.

Definition prev (b : Z) : Z := if b =? 0 then 255 else b - 1.

Lemma prev_byte b : is_byte b → is_byte (prev b).
Proof. unfold prev, is_byte. destruct (Z.eqb_spec b 0); lia. Qed.

Lemma prev_bytes b0 b1 b2 b3 : is_bytes [b0; b1; b2; b3] → is_bytes [b0; b1; prev b2; b3].
Proof.
  unfold is_bytes. rewrite !Forall_cons. intros (H0 & H1 & H2%prev_byte & H3 & _). done.
Qed.

(** one round of the search *)
Lemma service_round fuel net b0 b1 b2 b3 :
  is_bytes [b0; b1; b2; b3] → inet_addr net = of_le [b0; b1; b2; b3] →
  service_loop (S fuel) net wanip wanmask server_ip relay_ip =
    if conflicts net
    then service_loop fuel (ip_text b0 b1 (prev b2) b3) wanip wanmask server_ip relay_ip
    else Ok net.
Proof.
  intros Hb E. cbn [service_loop]. fold MASK. fold (conflicts net).
  destruct (conflicts net); [|done]. rewrite E.
  rewrite (le_bytes_of_le [b0; b1; b2; b3] Hb : le_bytes 4 _ = _).
  change (previous_net [b0; b1; b2; b3]) with [b0; b1; prev b2; b3].
  rewrite makeip_ok by by apply prev_bytes. done.
Qed.

Lemma service_search net b0 b1 b2 b3 :
  is_bytes [b0; b1; b2; b3] → inet_addr net = of_le [b0; b1; b2; b3] →
  ∃ net', service_loop 4 net wanip wanmask server_ip relay_ip = Ok net' ∧ conflicts net' = false.
Proof.
  intros Hb E.
  pose proof (prev_bytes _ _ _ _ Hb) as Hb1. pose proof (prev_bytes _ _ _ _ Hb1) as Hb2.
  pose proof (prev_bytes _ _ _ _ Hb2) as Hb3.
  pose proof (ip_text_addr _ _ _ _ Hb1) as E1. pose proof (ip_text_addr _ _ _ _ Hb2) as E2.
  pose proof (ip_text_addr _ _ _ _ Hb3) as E3.
  rewrite (service_round _ _ _ _ _ _ Hb E). destruct (conflicts net) eqn:C; [|eauto].
  rewrite (service_round _ _ _ _ _ _ Hb1 E1). destruct (conflicts (ip_text b0 b1 (prev b2) b3)) eqn:C1; [|eauto].
  rewrite (service_round _ _ _ _ _ _ Hb2 E2). destruct (conflicts (ip_text b0 b1 (prev (prev b2)) b3)) eqn:C2; [|eauto].
  rewrite (service_round _ _ _ _ _ _ Hb3 E3). destruct (conflicts (ip_text b0 b1 _ b3)) eqn:C3 in |- *; [|eauto].
  pose proof (conflicts_true _ _ _ _ _ Hb E C) as D. pose proof (conflicts_true _ _ _ _ _ Hb1 E1 C1) as D1.
  pose proof (conflicts_true _ _ _ _ _ Hb2 E2 C2) as D2. pose proof (conflicts_true _ _ _ _ _ Hb3 E3 C3) as D3.
  exfalso. clear C C1 C2 C3 E E1 E2 E3 Hb1 Hb2 Hb3.
  unfold is_bytes in Hb. rewrite !Forall_cons in Hb. destruct Hb as (_ & _ & H2 & _).
  revert D D1 D2 D3. generalize N1 N2 N3. intros n1 n2 n3. unfold prev, is_byte in *. cbn.
  repeat case_match; lia.
Qed.
End search.

Lemma service_found net wanip wanmask server_ip relay_ip :
  ∃ net', service_loop 4 net wanip wanmask server_ip relay_ip = Ok net' ∧
          conflicts wanip wanmask server_ip relay_ip net' = false.
Proof.
  pose proof (le_bytes_is_bytes 4 (inet_addr net)) as Hb.
  assert (inet_addr net = of_le (le_bytes 4 (inet_addr net))) as E.
  { pose proof (inet_addr_u32 net) as Hu. unfold is_u32 in Hu.
    rewrite of_le_bytes, Z.mod_small; [done|]. by change (256 ^ Z.of_nat 4) with (2 ^ 32). }
  rewrite !le_bytes_S in Hb, E. by eapply service_search.
Qed.

(** C26: whatever the first network and whatever the addresses of the offer, of
    its server and of its relay, the search of check_private_ip ends in four
    rounds, and the network it ends with is none of theirs. *)
Theorem service_network_found net wanip wanmask server_ip relay_ip :
  ∃ net', service_loop 4 net wanip wanmask server_ip relay_ip = Ok net' ∧
          conflicts wanip wanmask server_ip relay_ip net' = false.
Proof. apply service_found. Qed.
