(* ===== verification/DhcpcInv.v ===== *)
(** * The DHCP client: the invariant of its machine

    Whatever the network, the kernel and the files give, every pass of the
    client's loop ends, and leaves a machine in which the socket fits the state,
    no more than three messages have been sent without an answer, and the times of
    a lease are the ones of a lease that was granted. *)
From S2P Require Import Prelude CLib Heap System Bytes Genconfig GenconfigSpec GenconfigOps.
From S2P Require Import GenconfigFile Cconfig SystemApi Syslog Userland LibEnds Dhcp DhcpOptions.
From S2P Require Import DhcpPacket DhcpLeases DhcpTable DhcpFiles DhcpServer DhcpInv DhcpReply.
From S2P Require Import DhcpChoice DhcpEvents DhcpSettings ClientPacket DhcpScript Dhcpc ClientWire.
From S2P Require Import ClientMessages ClientEnds.

(** The socket of a state. *)
Definition mode_of (st : cstate) : lmode :=
  match st with
  | INIT_SELECTING | REQUESTING | INIT_REBOOT => LISTEN_RAW
  | BOUND | RELEASED => LISTEN_NONE
  | RENEWING | REBINDING | RENEW_REQUESTED => LISTEN_KERNEL
  end.

(** The states with a lease that runs. *)
Definition leased (st : cstate) : Prop := st = BOUND ∨ st = RENEWING ∨ st = REBINDING.

(** The lease, and the times at which it is renewed: in order for leases that are
    shorter than 2^32/7 seconds. *)
Definition timed (m : machine) : Prop :=
  ∃ lease, m_lease m = Some lease ∧ is_u32 lease ∧ is_u32 (m_t1 m) ∧ is_u32 (m_t2 m) ∧
    (lease * 7 < 2 ^ 32 → m_t1 m ≤ m_t2 m ≤ lease).

Record mach_ok (m : machine) : Prop := {
  mk_state : m_state m ≠ INIT_REBOOT;
  mk_mode : m_listen m = mode_of (m_state m);
  mk_fd : m_listen m = LISTEN_NONE → m_fd m = false;
  mk_num : 0 ≤ m_num m ≤ 3;
  mk_lease : leased (m_state m) → timed m
}.

Record cli_ok (s : cli) : Prop := {
  ck_conf : ∃ id host, wf_conf (conf s) id host;
  ck_mach : mach_ok (mach s);
  ck_packet : sendable (packet s)
}.

(** A call outside of the machine, by its result *)
Lemma outside_Ok {A B} (m : M world A) (f : A → M cli B) s a w :
  m (wrld s) = Ok (a, w) → (outside m ≫= f) s = f a (Cli (conf s) (chk s) (mach s) (packet s) w).
Proof. intros E. apply bind_Ok. unfold outside. by rewrite E. Qed.

Lemma outside_Fault {A B} (m : M world A) (f : A → M cli B) s e :
  m (wrld s) = Fault e → (outside m ≫= f) s = Fault e.
Proof. unfold mbind, M_bind, outside. by intros ->. Qed.

Section inv.
Context `{kern : !Kernel, ifs : !Interfaces, svc : !Services, rtr : !Router}.
Implicit Types (c : client_config_t) (m : machine) (p : dhcpMessage) (w : world).

(** The computations that change nothing but the world. *)
Class Silent {A} (m : M cli A) : Prop :=
  silent s : wp any_fault m (λ _ s', ∃ w, s' = Cli (conf s) (chk s) (mach s) (packet s) w) s.

#[export] Instance silent_outside {A} (m : M world A) : Ends m → Silent (outside m).
Proof.
  intros Hm s. unfold wp, outside. specialize (Hm (wrld s)). unfold wp in Hm.
  destruct (m (wrld s)) as [[a w]|e|]; [eauto|done|done].
Qed.
#[export] Instance silent_library {A} (m : M sys A) : Ends m → Silent (library m).
Proof. intros Hm. unfold library. apply _. Qed.
#[export] Instance silent_ret {A} (a : A) : Silent (mret a).
Proof. intros []. apply wp_ret. eauto. Qed.
#[export] Instance silent_fail {A} e : Silent (fail e : M cli A).
Proof. done. Qed.
#[export] Instance silent_gets {A} (f : cli → A) : Silent (gets f).
Proof. intros []. unfold wp, gets. eauto. Qed.
#[export] Instance silent_reading {A} (f : machine → A) : Silent (reading f).
Proof. unfold reading. apply _. Qed.
#[export] Instance silent_bind {A B} (m : M cli A) (f : A → M cli B) :
  Silent m → (∀ a, Silent (f a)) → Silent (m ≫= f).
Proof.
  intros Hm Hf s. eapply wp_seq; [apply Hm|]. intros a ? [w ->].
  eapply wp_mono; [apply Hf|]. intros b ? [w' ->]. by exists w'.
Qed.
#[export] Instance silent_when b (m : M cli unit) : Silent m → Silent (when b m).
Proof. intros Hm. destruct b; [done|apply _]. Qed.
#[export] Instance silent_if {A} (b : bool) (m m' : M cli A) :
  Silent m → Silent m' → Silent (if b then m else m').
Proof. by destruct b. Qed.
#[export] Instance silent_option {A B} (o : option A) (f : A → M cli B) (m : M cli B) :
  (∀ a, Silent (f a)) → Silent m → Silent (match o with Some a => f a | None => m end).
Proof. by destruct o. Qed.
#[export] Instance silent_pair {A B C} (p : A * B) (f : A → B → M cli C) :
  (∀ a b, Silent (f a b)) → Silent (let '(a, b) := p in f a b).
Proof. by destruct p. Qed.
Lemma silent_of_res {A} (r : res A) : res_ends r → Silent (of_res r).
Proof. intros Hr []. unfold wp, of_res. destruct r; [eauto|done|by destruct Hr]. Qed.
#[export] Instance silent_exit n : Silent (exit_client n).
Proof. unfold exit_client. apply _. Qed.
#[export] Instance silent_background : Silent background.
Proof. unfold background. apply _. Qed.
#[export] Instance silent_deconfig : Silent deconfig.
Proof.
  unfold deconfig. apply silent_bind; [apply _|]. intros c.
  apply silent_bind; [|apply _]. apply silent_outside. intros w.
  by eapply wp_mono; [apply run_script_ends|].
Qed.

Lemma wp_silent {A B} (m : M cli A) (f : A → M cli B) Q s :
  Silent m → (∀ a w, wp any_fault (f a) Q (Cli (conf s) (chk s) (mach s) (packet s) w)) →
  wp any_fault (m ≫= f) Q s.
Proof. intros Hm Hf. eapply wp_seq; [apply Hm|]. intros a ? [w ->]. apply Hf. Qed.

(** A pass that goes on leaves a machine of the invariant. *)
Definition passes (c : client_config_t) (k : bool) (r : next) (s : cli) : Prop :=
  r = None → conf s = c ∧ chk s = k ∧ mach_ok (mach s) ∧ sendable (packet s).

Lemma exit_passes n c k s : wp any_fault (exit_client n) (passes c k) s.
Proof.
  unfold exit_client. apply wp_gets. destruct (pidfile (conf s)); [|done].
  apply wp_silent; [apply _|]. intros _ w. by apply wp_ret.
Qed.
Lemma passes_intro c k m p w : mach_ok m → sendable p → passes c k None (Cli c k m p w).
Proof. by intros. Qed.

Lemma wp_script {B} name (f : unit → M cli B) Q s :
  sendable (packet s) →
  (∀ p w, sendable p → wp any_fault (f tt) Q (Cli (conf s) (chk s) (mach s) p w)) →
  wp any_fault (script_with_packet name ≫= f) Q s.
Proof.
  intros Hp Hf. unfold script_with_packet. apply wp_bind, wp_gets, wp_gets, wp_bind.
  pose proof (run_script_ends (conf s) (Some (packet s)) name Hp (wrld s)) as H.
  unfold wp at 1, outside. unfold wp in H.
  destruct (run_script _ _ _ _) as [[p w]|e|]; [|done|done]. destruct H as (q & -> & Hq).
  by apply Hf.
Qed.

Lemma wp_nest {A B C} (m : M cli A) (f : A → M cli B) (g : B → M cli C) Q s :
  wp any_fault (m ≫= λ a, f a ≫= g) Q s → wp any_fault ((m ≫= f) ≫= g) Q s.
Proof. unfold wp. by rewrite bind_assoc. Qed.

End inv.

(** One step of a symbolic run. *)
Ltac cstep :=
  match goal with
  | |- wp _ (gets _ ≫= _) _ _ => apply wp_gets
  | |- wp _ (reading _ ≫= _) _ _ => apply wp_gets
  | |- wp _ (set_mach _ ≫= _) _ _ => apply wp_modify
  | |- wp _ (set_packet _ ≫= _) _ _ => apply wp_modify
  | |- wp _ (change_mode _ ≫= _) _ _ => apply wp_modify
  | |- wp _ (mret _ ≫= _) _ _ => apply wp_bind, wp_ret
  | |- wp _ ((_ ≫= _) ≫= _) _ _ => apply wp_nest
  | |- wp _ (?m ≫= _) _ _ => apply (wp_silent m); [apply _|intros ? ?]
  end;
  cbn [conf chk mach packet wrld].

Ltac mach_done :=
  apply wp_ret, passes_intro; [|done]; split; cbn; try done; try lia;
  try (by intros [?|[?|?]]; congruence).

Section timers.
Context `{kern : !Kernel, ifs : !Interfaces, svc : !Services, rtr : !Router}.

Lemma u32_id z : is_u32 z → u32 z = z.
Proof. apply Z.mod_small. Qed.

(** The next time is half-way. *)
Lemma halfway a b :
  is_u32 a → is_u32 b → a ≤ b → u32 (u32 (b - a) / 2 + a) = a + (b - a) / 2.
Proof.
  intros Ha Hb Hab. unfold is_u32 in *. rewrite (u32_id (b - a)) by (split; lia).
  assert (0 ≤ (b - a) / 2 ≤ b - a) by (Z.to_euclidean_division_equations; lia).
  rewrite u32_id; [lia|split; lia].
Qed.
Lemma halfway_between a b : a ≤ b → a ≤ a + (b - a) / 2 ≤ b.
Proof. intros H. Z.to_euclidean_division_equations; lia. Qed.

(** ** The timeouts *)
Section timeouts.
Context (c : client_config_t) (k : bool) (p : dhcpMessage) (now : Z).
Context (id : bytes) (host : option bytes).
Hypothesis Hc : wf_conf c id host.
Hypothesis Hp : sendable p.

Local Instance ends_discover x r : Ends (send_discover c x r).
Proof. by eapply ends_send_discover. Qed.
Local Instance ends_selecting x s r : Ends (send_selecting c x s r).
Proof. by eapply ends_send_selecting. Qed.
Local Instance ends_renew x s r : Ends (send_renew c x s r).
Proof. by eapply ends_send_renew. Qed.

Lemma no_lease_passes m w :
  mach_ok m → m_state m = INIT_SELECTING → wp any_fault (no_lease now) (passes c k) (Cli c k m p w).
Proof.
  intros [H1 H2 H3 H4 H5] Hst. unfold no_lease. cstep.
  destruct (_ && _); [apply exit_passes|]. repeat cstep. destruct k; repeat cstep.
  - apply exit_passes.
  - mach_done.
Qed.

Lemma selecting_passes m w :
  mach_ok m → m_state m = INIT_SELECTING →
  wp any_fault (timeout_selecting now) (passes c k) (Cli c k m p w).
Proof.
  intros Hm Hst. unfold timeout_selecting. do 2 cstep.
  destruct (Z.ltb_spec (m_num m) 3) as [Hn|]; [|by apply no_lease_passes].
  destruct Hm as [H1 H2 H3 H4 H5]. destruct (m_num m =? 0).
  - cbn [when]. repeat cstep. mach_done.
  - cbn [when]. repeat cstep. mach_done.
Qed.

Lemma requesting_passes m w :
  mach_ok m → m_state m = RENEW_REQUESTED ∨ m_state m = REQUESTING →
  wp any_fault (timeout_requesting now) (passes c k) (Cli c k m p w).
Proof.
  intros [H1 H2 H3 H4 H5] Hst. unfold timeout_requesting. do 2 cstep.
  destruct (Z.ltb_spec (m_num m) 3) as [Hn|].
  - destruct (bool_decide _); repeat cstep; mach_done.
  - repeat cstep. mach_done.
Qed.

Lemma renewing_passes m w :
  mach_ok m → m_state m = RENEWING → wp any_fault (timeout_renewing now) (passes c k) (Cli c k m p w).
Proof.
  intros [H1 H2 H3 H4 H5] Hst. unfold timeout_renewing. do 2 cstep.
  destruct H5 as (lease & El & Hl & Ht1 & Ht2 & Ho); [by right; left|].
  unfold need_lease. rewrite El. cstep. destruct (Z.leb_spec (u32 (m_t2 m - m_t1 m)) (lease / 14400 + 1)).
  - repeat cstep. mach_done; [by rewrite H2, Hst|]. intros _. by exists lease.
  - repeat cstep. mach_done. intros _. exists lease. cbn.
    split_and!; [done|apply Hl..|apply u32_range|done|]. intros Hs.
    specialize (Ho Hs). rewrite halfway by (done || lia).
    pose proof (halfway_between (m_t1 m) (m_t2 m)). lia.
Qed.

Lemma rebinding_passes m w :
  mach_ok m → m_state m = REBINDING → wp any_fault (timeout_rebinding now) (passes c k) (Cli c k m p w).
Proof.
  intros [H1 H2 H3 H4 H5] Hst. unfold timeout_rebinding. do 2 cstep.
  destruct H5 as (lease & El & Hl & Ht1 & Ht2 & Ho); [by right; right|].
  unfold need_lease. rewrite El. cstep. destruct (Z.leb_spec (u32 (lease - m_t2 m)) (lease / 14400 + 1)).
  - repeat cstep. mach_done.
  - repeat cstep. mach_done. intros _. exists lease. cbn.
    split_and!; [done|apply Hl..|done|apply u32_range|]. intros Hs.
    specialize (Ho Hs). rewrite halfway by (done || lia).
    pose proof (halfway_between (m_t2 m) lease). lia.
Qed.

Lemma timed_out_passes m w :
  mach_ok m → wp any_fault (timed_out now) (passes c k) (Cli c k m p w).
Proof.
  intros Hm. unfold timed_out. cstep. destruct (m_state m) eqn:Hst.
  - by apply selecting_passes.
  - apply requesting_passes; [done|by right].
  - repeat cstep. apply renewing_passes; [|done]. destruct Hm as [H1 H2 H3 H4 H5].
    split; cbn; try done. intros _. destruct H5 as (lease & ?); [by left|]. by exists lease.
  - by apply renewing_passes.
  - by apply rebinding_passes.
  - by destruct (mk_state _ Hm).
  - apply requesting_passes; [done|by left].
  - repeat cstep. destruct Hm as [H1 H2 H3 H4 H5]. mach_done.
Qed.
End timeouts.
End timers.
