(* ===== verification/ClientRun.v ===== *)
(** * The DHCP client: its messages, its loop and its start

    The invariant of DhcpcInv holds from the start of udhcpc_main on, whatever the
    command line, the messages, the signals and the clock. *)
From S2P Require Import Prelude CLib Heap System Bytes Genconfig GenconfigSpec GenconfigOps.
From S2P Require Import GenconfigFile Cconfig SystemApi Syslog Userland LibEnds Dhcp DhcpOptions.
From S2P Require Import DhcpPacket DhcpLeases DhcpTable DhcpFiles DhcpServer DhcpInv DhcpReply.
From S2P Require Import DhcpChoice DhcpEvents DhcpSettings ClientPacket DhcpScript Dhcpc ClientWire.
From S2P Require Import ClientMessages ClientEnds ClientCheck DhcpcInv.

Section run.
Context `{kern : !Kernel, ifs : !Interfaces, svc : !Services, rtr : !Router}.
Implicit Types (c : client_config_t) (m : machine) (p : dhcpMessage) (w : world).

(** ** The check of an offer *)
#[export] Instance silent_strcpy n t : Silent (strcpy n t).
Proof. unfold strcpy. apply _. Qed.
#[export] Instance silent_makeip cap a : Silent (of_res (makeip cap a)).
Proof. apply silent_of_res, sprintip_ends. Qed.
#[export] Instance silent_get4 a : Silent (of_res (get4 a)).
Proof. apply silent_of_res, get4_ends. Qed.
#[export] Instance silent_search net a b d e : Silent (of_res (service_loop 4 net a b d e)).
Proof.
  apply silent_of_res. intros E. destruct (service_found net a b d e) as (n & E' & _).
  by rewrite E in E'.
Qed.
#[export] Instance silent_service_network a b p : Silent (service_network a b p).
Proof. unfold service_network. apply _. Qed.

Section packet.
Context (p : dhcpMessage).
Hypothesis Hp : sendable p.

Local Instance silent_get_option code : Silent (of_res (get_option p code)).
Proof. by apply silent_of_res, get_option_ends, Hp. Qed.
#[local] Instance silent_check name : Silent (check_private_ip name p).
Proof. unfold check_private_ip. apply _. Qed.
#[local] Instance silent_option_ip code : Silent (option_ip p code).
Proof. unfold option_ip. apply _. Qed.

Context (c : client_config_t) (k : bool) (now : Z).

Lemma wp_mach_last (g : machine → machine) (Q : unit → cli → Prop) s :
  Q tt (Cli (conf s) (chk s) (g (mach s)) (packet s) (wrld s)) → wp any_fault (set_mach g) Q s.
Proof. done. Qed.

Lemma offer_passes m w :
  mach_ok m → m_state m = INIT_SELECTING →
  wp any_fault (handle_offer now) (λ _, passes c k None) (Cli c k m p w).
Proof.
  intros Hm Hst. unfold handle_offer. repeat cstep.
  destruct a as [[data l]|]; [|by apply wp_ret, passes_intro].
  repeat cstep. destruct (_ =? 0); cbn [when]; [|by apply wp_ret, passes_intro].
  destruct Hm as [H1 H2 H3 H4 H5]. repeat cstep. apply wp_mach_last, passes_intro; [|done].
  split; cbn; try done; try lia; [by rewrite H2, Hst|by intros [?|[?|?]]].
Qed.

Lemma ack_lease_range : res_ends (ack_lease p) ∧ ∀ l, ack_lease p = Ok l → is_u32 l.
Proof.
  unfold ack_lease. pose proof (get_option_ends p DHCP_LEASE_TIME (proj1 Hp)) as He.
  destruct (get_option p DHCP_LEASE_TIME) as [[[data l]|]|e|]; [|by split; [|intros ? [= <-]]|done|done].
  unfold mbind, res_bind. pose proof (get4_ends data) as H4.
  destruct (get4 data); [|done|done]. split; [done|]. intros ? [= <-]. apply ntohl_range.
Qed.

Lemma bound_timed lease now' y m :
  is_u32 lease → timed (put_bound lease now' y m).
Proof.
  intros Hl. exists lease. cbn [put_bound m_lease m_t1 m_t2].
  rewrite Z.shiftr_div_pow2 by lia. change (2 ^ 3) with 8.
  pose proof (u32_range (lease * 7)) as Hr. unfold is_u32 in *.
  split_and!; try done; try (Z.to_euclidean_division_equations; lia).
  intros Hs. rewrite u32_id by (split; lia). Z.to_euclidean_division_equations; lia.
Qed.

Lemma timed_of m m' :
  m_lease m' = m_lease m → m_t1 m' = m_t1 m → m_t2 m' = m_t2 m → timed m → timed m'.
Proof. intros E1 E2 E3 (l & H). exists l. by rewrite E1, E2, E3. Qed.

Lemma ack_passes m w :
  mach_ok m → wp any_fault (handle_ack now) (passes c k) (Cli c k m p w).
Proof.
  intros [H1 H2 H3 H4 H5]. unfold handle_ack. repeat cstep.
  destruct ack_lease_range as [He Hl]. apply wp_of_res.
  destruct (ack_lease p) as [lease| |]; [|done|done]. specialize (Hl _ eq_refl).
  repeat cstep. apply wp_script; [done|]. intros q w' Hq. repeat cstep.
  destruct (quit_after_lease c); [apply exit_passes|].
  destruct (negb (foreground c)); cbn [when]; repeat cstep.
  all: apply wp_ret, passes_intro; [|done].
  all: split; cbn; try done; intros _; eapply timed_of, (bound_timed lease now (yiaddr p) m Hl); done.
Qed.

Lemma nak_passes m w :
  mach_ok m → wp any_fault (handle_nak now) (λ _, passes c k None) (Cli c k m p w).
Proof.
  intros [H1 H2 H3 H4 H5]. unfold handle_nak. apply wp_script; [done|].
  intros q w' Hq. cstep. cbn [conf chk mach packet wrld].
  repeat cstep. eapply wp_mono; [apply silent_outside, _|].
  intros [] ? [w'' ->]. cbn [conf chk mach packet]. apply passes_intro; [|done].
  split; cbn; try done; try lia. by intros [?|[?|?]].
Qed.

Lemma detected_passes m w :
  wp any_fault server_detected (passes c k) (Cli c k m p w).
Proof. unfold server_detected. repeat cstep. apply exit_passes. Qed.

Lemma wp_none (m : M cli unit) s :
  wp any_fault m (λ _, passes c k None) s → wp any_fault (m;; mret None) (passes c k) s.
Proof. intros H. eapply wp_seq; [apply H|]. intros ? s' H'. by apply wp_ret. Qed.
Lemma wp_when b (m : M cli unit) s :
  passes c k None s → wp any_fault m (λ _, passes c k None) s →
  wp any_fault (when b m) (λ _, passes c k None) s.
Proof. intros H H'. destruct b; [done|by apply wp_ret]. Qed.

Lemma dispatch_passes type m w :
  mach_ok m → wp any_fault (dispatch now type) (passes c k) (Cli c k m p w).
Proof.
  intros Hm. unfold dispatch. cstep. pose proof (passes_intro c k m p w Hm Hp) as Hn.
  destruct (m_state m) eqn:Hst; try by apply wp_ret.
  1: by apply wp_none, wp_when, offer_passes.
  all: destruct (_ =? DHCPACK); [by apply ack_passes|by apply wp_none, wp_when, nak_passes].
Qed.
End packet.

(** ** A message *)
Lemma kernel_input_wf input :
  (∀ d, input = Some d → is_bytes d) →
  match get_packet (kernel_input input) with
  | Ok (_, p) => sendable p | Fault _ => True | NoFuel => False
  end.
Proof.
  intros Hd. destruct input as [d|]; cbn [kernel_input get_packet].
  2: { split; [exact zeros_wf|cbn; byte_list]. }
  specialize (Hd d eq_refl).
  assert (sendable (msg_of_bytes (take 548 d ++ replicate (548 - length (take 548 d)) 0))) as Hs.
  { apply msg_of_bytes_sendable.
    - apply is_bytes_app. split; [by apply Forall_take|apply Forall_replicate; unfold is_byte; lia].
    - rewrite length_app, length_replicate, length_take. lia. }
  revert Hs. generalize (msg_of_bytes (take 548 d ++ replicate (548 - length (take 548 d)) 0)).
  intros p Hs. destruct (negb _); [done|]. destruct (_ =? _); [|done].
  pose proof (get_option_ends p DHCP_VENDOR (proj1 Hs)) as He. unfold mbind, res_bind.
  destruct (get_option p DHCP_VENDOR) as [[[data l]|]|e|]; [|done|done|by destruct He].
  destruct (_ && _); [|done]. destruct Hs as [[] ?]. done.
Qed.

Lemma input_wf p mode input :
  sendable p → (∀ d, input = Some d → is_bytes d) →
  match (match mode with
         | LISTEN_KERNEL => get_packet (kernel_input input)
         | _ => get_raw_packet p input
         end) with
  | Ok (_, p) => sendable p | Fault _ => True | NoFuel => False
  end.
Proof.
  intros Hp Hd.
  assert (match get_raw_packet p input with
          | Ok (_, p) => sendable p | Fault _ => True | NoFuel => False end) as Hraw.
  { destruct input as [d|]; [|done]. pose proof (raw_input_safe p d Hp (Hd d eq_refl)) as H.
    destruct (get_raw_packet p (Some d)) as [[r q]| |]; [apply H|done|done]. }
  destruct mode; [done|by apply kernel_input_wf|done].
Qed.

Lemma client_packet_passes c k m p w now input eintr :
  mach_ok m → sendable p → (∀ d, input = Some d → is_bytes d) →
  wp any_fault (client_packet now input eintr) (passes c k) (Cli c k m p w).
Proof.
  intros Hm Hp Hd. unfold client_packet. do 2 cstep. apply wp_of_res.
  pose proof (input_wf p (m_listen m) input Hp Hd) as Hin.
  destruct (match m_listen m with LISTEN_KERNEL => _ | _ => _ end) as [[len q]| |]; [|done|done].
  cstep.
  set (m' := if (len =? -1) && negb eintr then
               Mach (m_state m) (m_requested m) (m_server m) (m_timeout m) (m_num m) false
                 (m_listen m) (m_xid m) (m_t1 m) (m_t2 m) (m_start m) (m_lease m) (m_wizard m)
             else m).
  assert (mach_ok m') as Hm'.
  { unfold m'. destruct (_ && _); [|done]. destruct Hm as [H1 H2 H3 H4 H5]. by split. }
  assert (∀ (f : M cli next), wp any_fault f (passes c k) (Cli c k m' q w) →
    wp any_fault (when ((len =? -1) && negb eintr) (change_mode (m_listen m));; f) (passes c k)
      (Cli c k m q w)) as Hstep.
  { intros f Hf. unfold m' in Hf. by destruct (_ && _). }
  apply Hstep. clear Hstep. clearbody m'. destruct (len <? 0); [by apply wp_ret|]. cstep.
  destruct (negb _); [by apply wp_ret|]. cstep.
  destruct k; [by apply detected_passes|]. apply wp_of_res.
  pose proof (get_option_ends q DHCP_MESSAGE_TYPE (proj1 Hin)) as He.
  destruct (get_option q DHCP_MESSAGE_TYPE) as [[[data l]|]|e|]; [|by apply wp_ret|done|by destruct He].
  apply wp_of_res. pose proof (rd_ends data 0) as Hr.
  destruct (rd data 0); [by apply dispatch_passes|done|by destruct Hr].
Qed.

(** ** Signals *)
Section signals.
Context (c : client_config_t) (k : bool) (p : dhcpMessage) (id : bytes) (host : option bytes).
Hypothesis Hc : wf_conf c id host.
Hypothesis Hp : sendable p.

Local Instance ends_release s r : Ends (send_release c s r).
Proof. by eapply ends_send_release. Qed.

Lemma renew_passes m w :
  mach_ok m → wp any_fault perform_renew (λ _, passes c k None) (Cli c k m p w).
Proof.
  intros [H1 H2 H3 H4 H5]. unfold perform_renew. cstep.
  destruct (m_state m) eqn:Hst; repeat cstep; apply wp_mach_last, passes_intro; try done.
  all: split; cbn; rewrite ?H2, ?Hst; try done; try lia; try by intros [?|[?|?]].
Qed.

Lemma release_passes m w :
  mach_ok m → wp any_fault perform_release (λ _, passes c k None) (Cli c k m p w).
Proof.
  intros [H1 H2 H3 H4 H5]. unfold perform_release. do 2 cstep.
  destruct (m_state m) eqn:Hst; repeat cstep; apply wp_mach_last, passes_intro; try done.
  all: split; cbn; try done; try lia; try by intros [?|[?|?]].
Qed.

Lemma signalled_passes m w byte :
  mach_ok m → wp any_fault (signalled byte) (passes c k) (Cli c k m p w).
Proof.
  intros Hm. unfold signalled. destruct byte as [sig|]; [|by apply wp_ret].
  destruct (sig =? SIGUSR1); [by apply wp_none, renew_passes|].
  destruct (sig =? SIGUSR2); [by apply wp_none, release_passes|].
  destruct (sig =? SIGTERM); [apply exit_passes|by apply wp_ret].
Qed.
End signals.

(** ** The loop *)
Definition wake_ok (w : wakeup) : Prop :=
  match w with Datagram (Some d) _ => is_bytes d | _ => True end.

Lemma pass_passes s opens wk :
  cli_ok s → wake_ok wk → wp any_fault (pass opens wk) (λ r s', r = None → cli_ok s') s.
Proof.
  destruct s as [c k m p w]. intros [(id & host & Hc) Hm Hp] Hw. cbn in *.
  eapply wp_mono with (passes c k).
  2: { intros r s' H Hr. destruct (H Hr) as (<- & <- & ? & ?). split; eauto. }
  unfold pass. do 3 cstep. destruct (_ && negb opens); [apply exit_passes|]. do 2 cstep.
  assert (mach_ok (open_socket m)) as Hm'.
  { destruct Hm as [H1 H2 H3 H4 H5]. split; try done. cbn. intros E. rewrite E. by apply H3. }
  destruct (if 0 <? _ then wk else Quiet) as [|input eintr|byte|] eqn:Ew.
  - by eapply timed_out_passes.
  - assert (∀ d, input = Some d → is_bytes d) as Hd.
    { intros d ->. destruct (0 <? _); [|done]. by subst wk. }
    destruct (m_listen m); first [by apply wp_ret|by apply client_packet_passes].
  - by eapply signalled_passes.
  - by apply wp_ret.
Qed.

Lemma client_passes ins s :
  cli_ok s → Forall (λ i, wake_ok i.2) ins →
  wp any_fault (client ins) (λ r s', r = None → cli_ok s') s.
Proof.
  intros Hs Hi. revert s Hs. induction Hi as [|[opens wk] ins Hw _ IH]; intros s Hs; cbn [client].
  { by apply wp_ret. }
  eapply wp_seq; [by apply pass_passes|]. intros [status|] s' H; [by apply wp_ret|].
  by apply IH, H.
Qed.

(** ** The start *)

Lemma exit_stops n (P : cli → Prop) s : wp any_fault (exit_client n) (λ r s', r = None → P s') s.
Proof.
  unfold exit_client. apply wp_gets. destruct (pidfile (conf s)); [|done].
  apply wp_silent; [apply _|]. intros _ w. by apply wp_ret.
Qed.

(** The configuration while the command line is read. *)
Definition reads_opts (s : cli) : Prop :=
  (∀ a, clientid (conf s) = Some a → ∃ id, a = encode_opt (DHCP_CLIENT_ID, id) ∧ wf_opt (DHCP_CLIENT_ID, id))
  ∧ (∀ a, hostname (conf s) = Some a → ∃ h, a = encode_opt (DHCP_HOST_NAME, h) ∧ wf_opt (DHCP_HOST_NAME, h))
  ∧ m_state (mach s) = INIT_SELECTING ∧ m_num (mach s) = 0 ∧ sendable (packet s).

Lemma text_option_wf code arg :
  0 < code < 255 → code ≠ DHCP_OPTION_OVER →
  ∃ t, text_option code arg = encode_opt (code, t) ∧ wf_opt (code, t).
Proof.
  intros Hc Ho. exists (get_bytes (take 255 arg)). split; [done|].
  split_and!; cbn; try lia; try done; [apply get_bytes_is_bytes|].
  unfold get_bytes. rewrite length_fmap, length_take. lia.
Qed.

Lemma take_option_reads o s :
  reads_opts s → wp any_fault (take_option o) (λ r s', r = None → reads_opts s') s.
Proof.
  intros (Hi & Hh & Hst & Hn & Hp). unfold take_option. apply wp_gets.
  destruct o; try (apply wp_modify, wp_ret; by intros _).
  - unfold clientid_option. apply wp_of_res. destruct arg as [|ch arg]; [done|].
    apply wp_modify, wp_ret. intros _. split_and!; cbn; try done.
    intros a [= <-]. by apply text_option_wf.
  - apply wp_modify, wp_ret. intros _. split_and!; cbn; try done.
    intros a [= <-]. by apply text_option_wf.
  - apply exit_stops.
  - by apply wp_ret.
Qed.

Lemma take_options_reads opts s :
  reads_opts s → wp any_fault (take_options opts) (λ r s', r = None → reads_opts s') s.
Proof.
  revert s. induction opts as [|o opts IH]; intros s Hs; cbn [take_options]; [by apply wp_ret|].
  eapply wp_seq; [by apply take_option_reads|]. intros [status|] s' H; [by apply wp_ret|].
  by apply IH, H.
Qed.

Lemma started_conf c index mac :
  (∀ a, clientid c = Some a → ∃ id, a = encode_opt (DHCP_CLIENT_ID, id) ∧ wf_opt (DHCP_CLIENT_ID, id)) →
  (∀ a, hostname c = Some a → ∃ h, a = encode_opt (DHCP_HOST_NAME, h) ∧ wf_opt (DHCP_HOST_NAME, h)) →
  length mac = 6%nat → is_bytes mac →
  ∃ id host, wf_conf (CConf (foreground c) (quit_after_lease c) (abort_if_no_lease c)
    (background_if_no_lease c) (interface c) (pidfile c) (script c)
    (Some (default ([DHCP_CLIENT_ID; 7; 1] ++ take 6 mac) (clientid c))) (hostname c) index mac) id host.
Proof.
  intros Hi Hh Hl Hb.
  assert (∃ id, default ([DHCP_CLIENT_ID; 7; 1] ++ take 6 mac) (clientid c)
            = encode_opt (DHCP_CLIENT_ID, id) ∧ wf_opt (DHCP_CLIENT_ID, id)) as (id & Ei & Wi).
  { destruct (clientid c) as [a|]; [by apply Hi|]. exists (1 :: mac). cbn [default].
    rewrite take_ge by lia. unfold encode_opt. cbn [fst snd length]. rewrite Hl. split; [done|].
    split_and!; cbn; try done; [by apply Forall_cons|lia]. }
  assert (∃ host, hostname c = (λ h, encode_opt (DHCP_HOST_NAME, h)) <$> host ∧
            ∀ h, host = Some h → wf_opt (DHCP_HOST_NAME, h)) as (host & Eh & Wh).
  { destruct (hostname c) as [a|]; [|by exists None]. destruct (Hh a eq_refl) as (h & -> & Hw).
    exists (Some h). split; [done|]. by intros ? [= <-]. }
  exists id, host. split; cbn [clientid hostname arp]; try done. by rewrite Ei.
Qed.

Lemma start_passes opts hw s :
  reads_opts s → (∀ i mac, hw = Some (i, mac) → length mac = 6%nat ∧ is_bytes mac) →
  wp any_fault (client_start opts hw) (λ r s', r = None → cli_ok s') s.
Proof.
  intros Hs Hmac. unfold client_start. eapply wp_seq; [by apply take_options_reads|].
  intros [status|] [c k m p w] H; [by apply wp_ret|].
  destruct (H eq_refl) as (Hi & Hh & Hst & Hn & Hp). cbn in *. cstep.
  destruct hw as [[index mac]|].
  2: { apply exit_stops. }
  destruct (Hmac index mac eq_refl) as [Hl Hb].
  cstep. unfold set_conf. apply wp_modify. cbn [conf chk mach packet wrld]. do 2 cstep.
  assert (∀ w', cli_ok (Cli (CConf (foreground c) (quit_after_lease c) (abort_if_no_lease c)
    (background_if_no_lease c) (interface c) (pidfile c) (script c)
    (Some (default ([DHCP_CLIENT_ID; 7; 1] ++ take 6 mac) (clientid c))) (hostname c) index mac)
    k (Mach INIT_SELECTING (m_requested m) (m_server m) (m_timeout m) (m_num m) false LISTEN_RAW
        (m_xid m) (m_t1 m) (m_t2 m) (m_start m) (m_lease m) (m_wizard m)) p w')) as Hok.
  { intros w'. split; cbn; [|split; cbn; try done; [lia|by intros [?|[?|?]]]|done].
    by apply started_conf. }
  destruct (negb k); cbn [when]; repeat cstep; apply wp_ret; intros _; apply Hok.
Qed.
End run.
