(* ===== verification/ClientLive.v ===== *)
(** * The DHCP client: a server that is silent

    Every timeout of a client with a lease halves the time that is left to T2 or to
    the end of the lease, until it is a 14400th of the lease; so a client that hears
    nothing gives the lease up after a bounded number of timeouts.  When the log and
    the status file can be written at the end, nothing stops it on the way. *)
From S2P Require Import Prelude CLib Heap System Bytes Genconfig GenconfigSpec GenconfigOps.
From S2P Require Import GenconfigFile Cconfig SystemApi Syslog Userland LibEnds Dhcp DhcpOptions.
From S2P Require Import DhcpPacket DhcpLeases DhcpTable DhcpFiles DhcpServer DhcpInv DhcpReply.
From S2P Require Import DhcpChoice DhcpEvents DhcpSettings ClientPacket DhcpScript Dhcpc ClientWire.
From S2P Require Import ClientMessages ClientEnds ClientCheck DhcpcInv ClientRun.

(** [n] timeouts are enough to lose the lease. *)
Definition margin (lease : Z) : Z := lease / 14400 + 1.
Definition left (n : nat) (m : machine) : Prop :=
  m_state m = INIT_SELECTING ∨
  ∃ lease k j, m_lease m = Some lease ∧ is_u32 lease ∧ is_u32 (m_t1 m) ∧ is_u32 (m_t2 m) ∧
    m_t1 m ≤ m_t2 m ≤ lease ∧ lease - m_t2 m ≤ margin lease * 2 ^ Z.of_nat j ∧
    (m_state m = REBINDING ∧ (S j ≤ n)%nat ∨
     (m_state m = BOUND ∨ m_state m = RENEWING) ∧ (S k + S j ≤ n)%nat ∧
     m_t2 m - m_t1 m ≤ margin lease * 2 ^ Z.of_nat k).

Lemma left_zero m : left 0 m → m_state m = INIT_SELECTING.
Proof. intros [?|(lease & k & j & _ & _ & _ & _ & _ & _ & [[_ ?]|(_ & ? & _)])]; [done|lia..]. Qed.

Lemma timed_left m lease :
  leased (m_state m) → timed m → m_lease m = Some lease → lease * 7 < 2 ^ 32 → left 30 m.
Proof.
  intros Hst (l & El & Hl & H1 & H2 & Ho) E Hs. assert (l = lease) as -> by congruence.
  specialize (Ho Hs). right. exists lease, 14%nat, 14%nat.
  assert (lease < margin lease * 2 ^ Z.of_nat 14).
  { unfold margin. change (2 ^ Z.of_nat 14) with 16384. unfold is_u32 in *.
    Z.to_euclidean_division_equations; lia. }
  unfold is_u32 in *. split_and!; try done; try lia.
  destruct Hst as [?|[?|?]]; [right|right|left]; split_and!; auto; lia.
Qed.

(** Half of a distance that is over the margin *)
Lemma half_step g t k :
  0 < t → t < g → g ≤ t * 2 ^ Z.of_nat k → ∃ k', k = S k' ∧ g - g / 2 ≤ t * 2 ^ Z.of_nat k'.
Proof.
  intros Ht Hg Hk. destruct k as [|k]; [change (2 ^ Z.of_nat 0) with 1 in Hk; lia|].
  exists k. split; [done|]. rewrite Nat2Z.inj_succ, Z.pow_succ_r in Hk by lia.
  Z.to_euclidean_division_equations; nia.
Qed.

Lemma margin_pos lease : is_u32 lease → 0 < margin lease.
Proof. unfold margin, is_u32. intros H. Z.to_euclidean_division_equations; lia. Qed.

Section silence.
Context `{kern : !Kernel, ifs : !Interfaces, svc : !Services, rtr : !Router}.
Context (c : client_config_t) (id : bytes) (host : option bytes).
Hypothesis Hc : wf_conf c id host.

Local Instance ends_discover x r : Ends (send_discover c x r).
Proof. by eapply ends_send_discover. Qed.
Local Instance ends_renew x s r : Ends (send_renew c x s r).
Proof. by eapply ends_send_renew. Qed.

(** What a timeout leaves *)
Definition waits (n : nat) (r : next) (s : cli) : Prop :=
  r = None → conf s = c ∧ left n (mach s).

Lemma exit_waits st n s : wp any_fault (exit_client st) (waits n) s.
Proof. apply exit_stops. Qed.
Lemma waits_intro n b m p w : left n m → waits n None (Cli c b m p w).
Proof. by intros. Qed.

Lemma selecting_waits n b m p w now :
  m_state m = INIT_SELECTING → wp any_fault (timeout_selecting now) (waits n) (Cli c b m p w).
Proof.
  intros Hst. unfold timeout_selecting. do 2 cstep. destruct (m_num m <? 3).
  - destruct (m_num m =? 0); cbn [when]; repeat cstep; apply wp_ret, waits_intro; by left.
  - unfold no_lease. cstep. destruct (_ && _); [apply exit_waits|]. repeat cstep.
    destruct b; repeat cstep; [apply exit_waits|]. apply wp_ret, waits_intro. by left.
Qed.

Lemma rebinding_waits n b m p w now :
  m_state m = REBINDING → left (S n) m →
  wp any_fault (timeout_rebinding now) (waits n) (Cli c b m p w).
Proof.
  intros Hst [?|(lease & i & j & El & Hl & H1 & H2 & Ho & Hg & Hn)]; [congruence|].
  unfold timeout_rebinding. do 2 cstep. unfold need_lease. rewrite El. cstep.
  assert (u32 (lease - m_t2 m) = lease - m_t2 m) as Eg by (apply u32_id; unfold is_u32 in *; lia).
  rewrite Eg. fold (margin lease).
  destruct (Z.leb_spec (lease - m_t2 m) (margin lease)) as [|Hgt].
  - repeat cstep. apply wp_ret, waits_intro. by left.
  - destruct (half_step _ _ _ (margin_pos _ Hl) Hgt Hg) as (j' & -> & Hj).
    destruct Hn as [[_ Hn]|[[?|?] _]]; [|congruence..].
    repeat cstep. apply wp_ret, waits_intro. right. exists lease, i, j'. rewrite <- Eg at 1.
    pose proof (halfway (m_t2 m) lease H2 Hl ltac:(lia)) as Eh. rewrite Eg in Eh.
    cbn [m_lease m_t1 m_t2 m_state put_timeout put_times put_xid]. rewrite Eh.
    pose proof (halfway_between (m_t2 m) lease). unfold is_u32 in *.
    split_and!; try done; try lia. left. split; [done|lia].
Qed.

Lemma renewing_waits n b m p w now :
  m_state m = RENEWING → left (S n) m →
  wp any_fault (timeout_renewing now) (waits n) (Cli c b m p w).
Proof.
  intros Hst [?|(lease & i & j & El & Hl & H1 & H2 & Ho & Hg & Hn)]; [congruence|].
  destruct Hn as [[? _]|(_ & Hn & Hg1)]; [congruence|].
  unfold timeout_renewing. do 2 cstep. unfold need_lease. rewrite El. cstep.
  assert (u32 (m_t2 m - m_t1 m) = m_t2 m - m_t1 m) as Eg by (apply u32_id; unfold is_u32 in *; lia).
  rewrite Eg. fold (margin lease).
  destruct (Z.leb_spec (m_t2 m - m_t1 m) (margin lease)) as [|Hgt].
  - repeat cstep. apply wp_ret, waits_intro. right. exists lease, i, j. cbn.
    split_and!; try done; try lia. left. split; [done|lia].
  - destruct (half_step _ _ _ (margin_pos _ Hl) Hgt Hg1) as (i' & -> & Hi).
    repeat cstep. apply wp_ret, waits_intro. right. exists lease, i', j.
    pose proof (halfway (m_t1 m) (m_t2 m) H1 H2 ltac:(lia)) as Eh. rewrite Eg in Eh.
    cbn [m_lease m_t1 m_t2 m_state put_timeout put_times put_xid]. rewrite Eh.
    pose proof (halfway_between (m_t1 m) (m_t2 m)). unfold is_u32 in *.
    split_and!; try done; try lia. right. split_and!; [by right|lia..].
Qed.

Lemma timed_out_waits n b m p w now :
  left (S n) m → wp any_fault (timed_out now) (waits n) (Cli c b m p w).
Proof.
  intros Hm. unfold timed_out. cstep. destruct (m_state m) eqn:Hst.
  all: try (destruct Hm as [?|(lease & i & j & _ & _ & _ & _ & _ & _ & [[? _]|[[?|?] _]])]; congruence).
  - by apply selecting_waits.
  - repeat cstep. apply renewing_waits; [done|].
    destruct Hm as [?|(lease & i & j & ? & ? & ? & ? & ? & ? & Hn)]; [congruence|].
    right. exists lease, i, j. split_and!; try done; try apply H3.
    destruct Hn as [[? _]|(_ & ? & ?)]; [congruence|]. right. cbn. auto.
  - by apply renewing_waits.
  - by apply rebinding_waits.
Qed.

(** The passes of the loop in which nothing arrives *)
Definition silence (n : nat) : list (bool * wakeup) := replicate n (true, Quiet).

(** ** No fault on the way

    With room for the options of the client every message can be built, and none
    of the timeouts up to the last one reaches a file. *)
Hypothesis Hroom : (length id + length (default [] host) ≤ 200)%nat.

Lemma send_renew_total x server ci w :
  ∃ r w', send_renew c x server ci w = Ok (r, w') ∧ w_os w' = w_os w.
Proof.
  destruct (renew_ok c id host Hc Hroom x ci) as (p & Ep & Hm). unfold send_renew.
  rewrite Ep, bind_of_res. destruct (negb (server =? 0)); [by eexists _, _|].
  destruct (msg_wf _ _ _ _ _ _ _ Hc Hm) as [Hwf Hh]. unfold broadcast.
  destruct (raw_packet_ok p ci CLIENT_PORT INADDR_BROADCAST SERVER_PORT Hwf Hh)
    as (ip & udp & -> & _). rewrite bind_of_res. by eexists _, _.
Qed.

(** What the client does when the lease is over, but for the machine: it tells the
    router, writes a line to the log, and takes the address from the interface. *)
Definition lease_over : M world (option dhcpMessage) :=
  tell SignalWan;;
  wlog SYSMSG_LOG_INFO (lit "%s( %s )")
    [AStr SYSLOG_MSG_DHCPC_LEASE; AStr (get_wan_name (interface c))];;
  run_script c None Deconfig.

Section total.
Context (o : sys).
Hypothesis Hover : ∀ w, w_os w = o → ∃ p w', lease_over w = Ok (p, w').

(** A timeout returns, and has lost the lease or left the files alone. *)
Definition returns_quietly (m : M cli next) (s : cli) : Prop :=
  ∃ s', m s = Ok (None, s') ∧ (m_state (mach s') = INIT_SELECTING ∨ w_os (wrld s') = o).

Lemma renewing_returns b m p w now lease :
  m_lease m = Some lease → w_os w = o → returns_quietly (timeout_renewing now) (Cli c b m p w).
Proof.
  intros El Ho. unfold timeout_renewing, returns_quietly. rewrite !bind_gets. cbn [mach conf].
  unfold need_lease. rewrite El, bind_ret. destruct (_ <=? _); [by eexists; split; [|right]|].
  erewrite outside_Ok by reflexivity. cbn [conf chk mach packet].
  destruct (send_renew_total (u32 (rand (w_rands w))) (m_server m) (m_requested m)
    (World (w_ticks w) (S (w_rands w)) (w_asked w) (w_out w) (w_os w))) as (r & w' & E & Ew).
  erewrite bind_Ok by reflexivity. erewrite outside_Ok by exact E. cbn in Ew.
  eexists. split; [reflexivity|]. right. simpl. congruence.
Qed.

Lemma rebinding_returns b m p w now lease :
  m_lease m = Some lease → w_os w = o → returns_quietly (timeout_rebinding now) (Cli c b m p w).
Proof.
  intros El Ho. unfold timeout_rebinding, returns_quietly. rewrite !bind_gets. cbn [mach conf].
  unfold need_lease. rewrite El, bind_ret. destruct (_ <=? _).
  - destruct (Hover w Ho) as (q & w' & E). unfold lease_over in E.
    apply bind_inv in E as ([] & w1 & E1 & E). apply bind_inv in E as ([] & w2 & E2 & E3).
    erewrite bind_Ok by reflexivity. erewrite outside_Ok by exact E1.
    erewrite outside_Ok by exact E2. unfold deconfig. rewrite bind_assoc, bind_gets, bind_assoc.
    cbn [conf]. erewrite outside_Ok by exact E3. rewrite bind_ret.
    eexists. split; [reflexivity|by left].
  - erewrite outside_Ok by reflexivity. cbn [conf chk mach packet].
    destruct (send_renew_total (u32 (rand (w_rands w))) 0 (m_requested m)
      (World (w_ticks w) (S (w_rands w)) (w_asked w) (w_out w) (w_os w))) as (r & w' & E & Ew).
    erewrite bind_Ok by reflexivity. erewrite outside_Ok by exact E. cbn in Ew.
    eexists. split; [reflexivity|]. right. simpl. congruence.
Qed.

Lemma timed_out_returns n b m p w now :
  left n m → m_state m ≠ INIT_SELECTING → w_os w = o →
  returns_quietly (timed_out now) (Cli c b m p w).
Proof.
  intros [?|(lease & i & j & El & _ & _ & _ & _ & _ & Hn)] Hne Ho; [done|].
  unfold timed_out, returns_quietly, reading. rewrite bind_gets. cbn [mach].
  destruct Hn as [[-> _]|([->| ->] & _ & _)].
  - by eapply rebinding_returns.
  - unfold change_mode, set_mach. do 2 (erewrite bind_Ok by reflexivity).
    by eapply renewing_returns.
  - by eapply renewing_returns.
Qed.

Lemma quiet_pass b m p w :
  ∃ now w', w_os w' = w_os w ∧
    pass true Quiet (Cli c b m p w) = timed_out now (Cli c b (open_socket m) p w').
Proof.
  eexists _, _. split; [|unfold pass, reading].
  2: { rewrite bind_gets. erewrite outside_Ok by reflexivity. rewrite bind_gets, andb_false_r.
       unfold set_mach. erewrite bind_Ok by reflexivity. erewrite outside_Ok by reflexivity.
       replace (if 0 <? _ then Quiet else Quiet) with Quiet by by destruct (0 <? _). reflexivity. }
  reflexivity.
Qed.

Lemma silent_client n s :
  conf s = c → w_os (wrld s) = o → left n (mach s) →
  ∃ k s', (k ≤ n)%nat ∧ client (silence k) s = Ok (None, s') ∧ m_state (mach s') = INIT_SELECTING.
Proof.
  revert s. induction n as [|n IH]; intros [c' b m p w] Ec Ho Hm; cbn in Ec, Ho, Hm; subst c'.
  { exists 0%nat. eexists. split; [done|]. split; [done|]. by apply left_zero. }
  destruct (decide (m_state m = INIT_SELECTING)) as [Hst|Hst].
  { exists 0%nat. eexists. split; [lia|]. by split. }
  destruct (quiet_pass b m p w) as (now & w1 & Ew & Ep).
  assert (left (S n) (open_socket m)) as Hm1 by (destruct Hm as [?|H]; [by left|by right]).
  destruct (timed_out_returns (S n) b (open_socket m) p w1 now Hm1 Hst) as (s1 & E & Hs1);
    [congruence|].
  pose proof (timed_out_waits n b (open_socket m) p w1 now Hm1) as Hw. unfold wp in Hw.
  rewrite E in Hw. destruct (Hw eq_refl) as [Ec1 Hl1]. rewrite E in Ep.
  destruct Hs1 as [Hst1|Ho1].
  - exists 1%nat, s1. split; [lia|]. cbn [silence replicate client].
    by rewrite (bind_Ok _ _ _ _ _ Ep).
  - destruct (IH s1 Ec1 Ho1 Hl1) as (k & s' & Hk & E' & Hs'). exists (S k), s'. split; [lia|].
    cbn [silence replicate client]. by rewrite (bind_Ok _ _ _ _ _ Ep).
Qed.
End total.
End silence.
