(* ===== verification/ClientEnv.v ===== *)
(** * The DHCP client: the texts of the options

    What fill_envp writes into its blocks: the addresses of an option and the address
    of the client, and where the blocks are too short. *)
From S2P Require Import Prelude CLib Heap System Bytes Genconfig GenconfigSpec GenconfigOps.
From S2P Require Import GenconfigFile Cconfig SystemApi Syslog Userland LibEnds Dhcp DhcpOptions.
From S2P Require Import DhcpPacket DhcpLeases DhcpTable DhcpFiles DhcpServer DhcpSettings ClientPacket.
From S2P Require Import DhcpScript Dhcpc ClientCheck.

(** The text of four bytes *)
Definition quad_text (a : bytes) : str :=
  match a with [b0; b1; b2; b3] => ip_text b0 b1 b2 b3 | _ => [] end.
Definition quad (a : bytes) : Prop := is_bytes a ∧ length a = 4%nat.

Lemma quad_text_short a : quad a → (length (quad_text a) ≤ 16)%nat.
Proof.
  intros [Hb Hl]. destruct a as [|b0 [|b1 [|b2 [|b3 [|]]]]]; try done. by apply ip_text_length.
Qed.

Lemma sprintip_quad cap dest pre a rest :
  quad a → slen (dest ++ pre ++ quad_text a) < cap →
  sprintip cap dest pre (a ++ rest) = Ok (dest ++ pre ++ quad_text a).
Proof.
  intros [Hb Hl] Hc. destruct a as [|b0 [|b1 [|b2 [|b3 [|]]]]]; try done.
  change (sprintf cap dest (pre ++ ip_text b0 b1 b2 b3) = Ok (dest ++ pre ++ ip_text b0 b1 b2 b3)).
  unfold sprintf. by rewrite (proj2 (Z.ltb_lt _ _)).
Qed.

Lemma sprintip_full cap dest pre a rest :
  quad a → cap ≤ slen (dest ++ pre ++ quad_text a) →
  sprintip cap dest pre (a ++ rest) = Fault Overflow.
Proof.
  intros [Hb Hl] Hc. destruct a as [|b0 [|b1 [|b2 [|b3 [|]]]]]; try done.
  change (sprintf cap dest (pre ++ ip_text b0 b1 b2 b3) = Fault Overflow).
  unfold sprintf. by rewrite (proj2 (Z.ltb_ge _ _)).
Qed.

Lemma slen_app s t : slen (s ++ t) = slen s + slen t.
Proof. unfold slen. rewrite length_app. lia. Qed.

Lemma fill_loop_ips fuel cap dest qs rest :
  Forall quad qs → qs ≠ [] → (length qs ≤ fuel)%nat →
  slen dest + 16 * Z.of_nat (length qs) < cap →
  fill_loop fuel OPTION_IP 4 cap dest (concat qs ++ rest) (4 * Z.of_nat (length qs)) =
  Ok (dest ++ concat (quad_text <$> qs)).
Proof.
  intros Hq. revert fuel dest. induction Hq as [|a qs Ha Hq IH]; intros fuel dest Hne Hf Hcap; [done|].
  destruct fuel as [|fuel]; [simpl in Hf; lia|]. cbn [fill_loop length concat fmap list_fmap] in *.
  pose proof (quad_text_short a Ha) as Hs.
  change (OPTION_IP =? OPTION_STRING) with false. cbn iota. unfold fill_one.
  change (OPTION_IP =? OPTION_IP_PAIR) with false. change (OPTION_IP =? OPTION_IP) with true. cbn iota.
  rewrite <- app_assoc, sprintip_quad by (done || (rewrite !slen_app; unfold slen at 2 3; simpl; lia)).
  unfold mbind, res_bind, mret, res_ret. cbn [app].
  destruct (Z.leb_spec (4 * Z.of_nat (S (length qs)) - 4) 0) as [Hz|Hp].
  - destruct qs; [|simpl in Hz; lia]. by rewrite app_nil_r.
  - replace (4 * Z.of_nat (S (length qs)) - 4) with (4 * Z.of_nat (length qs)) by lia.
    change (Z.to_nat 4) with 4%nat. rewrite drop_app_length' by by symmetry; apply Ha.
    rewrite IH.
    + by rewrite <- app_assoc.
    + intros ->. simpl in Hp. lia.
    + lia.
    + rewrite slen_app. unfold slen at 2. lia.
Qed.

(** The block of fill_envp for an option of [len] bytes *)
Definition block (len : Z) (o : dhcp_option) : Z := upper_length len o + slen (o_name o) + 2.

(** C29: the block that fill_envp takes for an option with addresses holds their text:
    fill_options writes the name and each address in dotted form, in order, for any
    number of addresses. *)
Theorem fill_options_addresses o qs rest :
  option_type o = OPTION_IP → Forall quad qs → qs ≠ [] →
  let len := 4 * Z.of_nat (length qs) in
  fill_options (block len o) (concat qs ++ rest) len o =
  Ok (o_name o ++ lit "=" ++ concat (quad_text <$> qs)).
Proof.
  intros Ho Hq Hne len. unfold fill_options, block, upper_length. rewrite Ho.
  change (max_option_length OPTION_IP) with 17. change (option_length OPTION_IP) with 4.
  assert (len / 4 = Z.of_nat (length qs)) as -> by (unfold len; rewrite Z.mul_comm, Z.div_mul; lia).
  unfold sprintf. change ([] ++ o_name o ++ lit "=") with (o_name o ++ lit "=").
  rewrite (proj2 (Z.ltb_lt _ _)) by (rewrite slen_app; unfold slen at 2; simpl; lia).
  unfold mbind, res_bind, mret, res_ret. unfold len. rewrite fill_loop_ips.
  - by rewrite app_assoc.
  - done.
  - done.
  - lia.
  - rewrite slen_app. unfold slen at 2. simpl. lia.
Qed.

(** C40: an option with an address that has less than four bytes makes fill_options
    write past its block: its length is rounded down to no address, and the text of
    an address is written all the same. *)
Theorem fill_options_short o len a rest :
  option_type o = OPTION_IP → 0 ≤ len < 4 → quad a →
  fill_options (block len o) (a ++ rest) len o = Fault Overflow.
Proof.
  intros Ho Hlen Ha. unfold fill_options, block, upper_length. rewrite Ho.
  change (option_length OPTION_IP) with 4. rewrite (Z.div_small len 4), Z.mul_0_r by lia.
  unfold sprintf. change ([] ++ o_name o ++ lit "=") with (o_name o ++ lit "=").
  rewrite (proj2 (Z.ltb_lt _ _)) by (rewrite slen_app; unfold slen at 2; simpl; lia).
  unfold mbind, res_bind, mret, res_ret. cbn [fill_loop].
  change (OPTION_IP =? OPTION_STRING) with false. cbn iota. unfold fill_one.
  change (OPTION_IP =? OPTION_IP_PAIR) with false. change (OPTION_IP =? OPTION_IP) with true. cbn iota.
  rewrite sprintip_full; [done|done|].
  destruct Ha as [Hb Hl]. destruct a as [|b0 [|b1 [|b2 [|b3 [|]]]]]; try done.
  cbn [quad_text app]. unfold ip_text. rewrite !slen_app. unfold slen. simpl. lia.
Qed.

Lemma fmt_byte_3 b : is_byte b → (length (fmt_u b) = 3%nat ↔ 100 ≤ b).
Proof.
  intros Hb. pose proof (forallb_forall (λ b, eqb (Nat.eqb (length (fmt_u b)) 3) (100 <=? b)) (seqZ 0 256))
    as [H _].
  specialize (H ltac:(by vm_compute) b). rewrite <- list_elem_of_In, elem_of_seqZ in H.
  unfold is_byte in Hb. specialize (H ltac:(lia)). apply eqb_prop in H.
  destruct (Nat.eqb_spec (length (fmt_u b)) 3), (Z.leb_spec 100 b); try done; lia.
Qed.

Lemma ip_text_16 b0 b1 b2 b3 :
  is_bytes [b0; b1; b2; b3] →
  length (ip_text b0 b1 b2 b3) = 16%nat ↔ 100 ≤ b0 ∧ 100 ≤ b1 ∧ 100 ≤ b2 ∧ 100 ≤ b3.
Proof.
  intros Hb. unfold is_bytes in Hb. rewrite !Forall_cons in Hb. destruct Hb as (H0 & H1 & H2 & H3 & _).
  unfold ip_text. rewrite !length_app. change (length (lit ".")) with 1%nat.
  change (length (lit " ")) with 1%nat.
  destruct (fmt_byte b0 H0) as [-> ?], (fmt_byte b1 H1) as [-> ?], (fmt_byte b2 H2) as [-> ?],
    (fmt_byte b3 H3) as [-> ?].
  rewrite <- (fmt_byte_3 b0), <- (fmt_byte_3 b1), <- (fmt_byte_3 b2), <- (fmt_byte_3 b3) by done. lia.
Qed.

(** The block for the client's address is one byte short exactly for the addresses
    whose four numbers have three digits: for them fill_envp writes past it, for all
    others it holds the text. *)
Theorem env_ip_spec b0 b1 b2 b3 :
  is_bytes [b0; b1; b2; b3] →
  env_ip (of_le [b0; b1; b2; b3]) =
    if bool_decide (100 ≤ b0 ∧ 100 ≤ b1 ∧ 100 ≤ b2 ∧ 100 ≤ b3) then Fault Overflow
    else Ok (lit "ip=" ++ ip_text b0 b1 b2 b3).
Proof.
  intros Hb. unfold env_ip. rewrite (le_bytes_of_le [b0; b1; b2; b3] Hb : le_bytes 4 _ = _).
  pose proof (ip_text_16 _ _ _ _ Hb) as H16. pose proof (ip_text_length _ _ _ _ Hb) as Hle.
  rewrite <- (app_nil_r [b0; b1; b2; b3]) at 1. case_bool_decide as H.
  - apply sprintip_full; [by split|]. apply H16 in H. cbn [quad_text app].
    rewrite slen_app. unfold slen. rewrite H. simpl. lia.
  - rewrite sprintip_quad; [done|by split|]. cbn [quad_text app].
    assert (length (ip_text b0 b1 b2 b3) ≠ 16%nat) by by intros E; apply H, H16.
    rewrite slen_app. unfold slen. simpl. lia.
Qed.

(** ** At the options of the table *)
Definition dns_option : dhcp_option :=
  Opt (lit "dns") (Z.lor (Z.lor OPTION_IP OPTION_LIST) OPTION_REQ) DHCP_DNS_SERVER.

Lemma quad_dec a : bool_decide (length a = 4%nat ∧ Forall (λ b, 0 ≤ b < 256) a) = true → quad a.
Proof. by intros [H1 H2]%bool_decide_eq_true. Qed.

Lemma fill_options_addresses_witness :
  fill_options (block 8 dns_option) ([168; 126; 63; 1] ++ [168; 126; 63; 2] ++ [255]) 8 dns_option =
  Ok (lit "dns=168.126.63.1 168.126.63.2 ").
Proof.
  apply (fill_options_addresses dns_option [[168; 126; 63; 1]; [168; 126; 63; 2]] [255]).
  - reflexivity.
  - constructor; [apply quad_dec; reflexivity|]. constructor; [apply quad_dec; reflexivity|constructor].
  - discriminate.
Defined.

Lemma fill_options_short_witness :
  fill_options (block 1 dns_option) [168; 255; 0; 0; 0] 1 dns_option = Fault Overflow.
Proof.
  apply (fill_options_short dns_option 1 [168; 255; 0; 0] [0]);
    [reflexivity|lia|apply quad_dec; reflexivity].
Defined.

Lemma env_ip_spec_witness :
  env_ip (of_le [111; 112; 113; 114]) = Fault Overflow ∧
  env_ip (of_le [192; 168; 0; 2]) = Ok (lit "ip=192.168.0.2 ").
Proof.
  split.
  - apply (env_ip_spec 111 112 113 114). apply (quad_dec [111; 112; 113; 114]). reflexivity.
  - apply (env_ip_spec 192 168 0 2). apply (quad_dec [192; 168; 0; 2]). reflexivity.
Defined.
