(* ===== verification/ClientSample.v ===== *)
(** * A client of the sample server

    The client has the hardware address of the host of DhcpSample; what it puts on
    the wire is handed to the server of DhcpSample, and the server's answer to the
    client. *)
From S2P Require Import Prelude CLib Heap System Bytes Genconfig GenconfigSpec GenconfigOps.
From S2P Require Import GenconfigFile Cconfig SystemApi Syslog Userland LibEnds Dhcp DhcpOptions.
From S2P Require Import DhcpPacket DhcpLeases DhcpTable DhcpFiles DhcpServer Dhcpd DhcpInv DhcpReply.
From S2P Require Import DhcpSample DhcpSettings ClientPacket DhcpScript Dhcpc ClientWire ClientMessages.

Module Host.
#[export] Instance net : Net := Sample.net.
#[export] Instance ifs : Interfaces :=
  {| ifaddr _ := Some (htonl 0x0a000001); ifmask _ := Some (htonl 0xffffff00) |}.
#[export] Instance resolver : Resolver := Sample.resolver.
#[export] Instance services : Services := Sample.services.
#[export] Instance kernel : Kernel :=
  {| tick k := 1000 + Z.of_nat k; rand k := 4321 + Z.of_nat k; answer _ := 0; hw_family _ := Some 1;
     alive _ := false; environ := []; getpid := 78 |}.
#[export] Instance router : Router :=
  {| get_wan_ipinfo _ _ := (lit "0.0.0.0", lit "0.0.0.0", lit "0.0.0.0");
     get_dhclient_block_private_ip _ _ := false; get_iptime_service_network _ := lit "192.168.255";
     SYSLOG_CHANGE_DHCP_IP_CONFIG := lit "address"; SYSLOG_CHANGE_DHCP_GATEWAY_ADDR := lit "gateway";
     SYSLOG_MSG_DHCPC_RCV_IP := lit "received"; SYSLOG_MSG_DHCPC_SERVER_TIMEOUT := lit "timeout";
     SYSLOG_MSG_DHCPC_LEASE := lit "lease"; SYSLOG_MSG_DHCP_SERVER_RESUME := lit "resume";
     SYSLOG_MSG_DHCP_SERVER_SUSPENDED := lit "suspended"; SYSLOG_SAME_SUBNET_IP_ASSIGN := lit "same";
     SYSLOG_PRIVATE_IP_ASSIGN := lit "private" |}.

Definition hw : bytes := take 6 Sample.mac.
Definition opts : list copt := [OptForeground; OptInterface (lit "eth1"); OptPidfile (lit "/var/run/c.pid")].
Definition start : cli := fresh_client (lit "udhcpc") zero_message (World 0 0 0 [] (os Sample.booted)).

Definition run (ins : list (bool * wakeup)) : res (next * cli) := udhcpc_main opts (Some (3, hw)) ins start.
Definition quiet : bool * wakeup := (true, Quiet).

(** The last thing a client put on the wire, as the server reads it; what the server
    answers, in which state; and the client's next input. *)
Definition heard (r : res (next * cli)) : dhcpMessage :=
  match r with
  | Ok (_, s) =>
      match last (w_out (wrld s)) with
      | Some (Raw _ _ _ d) =>
          match get_packet (kernel_input (Some (drop 28 d))) with Ok (_, p) => p | _ => zero_message end
      | Some (Udp _ _ p) => p
      | _ => zero_message
      end
  | _ => zero_message
  end.
Definition served (p : dhcpMessage) (s : srv) : srv :=
  Sample.state (handle_packet (H0 := Sample.ifs) p s).
Definition answer_of (s : srv) : bytes :=
  match last (sent s) with Some (ToClient _ _ _ d) => d | _ => [] end.
Definition reads (d : bytes) : bool * wakeup := (true, Datagram (Some d) false).

(** its configuration *)
Definition own : client_config_t :=
  CConf true false false false (lit "eth1") (Some (lit "/var/run/c.pid"))
    (lit "/usr/share/udhcpc/default.script") (Some (encode_opt (DHCP_CLIENT_ID, 1 :: hw))) None 3 hw.
Lemma own_wf : wf_conf own (1 :: hw) None.
Proof.
  split; [reflexivity| |reflexivity|done|cbn; split; [reflexivity|byte_list]].
  split; [done|]. split; [done|]. split; [cbn; byte_list|cbn; lia].
Qed.

(** DISCOVER, OFFER, REQUEST, ACK *)
Definition offered : srv := served (heard (run [quiet])) Sample.ready.
Definition offer : bool * wakeup := reads (answer_of offered).
Definition acked : srv := served (heard (run [quiet; offer; quiet])) offered.
Definition session : list (bool * wakeup) := [quiet; offer; quiet; reads (answer_of acked)].

Lemma runs_to (r : res (next * cli)) (P : cli → Prop) `{!∀ s, Decision (P s)} :
  match r with Ok (None, s) => bool_decide (P s) | _ => false end = true → ∃ s, r = Ok (None, s) ∧ P s.
Proof. destruct r as [[[n|] s]|e|]; try done. intros Hp%bool_decide_eq_true. by exists s. Qed.

Lemma session_bound :
  ∃ s, run session = Ok (None, s) ∧ (m_state (mach s) = BOUND ∧ m_requested (mach s) = Sample.leased ∧
    m_lease (mach s) = Some 7200).
Proof. apply (runs_to (run session) _). vm_compute. reflexivity. Qed.
End Host.
