(* ===== verification/ClientServer.v ===== *)
(** * A client of the router and its server

    The client of Dhcpc and the server of Dhcpd, joined by the messages they send
    each other: the renewal of a lease, and the request for an address that was
    offered. *)
From S2P Require Import Prelude CLib Heap System Bytes Genconfig GenconfigSpec GenconfigOps.
From S2P Require Import GenconfigFile Cconfig SystemApi Syslog Userland LibEnds Dhcp DhcpOptions.
From S2P Require Import DhcpPacket DhcpLeases DhcpTable DhcpFiles DhcpServer Dhcpd DhcpInv DhcpReply.
From S2P Require Import DhcpChoice DhcpEvents DhcpLive DhcpSample DhcpProps DhcpSettings ClientPacket.
From S2P Require Import DhcpScript Dhcpc ClientWire ClientMessages ClientEnds ClientCheck DhcpcInv.
From S2P Require Import ClientRun ClientSample.

(** ** What the server reads of the client *)
Lemma own_opts_vendor id host type os :
  lookup_opt DHCP_VENDOR (own_opts id host type ++ os) = Some (get_bytes (lit "MSFT 5.0")).
Proof. by destruct host. Qed.

Lemma client_message_read c x ci id host type os m :
  client_message c x ci (own_opts id host type ++ os) m → get_packet (Some (548, m)) = Ok (548, m).
Proof.
  intros [Em Hh]. cbn [get_packet].
  assert (cookie m = htonl DHCP_MAGIC) as -> by by rewrite Em.
  assert (op m = BOOTREQUEST) as -> by by rewrite Em. cbn [negb].
  destruct (get_option_encoded m DHCP_VENDOR _ Hh) as [rest E]; [done|].
  rewrite own_opts_vendor in E.
  change (negb (ntohl (htonl DHCP_MAGIC) =? DHCP_MAGIC)) with false.
  change (BOOTREQUEST =? BOOTREQUEST) with true. cbn iota. by rewrite E.
Qed.

(** ** What the client reads of the server *)
Lemma get4_le z data : is_u32 z → get4 (le_bytes 4 z ++ data) = Ok z.
Proof.
  intros Hz. unfold get4. rewrite length_app, le_bytes_length. cbn [Nat.add Nat.ltb Nat.leb].
  rewrite take_app_length' by by rewrite le_bytes_length. by rewrite of_le_4.
Qed.

Section answer.
Context (p m : dhcpMessage) (yi t : Z) (opts : list (Z * bytes)) (cf : server_config_t).
Hypothesis Hre : replies p DHCPACK (c_server cf) yi opts m.
Hypothesis Hopts : reply_opts cf DHCPACK yi (Some t) opts.
Hypothesis Ht : is_u32 t.
Hypothesis Hyi : is_u32 yi.

Lemma reply_header : header_bytes m.
Proof. unfold header_bytes. rewrite (re_head _ _ _ _ _ _ Hre). byte_list. Qed.

Lemma reply_sendable : sendable (reread m).
Proof. split; [|apply reply_header]. by destruct (re_wf _ _ _ _ _ _ Hre); split. Qed.

Lemma reply_lease : ack_lease (reread m) = Ok t.
Proof.
  unfold ack_lease. destruct Hopts as (os & os' & _ & _ & Hpack).
  destruct (pack_prefix ([(DHCP_MESSAGE_TYPE, [DHCPACK]); (DHCP_SERVER_ID, le_bytes 4 (c_server cf))]
    ++ [(DHCP_LEASE_TIME, le_bytes 4 (htonl t))]) os') as [rest Hrest].
  rewrite Hrest in Hpack. injection Hpack as Hpack.
  destruct (get_option_encoded (reread m) DHCP_LEASE_TIME _ (re_opts _ _ _ _ _ _ Hre)) as [data E];
    [done|].
  rewrite <- Hpack in E. rewrite E. unfold mbind, res_bind.
  assert (∀ d os, lookup_opt DHCP_LEASE_TIME ((DHCP_MESSAGE_TYPE, [DHCPACK])
    :: (DHCP_SERVER_ID, le_bytes 4 (c_server cf)) :: (DHCP_LEASE_TIME, d) :: os) = Some d) as -> by done.
  rewrite get4_le by apply ntohl_range. by rewrite ntohl_htonl.
Qed.

Lemma reply_type : ∃ data n, get_option (reread m) DHCP_MESSAGE_TYPE = Ok (Some (DHCPACK :: data, n)).
Proof.
  destruct (get_option_encoded (reread m) DHCP_MESSAGE_TYPE _ (re_opts _ _ _ _ _ _ Hre)) as [data ->];
    [done|]. by eexists _, _.
Qed.

(** What the descriptor of the client gives for it: the datagram, or what is
    behind its headers. *)
Definition delivered (mode : lmode) (d : bytes) : bytes :=
  match mode with LISTEN_KERNEL => drop 28 d | _ => d end.

Lemma reply_delivered q mode saddr daddr d :
  wf_message q → raw_packet m saddr SERVER_PORT daddr CLIENT_PORT = Ok d →
  (match mode with
   | LISTEN_KERNEL => get_packet (kernel_input (Some (delivered mode d)))
   | _ => get_raw_packet q (Some (delivered mode d))
   end) = Ok (548, reread m).
Proof.
  intros Hq Ed. pose proof (re_wf _ _ _ _ _ _ Hre) as Hwf.
  assert (get_raw_packet q (Some d) = Ok (548, reread m)) as Hraw.
  { destruct (raw_packet_read m q saddr daddr) as (d' & Ed' & E);
      [done|apply reply_header|apply Hre|done|]. by rewrite Ed' in Ed; simplify_eq. }
  destruct mode; [done| |done]. cbn [delivered].
  destruct (raw_packet_ok m saddr SERVER_PORT daddr CLIENT_PORT Hwf reply_header)
    as (ip & udp & Ed' & Hip & Hudp & _).
  rewrite Ed' in Ed. injection Ed as <-. rewrite app_assoc, drop_app_length'
    by (rewrite length_app; lia).
  pose proof (msg_bytes_length _ Hwf) as Hl. unfold kernel_input.
  rewrite take_ge, Hl, Nat.sub_diag, app_nil_r, msg_reread by (done || lia || apply reply_header).
  pose proof (re_head _ _ _ _ _ _ Hre) as Hh. injection Hh as Hop _ _ _.
  cbn [get_packet]. change (op (reread m)) with (op m). rewrite Hop.
  change (cookie (reread m)) with (u32 (cookie m)). by rewrite (re_cookie _ _ _ _ _ _ Hre).
Qed.
End answer.

(** ** The client reads an ACK *)
Section client.
Context `{kern : !Kernel, ifs : !Interfaces, svc : !Services, rtr : !Router}.
Implicit Types (cs : cli).

(** The client waits for the answer to the message with the number [x]; it is one
    that neither leaves the foreground nor ends with the first lease. *)
Record awaits (cs : cli) (x : Z) : Prop := {
  aw_chk : chk cs = false;
  aw_xid : m_xid (mach cs) = x;
  aw_state : m_state (mach cs) ∈ [REQUESTING; RENEWING; REBINDING; RENEW_REQUESTED];
  aw_packet : wf_message (packet cs);
  aw_stays : foreground (conf cs) = true ∧ quit_after_lease (conf cs) = false
}.

(** The machine of a client that got an address at [now]. *)
Record bound_for (yi t now : Z) (m : machine) : Prop := {
  bf_state : m_state m = BOUND;
  bf_address : m_requested m = yi;
  bf_lease : m_lease m = Some t;
  bf_times : m_start m = now ∧ m_timeout m = u32 (t / 2 + now);
  bf_t1 : m_t1 m = t / 2 ∧ m_t2 m = Z.shiftr (u32 (t * 7)) 3
}.

(** What script.c makes of the ACK [m] for [t] seconds: the settings of the
    interface, the routes and the name servers. *)
Definition ack_script (cs : cli) (m : dhcpMessage) (t : Z) : res (option dhcpMessage * world) :=
  let w := wrld cs in
  run_script (conf cs) (Some m)
    (match m_state (mach cs) with RENEWING | REBINDING => Renew | _ => Bound end)
    (World (w_ticks w) (w_rands w) (w_asked w)
       (w_out w ++ [SetLeaseTime (interface (conf cs)) t]) (w_os w)).

(** The run [r] of the client has the lease when the script has returned, and stops
    at the fault of the script when it has one; the script ends. *)
Definition bound_by (yi t now : Z) (cs : cli) (script : res (option dhcpMessage * world))
    (r : res (next * cli)) : Prop :=
  match script with
  | Ok (_, w') => ∃ cs', r = Ok (None, cs') ∧ conf cs' = conf cs ∧ wrld cs' = w' ∧
                    bound_for yi t now (mach cs')
  | Fault e => r = Fault e
  | NoFuel => False
  end.

Lemma ack_bound yi t now cs :
  foreground (conf cs) = true → quit_after_lease (conf cs) = false →
  sendable (packet cs) → yiaddr (packet cs) = yi → ack_lease (packet cs) = Ok t →
  bound_by yi t now cs (ack_script cs (packet cs) t) (handle_ack now cs).
Proof.
  intros Hf Hq Hp Hy Ht. unfold bound_by, ack_script.
  pose proof (λ name w, run_script_ends (conf cs) (Some (packet cs)) name Hp w) as He.
  eassert (handle_ack now cs = _) as ->.
  { unfold handle_ack, reading. rewrite !bind_gets, Ht, bind_of_res.
    erewrite bind_Ok by reflexivity. unfold set_mach at 1. erewrite bind_Ok by reflexivity.
    rewrite bind_gets. cbn [mach m_state put_bound]. unfold script_with_packet.
    rewrite bind_assoc, bind_gets, bind_assoc, bind_gets, bind_assoc. cbn [conf packet].
    reflexivity. }
  set (name := match m_state (mach cs) with RENEWING => _ | _ => _ end).
  set (w1 := World _ _ _ _ _). specialize (He name w1). unfold wp in He.
  destruct (run_script (conf cs) (Some (packet cs)) name w1) as [[q w']|e|] eqn:E;
    [|by apply outside_Fault|done].
  destruct He as (q' & -> & _). erewrite outside_Ok by exact E. cbn [conf chk mach packet].
  unfold set_packet, set_mach, change_mode. do 3 (erewrite bind_Ok by reflexivity).
  rewrite Hq, Hf. cbn [negb when]. rewrite bind_ret.
  eexists. split; [reflexivity|]. split; [done|]. split; [done|]. by rewrite <- Hy.
Qed.

(** A client that waits for the answer to [x] and reads it from the datagram [d],
    which holds the ACK [m], is bound to [yi] for [t] seconds when script.c has
    returned, and stops only where script.c stops. *)
Definition rebinds (yi t x : Z) (m : dhcpMessage) (d : bytes) : Prop := ∀ now eintr cs,
  awaits cs x →
  bound_by yi t now cs (ack_script cs m t)
    (client_packet now (Some (delivered (m_listen (mach cs)) d)) eintr cs).

Lemma ack_rebinds p m yi t opts cf saddr daddr d :
  replies p DHCPACK (c_server cf) yi opts m → reply_opts cf DHCPACK yi (Some t) opts → is_u32 t →
  is_u32 yi → raw_packet m saddr SERVER_PORT daddr CLIENT_PORT = Ok d → is_u32 (xid p) →
  rebinds yi t (xid p) (reread m) d.
Proof.
  intros Hre Ho Ht Hyi Ed Hx now eintr cs [Hchk Hxid Hst Hpk [Hf Hq]].
  set (cs1 := Cli (conf cs) (chk cs) (mach cs) (reread m) (wrld cs)).
  pose proof (ack_bound yi t now cs1 Hf Hq (reply_sendable _ _ _ _ _ Hre)) as H.
  specialize (H ltac:(change (u32 (yiaddr m) = yi); rewrite (re_yiaddr _ _ _ _ _ _ Hre); by apply u32_id)).
  specialize (H ltac:(by eapply reply_lease)).
  change (ack_script cs1 (packet cs1) t) with (ack_script cs (reread m) t) in H.
  enough (client_packet now (Some (delivered (m_listen (mach cs)) d)) eintr cs = handle_ack now cs1)
    as -> by exact H.
  unfold client_packet, reading. rewrite !bind_gets.
  rewrite (reply_delivered _ _ _ _ _ Hre _ _ _ _ _ Hpk Ed), bind_of_res. unfold set_packet.
  erewrite bind_Ok by reflexivity. change ((548 =? -1) && negb eintr) with false. cbn [when].
  rewrite bind_ret. change (548 <? 0) with false. cbn iota. rewrite bind_gets. cbn [mach].
  rewrite Hxid. change (xid (reread m)) with (u32 (xid m)).
  rewrite (re_xid _ _ _ _ _ _ Hre), u32_id, Z.eqb_refl by done. cbn [negb]. cbn iota.
  rewrite bind_gets. cbn [chk]. rewrite Hchk. cbn iota.
  destruct (reply_type _ _ _ _ _ Hre) as (data & n & ->). rewrite bind_of_res.
  change (rd (DHCPACK :: data) 0) with (Ok DHCPACK). rewrite bind_of_res. unfold dispatch, reading.
  rewrite bind_gets. cbn [mach]. change (DHCPACK =? DHCPACK) with true. cbn iota.
  unfold cs1. rewrite Hchk. rewrite !elem_of_cons in Hst.
  destruct Hst as [E|[E|[E|[E|E%elem_of_nil]]]]; [rewrite E; reflexivity..|destruct E].
Qed.
End client.

(** ** The exchange *)
Section exchange.
Context `{net : !Net, ifs : !Interfaces, svc : !Services, res : !Resolver, kern : !Kernel}.
Implicit Types (c : client_config_t) (s : srv).

(** The client's library and configuration are others than the server's. *)
Local Notation rebinds_any yi t x m d :=
  (∀ (ifs' : Interfaces) (svc' : Services) (rtr : Router), @rebinds kern ifs' svc' rtr yi t x m d).

(** The server has an entry for the client, and can answer. *)
Record serving (s : srv) (mac : bytes) (yi : Z) : Prop := {
  sv_ok : srv_ok s;
  sv_entry : ∃ i l, leases s !! i = Some l ∧ l_chaddr l = mac ∧ l_yiaddr l = yi;
  sv_mac : mac ≠ blank_chaddr;
  sv_net : other_net (cfg s) yi = false;
  sv_file : ∃ path, c_lease_file (cfg s) = Some path;
  sv_notify : c_notify_file (cfg s) = None;
  sv_log : logs yi mac s;
  sv_arp : is_Some (files (env (os s)) !! ARP_FILE);
  sv_times : 0 ≤ c_min_lease (cfg s) ∧ is_u32 (c_lease (cfg s))
}.

Lemma granted_u32 cf t : 0 ≤ c_min_lease cf → is_u32 (c_lease cf) → granted cf t → is_u32 t.
Proof. unfold granted, is_u32. intros ? ? [->|?]; lia. Qed.

(** The server's part, for a message that makes it send an ACK; the lookup of twin
    addresses may leave it in another state [s0]. *)
Lemma exchange_acked p po yi s s0 :
  serving s0 (chaddr p) yi → legible p po → giaddr p = 0 → is_u32 (xid p) →
  (∀ i l, leases s0 !! i = Some l → l_chaddr l = chaddr p → l_yiaddr l = yi →
    handle_packet p s = ((sendACK p (l_yiaddr l);; mret tt);; write_leases) s0) →
  ∃ s' dest arp m d t, handle_packet p s = Ok (tt, s') ∧
    sent s' = sent s0 ++ [ToClient dest arp m d] ∧ granted (cfg s0) t ∧
    rebinds_any yi t (xid p) (reread m) d.
Proof.
  intros [Hok (i & l & Hi & Hc & Hy) Hmac Hnet [path Hpath] Hnote Hlog Harp [Hmin Hmax]] Hp Hg Hx Hpath'.
  rewrite (Hpath' i l Hi Hc Hy). rewrite <- Hy in *.
  assert (is_u32 (l_yiaddr l)) as Hu.
  { pose proof (to_wf _ (sk_table _ Hok)) as Hwf. rewrite Forall_lookup in Hwf. by eapply Hwf. }
  destruct (ack_run p po path i l s0) as (s' & E & o & t & Hs & (m & opts & Hcar & Hre & Ho) & Ht & _);
    [done..|].
  pose proof (granted_u32 _ _ Hmin Hmax Ht) as Htu.
  unfold carries in Hcar. pose proof (re_giaddr _ _ _ _ _ _ Hre) as Hgm. rewrite Hg in Hgm.
  destruct o as [m'|dest a m' d]; destruct Hcar as [-> Hcar]; [by destruct Hcar|].
  destruct Hcar as [_ Ed]. exists s', dest, a, m, d, t. split_and!; [done..|].
  intros ifs' svc' rtr. by eapply ack_rebinds.
Qed.

(** What a message of the client is for the server *)
Lemma client_legible c id host x ci type os m :
  wf_conf c id host → client_message c x ci (own_opts id host type ++ os) m →
  Forall (λ o, o.1 ≠ DHCP_LEASE_TIME) os → legible m (own_opts id host type ++ os).
Proof.
  intros Hc Hm Hos. split; [by eapply msg_wf|apply Hm|]. intros d Hd. exfalso. revert Hd.
  assert (lookup_opt DHCP_LEASE_TIME (own_opts id host type ++ os) = lookup_opt DHCP_LEASE_TIME os) as ->
    by by destruct host.
  clear Hm. induction Hos as [|[code e] os Hne _ IH]; [done|]. cbn [lookup_opt].
  destruct (Z.eqb_spec code DHCP_LEASE_TIME); [by destruct Hne|done].
Qed.

Context (c : client_config_t) (id : bytes) (host : option bytes).

(** C6: a client that renews its lease with the router's server keeps its address.
    The message of send_renew reaches the server as it was written; a server with an
    entry for the client's hardware address and this address, which can write its
    log and read the ARP table ([serving]), answers with an ACK; and a client that
    waits for this answer, in the foreground and not to quit with the first lease,
    and reads what the server put on the wire hands it to script.c.  If run_script returns, the pass returns and
    the client is bound to the address again, with the lease time the server granted
    and half of it to wait; if run_script stops at a fault (the text of an address
    of fifteen characters overflows its block, script.c:186), the client stops at the
    same fault, and nothing else stops it. *)
Theorem renewal_exchange x server ci w s :
  wf_conf c id host → (length id + length (default [] host) ≤ 200)%nat → is_u32 x → server ≠ 0 →
  serving s (arp c ++ replicate 10 0) ci →
  ∃ r w' p s' dest a m d t,
    send_renew c x server ci w = Ok (r, w') ∧ w_out w' = w_out w ++ [Udp ci server p] ∧
    get_packet (Some (548, p)) = Ok (548, p) ∧
    handle_packet p s = Ok (tt, s') ∧ sent s' = sent s ++ [ToClient dest a m d] ∧
    granted (cfg s) t ∧
    rebinds_any ci t x (reread m) d.
Proof.
  intros Hc Hroom Hx Hsrv Hs. destruct (renew_ok c id host Hc Hroom x ci) as (p & Ep & Hm).
  pose proof (cm_eq _ _ _ _ _ Hm) as Eq.
  pose proof (client_legible _ _ _ _ _ _ _ _ Hc Hm) as Hleg.
  specialize (Hleg ltac:(by repeat constructor)).
  assert (chaddr p = arp c ++ replicate 10 0) as Hch by by rewrite Eq.
  assert (xid p = x) as Hxid by by rewrite Eq. rewrite <- Hch in Hs.
  destruct (exchange_acked p _ ci s s Hs Hleg) as (s' & dest & a & m & d & t & E & Hsent & Ht & Hcl).
  - by rewrite Eq.
  - by rewrite Hxid.
  - intros i l Hi Hcl Hy. assert (l_chaddr l ≠ blank_chaddr) as Hb by (rewrite Hcl; apply Hs).
    pose proof (find_by_chaddr_unique i l s (sk_table _ (sv_ok _ _ _ Hs)) Hi Hb) as Hfind.
    rewrite Hcl in Hfind.
    erewrite handle_request_path by (done || by destruct host).
    apply (renew_path p _ (i, l) s Hleg); [by destruct host..|]. cbn [snd]. rewrite Hy. by rewrite Eq.
  - eexists _, _, p, s', dest, a, m, d, t. unfold send_renew. rewrite Ep, bind_of_res.
    rewrite (proj2 (Z.eqb_neq _ _) Hsrv). cbn [negb].
    split; [reflexivity|]. split_and!; [done|by eapply client_message_read|done..|].
    rewrite Hxid in Hcl. exact Hcl.
Qed.

(** The host has no twin address: the two lookups of it leave the server in [s0]. *)
Definition no_twin (mac : bytes) (s s0 : srv) : Prop :=
  ∃ n1 n2 s1, lib (check_ipclone_ipaddr mac) s = Ok ((0, n1), s1) ∧
    lib (check_ipclone_ipaddr mac) s1 = Ok ((0, n2), s0).

Lemma lib_frame {A} (m : M sys A) a s s' :
  lib m s = Ok (a, s') → leases s' = leases s ∧ cfg s' = cfg s ∧ sent s' = sent s.
Proof. unfold lib. destruct (m (os s)) as [[b o]| |]; [|done|done]. by intros [= _ <-]. Qed.

Lemma no_twin_frame mac s s0 :
  no_twin mac s s0 → leases s0 = leases s ∧ cfg s0 = cfg s ∧ sent s0 = sent s.
Proof.
  intros (n1 & n2 & s1 & (E1 & E2 & E3)%lib_frame & (F1 & F2 & F3)%lib_frame). by rewrite F1, F2, F3.
Qed.

(** SELECTING: the address of the entry, from this server. *)
Lemma select_path p po l s s0 :
  legible p po → lookup_opt DHCP_REQUESTED_IP po = Some (le_bytes 4 (l_yiaddr l.2)) →
  lookup_opt DHCP_SERVER_ID po = Some (le_bytes 4 (c_server (cfg s))) →
  is_u32 (l_yiaddr l.2) → is_u32 (c_server (cfg s)) → other_net (cfg s) (l_yiaddr l.2) = false →
  no_twin (chaddr p) s s0 →
  handle_request p (Some l) s = ((sendACK p (l_yiaddr l.2);; mret tt);; write_leases) s0.
Proof.
  intros [_ Hpo _] Hreq Hid Hy Hsrv Hnet Htwin. unfold handle_request.
  destruct (get_option_encoded p DHCP_REQUESTED_IP po Hpo) as [d1 ->]; [done|].
  destruct (get_option_encoded p DHCP_SERVER_ID po Hpo) as [d2 ->]; [done|].
  destruct (no_twin_frame _ _ _ Htwin) as (_ & Hcfg & _). destruct Htwin as (n1 & n2 & s1 & E1 & E2).
  rewrite Hreq, Hid, !bind_of_res, !get4_le by done. rewrite bind_assoc, bind_of_res, bind_ret.
  rewrite bind_assoc, bind_of_res, bind_ret. destruct l as [i l]. cbn [snd] in *.
  assert (request_known p (Some (l_yiaddr l)) (Some (c_server (cfg s))) (l_yiaddr l) s =
    (sendACK p (l_yiaddr l);; mret tt) s0) as Hk.
  { unfold request_known, wrong_net. rewrite bind_assoc, bind_gets, bind_assoc, (bind_Ok _ _ _ _ _ E1).
    change (negb (0 =? 0) && negb (other_net (cfg s) (l_yiaddr l))) with false. cbn iota.
    rewrite bind_assoc, (bind_Ok _ _ _ _ _ E2). rewrite bind_ret, Hnet. cbn [andb Z.eqb]. cbn iota.
    rewrite bind_gets, Hcfg, Z.eqb_refl, bool_decide_eq_true_2 by done. done. }
  unfold mbind at 1, M_bind at 1. rewrite Hk. done.
Qed.

(** What the server reads of a datagram of the client *)
Lemma client_delivered id' host' x ci type os m :
  wf_conf c id' host' → client_message c x ci (own_opts id' host' type ++ os) m → is_u32 x → is_u32 ci →
  ∃ d, raw_packet m INADDR_ANY CLIENT_PORT INADDR_BROADCAST SERVER_PORT = Ok d ∧
    get_packet (kernel_input (Some (drop 28 d))) = Ok (548, m).
Proof.
  intros Hc Hm Hx Hci. destruct (msg_wf _ _ _ _ _ _ _ Hc Hm) as [Hwf Hh].
  destruct (raw_packet_ok m INADDR_ANY CLIENT_PORT INADDR_BROADCAST SERVER_PORT Hwf Hh)
    as (ip & udp & Ed & Hip & Hudp & _).
  exists (ip ++ udp ++ msg_bytes m). split; [done|].
  rewrite app_assoc, drop_app_length' by (rewrite length_app; lia).
  pose proof (msg_bytes_length _ Hwf) as Hl. unfold kernel_input.
  rewrite take_ge, Hl, Nat.sub_diag, app_nil_r, msg_of_msg_bytes; [|done| |lia].
  - by eapply client_message_read.
  - pose proof (cm_eq _ _ _ _ _ Hm) as Eq. rewrite Eq. split; cbn; try done. byte_list.
Qed.

(** C7: a client that asks for the address the router's server offered gets it.  The
    datagram of send_selecting reaches the server as it was written; a server with an
    entry for the client's hardware address and this address, of a host without a
    twin address, which can write its log and read the ARP table ([serving]), answers
    with an ACK; and a client that waits for this answer, in the foreground and not to
    quit with the first lease, and reads it hands it to script.c.  If run_script returns, the pass returns
    and the client is bound to the address, with the lease time the server granted;
    if run_script stops at a fault, the client stops at the same fault, and nothing
    else stops it. *)
Theorem selection_exchange x yi w s s0 :
  wf_conf c id host → (length id + length (default [] host) ≤ 200)%nat → is_u32 x →
  is_u32 (c_server (cfg s)) → no_twin (arp c ++ replicate 10 0) s s0 →
  serving s0 (arp c ++ replicate 10 0) yi →
  ∃ r w' q p s' dest a m d t,
    send_selecting c x (c_server (cfg s)) yi w = Ok (r, w') ∧
    w_out w' = w_out w ++ [Raw INADDR_BROADCAST MAC_BCAST_ADDR (ifindex c) q] ∧
    get_packet (kernel_input (Some (drop 28 q))) = Ok (548, p) ∧
    handle_packet p s = Ok (tt, s') ∧ sent s' = sent s ++ [ToClient dest a m d] ∧
    granted (cfg s) t ∧
    rebinds_any yi t x (reread m) d.
Proof.
  intros Hc Hroom Hx Hsrv Htwin Hs.
  destruct (select_ok c id host Hc Hroom x (c_server (cfg s)) yi) as (p & Ep & Hm).
  pose proof (cm_eq _ _ _ _ _ Hm) as Eq.
  pose proof (client_legible _ _ _ _ _ _ _ _ Hc Hm) as Hleg.
  specialize (Hleg ltac:(by repeat constructor)).
  assert (chaddr p = arp c ++ replicate 10 0) as Hch by by rewrite Eq.
  assert (xid p = x) as Hxid by by rewrite Eq. rewrite <- Hch in Hs, Htwin.
  destruct (no_twin_frame _ _ _ Htwin) as (Hls & Hcfg & Hsent0).
  destruct (exchange_acked p _ yi s s0 Hs Hleg) as (s' & dest & a & m & d & t & E & Hsent & Ht & Hcl).
  - by rewrite Eq.
  - by rewrite Hxid.
  - intros i l Hi Hcl Hy. assert (l_chaddr l ≠ blank_chaddr) as Hb by (rewrite Hcl; apply Hs).
    pose proof (sk_table _ (sv_ok _ _ _ Hs)) as Htab. pose proof (to_wf _ Htab) as Hwf.
    rewrite Forall_lookup in Hwf. rewrite Hls in Hi, Htab.
    pose proof (find_by_chaddr_unique i l s Htab Hi Hb) as Hfind. rewrite Hcl in Hfind.
    erewrite handle_request_path by (done || by destruct host).
    apply (select_path p _ (i, l) s s0 Hleg); cbn [snd]; [by rewrite Hy; destruct host|by destruct host| |done| |done].
    + rewrite <- Hls in Hi. by eapply Hwf.
    + rewrite Hy, <- Hcfg. apply Hs.
  - destruct (client_delivered id host x 0 _ _ p Hc Hm Hx) as (q & Eq' & Hq); [done|].
    eexists _, _, q, p, s', dest, a, m, d, t. unfold send_selecting. rewrite Ep, bind_of_res.
    unfold broadcast. rewrite Eq', bind_of_res. rewrite <- Hcfg, <- Hsent0.
    split; [reflexivity|]. split_and!; [done..|].
    rewrite Hxid in Hcl. exact Hcl.
Qed.
End exchange.

(** ** The exchanges at the sample server *)
#[local] Existing Instances Sample.net Sample.ifs Sample.services Sample.resolver Host.kernel.

Lemma acked_serving : serving Sample.acked (arp Host.own ++ replicate 10 0) Sample.leased.
Proof.
  split; [exact Sample.acked_ok|..].
  - exists 0%nat, Sample.entry. split; [exact Sample.acked_entry|by split].
  - discriminate.
  - vm_compute. reflexivity.
  - eexists. vm_compute. reflexivity.
  - vm_compute. reflexivity.
  - apply log_off_logs, acked_log_off.
  - eexists. vm_compute. reflexivity.
  - split; [|split]; vm_compute; congruence.
Qed.

(** A client of the sample network that waits for the answer to 4321, and what the
    server of [s] answers to its message [p] *)
Definition waiting (st : cstate) (mode : lmode) : cli :=
  Cli Host.own false
    (Mach st Sample.leased (htonl 0xc0a80001) 0 1 true mode 4321 3600 6300 1000 (Some 7200) 0)
    zero_message (World 0 0 0 [] (os Sample.booted)).
Definition reply_to (p : dhcpMessage) (s : srv) : dhcpMessage * bytes :=
  match last (sent (Sample.state (handle_packet p s))) with
  | Some (ToClient _ _ m d) => (m, d)
  | _ => (zero_message, [])
  end.

Lemma reply_to_sent p s s' dest a m d :
  handle_packet p s = Ok (tt, s') → sent s' = sent s ++ [ToClient dest a m d] →
  reply_to p s = (m, d).
Proof. intros E Hs. unfold reply_to, Sample.state. by rewrite E, Hs, last_snoc. Qed.

Lemma renewing_awaits mode : awaits (waiting RENEWING mode) 4321.
Proof. split; [done|done|cbn; set_solver|exact zeros_wf|done]. Qed.
Lemma requesting_awaits mode : awaits (waiting REQUESTING mode) 4321.
Proof. split; [done|done|cbn; set_solver|exact zeros_wf|done]. Qed.

(** The client is bound when its script returns. *)
Lemma bound_when_ok yi t now cs script r :
  match script with Ok _ => true | _ => false end = true → bound_by yi t now cs script r →
  ∃ cs', r = Ok (None, cs') ∧ bound_for yi t now (mach cs').
Proof.
  unfold bound_by. destruct script as [[q w]|e|]; [|done|done].
  intros _ (cs' & -> & _ & _ & H). by exists cs'.
Qed.

Definition renewal : dhcpMessage :=
  match send_renew Host.own 4321 (htonl 0xc0a80001) Sample.leased (World 0 0 0 [] (os Sample.booted)) with
  | Ok (_, w) => match last (w_out w) with Some (Udp _ _ p) => p | _ => zero_message end
  | _ => zero_message
  end.
Lemma renewal_script t :
  match @ack_script Host.kernel Host.services Host.router (waiting RENEWING LISTEN_KERNEL)
    (reread (reply_to renewal Sample.acked).1) t with Ok _ => true | _ => false end = true.
Proof. vm_compute. reflexivity. Qed.

Lemma renewal_exchange_witness :
  ∃ t cs', granted (cfg Sample.acked) t ∧
    @client_packet Host.kernel Host.ifs Host.services Host.router 1010
      (Some (drop 28 (reply_to renewal Sample.acked).2)) false (waiting RENEWING LISTEN_KERNEL)
    = Ok (None, cs') ∧ bound_for Sample.leased t 1010 (mach cs').
Proof.
  destruct (renewal_exchange Host.own (1 :: Host.hw) None 4321 (htonl 0xc0a80001) Sample.leased
    (World 0 0 0 [] (os Sample.booted)) Sample.acked) as (r & w' & p & s' & dest & a & m & d & t & H).
  - exact Host.own_wf.
  - simpl. lia.
  - split; lia.
  - discriminate.
  - exact acked_serving.
  - destruct H as (Ew & Ho & _ & E & Hs & Ht & Hr). exists t.
    assert (renewal = p) as Ep by (unfold renewal; rewrite Ew, Ho; reflexivity).
    pose proof (reply_to_sent _ _ _ _ _ _ _ E Hs) as Er. rewrite <- Ep in Er.
    pose proof (renewal_script t) as Hok.
    specialize (Hr Host.ifs Host.services Host.router 1010 false (waiting RENEWING LISTEN_KERNEL)
      (renewing_awaits LISTEN_KERNEL)).
    rewrite Er in Hok |- *. cbn [fst snd] in Hok |- *.
    destruct (bound_when_ok _ _ _ _ _ _ Hok Hr) as (cs' & Ec & Hb).
    exists cs'. split; [exact Ht|]. split; [exact Ec|exact Hb].
Defined.

(** The sample server once the host has been looked up *)
Definition looked (s : srv) : srv := Sample.state (lib (check_ipclone_ipaddr Sample.mac) s).

Lemma looked_zero s :
  match lib (check_ipclone_ipaddr Sample.mac) s with Ok ((0, _), _) => true | _ => false end = true →
  ∃ n, lib (check_ipclone_ipaddr Sample.mac) s = Ok ((0, n), looked s).
Proof.
  unfold looked. destruct (lib _ s) as [[[[] n] s']| |]; try discriminate. exists n. reflexivity.
Qed.

Lemma offered_no_twin :
  no_twin (arp Host.own ++ replicate 10 0) Sample.offered (looked (looked Sample.offered)).
Proof.
  change (arp Host.own ++ replicate 10 0) with Sample.mac.
  destruct (looked_zero Sample.offered) as [n1 E1]; [vm_compute; reflexivity|].
  destruct (looked_zero (looked Sample.offered)) as [n2 E2]; [vm_compute; reflexivity|].
  exists n1, n2, (looked Sample.offered). split; [exact E1|exact E2].
Qed.

Lemma lib_statics {A} (m : M sys A) a s s' : lib m s = Ok (a, s') → statics s' = statics s.
Proof. unfold lib. destruct (m (os s)) as [[b o]| |]; [|done|done]. by intros [= _ <-]. Qed.

Lemma no_twin_ok mac s s0 : no_twin mac s s0 → srv_ok s → srv_ok s0.
Proof.
  intros H [Ht Hc Hs]. destruct (no_twin_frame _ _ _ H) as (El & Ec & _).
  destruct H as (n1 & n2 & s1 & E1%lib_statics & E2%lib_statics).
  split; [by rewrite El|by rewrite Ec|by rewrite E2, E1].
Qed.

Lemma logs_decide yi mac s :
  match log_offer (lit "%s: %s (MAC : %02X-%02X-%02X-%02X-%02X-%02X)")
    (AStr SYSLOG_MSG_DHCPD_OFFER_IP :: AStr (inet_ntoa yi) :: (AInt <$> take 6 mac)) s with
  | Ok (_, s') => bool_decide (files (env (os s')) !! ARP_FILE = files (env (os s)) !! ARP_FILE)
  | _ => false
  end = true → logs yi mac s.
Proof.
  unfold logs. destruct (log_offer _ _ s) as [[[] s']| |]; try done. intros H%bool_decide_eq_true.
  by exists s'.
Qed.

Lemma offered_serving :
  serving (looked (looked Sample.offered)) (arp Host.own ++ replicate 10 0) Sample.leased.
Proof.
  split; [eapply no_twin_ok; [exact offered_no_twin|exact Sample.offered_ok]|..].
  - exists 0%nat. eexists. split; [vm_compute; reflexivity|by split].
  - discriminate.
  - vm_compute. reflexivity.
  - eexists. vm_compute. reflexivity.
  - vm_compute. reflexivity.
  - apply logs_decide. vm_compute. reflexivity.
  - eexists. vm_compute. reflexivity.
  - split; [|split]; vm_compute; congruence.
Qed.

Definition selection : dhcpMessage :=
  match send_selecting Host.own 4321 (c_server (cfg Sample.offered)) Sample.leased
    (World 0 0 0 [] (os Sample.booted)) with
  | Ok (_, w) =>
      match last (w_out w) with
      | Some (Raw _ _ _ q) =>
          match get_packet (kernel_input (Some (drop 28 q))) with Ok (_, p) => p | _ => zero_message end
      | _ => zero_message
      end
  | _ => zero_message
  end.
Lemma selection_script t :
  match @ack_script Host.kernel Host.services Host.router (waiting REQUESTING LISTEN_RAW)
    (reread (reply_to selection Sample.offered).1) t with Ok _ => true | _ => false end = true.
Proof. vm_compute. reflexivity. Qed.

Lemma selection_exchange_witness :
  ∃ t cs', granted (cfg Sample.offered) t ∧
    @client_packet Host.kernel Host.ifs Host.services Host.router 1010
      (Some (reply_to selection Sample.offered).2) false (waiting REQUESTING LISTEN_RAW)
    = Ok (None, cs') ∧ bound_for Sample.leased t 1010 (mach cs').
Proof.
  destruct (selection_exchange Host.own (1 :: Host.hw) None 4321 Sample.leased
    (World 0 0 0 [] (os Sample.booted)) Sample.offered (looked (looked Sample.offered)))
    as (r & w' & q & p & s' & dest & a & m & d & t & H).
  - exact Host.own_wf.
  - simpl. lia.
  - split; lia.
  - split; vm_compute; congruence.
  - exact offered_no_twin.
  - exact offered_serving.
  - destruct H as (Ew & Ho & Eq & E & Hs & Ht & Hr). exists t.
    assert (selection = p) as Ep.
    { unfold selection. rewrite Ew, Ho. cbn [w_out app last]. by rewrite Eq. }
    pose proof (reply_to_sent _ _ _ _ _ _ _ E Hs) as Er. rewrite <- Ep in Er.
    pose proof (selection_script t) as Hok.
    specialize (Hr Host.ifs Host.services Host.router 1010 false (waiting REQUESTING LISTEN_RAW)
      (requesting_awaits LISTEN_RAW)).
    rewrite Er in Hok |- *. cbn [fst snd] in Hok |- *.
    destruct (bound_when_ok _ _ _ _ _ _ Hok Hr) as (cs' & Ec & Hb).
    exists cs'. split; [exact Ht|]. split; [exact Ec|exact Hb].
Defined.
