(* ===== verification/ClientProps.v ===== *)
(** * The DHCP client: its theorems *)
From S2P Require Import Prelude CLib Heap System Bytes Genconfig GenconfigSpec GenconfigOps.
From S2P Require Import GenconfigFile Cconfig SystemApi Syslog Userland LibEnds Dhcp DhcpOptions.
From S2P Require Import DhcpPacket DhcpLeases DhcpTable DhcpFiles DhcpServer Dhcpd DhcpInv DhcpReply.
From S2P Require Import DhcpChoice DhcpEvents DhcpSample DhcpSettings ClientPacket DhcpScript Dhcpc.
From S2P Require Import ClientWire ClientMessages ClientEnds ClientCheck DhcpcInv ClientRun ClientLive.
From S2P Require Import ClientSample.

Lemma wp_result {A} (m : M cli A) (Q : A → cli → Prop) s a s' :
  wp any_fault m Q s → m s = Ok (a, s') → Q a s'.
Proof. unfold wp. intros H E. by rewrite E in H. Qed.

Section props.
Context `{kern : !Kernel, ifs : !Interfaces, svc : !Services, rtr : !Router}.

Lemma main_passes argv0 stack w opts hw ins :
  sendable stack → (∀ i mac, hw = Some (i, mac) → length mac = 6%nat ∧ is_bytes mac) →
  Forall (λ i, wake_ok i.2) ins →
  wp any_fault (udhcpc_main opts hw ins) (λ r s, r = None → cli_ok s) (fresh_client argv0 stack w).
Proof.
  intros Hst Hhw Hins. unfold udhcpc_main.
  eapply wp_seq; [apply start_passes; [split_and!; done|done]|].
  intros [status|] s H; [by apply wp_ret|]. by apply client_passes; [apply H|].
Qed.

(** C5: whatever the command line, the clock, the kernel's answers, the datagrams
    and the signals, every pass of the client's loop returns or stops at a fault of
    the process; and while the process lives, the socket fits the state, the counter
    of messages is at most three, the message buffer and the configuration are
    well-formed, and the times of a machine with a lease are 32-bit numbers, in order
    (T1, T2, the end of the lease) when the lease is shorter than 2^32/7 seconds.
    For longer leases the times may be out of order (long_lease_inverted). *)
Theorem client_run_ok argv0 stack w opts hw ins :
  sendable stack → (∀ i mac, hw = Some (i, mac) → length mac = 6%nat ∧ is_bytes mac) →
  Forall (λ i, wake_ok i.2) ins →
  wp any_fault (udhcpc_main opts hw ins) (λ r s, r = None → cli_ok s) (fresh_client argv0 stack w).
Proof. apply main_passes. Qed.

(** C15: a client with a lease whose server falls silent gives the lease up: within
    30 timeouts without a message, whatever the times at which they come, it is back
    in INIT_SELECTING, and every pass of the loop up to there returns and goes on.
    The lease is shorter than 2^32/7 seconds, the client's identifier and host name
    leave room in its messages, and from the files as they are the end of the lease
    can be told to the router and the log and the address taken from the interface
    ([lease_over], lines of dhcpc.c and script.c, returns). *)
Theorem lease_lost_in_silence s id host lease :
  wf_conf (conf s) id host → (length id + length (default [] host) ≤ 200)%nat →
  cli_ok s → leased (m_state (mach s)) → m_lease (mach s) = Some lease → lease * 7 < 2 ^ 32 →
  (∀ w, w_os w = w_os (wrld s) → ∃ p w', lease_over (conf s) w = Ok (p, w')) →
  ∃ n s', (n ≤ 30)%nat ∧ client (silence n) s = Ok (None, s') ∧
    m_state (mach s') = INIT_SELECTING.
Proof.
  intros Hc Hroom [_ Hm _] Hl El Hs Hover.
  eapply (silent_client (conf s) id host Hc Hroom _ Hover); [done..|].
  by eapply timed_left; [|apply Hm|..].
Qed.

(** The times of a long lease are out of order: from 2^30 seconds on, and so for
    the infinite lease, T2 is before T1, since seven times the lease leaves 32 bits. *)
Theorem long_lease_inverted lease now yi m :
  2 ^ 30 ≤ lease < 2 ^ 32 →
  m_t2 (put_bound lease now yi m) < m_t1 (put_bound lease now yi m).
Proof.
  intros Hl. cbn [put_bound m_t1 m_t2]. rewrite Z.shiftr_div_pow2 by lia. change (2 ^ 3) with 8.
  pose proof (Z.mod_pos_bound (lease * 7) (2 ^ 32) ltac:(lia)). fold (u32 (lease * 7)) in *.
  Z.to_euclidean_division_equations; lia.
Qed.
End props.

(** ** The theorems at the sample client *)
Import Host.

Lemma zero_sendable : sendable zero_message.
Proof. split; [exact zeros_wf|cbn; byte_list]. Qed.
Lemma hw_ok i mac : Some (3, hw) = Some (i, mac) → length mac = 6%nat ∧ is_bytes mac.
Proof. intros [= _ <-]. split; [reflexivity|cbn; byte_list]. Qed.
Lemma session_bytes : Forall (λ i, wake_ok i.2) session.
Proof.
  assert (∀ d, bool_decide (Forall (λ b, 0 ≤ b < 256) d) = true → wake_ok (reads d).2) as H
    by by intros d Hd%bool_decide_eq_true.
  unfold session. rewrite !Forall_cons. split_and!; [exact I| |exact I| |constructor].
  - apply (H (answer_of offered)). vm_compute. reflexivity.
  - apply (H (answer_of acked)). vm_compute. reflexivity.
Qed.

Lemma client_run_ok_witness :
  ∃ s, run session = Ok (None, s) ∧ cli_ok s ∧ m_state (mach s) = BOUND.
Proof.
  destruct session_bound as (s & E & Hb & _). exists s. split; [exact E|]. split; [|exact Hb].
  unfold run, start in E. refine (wp_result _ _ _ _ _ (client_run_ok _ _ _ _ _ _ _ _ _) E eq_refl).
  - exact zero_sendable.
  - exact hw_ok.
  - exact session_bytes.
Defined.

(** The client of the session, and 30 timeouts later *)
Definition bound : cli := match run session with Ok (_, s) => s | _ => start end.

Lemma bound_run : run session = Ok (None, bound).
Proof. unfold bound. destruct session_bound as (s & -> & _). reflexivity. Qed.
Lemma bound_ok : cli_ok bound.
Proof.
  pose proof bound_run as E. unfold run, start in E.
  refine (wp_result _ _ _ _ _ (main_passes _ _ _ _ _ _ zero_sendable hw_ok session_bytes) E eq_refl).
Qed.
Lemma ok_state (a : next) (s s' : cli) : Ok (a, s) = Ok (a, s') → s = s'.
Proof. by intros [= ->]. Qed.
Lemma bound_lease : m_state (mach bound) = BOUND ∧ m_lease (mach bound) = Some 7200.
Proof.
  destruct session_bound as (s & E & H1 & _ & H2). rewrite bound_run in E. apply ok_state in E.
  rewrite E. split; [exact H1|exact H2].
Qed.
Lemma bound_conf : conf bound = own.
Proof. vm_compute. reflexivity. Qed.
Lemma res_ok {A} (r : res (A * world)) :
  match r with Ok _ => true | _ => false end = true → ∃ a w, r = Ok (a, w).
Proof. destruct r as [[a w]|e|]; [by eexists _, _|done|done]. Qed.
Lemma bound_over w : w_os w = w_os (wrld bound) → ∃ p w', lease_over (conf bound) w = Ok (p, w').
Proof.
  rewrite bound_conf. destruct w as [ticks rands asked out o]. cbn [w_os]. intros ->.
  apply res_ok. vm_compute. reflexivity.
Qed.

Lemma lease_lost_in_silence_witness :
  ∃ n s, (n ≤ 30)%nat ∧ client (silence n) bound = Ok (None, s) ∧
    m_state (mach s) = INIT_SELECTING.
Proof.
  apply (lease_lost_in_silence bound (1 :: hw) None 7200).
  - rewrite bound_conf. exact own_wf.
  - simpl. lia.
  - exact bound_ok.
  - left. apply bound_lease.
  - apply bound_lease.
  - reflexivity.
  - exact bound_over.
Defined.

Lemma long_lease_inverted_witness :
  m_t2 (put_bound 0xffffffff 0 0 (mach start)) < m_t1 (put_bound 0xffffffff 0 0 (mach start)).
Proof. apply (long_lease_inverted 0xffffffff 0 0 (mach start)). lia. Defined.
