(* ===== verification/Callout.v ===== *)
(** * igmpproxy/src/callout.c: the queue of timeouts

    Each node of the queue keeps the time from the node before it.  The nodes
    are the elements of a list in queue order; the function of a node and its
    argument are one value of the type [A] of actions.  [Callouts] is the
    interface to the queue in the state of the program.  The second part is the
    specification, a list of absolute deadlines, and the proof that the queue
    refines it. *)
From S2P Require Import Prelude.

(** struct timeOutQueue *)
Record timeOutQueue (A : Type) := TimeOut { t_id : Z; t_func : A; t_time : Z }.
Arguments TimeOut {A} t_id t_func t_time.
Arguments t_id {A} _.
Arguments t_func {A} _.
Arguments t_time {A} _.

Definition set_time {A} (time : Z) (t : timeOutQueue A) : timeOutQueue A :=
  TimeOut (t_id t) (t_func t) time.

(** The two static variables [queue] and [id]. *)
Record callouts (A : Type) := Calls { c_queue : list (timeOutQueue A); c_id : Z }.
Arguments Calls {A} c_queue c_id.
Arguments c_queue {A} _.
Arguments c_id {A} _.

Class Callouts (S A : Type) := {
  cget : S → callouts A;
  cset : callouts A → S → S;
  cget_cset c σ : cget (cset c σ) = c;
  cset_cset c c' σ : cset c (cset c' σ) = cset c σ
}.

Section lists.
Context {A : Type}.
Implicit Types q : list (timeOutQueue A).

(** The walk of timer_setTimer: [node] goes before the first node that is due
    later. *)
Fixpoint insert_timer (node : timeOutQueue A) (delay : Z) q : list (timeOutQueue A) :=
  match q with
  | [] => [set_time delay node]
  | p :: q' =>
      if delay <? t_time p
      then set_time delay node :: set_time (i32 (t_time p - delay)) p :: q'
      else p :: insert_timer node (i32 (delay - t_time p)) q'
  end.

(** The first loop of age_callout_queue: the nodes that are due, and the queue
    without them. *)
Fixpoint split_expired (elapsed_time : Z) q
    : list (timeOutQueue A) * list (timeOutQueue A) :=
  match q with
  | [] => ([], [])
  | p :: q' =>
      if elapsed_time <? t_time p
      then ([], set_time (i32 (t_time p - elapsed_time)) p :: q')
      else
        let '(due, rest) := split_expired (i32 (elapsed_time - t_time p)) q' in
        (p :: due, rest)
  end.

Fixpoint left_loop (timer_id left : Z) q : Z :=
  match q with
  | [] => -1
  | p :: q' =>
      let left := i32 (left + t_time p) in
      if t_id p =? timer_id then left else left_loop timer_id left q'
  end.

(** The queue without the node, or [None]. *)
Fixpoint clear_loop (timer_id : Z) q : option (list (timeOutQueue A)) :=
  match q with
  | [] => None
  | p :: q' =>
      if t_id p =? timer_id then
        Some match q' with
             | [] => []
             | n :: q'' => set_time (i32 (t_time n + t_time p)) n :: q''
             end
      else cons p <$> clear_loop timer_id q'
  end.
End lists.

Section queue.
Context {S A : Type} `{!Callouts S A}.

Definition callout_init : M S unit := modify (λ σ, cset (Calls [] (c_id (cget σ))) σ).

Definition free_all_callouts : M S unit := modify (λ σ, cset (Calls [] (c_id (cget σ))) σ).

(** The second loop of age_callout_queue, on the nodes that are due. *)
Fixpoint call_expired (run : A → M S unit) (due : list (timeOutQueue A)) : M S unit :=
  match due with
  | [] => mret tt
  | p :: due' => run (t_func p);; call_expired run due'
  end.

Definition age_callout_queue (run : A → M S unit) (elapsed_time : Z) : M S unit :=
  c ← gets cget;
  let '(due, rest) := split_expired elapsed_time (c_queue c) in
  modify (cset (Calls rest (c_id c)));;
  call_expired run due.

Definition timer_nextTimer : M S Z :=
  c ← gets cget;
  mret match c_queue c with
       | [] => -1
       | p :: _ => if t_time p <? 0 then 0 else t_time p
       end.

Definition timer_setTimer (delay : Z) (action : A) : M S Z :=
  c ← gets cget;
  let id := i32 (c_id c + 1) in
  modify (cset (Calls (insert_timer (TimeOut id action delay) delay (c_queue c)) id));;
  mret id.

Definition timer_leftTimer (timer_id : Z) : M S Z :=
  if timer_id =? 0 then mret (-1)
  else c ← gets cget; mret (left_loop timer_id 0 (c_queue c)).

Definition timer_clearTimer (timer_id : Z) : M S Z :=
  if timer_id =? 0 then mret 0
  else
    c ← gets cget;
    match clear_loop timer_id (c_queue c) with
    | Some q => modify (cset (Calls q (c_id c)));; mret 1
    | None => mret 0
    end.
End queue.

(** ** The specification: absolute deadlines *)
Section deadlines.
Context {A : Type}.
Implicit Types q : list (timeOutQueue A).

(** A timer and when it is due. *)
Record due_timer := Due { d_at : Z; d_id : Z; d_act : A }.

(** The timers of a queue whose head is counted from [base]. *)
Fixpoint deadlines (base : Z) q : list due_timer :=
  match q with
  | [] => []
  | p :: q' => Due (base + t_time p) (t_id p) (t_func p) :: deadlines (base + t_time p) q'
  end.

(** Times between nodes are not negative, and the whole queue is within an int. *)
Fixpoint queue_ok (room : Z) q : Prop :=
  match q with
  | [] => True
  | p :: q' => 0 ≤ t_time p ≤ room ∧ queue_ok (room - t_time p) q'
  end.
Definition INT_MAX : Z := 2 ^ 31 - 1.

Definition due_by (t : Z) (d : due_timer) : Prop := d_at d ≤ t.
#[export] Instance due_by_dec t d : Decision (due_by t d).
Proof. unfold due_by. apply _. Defined.

Lemma queue_ok_mono room room' q : room ≤ room' → queue_ok room q → queue_ok room' q.
Proof.
  revert room room'. induction q as [|p q IH]; intros room room' Hr; [done|].
  intros [H Hq]. split; [lia|]. eapply IH; [|exact Hq]. lia.
Qed.

(** No timer of a queue is due before the time its head is counted from. *)
Lemma deadlines_after room base q :
  queue_ok room q → Forall (λ d, base ≤ d_at d ≤ base + room) (deadlines base q).
Proof.
  revert room base. induction q as [|p q IH]; intros room base; [by constructor|].
  intros [H Hq]. constructor; simpl; [lia|].
  eapply Forall_impl; [by apply IH|]. simpl. intros d. lia.
Qed.

(** The queue splits at any time into the timers due by then and the others. *)
Lemma deadlines_later room base t q :
  queue_ok room q → t < base →
  filter (due_by t) (deadlines base q) = [] ∧
  filter (λ d, ¬ due_by t d) (deadlines base q) = deadlines base q.
Proof.
  intros Hq Ht. pose proof (deadlines_after room base q Hq) as Hd.
  split; [apply filter_none|apply filter_all];
    (eapply Forall_impl; [exact Hd|]); unfold due_by; simpl; intros d; lia.
Qed.

(** Setting a timer: after every timer that is due at the same time or before. *)
Definition schedule (d : due_timer) (l : list due_timer) : list due_timer :=
  filter (due_by (d_at d)) l ++ d :: filter (λ e, ¬ due_by (d_at d) e) l.

Lemma insert_timer_schedules room node delay base q :
  queue_ok room q → 0 ≤ delay ≤ room → room ≤ INT_MAX →
  deadlines base (insert_timer node delay q) =
    schedule (Due (base + delay) (t_id node) (t_func node)) (deadlines base q) ∧
  queue_ok room (insert_timer node delay q).
Proof.
  revert room delay base. unfold INT_MAX, schedule.
  induction q as [|p q IH]; intros room delay base; simpl; [done|].
  intros [Hp Hq] Hd Hr. destruct (Z.ltb_spec delay (t_time p)) as [Hlt|Hge]; simpl.
  - rewrite i32_id by lia.
    destruct (deadlines_later (room - t_time p) (base + t_time p) (base + delay) q)
      as [E1 E2]; [done|lia|].
    rewrite filter_cons_False, filter_cons_True, E1, E2 by (unfold due_by; simpl; lia).
    replace (base + delay + (t_time p - delay)) with (base + t_time p) by lia.
    split; [done|]. split; [lia|]. split; [lia|]. eapply queue_ok_mono; [|done]. lia.
  - rewrite i32_id by lia.
    rewrite filter_cons_True, filter_cons_False by (unfold due_by; simpl; lia).
    destruct (IH (room - t_time p) (delay - t_time p) (base + t_time p)) as [E Hok];
      [done|lia|lia|].
    replace (base + t_time p + (delay - t_time p)) with (base + delay) in E by lia.
    by rewrite E.
Qed.

(** Ageing: the timers that are due in order, the others with the time counted
    from the new present. *)
Lemma split_expired_due room elapsed base q :
  queue_ok room q → 0 ≤ elapsed → room ≤ INT_MAX → elapsed ≤ INT_MAX →
  let '(due, rest) := split_expired elapsed q in
  deadlines base due = filter (due_by (base + elapsed)) (deadlines base q) ∧
  deadlines (base + elapsed) rest =
    filter (λ d, ¬ due_by (base + elapsed) d) (deadlines base q) ∧
  queue_ok room rest.
Proof.
  revert room elapsed base. unfold INT_MAX.
  induction q as [|p q IH]; intros room elapsed base; simpl; [done|].
  intros [Hp Hq] He Hr Hm. destruct (Z.ltb_spec elapsed (t_time p)) as [Hlt|Hge]; simpl.
  - rewrite i32_id by lia.
    destruct (deadlines_later (room - t_time p) (base + t_time p) (base + elapsed) q)
      as [E1 E2]; [done|lia|].
    rewrite filter_cons_False, filter_cons_True, E1, E2 by (unfold due_by; simpl; lia).
    replace (base + elapsed + (t_time p - elapsed)) with (base + t_time p) by lia.
    split; [done|]. split; [done|]. split; [lia|]. eapply queue_ok_mono; [|done]. lia.
  - rewrite i32_id by lia.
    specialize (IH (room - t_time p) (elapsed - t_time p) (base + t_time p)).
    destruct (split_expired (elapsed - t_time p) q) as [due rest].
    destruct IH as (E1 & E2 & Hok); [done|lia..|].
    replace (base + t_time p + (elapsed - t_time p)) with (base + elapsed) in * by lia.
    rewrite filter_cons_True, filter_cons_False by (unfold due_by; simpl; lia).
    simpl. rewrite E1. split; [done|]. split; [done|]. eapply queue_ok_mono; [|done]. lia.
Qed.

(** Clearing a timer removes its first entry and moves no other. *)
Fixpoint without (timer_id : Z) (l : list due_timer) : option (list due_timer) :=
  match l with
  | [] => None
  | d :: l' => if d_id d =? timer_id then Some l' else cons d <$> without timer_id l'
  end.

Lemma clear_loop_without room timer_id base q :
  queue_ok room q → room ≤ INT_MAX →
  deadlines base <$> clear_loop timer_id q = without timer_id (deadlines base q) ∧
  (∀ q', clear_loop timer_id q = Some q' → queue_ok room q').
Proof.
  revert room base. unfold INT_MAX.
  induction q as [|p q IH]; intros room base; simpl; [done|].
  intros [Hp Hq] Hr. destruct (Z.eqb_spec (t_id p) timer_id) as [E|E]; simpl.
  - split.
    + destruct q as [|n q]; simpl in *; [done|]. rewrite i32_id by lia.
      by replace (base + (t_time n + t_time p)) with (base + t_time p + t_time n) by lia.
    + intros q' [= <-]. destruct q as [|n q]; simpl in *; [done|].
      rewrite i32_id by lia. split; [lia|]. eapply queue_ok_mono; [|apply Hq]. lia.
  - destruct (IH (room - t_time p) (base + t_time p)) as [IH1 IH2]; [done|lia|].
    rewrite <-IH1. split.
    + by destruct (clear_loop timer_id q).
    + intros q' Hq'. apply fmap_Some in Hq' as (q1 & Hq1 & ->).
      split; [done|]. by apply IH2.
Qed.

(** The remaining time of a timer. *)
Lemma left_loop_deadline room timer_id base q :
  queue_ok (room - base) q → 0 ≤ base → room ≤ INT_MAX →
  left_loop timer_id base q =
    default (-1) (d_at <$> find (λ d, d_id d =? timer_id) (deadlines base q)).
Proof.
  revert base. unfold INT_MAX.
  induction q as [|p q IH]; intros base; simpl; [done|].
  intros [Hp Hq] Hb Hr. rewrite i32_id by lia.
  destruct (Z.eqb_spec (t_id p) timer_id) as [E|E]; [done|].
  apply IH; [|lia|done]. by replace (room - (base + t_time p)) with (room - base - t_time p) by lia.
Qed.
End deadlines.
Arguments due_timer : clear implicits.
Arguments INT_MAX : simpl never.
