(* ===== verification/CalloutSpec.v ===== *)
(** * The queue of timeouts as a set of deadlines

    What callout.c promises to its callers: a timer that is set is due at an
    absolute time, and ageing the queue calls the timers that are due, in the
    order of their times.  [timer_op] runs a call of the module on a state that
    records the timers called; [spec_op] is the same call on the deadlines. *)
From S2P Require Import Prelude Callout.

Section spec.
Context {A : Type}.

(** The queue and the actions called so far. *)
Abbreviation tstate := (callouts A * list A)%type.
#[export] Instance logged_callouts : Callouts tstate A := {|
  cget := fst; cset c σ := (c, σ.2);
  cget_cset c σ := eq_refl; cset_cset c c' σ := eq_refl
|}.
Definition log_action (a : A) : M tstate unit := modify (λ σ, (σ.1, σ.2 ++ [a])).

Inductive timer_call :=
  | SetTimer (delay : Z) (action : A)
  | ClearTimer (timer_id : Z)
  | LeftTimer (timer_id : Z)
  | NextTimer
  | Elapse (seconds : Z).

Definition timer_op (c : timer_call) : M tstate Z :=
  match c with
  | SetTimer delay action => timer_setTimer delay action
  | ClearTimer timer_id => timer_clearTimer timer_id
  | LeftTimer timer_id => timer_leftTimer timer_id
  | NextTimer => timer_nextTimer
  | Elapse seconds => age_callout_queue log_action seconds;; mret 0
  end.
Fixpoint timer_ops (cs : list timer_call) : M tstate (list Z) :=
  match cs with
  | [] => mret []
  | c :: cs' => z ← timer_op c; zs ← timer_ops cs'; mret (z :: zs)
  end.

(** The present, the last identifier, the timers in the order in which they are
    due, and the actions called so far. *)
Record deadlines_state := DS {
  ds_now : Z; ds_id : Z; ds_timers : list (due_timer A); ds_called : list A
}.

Definition spec_op (d : deadlines_state) (c : timer_call) : Z * deadlines_state :=
  let '(DS now id timers called) := d in
  match c with
  | SetTimer delay action =>
      let id' := i32 (id + 1) in
      (id', DS now id' (schedule (Due (now + delay) id' action) timers) called)
  | ClearTimer timer_id =>
      if timer_id =? 0 then (0, d)
      else match without timer_id timers with
           | Some timers' => (1, DS now id timers' called)
           | None => (0, d)
           end
  | LeftTimer timer_id =>
      (if timer_id =? 0 then -1
       else default (-1) ((λ e, d_at e - now) <$> find (λ e, d_id e =? timer_id) timers), d)
  | NextTimer => (default (-1) ((λ e, d_at e - now) <$> head timers), d)
  | Elapse seconds =>
      (0, DS (now + seconds) id (filter (λ e, ¬ due_by (now + seconds) e) timers)
            (called ++ (d_act <$> filter (due_by (now + seconds)) timers)))
  end.
Fixpoint spec_ops (d : deadlines_state) (cs : list timer_call) : list Z * deadlines_state :=
  match cs with
  | [] => ([], d)
  | c :: cs' =>
      let '(z, d) := spec_op d c in
      let '(zs, d) := spec_ops d cs' in (z :: zs, d)
  end.

(** Delays and elapsed times that an int holds. *)
Definition call_ok (c : timer_call) : Prop :=
  match c with
  | SetTimer delay _ => 0 ≤ delay ≤ INT_MAX
  | Elapse seconds => 0 ≤ seconds ≤ INT_MAX
  | _ => True
  end.

(** The queue of the code represents the deadlines. *)
Definition represents (σ : tstate) (d : deadlines_state) : Prop :=
  queue_ok INT_MAX (c_queue σ.1) ∧ c_id σ.1 = ds_id d ∧ σ.2 = ds_called d ∧
  deadlines (ds_now d) (c_queue σ.1) = ds_timers d.

Lemma deadlines_shift x base (q : list (timeOutQueue A)) :
  deadlines (base + x) q = (λ e, Due (d_at e + x) (d_id e) (d_act e)) <$> deadlines base q.
Proof.
  revert base. induction q as [|p q IH]; intros base; [done|]. simpl. rewrite <-IH.
  f_equal; [f_equal; lia|]. f_equal. lia.
Qed.

Lemma call_expired_log (due : list (timeOutQueue A)) σ :
  call_expired log_action due σ = Ok (tt, (σ.1, σ.2 ++ (t_func <$> due))).
Proof.
  revert σ. induction due as [|p due IH]; intros σ; cbn [call_expired].
  { rewrite app_nil_r. by destruct σ. }
  erewrite bind_Ok by done. rewrite IH. simpl. by rewrite <-app_assoc.
Qed.

Lemma deadlines_actions base (q : list (timeOutQueue A)) : d_act <$> deadlines base q = t_func <$> q.
Proof. revert base. induction q as [|p q IH]; intros base; [done|]. simpl. by rewrite IH. Qed.

Lemma left_deadline timer_id now (q : list (timeOutQueue A)) :
  queue_ok INT_MAX q →
  left_loop timer_id 0 q =
    default (-1) ((λ e, d_at e - now) <$> find (λ e, d_id e =? timer_id) (deadlines now q)).
Proof.
  intros Hq. rewrite (left_loop_deadline INT_MAX timer_id 0 q); [|by rewrite Z.sub_0_r|lia|lia].
  change now with (0 + now) at 2. rewrite deadlines_shift.
  generalize (deadlines 0 q). intros l. induction l as [|e l IH]; [done|]. simpl.
  destruct (d_id e =? timer_id); [|done]. simpl. lia.
Qed.

Lemma timer_op_refines c σ d :
  represents σ d → call_ok c →
  ∃ σ', timer_op c σ = Ok ((spec_op d c).1, σ') ∧ represents σ' (spec_op d c).2.
Proof.
  destruct σ as [[q id] log], d as [now id' timers called].
  intros (Hq & Hid & Hlog & Hd) Hc. simpl in Hq, Hid, Hlog, Hd. subst id' log timers.
  destruct c as [delay a|t|t| |e]; cbn [timer_op spec_op].
  - destruct (insert_timer_schedules INT_MAX (TimeOut (i32 (id + 1)) a delay) delay now q)
      as [E Hq']; [done|done|lia|].
    exists (Calls (insert_timer (TimeOut (i32 (id + 1)) a delay) delay q) (i32 (id + 1)), called).
    by split_and!.
  - unfold timer_clearTimer. destruct (t =? 0); [by eexists; split|].
    destruct (clear_loop_without INT_MAX t now q Hq) as [E Hq']; [lia|].
    rewrite bind_gets. cbn [cget logged_callouts fst c_queue c_id]. rewrite <-E.
    destruct (clear_loop t q) as [q'|].
    + exists (Calls q' id, called). split; [done|]. split; [by apply Hq'|done].
    + exists (Calls q id, called). by split_and!.
  - exists (Calls q id, called). split; [|done]. unfold timer_leftTimer.
    destruct (t =? 0); [done|]. rewrite bind_gets.
    by rewrite <-(left_deadline t now q Hq).
  - exists (Calls q id, called). split; [|done]. unfold timer_nextTimer. rewrite bind_gets.
    destruct q as [|p q]; [done|]. simpl in *. rewrite (proj2 (Z.ltb_ge _ _)) by lia.
    unfold mret, M_ret. do 2 f_equal. lia.
  - unfold age_callout_queue. rewrite bind_assoc, bind_gets.
    pose proof (split_expired_due INT_MAX e now q Hq) as Hs.
    cbn [cget logged_callouts fst c_queue c_id]. destruct (split_expired e q) as [due rest].
    destruct Hs as (E1 & E2 & Hq'); [simpl in Hc; lia..|].
    exists (Calls rest id, called ++ (t_func <$> due)). split.
    + rewrite bind_assoc. erewrite bind_Ok by done. erewrite bind_Ok by apply call_expired_log.
      done.
    + split_and!; [done|done| |done]. simpl. by rewrite <-E1, deadlines_actions.
Qed.

Lemma timer_ops_refine cs σ d :
  represents σ d → Forall call_ok cs →
  ∃ σ', timer_ops cs σ = Ok ((spec_ops d cs).1, σ') ∧ represents σ' (spec_ops d cs).2.
Proof.
  revert σ d. induction cs as [|c cs IH]; intros σ d H Hc; [by eexists|].
  apply Forall_cons in Hc as [Hc Hcs]. cbn [timer_ops spec_ops].
  destruct (timer_op_refines c σ d H Hc) as (σ1 & E1 & H1).
  rewrite (bind_Ok _ _ _ _ _ E1). destruct (spec_op d c) as [z d1]. simpl in H1.
  destruct (IH σ1 d1 H1 Hcs) as (σ2 & E2 & H2). rewrite (bind_Ok _ _ _ _ _ E2).
  destruct (spec_ops d1 cs) as [zs d2]. by eexists.
Qed.
End spec.
Arguments timer_call : clear implicits.
