(* ===== verification/Igmp.v ===== *)
(** * igmpproxy/src: the state of the IGMP proxy and what it hands to the kernel

    The records of defs.h, rttable.c and request.c, the state of the program, the
    vector of interfaces (ifvc.c), the messages it builds (igmp.c, lib.c) and the
    calls of the kernel (mroute-api.c, mcgroup.c) as a trace of effects.  Log
    output is left out; log() does not end the program, also for LOG_ERR, since
    the call of exit() in it is not compiled (igmpproxy/src/syslog.c). *)
From S2P Require Import Prelude CLib Heap System Bytes Genconfig SystemApi Callout.

Definition IF_STATE_DISABLED : Z := 0.
Definition IF_STATE_UPSTREAM : Z := 1.
Definition IF_STATE_DOWNSTREAM : Z := 2.
Definition MAX_IF : Z := 40.
Definition MAX_MC_VIFS : Z := 32.
Definition IFF_LOOPBACK : Z := 8.
Definition ROUTESTATE_NOTJOINED : Z := 0.
Definition ROUTESTATE_JOINED : Z := 1.
Definition ROUTESTATE_CHECK_LAST_MEMBER : Z := 2.
Definition INTERVAL_QUERY_RESPONSE : Z := 5.
Definition INTERVAL_UNICAST_QUERY_RESPONSE : Z := 1.
Definition RECV_BUF_SIZE : Z := 8192.

(** The constants of the system's headers. *)
Definition IGMP_MEMBERSHIP_QUERY : Z := 17.
Definition IGMP_V1_MEMBERSHIP_REPORT : Z := 18.
Definition IGMP_DVMRP : Z := 19.
Definition IGMP_V2_MEMBERSHIP_REPORT : Z := 22.
Definition IGMP_V2_LEAVE_GROUP : Z := 23.
Definition IGMP_MINLEN : Z := 8.
Definition IGMP_TIMER_SCALE : Z := 10.
Definition MIN_IP_HEADER_LEN : Z := 20.
Definition MAXTTL : Z := 255.
(** IN_MULTICAST of an address in host order. *)
Definition IN_MULTICAST (a : Z) : bool := Z.land a 0xf0000000 =? 0xe0000000.

(** In network order, as the program keeps them (initIgmp). *)
Definition allhosts_group : Z := htonl 0xe0000001.
Definition allrouters_group : Z := htonl 0xe0000002.
Definition UPNP_MCAST_ADDR : Z := htonl 0xeffffffa.

(** struct IfDesc; [allowednets] as pairs of address and mask. *)
Record IfDesc := If {
  if_Name : str;
  if_InAdr : Z;            (** network order; 0 for non IP interfaces *)
  if_Flags : Z;
  if_state : Z;
  if_allowednets : list (Z * Z);
  if_robustness : Z;
  if_threshold : Z;        (** unsigned char *)
  if_ratelimit : Z;
  if_index : Z             (** unsigned int, -1 without a virtual interface *)
}.

(** struct Config *)
Record Config := Conf {
  robustnessValue : Z;
  queryInterval : Z;
  queryResponseInterval : Z;
  startupQueryInterval : Z;
  startupQueryCount : Z;
  lastMemberQueryInterval : Z;
  lastMemberQueryCount : Z;
  fastUpstreamLeave : bool
}.

(** struct RouteTable, without its two links. *)
Record RouteTable := Route {
  rt_group : Z;            (** network order *)
  rt_originAddr : Z;
  rt_vifBits : Z;
  rt_upstrState : Z;
  rt_ageVifBits : Z;
  rt_ageValue : Z;
  rt_ageActivity : Z
}.

(** struct group_member and struct group *)
Record group_member := Member {
  gm_ip_addr : Z;          (** host order *)
  gm_a0 : Z;
  gm_port_num : Z;         (** char, unsigned on the target *)
  gm_has_report : Z;       (** char *)
  gm_sent_report : Z;
  gm_next : ptr
}.
Record group := Group {
  g_a0 : Z; g_a1 : Z; g_a2 : Z; g_a3 : Z;
  g_port_map : Z;
  g_members : ptr;
  g_next : ptr
}.

(** struct mgroup_table_s *)
Record mgroup := MGroup { mg_mac : bytes; mg_portmap : Z }.

(** struct MRouteDesc; [InVif] is not set when there is no upstream interface. *)
Record MRouteDesc := MRoute {
  mr_OriginAdr : Z; mr_McAdr : Z; mr_InVif : option Z; mr_TtlVc : bytes
}.

(** GroupVifDesc: its only owner is the pending timeout. *)
Record GroupVifDesc := GroupVif { gv_group : Z; gv_vifAddr : Z; gv_started : bool }.

(** The functions that are given to the queue of timeouts. *)
Inductive action :=
  | SendGroupSpecificMemberQuery (gvDesc : GroupVifDesc)
  | AgeActiveRoutes
  | SendGeneralMembershipQuery
  | QuerySpecificMembers.

(** What the program hands to the kernel and to the switch. *)
Inductive effect :=
  | AddMRoute (Dp : MRouteDesc)                          (** MRT_ADD_MFC *)
  | DelMRoute (Dp : MRouteDesc)                          (** MRT_DEL_MFC *)
  | JoinMcGroup (ifaddr mcastaddr : Z)                   (** IP_ADD_MEMBERSHIP *)
  | LeaveMcGroup (ifaddr mcastaddr : Z)                  (** IP_DROP_MEMBERSHIP *)
  | AddVIF (vifi threshold rate_limit lcl_addr : Z)      (** MRT_ADD_VIF *)
  | DisableMRouter                                       (** MRT_DONE *)
  | SendPacket (iface : option Z) (loop : bool) (dst : Z) (packet : bytes)
  | ArpPlease (dst : str)                                (** a datagram to port 53 *)
  | RegistMac (mac : bytes) (port vid : Z)               (** mv_salsa2_regist_mac *)
  | WriteRegister (reg value : Z).                       (** mv_salsa2_write_register *)

Record igmpd := Igmpd {
  ifvc : list IfDesc;                    (** IfDescVc up to IfDescEp *)
  upStreamVif : Z;
  commonConfig : Config;
  igmp_proxy_running : bool;
  timeouts : callouts action;
  routes : gmap loc (node RouteTable);
  routing_table : ptr;
  groups : gmap loc group;
  group_members : gmap loc group_member;
  group_list : ptr;
  igmp_router_port : Z;
  mgroup_table : list mgroup;
  recv_buf : bytes;
  send_buf : bytes;
  asked : nat;                           (** questions to the environment so far *)
  effects : list effect;
  ios : sys
}.

(** What the environment answers to the n-th question: whether the WAN port has a
    link (get_wan_link), the contents of /proc/net/arp and /proc/net/ip_mr_cache,
    the port of a hardware address; and the description of the board. *)
Class Multicast := {
  get_wan_link : nat → bool;
  arp_table : nat → option str;
  mr_cache : nat → option str;
  get_bridge_portnum_of_mac : nat → str → Z;
  hw_wan_port : Z;                                       (** hw.board.eport.wan[0] *)
  get_ux_port : Z → Z;
  check_same_network : str → str → str → bool
}.

(** ** Access to the fields *)
Definition set_ifvc (x : list IfDesc) (s : igmpd) : igmpd :=
  Igmpd x (upStreamVif s) (commonConfig s) (igmp_proxy_running s) (timeouts s) (routes s)
    (routing_table s) (groups s) (group_members s) (group_list s) (igmp_router_port s)
    (mgroup_table s) (recv_buf s) (send_buf s) (asked s) (effects s) (ios s).
Definition set_upstream (x : Z) (s : igmpd) : igmpd :=
  Igmpd (ifvc s) x (commonConfig s) (igmp_proxy_running s) (timeouts s) (routes s)
    (routing_table s) (groups s) (group_members s) (group_list s) (igmp_router_port s)
    (mgroup_table s) (recv_buf s) (send_buf s) (asked s) (effects s) (ios s).
Definition set_conf (x : Config) (s : igmpd) : igmpd :=
  Igmpd (ifvc s) (upStreamVif s) x (igmp_proxy_running s) (timeouts s) (routes s)
    (routing_table s) (groups s) (group_members s) (group_list s) (igmp_router_port s)
    (mgroup_table s) (recv_buf s) (send_buf s) (asked s) (effects s) (ios s).
Definition set_running (x : bool) (s : igmpd) : igmpd :=
  Igmpd (ifvc s) (upStreamVif s) (commonConfig s) x (timeouts s) (routes s)
    (routing_table s) (groups s) (group_members s) (group_list s) (igmp_router_port s)
    (mgroup_table s) (recv_buf s) (send_buf s) (asked s) (effects s) (ios s).
Definition set_timeouts (x : callouts action) (s : igmpd) : igmpd :=
  Igmpd (ifvc s) (upStreamVif s) (commonConfig s) (igmp_proxy_running s) x (routes s)
    (routing_table s) (groups s) (group_members s) (group_list s) (igmp_router_port s)
    (mgroup_table s) (recv_buf s) (send_buf s) (asked s) (effects s) (ios s).
Definition set_routes (x : gmap loc (node RouteTable)) (s : igmpd) : igmpd :=
  Igmpd (ifvc s) (upStreamVif s) (commonConfig s) (igmp_proxy_running s) (timeouts s) x
    (routing_table s) (groups s) (group_members s) (group_list s) (igmp_router_port s)
    (mgroup_table s) (recv_buf s) (send_buf s) (asked s) (effects s) (ios s).
Definition set_routing_table (x : ptr) (s : igmpd) : igmpd :=
  Igmpd (ifvc s) (upStreamVif s) (commonConfig s) (igmp_proxy_running s) (timeouts s)
    (routes s) x (groups s) (group_members s) (group_list s) (igmp_router_port s)
    (mgroup_table s) (recv_buf s) (send_buf s) (asked s) (effects s) (ios s).
Definition set_groups (x : gmap loc group) (s : igmpd) : igmpd :=
  Igmpd (ifvc s) (upStreamVif s) (commonConfig s) (igmp_proxy_running s) (timeouts s)
    (routes s) (routing_table s) x (group_members s) (group_list s) (igmp_router_port s)
    (mgroup_table s) (recv_buf s) (send_buf s) (asked s) (effects s) (ios s).
Definition set_group_members (x : gmap loc group_member) (s : igmpd) : igmpd :=
  Igmpd (ifvc s) (upStreamVif s) (commonConfig s) (igmp_proxy_running s) (timeouts s)
    (routes s) (routing_table s) (groups s) x (group_list s) (igmp_router_port s)
    (mgroup_table s) (recv_buf s) (send_buf s) (asked s) (effects s) (ios s).
Definition set_group_list (x : ptr) (s : igmpd) : igmpd :=
  Igmpd (ifvc s) (upStreamVif s) (commonConfig s) (igmp_proxy_running s) (timeouts s)
    (routes s) (routing_table s) (groups s) (group_members s) x (igmp_router_port s)
    (mgroup_table s) (recv_buf s) (send_buf s) (asked s) (effects s) (ios s).
Definition set_router_port (x : Z) (s : igmpd) : igmpd :=
  Igmpd (ifvc s) (upStreamVif s) (commonConfig s) (igmp_proxy_running s) (timeouts s)
    (routes s) (routing_table s) (groups s) (group_members s) (group_list s) x
    (mgroup_table s) (recv_buf s) (send_buf s) (asked s) (effects s) (ios s).
Definition set_mgroup_table (x : list mgroup) (s : igmpd) : igmpd :=
  Igmpd (ifvc s) (upStreamVif s) (commonConfig s) (igmp_proxy_running s) (timeouts s)
    (routes s) (routing_table s) (groups s) (group_members s) (group_list s)
    (igmp_router_port s) x (recv_buf s) (send_buf s) (asked s) (effects s) (ios s).
Definition set_recv_buf (x : bytes) (s : igmpd) : igmpd :=
  Igmpd (ifvc s) (upStreamVif s) (commonConfig s) (igmp_proxy_running s) (timeouts s)
    (routes s) (routing_table s) (groups s) (group_members s) (group_list s)
    (igmp_router_port s) (mgroup_table s) x (send_buf s) (asked s) (effects s) (ios s).
Definition set_send_buf (x : bytes) (s : igmpd) : igmpd :=
  Igmpd (ifvc s) (upStreamVif s) (commonConfig s) (igmp_proxy_running s) (timeouts s)
    (routes s) (routing_table s) (groups s) (group_members s) (group_list s)
    (igmp_router_port s) (mgroup_table s) (recv_buf s) x (asked s) (effects s) (ios s).
Definition set_asked (x : nat) (s : igmpd) : igmpd :=
  Igmpd (ifvc s) (upStreamVif s) (commonConfig s) (igmp_proxy_running s) (timeouts s)
    (routes s) (routing_table s) (groups s) (group_members s) (group_list s)
    (igmp_router_port s) (mgroup_table s) (recv_buf s) (send_buf s) x (effects s) (ios s).
Definition set_effects (x : list effect) (s : igmpd) : igmpd :=
  Igmpd (ifvc s) (upStreamVif s) (commonConfig s) (igmp_proxy_running s) (timeouts s)
    (routes s) (routing_table s) (groups s) (group_members s) (group_list s)
    (igmp_router_port s) (mgroup_table s) (recv_buf s) (send_buf s) (asked s) x (ios s).
Definition set_ios (x : sys) (s : igmpd) : igmpd :=
  Igmpd (ifvc s) (upStreamVif s) (commonConfig s) (igmp_proxy_running s) (timeouts s)
    (routes s) (routing_table s) (groups s) (group_members s) (group_list s)
    (igmp_router_port s) (mgroup_table s) (recv_buf s) (send_buf s) (asked s) (effects s) x.

#[export] Program Instance routes_heap : Heap igmpd (node RouteTable) := {|
  hget := routes; hset := set_routes
|}.
Solve All Obligations with (by intros; try match goal with σ : igmpd |- _ => destruct σ end).
#[export] Program Instance groups_heap : Heap igmpd group := {|
  hget := groups; hset := set_groups
|}.
Solve All Obligations with (by intros; try match goal with σ : igmpd |- _ => destruct σ end).
#[export] Program Instance members_heap : Heap igmpd group_member := {|
  hget := group_members; hset := set_group_members
|}.
Solve All Obligations with (by intros; try match goal with σ : igmpd |- _ => destruct σ end).
#[export] Program Instance igmpd_callouts : Callouts igmpd action := {|
  cget := timeouts; cset := set_timeouts
|}.
Solve All Obligations with (by intros; try match goal with σ : igmpd |- _ => destruct σ end).

(** A call into the library runs on the system part of the state. *)
Definition ilib {A} (m : M sys A) : M igmpd A := λ s,
  match m (ios s) with
  | Ok (a, o) => Ok (a, set_ios o s)
  | Fault e => Fault e
  | NoFuel => NoFuel
  end.

Definition emit (e : effect) : M igmpd unit := modify (λ s, set_effects (effects s ++ [e]) s).

(** The next question to the environment. *)
Definition ask {A} (answer : nat → A) : M igmpd A := λ s,
  Ok (answer (asked s), set_asked (S (asked s)) s).

(** [1 << n] *)
Definition bit (n : Z) : res Z :=
  if (0 <=? n) && (n <? 32) then Ok (2 ^ n) else Fault BadShift.
Definition BIT_SET (X n : Z) : res Z := b ← bit n; mret (Z.lor X b).
Definition BIT_TST (X n : Z) : res bool := b ← bit n; mret (negb (Z.land X b =? 0)).

(** ** ifvc.c *)
Definition getIfByName (IfName : str) : M igmpd (option IfDesc) :=
  l ← gets ifvc; mret (find (λ Dp, streq IfName (if_Name Dp)) l).

(** [&IfDescVc[Ix]] is a pointer of the array only up to its end. *)
Definition getIfByIx (Ix : Z) : M igmpd (option IfDesc) :=
  l ← gets ifvc;
  if MAX_IF <? Ix then fail Overflow else mret (l !! Z.to_nat Ix).

(** The walk over the nets of one interface: [inl] is the return, [inr] the
    fallback so far. *)
Fixpoint nets_loop (ipaddr : Z) (Dp : IfDesc) (nets : list (Z * Z)) (wild : option IfDesc)
    : option IfDesc + option IfDesc :=
  match nets with
  | [] => inr wild
  | (subnet_addr, subnet_mask) :: nets' =>
      if Z.land subnet_addr subnet_mask =? 0 then nets_loop ipaddr Dp nets' (Some Dp)
      else if Z.land ipaddr subnet_mask =? subnet_addr then inl (Some Dp)
      else nets_loop ipaddr Dp nets' wild
  end.

Fixpoint address_loop (ipaddr : Z) (l : list IfDesc) (wild : option IfDesc) : option IfDesc :=
  match l with
  | [] => wild
  | Dp :: l' =>
      match nets_loop ipaddr Dp (if_allowednets Dp) wild with
      | inl r => r
      | inr wild => address_loop ipaddr l' wild
      end
  end.

Definition getIfByAddress (ipaddr : Z) : M igmpd (option IfDesc) :=
  l ← gets ifvc; mret (address_loop ipaddr l None).

(** ** lib.c *)

(** The words of the message as the target reads them, and the odd byte. *)
Fixpoint add_words (addr : bytes) (sum : Z) : Z :=
  match addr with
  | a :: b :: rest => add_words rest (i32 (sum + (a + 256 * b)))
  | [a] => i32 (sum + a)
  | [] => sum
  end.

Definition inetChksum (addr : bytes) : Z :=
  let sum := add_words addr 0 in
  let sum := i32 (Z.shiftr sum 16 + Z.land sum 0xffff) in
  let sum := i32 (sum + Z.shiftr sum 16) in
  u16 (Z.lnot sum).

(** ** igmp.c: sending *)

(** curttl, which initIgmp sets *)
Definition curttl : Z := 1.

(** The header that initIgmp leaves in send_buf. *)
Definition ip_header : bytes :=
  [69; 192; 0; 0; 0; 0; 0; 0; MAXTTL; 2; 0; 0; 0; 0; 0; 0; 0; 0; 0; 0].

Definition buildIgmp (src dst type code group datalen : Z) : M igmpd unit :=
  buf ← gets send_buf;
  buf ← of_res (blit buf 12 (le_bytes 4 src) 4);
  buf ← of_res (blit buf 16 (le_bytes 4 dst) 4);
  buf ← of_res (blit buf 2
          (le_bytes 2 (htons (u16 (MIN_IP_HEADER_LEN + IGMP_MINLEN + datalen)))) 2);
  buf ← of_res (wr buf 8 (if IN_MULTICAST (ntohl dst) then curttl else MAXTTL));
  buf ← of_res (wr buf 20 (u8 type));
  buf ← of_res (wr buf 21 (u8 code));
  buf ← of_res (blit buf 24 (le_bytes 4 group) 4);
  buf ← of_res (blit buf 22 [0; 0] 2);
  let igmp := take (Z.to_nat (IGMP_MINLEN + datalen)) (drop 20 buf) in
  buf ← of_res (blit buf 22 (le_bytes 2 (inetChksum igmp)) 2);
  modify (set_send_buf buf).

Definition sendIgmp (src dst type code group datalen : Z) : M igmpd unit :=
  buildIgmp src dst type code group datalen;;
  buf ← gets send_buf;
  let multicast := IN_MULTICAST (ntohl dst) in
  emit (SendPacket
    (if multicast then Some src else None)
    (multicast && (negb (type =? IGMP_DVMRP) || (dst =? allhosts_group)))
    dst (take (Z.to_nat (MIN_IP_HEADER_LEN + IGMP_MINLEN + datalen)) buf)).

(** ** mroute-api.c and mcgroup.c *)
Definition addMRoute (Dp : MRouteDesc) : M igmpd unit := emit (AddMRoute Dp).
Definition delMRoute (Dp : MRouteDesc) : M igmpd unit := emit (DelMRoute Dp).
(** joinleave reads the address of the interface. *)
Definition joinMcGroup (IfDp : option IfDesc) (mcastaddr : Z) : M igmpd unit :=
  match IfDp with
  | Some Dp => emit (JoinMcGroup (if_InAdr Dp) mcastaddr)
  | None => fail NullDeref
  end.
Definition leaveMcGroup (IfDp : option IfDesc) (mcastaddr : Z) : M igmpd unit :=
  match IfDp with
  | Some Dp => emit (LeaveMcGroup (if_InAdr Dp) mcastaddr)
  | None => fail NullDeref
  end.
