(* ===== verification/McSwitch.v ===== *)
(** * igmpproxy/src/mc_switch.c and salsa2.c: snooping for the switch

    The groups that hosts of the local network have joined, with the hosts of
    each group, and the table of multicast groups of the switch.  Both lists are
    linked blocks of the heap; a walk over a list takes the size of the heap as
    fuel.  The description of the board comes from the system information
    (USE_SYSINFO). *)
From S2P Require Import Prelude CLib Heap System Bytes Genconfig SystemApi Callout Igmp.

(** ** salsa2.c *)
Definition MAX_MGROUP : nat := 64.
Definition MGROUP_BASE_INDEX : Z := 256.
Definition SALSA2_MULTICAST_GROUP_REG : Z := 0x0a004000.
Definition SALSA2_MULTICAST_GROUP_STEP : Z := 4.
Definition blank_mgroup : mgroup := MGroup (replicate 6 0) 0.

Fixpoint mgroup_loop (mac : bytes) (t : list mgroup) (i idx : Z) : Z :=
  match t with
  | [] => idx
  | e :: t' =>
      if bool_decide (mg_mac e = mac) then i
      else mgroup_loop mac t' (i + 1) (if (mg_portmap e =? 0) && (idx =? -1) then i else idx)
  end.

Definition get_mgroup_index (mac : bytes) : M igmpd Z :=
  t ← gets mgroup_table; mret (mgroup_loop mac t 0 (-1)).

Definition set_mgroup (midx : Z) (e : mgroup) : M igmpd unit :=
  modify (λ s, set_mgroup_table (<[Z.to_nat midx := e]> (mgroup_table s)) s).

(** The hardware address of an entry. *)
Definition group_mac (entry : group) : bytes := [1; 0; 0x5e; g_a1 entry; g_a2 entry; g_a3 entry].

Definition group_reg (midx : Z) : Z :=
  SALSA2_MULTICAST_GROUP_REG + SALSA2_MULTICAST_GROUP_STEP * midx.

Definition updateMacTable (entry : group) : M igmpd unit :=
  lockfd ← ilib (lock_file (lit "switch"));
  let mac := group_mac entry in
  midx ← get_mgroup_index mac;
  (if negb (g_port_map entry =? 0) then
     rport ← gets igmp_router_port;
     port_map ← of_res (if 0 <=? rport
                        then BIT_SET (u32 (Z.shiftl (g_port_map entry) 1)) rport
                        else Ok (u32 (Z.shiftl (g_port_map entry) 1)));
     when (negb (midx =? -1))
       (set_mgroup midx (MGroup mac port_map);;
        emit (RegistMac mac (MGROUP_BASE_INDEX + midx) 1);;
        emit (WriteRegister (group_reg midx) port_map))
   else
     when (negb (midx =? -1))
       (set_mgroup midx blank_mgroup;;
        emit (RegistMac mac (Z.lor (MGROUP_BASE_INDEX + midx) 0x8000) 1);;
        emit (WriteRegister (group_reg midx) 0)));;
  ilib (unlock_file lockfd).

(** 224.0.0.1 *)
Definition all_hosts_entry (port_map : Z) : group := Group 0 0 0 1 port_map None None.
Definition create_all_hosts_rule : M igmpd unit := updateMacTable (all_hosts_entry 0x1ffffff).
Definition destory_all_hosts_rule : M igmpd unit := updateMacTable (all_hosts_entry 0).

Definition switch_init : M igmpd unit :=
  lockfd ← ilib (lock_file (lit "switch"));
  modify (set_mgroup_table (replicate MAX_MGROUP blank_mgroup));;
  ilib (unlock_file lockfd);;
  create_all_hosts_rule.

Fixpoint fini_loop (t : list mgroup) (midx : Z) : M igmpd unit :=
  match t with
  | [] => mret tt
  | e :: t' =>
      when (negb (mg_portmap e =? 0))
        (emit (RegistMac (mg_mac e) (Z.lor (MGROUP_BASE_INDEX + midx) 0x80) 1);;
         emit (WriteRegister (group_reg midx) 0));;
      fini_loop t' (midx + 1)
  end.

Definition switch_fini : M igmpd unit :=
  lockfd ← ilib (lock_file (lit "switch"));
  t ← gets mgroup_table;
  fini_loop t 0;;
  ilib (unlock_file lockfd);;
  destory_all_hosts_rule.

Section mc_switch.
Context `{!Multicast}.

(** [get_bridge_portnum_of_mac(mac) - 1] *)
Definition get_switch_port_num (mac : str) : M igmpd Z :=
  n ← ask get_bridge_portnum_of_mac;
  mret (i32 (n mac - 1)).

(** ** mc_switch.c: finding the port of a host *)

(** A word that sscanf stores in an array of [cap] bytes; [None] when the text
    has ended. *)
Definition scan_field (cap : nat) (s : str) : res (option str * str) :=
  match scan_word s with
  | None => Ok (None, [])
  | Some (w, rest) => if (length w <? cap)%nat then Ok (Some w, rest) else Fault Overflow
  end.

Fixpoint arp_loop (fuel : nat) (ip : str) (content : str) : res (option str) :=
  match fuel with
  | O => NoFuel
  | S fuel =>
      match fgets 256 content with
      | None => Ok None
      | Some (buf, rest) =>
          '(ip_entry, s1) ← scan_field 32 (cstr buf);
          '(_, s2) ← scan_field 8 s1;
          '(_, s3) ← scan_field 8 s2;
          '(hw_address, _) ← scan_field 32 s3;
          match ip_entry with
          | None => Fault Uninit
          | Some ip_entry =>
              if streq ip ip_entry then
                match hw_address with
                | None => Fault Uninit
                | Some hw =>
                    Ok (if streq (lit "00:00:00:00:00:00") hw then None else Some hw)
                end
              else arp_loop fuel ip rest
          end
      end
  end.

(** [None] is -1. *)
Definition arpLookUp (ip : str) : M igmpd (option str) :=
  fp ← ask arp_table;
  match fp with
  | None => mret None
  | Some content => of_res (arp_loop (S (length content)) ip content)
  end.

Definition strip_mac (mac : str) : str := filter (λ c, ¬ (c = ":"%char)) mac.

Definition portLookUpByMac (mac : str) : M igmpd Z := get_switch_port_num mac.

Definition portLookUpByIP (ip : str) : M igmpd Z :=
  mac ← arpLookUp ip;
  match mac with
  | Some mac => portLookUpByMac (strip_mac mac)
  | None =>
      emit (ArpPlease ip);;
      mac ← arpLookUp ip;
      match mac with
      | Some mac => portLookUpByMac (strip_mac mac)
      | None => mret (-1)
      end
  end.

(** ** mc_switch.c: the groups *)
Definition load_group (p : ptr) : M igmpd group := load p.
Definition load_member (p : ptr) : M igmpd group_member := load p.
Definition update_group (p : ptr) (f : group → group) : M igmpd unit := update p f.
Definition update_member (p : ptr) (f : group_member → group_member) : M igmpd unit := update p f.
Definition free_group (p : ptr) : M igmpd unit := free (V := group) p.
Definition free_member (p : ptr) : M igmpd unit := free (V := group_member) p.

Definition group_fuel : M igmpd nat := gets (λ s, S (size (groups s))).
Definition member_fuel : M igmpd nat := gets (λ s, S (size (group_members s))).

Definition with_port_map (m : Z) (g : group) : group :=
  Group (g_a0 g) (g_a1 g) (g_a2 g) (g_a3 g) m (g_members g) (g_next g).
Definition with_members (p : ptr) (g : group) : group :=
  Group (g_a0 g) (g_a1 g) (g_a2 g) (g_a3 g) (g_port_map g) p (g_next g).
Definition with_next (p : ptr) (g : group) : group :=
  Group (g_a0 g) (g_a1 g) (g_a2 g) (g_a3 g) (g_port_map g) (g_members g) p.
Definition with_port (n : Z) (m : group_member) : group_member :=
  Member (gm_ip_addr m) (gm_a0 m) n (gm_has_report m) (gm_sent_report m) (gm_next m).
Definition with_report (has sent : Z) (m : group_member) : group_member :=
  Member (gm_ip_addr m) (gm_a0 m) (gm_port_num m) has sent (gm_next m).
Definition with_member_next (p : ptr) (m : group_member) : group_member :=
  Member (gm_ip_addr m) (gm_a0 m) (gm_port_num m) (gm_has_report m) (gm_sent_report m) p.

(** The parts of a group address in host order. *)
Definition IP_GET_LOST_MAPPING (mip : Z) : Z := Z.shiftr (Z.land mip 0x0f800000) 23.
Definition addr_a1 (ip : Z) : Z := Z.shiftr (Z.land ip 0x007f0000) 16.
Definition addr_a2 (ip : Z) : Z := Z.shiftr (Z.land ip 0x0000ff00) 8.
Definition addr_a3 (ip : Z) : Z := Z.land ip 0x000000ff.
Definition IP_MULTICAST_A0 (a0 : Z) : Z := Z.lor (Z.shiftr a0 1) 0xe0.
Definition IP_MULTICAST_A1 (a0 a1 : Z) : Z := Z.lor (Z.shiftl (Z.land a0 1) 7) a1.

(** The group address, in network order, of the parts. *)
Definition craft_mip (a0 a1 a2 a3 : Z) : Z :=
  Z.lor (Z.lor (Z.lor (IP_MULTICAST_A0 a0) (Z.shiftl (IP_MULTICAST_A1 a0 a1) 8))
               (Z.shiftl a2 16)) (Z.shiftl a3 24).

Fixpoint find_entry_loop (fuel : nat) (ua1 ua2 ua3 : Z) (pos : ptr) : M igmpd ptr :=
  match fuel with
  | O => nofuel
  | S fuel =>
      match pos with
      | None => mret None
      | Some _ =>
          g ← load_group pos;
          if (g_a1 g =? ua1) && (g_a2 g =? ua2) && (g_a3 g =? ua3) then mret pos
          else find_entry_loop fuel ua1 ua2 ua3 (g_next g)
      end
  end.

Definition find_entry (ip_addr : Z) : M igmpd ptr :=
  fuel ← group_fuel;
  pos ← gets group_list;
  find_entry_loop fuel (addr_a1 ip_addr) (addr_a2 ip_addr) (addr_a3 ip_addr) pos.

Definition build_entry (m_ip_addr : Z) : M igmpd ptr :=
  let a1 := addr_a1 m_ip_addr in
  let a2 := addr_a2 m_ip_addr in
  let a3 := addr_a3 m_ip_addr in
  if (a1 =? 0) && (a2 =? 0) && (a3 =? 1) then mret None
  else
    l ← malloc (Group (IP_GET_LOST_MAPPING m_ip_addr) a1 a2 a3 0 None None);
    mret (Some l).

Fixpoint lookup_member_loop (fuel : nat) (a0 u_ip_addr : Z) (pos : ptr) : M igmpd ptr :=
  match fuel with
  | O => nofuel
  | S fuel =>
      match pos with
      | None => mret None
      | Some _ =>
          m ← load_member pos;
          if (gm_ip_addr m =? u_ip_addr) && (gm_a0 m =? a0) then mret pos
          else lookup_member_loop fuel a0 u_ip_addr (gm_next m)
      end
  end.

Definition lookup_member (entry : ptr) (m_ip_addr u_ip_addr : Z) : M igmpd ptr :=
  e ← load_group entry;
  fuel ← member_fuel;
  lookup_member_loop fuel (IP_GET_LOST_MAPPING m_ip_addr) u_ip_addr (g_members e).

Definition port_of (u_ip_addr : Z) : M igmpd Z :=
  n ← portLookUpByIP (inet_ntoa (htonl u_ip_addr)); mret (u8 n).

Definition insert_member (entry : ptr) (m_ip_addr u_ip_addr : Z) : M igmpd ptr :=
  e ← load_group entry;
  member ← (match g_members e with
            | None => mret None
            | Some _ => lookup_member entry m_ip_addr u_ip_addr
            end);
  match member with
  | Some _ =>
      port_num ← port_of u_ip_addr;
      m ← load_member member;
      when (negb (port_num =? gm_port_num m)) (update_member member (with_port port_num));;
      update_member member (with_report 10 0);;
      mret None
  | None =>
      port_num ← port_of u_ip_addr;
      l ← malloc (Member u_ip_addr (IP_GET_LOST_MAPPING m_ip_addr) port_num 10 0 (g_members e));
      update_group entry (with_members (Some l));;
      mret (Some l)
  end.

(** The loop of update_group_port_map; [port_num == (char)-1] opens all ports of
    the local network. *)
Fixpoint port_map_loop (fuel : nat) (pos : ptr) (new_portmap : Z) : M igmpd Z :=
  match fuel with
  | O => nofuel
  | S fuel =>
      match pos with
      | None => mret new_portmap
      | Some _ =>
          m ← load_member pos;
          if gm_port_num m =? 255 then
            b ← of_res (bit hw_wan_port);
            mret (Z.land 0x5f (Z.lnot b))
          else
            b ← of_res (bit (gm_port_num m));
            port_map_loop fuel (gm_next m) (Z.lor new_portmap b)
      end
  end.

Definition update_group_port_map (entry : ptr) : M igmpd unit :=
  e ← load_group entry;
  fuel ← member_fuel;
  new_portmap ← port_map_loop fuel (g_members e) 0;
  when (negb (g_port_map e =? new_portmap))
    (update_group entry (with_port_map new_portmap);;
     e ← load_group entry;
     updateMacTable e).

(** ** mc_switch.c: the file of groups *)
Definition MCGROUP_FILE : str := lit "/var/run/mcgroup".

Definition hex_digit (z : Z) : ascii :=
  ascii_of_N (Z.to_N (if z <? 10 then 48 + z else 87 + z)).
(** %02x of a byte *)
Definition fmt_02x (z : Z) : str := [hex_digit (z / 16); hex_digit (z mod 16)].

(** The numbers of the bits that are set, each followed by a blank. *)
Definition ports_text (port_map : Z) : str :=
  concat ((λ i, if Z.testbit port_map (Z.of_nat i) then fmt_d (Z.of_nat i) ++ lit " " else [])
          <$> seq 0 32).

Definition group_line (pos : group) (member : group_member) : str :=
  lit "G " ++ fmt_d (IP_MULTICAST_A0 (gm_a0 member)) ++ lit "."
  ++ fmt_d (IP_MULTICAST_A1 (gm_a0 member) (g_a1 pos)) ++ lit "." ++ fmt_d (g_a2 pos) ++ lit "."
  ++ fmt_d (g_a3 pos) ++ lit " "
  ++ lit "01:00:5e:" ++ fmt_02x (g_a1 pos) ++ lit ":" ++ fmt_02x (g_a2 pos) ++ lit ":"
  ++ fmt_02x (g_a3 pos) ++ lit " "
  ++ ports_text (g_port_map pos) ++ [LF].

Definition member_line (member : group_member) : str :=
  lit "M " ++ inet_ntoa (htonl (gm_ip_addr member)) ++ lit " "
  ++ fmt_d (get_ux_port (gm_port_num member)) ++ lit " "
  ++ (if gm_has_report member =? 0 then lit "not-reported" else lit "reported") ++ [LF].

Fixpoint write_members (fuel : nat) (member : ptr) : M igmpd unit :=
  match fuel with
  | O => nofuel
  | S fuel =>
      match member with
      | None => mret tt
      | Some _ =>
          m ← load_member member;
          ilib (fprintf MCGROUP_FILE (member_line m));;
          write_members fuel (gm_next m)
      end
  end.

Fixpoint write_groups (fuel : nat) (pos : ptr) : M igmpd unit :=
  match fuel with
  | O => nofuel
  | S fuel =>
      match pos with
      | None => mret tt
      | Some _ =>
          g ← load_group pos;
          (match g_members g with
           | None => mret tt
           | Some _ =>
               m ← load_member (g_members g);
               ilib (fprintf MCGROUP_FILE (group_line g m))
           end);;
          mfuel ← member_fuel;
          write_members mfuel (g_members g);;
          write_groups fuel (g_next g)
      end
  end.

Definition write_entry : M igmpd unit :=
  fd ← ilib (lock_file MCGROUP_FILE);
  fp ← ilib (fopen_w MCGROUP_FILE);
  if negb fp then ilib (unlock_file fd)
  else
    fuel ← group_fuel;
    pos ← gets group_list;
    write_groups fuel pos;;
    ilib (unlock_file fd).

(** ** mc_switch.c: joining and leaving *)
Definition insert_multicast_ip (m_ip_addr u_ip_addr : Z) : M igmpd unit :=
  found ← find_entry m_ip_addr;
  entry ← (match found with
           | Some _ => mret found
           | None =>
               built ← build_entry m_ip_addr;
               match built with
               | None => mret None
               | Some _ =>
                   hd ← gets group_list;
                   when (bool_decide (hd ≠ None)) (update_group built (with_next hd));;
                   modify (set_group_list built);;
                   mret built
               end
           end);
  match entry with
  | None => mret tt
  | Some _ =>
      insert_member entry m_ip_addr u_ip_addr;;
      update_group_port_map entry;;
      write_entry
  end.

(** The loop of remove_member: unlinks the node behind [pos], returns it. *)
Fixpoint remove_loop (fuel : nat) (u_ip_addr a0 : Z) (pos : ptr) : M igmpd ptr :=
  match fuel with
  | O => nofuel
  | S fuel =>
      m ← load_member pos;
      match gm_next m with
      | None => mret None
      | Some del =>
          n ← load_member (Some del);
          if (gm_ip_addr n =? u_ip_addr) && (gm_a0 n =? a0) then
            update_member pos (with_member_next (gm_next n));;
            mret (Some del)
          else remove_loop fuel u_ip_addr a0 (Some del)
      end
  end.

Definition remove_member (m_ip_addr u_ip_addr : Z) (write_option : bool) : M igmpd unit :=
  entry ← find_entry m_ip_addr;
  match entry with
  | None => mret tt
  | Some _ =>
      e ← load_group entry;
      match g_members e with
      | None => mret tt
      | Some _ =>
          let a0 := IP_GET_LOST_MAPPING m_ip_addr in
          m ← load_member (g_members e);
          del ← (if (gm_ip_addr m =? u_ip_addr) && (gm_a0 m =? a0) then
                   update_group entry (with_members (gm_next m));;
                   mret (g_members e)
                 else
                   fuel ← member_fuel;
                   remove_loop fuel u_ip_addr a0 (g_members e));
          (match del with Some _ => free_member del | None => mret tt end);;
          update_group_port_map entry;;
          when write_option write_entry
      end
  end.

Definition all_member_leaved (m_ip_addr : Z) : M igmpd bool :=
  entry ← find_entry m_ip_addr;
  match entry with
  | None => mret true
  | Some _ => e ← load_group entry; mret (g_port_map e =? 0)
  end.

(** request.c; the loop over the interfaces *)
Definition query_wanted (dst : Z) (Dp : IfDesc) : bool :=
  negb (if_InAdr Dp =? 0) && (Z.land (if_Flags Dp) IFF_LOOPBACK =? 0) &&
  (if_state Dp =? IF_STATE_DOWNSTREAM) &&
  match if_allowednets Dp with
  | (subnet_addr, subnet_mask) :: _ =>
      negb (subnet_mask =? 0) && negb (subnet_addr =? 0) && (Z.land dst subnet_mask =? subnet_addr)
  | [] => false
  end.

Fixpoint specific_loop (dst group : Z) (l : list IfDesc) : M igmpd unit :=
  match l with
  | [] => mret tt
  | Dp :: l' =>
      when (query_wanted dst Dp)
        (sendIgmp (if_InAdr Dp) dst IGMP_MEMBERSHIP_QUERY
           (INTERVAL_UNICAST_QUERY_RESPONSE * IGMP_TIMER_SCALE) group 0);;
      specific_loop dst group l'
  end.

Definition sendSpecificMembershipQueryToSpecificMember (dst group : Z) : M igmpd unit :=
  link ← ask get_wan_link;
  if negb link then mret tt
  else l ← gets ifvc; specific_loop dst group l.

Fixpoint query_members (fuel : nat) (pos : group) (member : ptr) : M igmpd unit :=
  match fuel with
  | O => nofuel
  | S fuel =>
      match member with
      | None => mret tt
      | Some _ =>
          update_member member (λ m, with_report (u8 (gm_has_report m - 1)) (gm_sent_report m) m);;
          m ← load_member member;
          when (gm_has_report m <=? 5)
            (sendSpecificMembershipQueryToSpecificMember (htonl (gm_ip_addr m))
               (craft_mip (gm_a0 m) (g_a1 pos) (g_a2 pos) (g_a3 pos)));;
          query_members fuel pos (gm_next m)
      end
  end.

Fixpoint query_groups (fuel : nat) (pos : ptr) : M igmpd unit :=
  match fuel with
  | O => nofuel
  | S fuel =>
      match pos with
      | None => mret tt
      | Some _ =>
          g ← load_group pos;
          mfuel ← member_fuel;
          query_members mfuel g (g_members g);;
          query_groups fuel (g_next g)
      end
  end.

Definition query_specific_members : M igmpd unit :=
  fuel ← group_fuel;
  pos ← gets group_list;
  query_groups fuel pos.

(** The walk over the members of a group that the caller asks about: [member]
    is the next one to look at. *)
Fixpoint sweap_members (fuel : nat) (mip : Z) (member : ptr) : M igmpd unit :=
  match fuel with
  | O => nofuel
  | S fuel =>
      match member with
      | None => mret tt
      | Some _ =>
          m ← load_member member;
          next_backup ←
            (if gm_has_report m =? 0 then
               let next_backup := gm_next m in
               remove_member (ntohl mip) (gm_ip_addr m) false;;
               mret next_backup
             else mret None);
          next ← (match next_backup with
                  | Some _ => mret next_backup
                  | None => m ← load_member member; mret (gm_next m)
                  end);
          sweap_members fuel mip next
      end
  end.

Fixpoint sweap_groups (fuel : nat) (mc_ipaddr : Z) (pos : ptr) : M igmpd bool :=
  match fuel with
  | O => nofuel
  | S fuel =>
      match pos with
      | None => mret false
      | Some _ =>
          g ← load_group pos;
          let mip := craft_mip (g_a0 g) (g_a1 g) (g_a2 g) (g_a3 g) in
          mfuel ← member_fuel;
          when (mc_ipaddr =? mip) (sweap_members mfuel mip (g_members g));;
          g ← load_group pos;
          if (mc_ipaddr =? mip) && bool_decide (g_members g = None) then mret true
          else sweap_groups fuel mc_ipaddr (g_next g)
      end
  end.

Definition sweap_no_report_members (mc_ipaddr : Z) : M igmpd bool :=
  fuel ← group_fuel;
  pos ← gets group_list;
  sweap ← sweap_groups fuel mc_ipaddr pos;
  write_entry;;
  mret sweap.

Fixpoint free_members (fuel : nat) (pos : ptr) : M igmpd unit :=
  match fuel with
  | O => nofuel
  | S fuel =>
      match pos with
      | None => mret tt
      | Some _ => m ← load_member pos; free_member pos;; free_members fuel (gm_next m)
      end
  end.

Definition remove_all_members (entry : ptr) : M igmpd unit :=
  e ← load_group entry;
  fuel ← member_fuel;
  free_members fuel (g_members e);;
  update_group entry (with_members None).

(** The loop of remove_multicast_ip: unlinks [entry], which is behind [group_pos];
    the result is found_flag. *)
Fixpoint unlink_group (fuel : nat) (entry group_pos : ptr) : M igmpd bool :=
  match fuel with
  | O => nofuel
  | S fuel =>
      g ← load_group group_pos;
      match g_next g with
      | None => mret false
      | Some _ =>
          if bool_decide (g_next g = entry) then
            e ← load_group entry;
            update_group group_pos (with_next (g_next e));;
            mret true
          else unlink_group fuel entry (g_next g)
      end
  end.

Definition remove_multicast_ip (m_ip_addr : Z) : M igmpd unit :=
  group_pos ← gets group_list;
  entry ← find_entry m_ip_addr;
  match entry with
  | None => mret tt
  | Some _ =>
      found_flag ←
        (if bool_decide (group_pos = entry) then
           e ← load_group entry;
           modify (set_group_list (g_next e));;
           mret true
         else
           fuel ← group_fuel;
           unlink_group fuel entry group_pos);
      if negb found_flag then mret tt
      else
        update_group entry (with_port_map 0);;
        e ← load_group entry;
        updateMacTable e;;
        remove_all_members entry;;
        free_group entry;;
        write_entry
  end.

Fixpoint remove_groups (fuel : nat) (pos : ptr) : M igmpd unit :=
  match fuel with
  | O => nofuel
  | S fuel =>
      match pos with
      | None => mret tt
      | Some _ =>
          g ← load_group pos;
          update_group pos (with_port_map 0);;
          e ← load_group pos;
          updateMacTable e;;
          remove_all_members pos;;
          free_group pos;;
          remove_groups fuel (g_next g)
      end
  end.

Definition remove_all_groups : M igmpd unit :=
  fuel ← group_fuel;
  pos ← gets group_list;
  remove_groups fuel pos;;
  modify (set_group_list None);;
  ilib (unlink MCGROUP_FILE).

(** The loop of update_router_port. *)
Fixpoint refresh_groups (fuel : nat) (pos : ptr) : M igmpd unit :=
  match fuel with
  | O => nofuel
  | S fuel =>
      match pos with
      | None => mret tt
      | Some _ => g ← load_group pos; updateMacTable g;; refresh_groups fuel (g_next g)
      end
  end.

Definition update_router_port (src : Z) : M igmpd unit :=
  pos ← gets group_list;
  temp_rport ← portLookUpByIP (inet_ntoa src);
  rport ← gets igmp_router_port;
  if temp_rport =? rport then mret tt
  else
    modify (set_router_port temp_rport);;
    when (0 <=? temp_rport)
      (fuel ← group_fuel; refresh_groups fuel pos).
End mc_switch.
