(* ===== verification/RouteTable.v ===== *)
(** * igmpproxy/src/rttable.c: the table of multicast routes

    The table is a doubly linked list of blocks of the heap, as in the source: a
    pointer to a route that was freed is dangling.  IGMP_PROXY_REALTEK_METHOD and
    USE_EFM_PATCH are defined. *)
From S2P Require Import Prelude CLib Heap System Bytes Genconfig SystemApi Callout Igmp McSwitch.

Definition load_route (p : ptr) : M igmpd (node RouteTable) := load p.
Definition update_route (p : ptr) (f : node RouteTable → node RouteTable) : M igmpd unit :=
  update p f.
Definition free_route (p : ptr) : M igmpd unit := free (V := node RouteTable) p.
Definition on_route (f : RouteTable → RouteTable) (n : node RouteTable) : node RouteTable :=
  set_val (f (nval n)) n.

Definition with_origin (z : Z) (r : RouteTable) : RouteTable :=
  Route (rt_group r) z (rt_vifBits r) (rt_upstrState r) (rt_ageVifBits r) (rt_ageValue r)
    (rt_ageActivity r).
Definition with_vifBits (z : Z) (r : RouteTable) : RouteTable :=
  Route (rt_group r) (rt_originAddr r) z (rt_upstrState r) (rt_ageVifBits r) (rt_ageValue r)
    (rt_ageActivity r).
Definition with_state (z : Z) (r : RouteTable) : RouteTable :=
  Route (rt_group r) (rt_originAddr r) (rt_vifBits r) z (rt_ageVifBits r) (rt_ageValue r)
    (rt_ageActivity r).
Definition with_ageVifBits (z : Z) (r : RouteTable) : RouteTable :=
  Route (rt_group r) (rt_originAddr r) (rt_vifBits r) (rt_upstrState r) z (rt_ageValue r)
    (rt_ageActivity r).
Definition with_ageValue (z : Z) (r : RouteTable) : RouteTable :=
  Route (rt_group r) (rt_originAddr r) (rt_vifBits r) (rt_upstrState r) (rt_ageVifBits r) z
    (rt_ageActivity r).
Definition with_ageActivity (z : Z) (r : RouteTable) : RouteTable :=
  Route (rt_group r) (rt_originAddr r) (rt_vifBits r) (rt_upstrState r) (rt_ageVifBits r)
    (rt_ageValue r) z.

Definition route_fuel : M igmpd nat := gets (λ s, S (size (routes s))).

Section route_table.
Context `{!Multicast}.

Fixpoint join_routers (l : list IfDesc) : M igmpd unit :=
  match l with
  | [] => mret tt
  | Dp :: l' =>
      when (negb (if_InAdr Dp =? 0) && (Z.land (if_Flags Dp) IFF_LOOPBACK =? 0)
            && (if_state Dp =? IF_STATE_DOWNSTREAM))
        (joinMcGroup (Some Dp) allrouters_group);;
      join_routers l'
  end.

Definition initRouteTable : M igmpd unit :=
  modify (set_routing_table None);;
  l ← gets ifvc;
  join_routers l.

(** The commands for the filter of forwarded packets. *)
Definition forward_cmd (op : str) (ifname : str) (grp : Z) : str :=
  lit "iptables -t filter " ++ op ++ lit " FORWARD -i " ++ ifname ++ lit " -d "
  ++ inet_ntoa grp ++ lit " -j ACCEPT 2>/dev/null" ++ [LF].

Definition forward_rule (op : str) (upstrIf : option IfDesc) (grp : Z) : M igmpd unit :=
  match upstrIf with
  | None => fail NullDeref
  | Some Dp => buff ← strcpy 200 (forward_cmd op (if_Name Dp) grp); ilib (system buff)
  end.

(** The route with the state that the function gives it. *)
Definition sendJoinLeaveUpstream (route : RouteTable) (join : bool) : M igmpd RouteTable :=
  up ← gets upStreamVif;
  upstrIf ← getIfByIx (u32 up);
  if join then
    if 0 <? rt_vifBits route then
      joinMcGroup upstrIf (rt_group route);;
      forward_rule (lit "-I") upstrIf (rt_group route);;
      mret (with_state ROUTESTATE_JOINED route)
    else mret route
  else
    if negb (rt_upstrState route =? ROUTESTATE_NOTJOINED) then
      leaveMcGroup upstrIf (rt_group route);;
      forward_rule (lit "-D") upstrIf (rt_group route);;
      mret (with_state ROUTESTATE_NOTJOINED route)
    else mret route.

(** The same on a route of the table. *)
Definition join_leave_at (p : ptr) (join : bool) : M igmpd unit :=
  n ← load_route p;
  r ← sendJoinLeaveUpstream (nval n) join;
  update_route p (set_val r).

(** The loop of internUpdateKernelRoute over the interfaces. *)
Fixpoint ttl_loop (vifBits : Z) (l : list IfDesc) (InVif : option Z) (TtlVc : bytes)
    : res (option Z * bytes) :=
  match l with
  | [] => Ok (InVif, TtlVc)
  | Dp :: l' =>
      if if_state Dp =? IF_STATE_UPSTREAM then ttl_loop vifBits l' (Some (if_index Dp)) TtlVc
      else
        b ← BIT_TST vifBits (if_index Dp);
        if b : bool then
          TtlVc ← wr TtlVc (if_index Dp) (if_threshold Dp);
          ttl_loop vifBits l' InVif TtlVc
        else ttl_loop vifBits l' InVif TtlVc
  end.

Definition internUpdateKernelRoute (route : RouteTable) (activate : bool) : M igmpd Z :=
  l ← gets ifvc;
  '(InVif, TtlVc) ← of_res (ttl_loop (rt_vifBits route) l None (replicate 32 0));
  let mrDesc := MRoute (rt_originAddr route) (rt_group route) InVif TtlVc in
  (if activate then addMRoute mrDesc else delMRoute mrDesc);;
  mret 1.

Fixpoint clear_routes (fuel : nat) (croute : ptr) : M igmpd unit :=
  match fuel with
  | O => nofuel
  | S fuel =>
      match croute with
      | None => mret tt
      | Some _ =>
          n ← load_route croute;
          internUpdateKernelRoute (nval n) false;;
          join_leave_at croute false;;
          free_route croute;;
          clear_routes fuel (nnext n)
      end
  end.

Definition clearAllRoutes : M igmpd unit :=
  fuel ← route_fuel;
  croute ← gets routing_table;
  clear_routes fuel croute;;
  modify (set_routing_table None).

Fixpoint findRoute_loop (fuel : nat) (grp : Z) (croute : ptr) : M igmpd ptr :=
  match fuel with
  | O => nofuel
  | S fuel =>
      match croute with
      | None => mret None
      | Some _ =>
          n ← load_route croute;
          if rt_group (nval n) =? grp then mret croute
          else findRoute_loop fuel grp (nnext n)
      end
  end.

Definition findRoute (grp : Z) : M igmpd ptr :=
  fuel ← route_fuel;
  croute ← gets routing_table;
  findRoute_loop fuel grp croute.

(** The last route in front of the first one with a greater group, from
    [croute] on. *)
Fixpoint insert_position (fuel : nat) (grp : Z) (croute : ptr) : M igmpd ptr :=
  match fuel with
  | O => nofuel
  | S fuel =>
      n ← load_route croute;
      match nnext n with
      | None => mret croute
      | Some _ =>
          nx ← load_route (nnext n);
          if grp <? rt_group (nval nx) then mret croute
          else insert_position fuel grp (nnext n)
      end
  end.

Definition link_route (newroute : ptr) (grp : Z) : M igmpd unit :=
  hd ← gets routing_table;
  match hd with
  | None => modify (set_routing_table newroute)
  | Some _ =>
      h ← load_route hd;
      if grp <? rt_group (nval h) then
        update_route newroute (set_next hd);;
        update_route newroute (set_prev None);;
        modify (set_routing_table newroute);;
        update_route hd (set_prev newroute)
      else
        fuel ← route_fuel;
        croute ← insert_position fuel grp hd;
        c ← load_route croute;
        update_route newroute (set_next (nnext c));;
        update_route newroute (set_prev croute);;
        (match nnext c with
         | Some _ => update_route (nnext c) (set_prev newroute)
         | None => mret tt
         end);;
        update_route croute (set_next newroute)
  end.

(** [BIT_SET(croute->vifBits, ifx); BIT_SET(croute->ageVifBits, ifx);] *)
Definition set_listener (p : ptr) (ifx : Z) : M igmpd unit :=
  n ← load_route p;
  v ← of_res (BIT_SET (rt_vifBits (nval n)) ifx);
  a ← of_res (BIT_SET (rt_ageVifBits (nval n)) ifx);
  update_route p (on_route (λ r, with_ageVifBits a (with_vifBits v r))).

Definition reload_kernel (p : ptr) : M igmpd unit :=
  n ← load_route p; internUpdateKernelRoute (nval n) true;; mret tt.

Definition new_route (grp ifx : Z) : M igmpd ptr :=
  conf ← gets commonConfig;
  vifBits ← of_res (if 0 <=? ifx then BIT_SET 0 ifx else Ok 0);
  l ← malloc (Node (Route grp 0 vifBits ROUTESTATE_NOTJOINED 0
                      (i32 (robustnessValue conf)) 0) None None);
  link_route (Some l) grp;;
  when (0 <=? ifx) (set_listener (Some l) ifx;; reload_kernel (Some l));;
  mret (Some l).

Definition update_listener (p : ptr) (ifx : Z) : M igmpd unit :=
  set_listener p ifx;;
  n ← load_route p;
  when (negb (rt_originAddr (nval n) =? 0)) (reload_kernel p).

Definition insertRoute (grp ifx : Z) : M igmpd Z :=
  if negb (IN_MULTICAST (ntohl grp)) then mret 0
  else if MAX_MC_VIFS <=? ifx then mret 0
  else
    found ← findRoute grp;
    croute ← (match found with
              | None => new_route grp ifx
              | Some _ => when (0 <=? ifx) (update_listener found ifx);; mret found
              end);
    n ← load_route croute;
    when (negb (rt_upstrState (nval n) =? ROUTESTATE_JOINED)) (join_leave_at croute true);;
    mret 1.

Definition activateRoute (grp originAddr : Z) : M igmpd Z :=
  found ← findRoute grp;
  croute ← (match found with
            | None => insertRoute grp (-1);; findRoute grp
            | Some _ => mret found
            end);
  match croute with
  | None => mret 0
  | Some _ =>
      when (0 <? originAddr) (update_route croute (on_route (with_origin originAddr)));;
      n ← load_route croute;
      if 0 <? rt_vifBits (nval n) then internUpdateKernelRoute (nval n) true else mret 0
  end.

(** The lines of /proc/net/ip_mr_cache behind the first one: the routes of the
    kernel that are not in the table are removed.  [vifBits] is the field of the
    one local variable that is used for all of them. *)
Fixpoint gc_loop (fuel : nat) (content : str) (vifBits : Z) : M igmpd unit :=
  match fuel with
  | O => nofuel
  | S fuel =>
      match fgets 128 content with
      | None => mret tt
      | Some (buffer, rest) =>
          let delims := lit " " ++ [ascii_of_nat 9; LF] in
          match strtok delims (cstr buffer) with
          | (None, _) => gc_loop fuel rest vifBits
          | (Some w, saved) =>
              grp ← ilib (string_to_hexa w);
              if grp =? UPNP_MCAST_ADDR then gc_loop fuel rest vifBits
              else
                found ← findRoute grp;
                match found with
                | Some _ => gc_loop fuel rest vifBits
                | None =>
                    match strtok delims saved with
                    | (None, _) => gc_loop fuel rest vifBits
                    | (Some o, _) =>
                        origin ← ilib (string_to_hexa o);
                        '(_, wanif) ← ilib (get_wan_ifname WAN1_NAME 32);
                        Dp ← getIfByName wanif;
                        let bits := match Dp with Some Dp => if_index Dp | None => vifBits end in
                        let croute := Route grp origin bits ROUTESTATE_JOINED 0 0 0 in
                        when (bool_decide (is_Some Dp))
                          (internUpdateKernelRoute croute false;; mret tt);;
                        sendJoinLeaveUpstream croute false;;
                        gc_loop fuel rest bits
                    end
                end
          end
      end
  end.

Definition ipmrcache_gc : M igmpd unit :=
  fp ← ask mr_cache;
  match fp with
  | None => mret tt
  | Some content =>
      let rest := match fgets 128 content with Some (_, rest) => rest | None => [] end in
      gc_loop (S (length rest)) rest 0
  end.

(** The pointers of the neighbours of a route that is removed. *)
Definition unlink_route (croute : ptr) : M igmpd unit :=
  n ← load_route croute;
  (match nprev n with
   | None =>
       (match nnext n with
        | Some _ => update_route (nnext n) (set_prev None)
        | None => mret tt
        end);;
       modify (set_routing_table (nnext n))
   | Some _ =>
       update_route (nprev n) (set_next (nnext n));;
       (match nnext n with
        | Some _ => update_route (nnext n) (set_prev (nprev n))
        | None => mret tt
        end)
   end).

Definition removeRoute (croute : ptr) : M igmpd Z :=
  conf ← gets commonConfig;
  match croute with
  | None => mret 0
  | Some _ =>
      n ← load_route croute;
      internUpdateKernelRoute (nval n) false;;
      when ((rt_upstrState (nval n) =? ROUTESTATE_JOINED)
            || ((rt_upstrState (nval n) =? ROUTESTATE_CHECK_LAST_MEMBER)
                && negb (fastUpstreamLeave conf)))
        (join_leave_at croute false);;
      unlink_route croute;;
      free_route croute;;
      mret 1
  end.

(** The counters of a route in a round of ageing. *)
Definition age_activity (robustness : Z) (r : RouteTable) : RouteTable :=
  let r := with_ageValue (i32 (rt_ageValue r - 1)) r in
  if (0 <? rt_ageVifBits r) && (rt_ageActivity r =? 0) then
    if rt_vifBits r =? rt_ageVifBits r then with_ageValue (i32 robustness) r
    else with_vifBits (rt_ageVifBits r) (with_ageActivity (i32 (rt_ageActivity r + 1)) r)
  else if 0 <? rt_ageActivity r then
    if negb (rt_vifBits r =? rt_ageVifBits r) then
      with_ageActivity (i32 (rt_ageActivity r + 1))
        (with_vifBits (Z.lor (rt_vifBits r) (rt_ageVifBits r)) r)
    else r
  else r.

(** The part of internAgeRoute for a counter that has reached zero. *)
Definition age_expired (croute : ptr) : M igmpd unit :=
  n ← load_route croute;
  if 0 <? rt_ageActivity (nval n) then
    internUpdateKernelRoute (nval n) true;;
    update_route croute
      (on_route (λ r, with_ageActivity 0 (with_ageValue (rt_ageActivity r) r)))
  else
    remove_multicast_ip (ntohl (rt_group (nval n)));;
    removeRoute croute;;
    mret tt.

Definition internAgeRoute (croute : ptr) : M igmpd Z :=
  conf ← gets commonConfig;
  update_route croute (on_route (age_activity (robustnessValue conf)));;
  n ← load_route croute;
  result ← (if rt_ageValue (nval n) =? 0 then age_expired croute;; mret 1 else mret 0);
  update_route croute (on_route (with_ageVifBits 0));;
  mret result.

(** The two loops of ageActiveRoutes. *)
Fixpoint sweap_routes (fuel : nat) (croute : ptr) : M igmpd unit :=
  match fuel with
  | O => nofuel
  | S fuel =>
      match croute with
      | None => mret tt
      | Some _ =>
          n ← load_route croute;
          sweap ← sweap_no_report_members (rt_group (nval n));
          when sweap (removeRoute croute;; mret tt);;
          sweap_routes fuel (nnext n)
      end
  end.

Fixpoint age_routes (fuel : nat) (croute : ptr) : M igmpd unit :=
  match fuel with
  | O => nofuel
  | S fuel =>
      match croute with
      | None => mret tt
      | Some _ =>
          n ← load_route croute;
          when (negb (rt_upstrState (nval n) =? ROUTESTATE_CHECK_LAST_MEMBER))
            (internAgeRoute croute;; mret tt);;
          age_routes fuel (nnext n)
      end
  end.

Definition ageActiveRoutes : M igmpd unit :=
  fuel ← route_fuel;
  croute ← gets routing_table;
  sweap_routes fuel croute;;
  fuel ← route_fuel;
  croute ← gets routing_table;
  age_routes fuel croute;;
  ipmrcache_gc.

Definition setRouteLastMemberMode (grp : Z) : M igmpd unit :=
  conf ← gets commonConfig;
  croute ← findRoute grp;
  match croute with
  | None => mret tt
  | Some _ =>
      n ← load_route croute;
      when ((rt_upstrState (nval n) =? ROUTESTATE_JOINED) && fastUpstreamLeave conf)
        (all ← all_member_leaved (ntohl grp);
         when all (join_leave_at croute false));;
      update_route croute
        (on_route (λ r, with_ageValue (i32 (lastMemberQueryCount conf))
                          (with_state ROUTESTATE_CHECK_LAST_MEMBER r)))
  end.

Definition lastMemberGroupAge (grp : Z) : M igmpd bool :=
  croute ← findRoute grp;
  match croute with
  | None => mret false
  | Some _ =>
      n ← load_route croute;
      if rt_upstrState (nval n) =? ROUTESTATE_CHECK_LAST_MEMBER
      then result ← internAgeRoute croute; mret (result =? 0)
      else mret false
  end.
End route_table.
