(* ===== verification/IgmpProxy.v ===== *)
(** * igmpproxy/src: requests, messages and the main loop

    request.c and the receiving half of igmp.c, and igmpProxyRun of igmpproxy.c.
    What a pass of the main loop gets from select(), from the socket and from the
    clock is its argument. *)
From S2P Require Import Prelude CLib Heap System Bytes Genconfig SystemApi Callout Igmp McSwitch.
From S2P Require Import RouteTable.

Section proxy.
Context `{!Multicast, !Interfaces}.

(** ** request.c *)
Definition acceptGroupReport (src grp : Z) : M igmpd unit :=
  if negb (IN_MULTICAST (ntohl grp)) then mret tt
  else
    sourceVif ← getIfByAddress src;
    match sourceVif with
    | None => mret tt
    | Some sourceVif =>
        if if_InAdr sourceVif =? src then mret tt
        else
          when (if_state sourceVif =? IF_STATE_DOWNSTREAM)
            (insert_multicast_ip (ntohl grp) (ntohl src);;
             link ← ask get_wan_link;
             when link (insertRoute grp (i32 (if_index sourceVif));; mret tt))
    end.

Definition sendGroupSpecificMemberQuery (gvDesc : GroupVifDesc) : M igmpd unit :=
  conf ← gets commonConfig;
  link ← ask get_wan_link;
  if negb link then mret tt
  else
    running ← gets igmp_proxy_running;
    if negb running then mret tt
    else
      go ← (if gv_started gvDesc then lastMemberGroupAge (gv_group gvDesc) else mret true);
      if negb go then mret tt
      else
        let gvDesc := GroupVif (gv_group gvDesc) (gv_vifAddr gvDesc) true in
        sendIgmp (gv_vifAddr gvDesc) (gv_group gvDesc) IGMP_MEMBERSHIP_QUERY
          (i32 (u32 (lastMemberQueryInterval conf * IGMP_TIMER_SCALE))) (gv_group gvDesc) 0;;
        timer_setTimer (i32 (lastMemberQueryInterval conf)) (SendGroupSpecificMemberQuery gvDesc);;
        mret tt.

Definition acceptLeaveMessage (src grp : Z) : M igmpd unit :=
  if negb (IN_MULTICAST (ntohl grp)) then mret tt
  else
    remove_member (ntohl grp) (ntohl src) true;;
    sourceVif ← getIfByAddress src;
    match sourceVif with
    | None => mret tt
    | Some sourceVif =>
        when (if_state sourceVif =? IF_STATE_DOWNSTREAM)
          (setRouteLastMemberMode grp;;
           sendGroupSpecificMemberQuery (GroupVif grp (if_InAdr sourceVif) false))
    end.

Fixpoint general_loop (response : Z) (l : list IfDesc) : M igmpd unit :=
  match l with
  | [] => mret tt
  | Dp :: l' =>
      when (negb (if_InAdr Dp =? 0) && (Z.land (if_Flags Dp) IFF_LOOPBACK =? 0)
            && (if_state Dp =? IF_STATE_DOWNSTREAM))
        (sendIgmp (if_InAdr Dp) allhosts_group IGMP_MEMBERSHIP_QUERY
           (i32 (u32 (response * IGMP_TIMER_SCALE))) 0 0);;
      general_loop response l'
  end.

Definition with_startup (n : Z) (c : Config) : Config :=
  Conf (robustnessValue c) (queryInterval c) (queryResponseInterval c) (startupQueryInterval c)
    n (lastMemberQueryInterval c) (lastMemberQueryCount c) (fastUpstreamLeave c).

Definition sendGeneralMembershipQuery : M igmpd unit :=
  conf ← gets commonConfig;
  link ← ask get_wan_link;
  if negb link then mret tt
  else
    running ← gets igmp_proxy_running;
    when running (l ← gets ifvc; general_loop (queryResponseInterval conf) l);;
    timer_setTimer (i32 (u32 (queryResponseInterval conf * 5))) AgeActiveRoutes;;
    (if 0 <? startupQueryCount conf then
       timer_setTimer (i32 (startupQueryInterval conf)) SendGeneralMembershipQuery;;
       modify (set_conf (with_startup (startupQueryCount conf - 1) conf))
     else
       timer_setTimer (i32 (queryInterval conf)) SendGeneralMembershipQuery;;
       timer_setTimer (INTERVAL_QUERY_RESPONSE + 10) QuerySpecificMembers;;
       mret tt).

(** The call of a timeout's function. *)
Definition run_action (a : action) : M igmpd unit :=
  match a with
  | SendGroupSpecificMemberQuery gvDesc => sendGroupSpecificMemberQuery gvDesc
  | AgeActiveRoutes => ageActiveRoutes
  | SendGeneralMembershipQuery => sendGeneralMembershipQuery
  | QuerySpecificMembers => query_specific_members
  end.

(** ** igmp.c: receiving *)

(** Four bytes of recv_buf, as the program reads an address. *)
Definition rd32 (buf : bytes) (i : Z) : res Z :=
  a ← rd buf i; b ← rd buf (i + 1); c ← rd buf (i + 2); d ← rd buf (i + 3);
  mret (of_le [a; b; c; d]).

Definition acceptIgmp (recvlen : Z) : M igmpd unit :=
  if recvlen <? MIN_IP_HEADER_LEN then mret tt
  else
    buf ← gets recv_buf;
    src ← of_res (rd32 buf 12);
    dst ← of_res (rd32 buf 16);
    if dst =? UPNP_MCAST_ADDR then mret tt
    else
      ip_p ← of_res (rd buf 9);
      if ip_p =? 0 then mret tt
      else
        ip_vhl ← of_res (rd buf 0);
        len1 ← of_res (rd buf 2);
        len0 ← of_res (rd buf 3);
        let iphdrlen := Z.land ip_vhl 15 * 4 in
        let ipdatalen := 256 * len1 + len0 - iphdrlen in
        if negb (iphdrlen + ipdatalen =? recvlen) then mret tt
        else
          grp ← of_res (rd32 buf (iphdrlen + 4));
          if ipdatalen - IGMP_MINLEN <? 0 then mret tt
          else
            type ← of_res (rd buf iphdrlen);
            if (type =? IGMP_V1_MEMBERSHIP_REPORT) || (type =? IGMP_V2_MEMBERSHIP_REPORT)
            then acceptGroupReport src grp
            else if type =? IGMP_V2_LEAVE_GROUP then acceptLeaveMessage src grp
            else if type =? IGMP_MEMBERSHIP_QUERY then
              '(_, local_ip, local_mask) ← ilib (get_ifconfig IF_LOCAL);
              when (check_same_network local_ip (inet_ntoa src) local_mask)
                (update_router_port src)
            else mret tt.

(** ** igmpproxy.c *)
Definition igmpProxyCleanUp : M igmpd unit :=
  free_all_callouts;;
  clearAllRoutes;;
  emit DisableMRouter;;
  remove_all_groups;;
  ilib (system (lit "/sbin/iptables -D INPUT -d 224.0.0.0/4 -j ACCEPT")).

(** A reading of the clock: seconds and microseconds. *)
Abbreviation timeval := (Z * Z)%type (only parsing).

(** What a pass gets: whether a signal to end has arrived, the result of
    select() with the packet that is read, and the readings of the clock; the
    last one stands for all further ones. *)
Inductive selected :=
  | SelectError
  | SelectTimeout
  | SelectPacket (packet : option bytes).   (** [None]: recvfrom failed *)
Record pass_input := PassIn {
  in_signal : bool;
  in_select : selected;
  in_clock : list timeval
}.

(** The local variables that live across passes. *)
Record run_vars := Vars {
  v_timeout_set : bool;       (** [timeout] is not NULL *)
  v_lasttime : timeval;
  v_diff_usec : Z             (** difftime.tv_usec *)
}.

(** recvfrom(MRouterFD, recv_buf, RECV_BUF_SIZE, ...) *)
Definition recv_packet (packet : bytes) : M igmpd Z :=
  buf ← gets recv_buf;
  let data := take (Z.to_nat RECV_BUF_SIZE) packet in
  modify (set_recv_buf (data ++ drop (length data) buf));;
  mret (Z.of_nat (length data)).

(** [while (difftime.tv_usec > 1000000) ...; if (difftime.tv_usec < 0) ...] *)
Fixpoint normalize (fuel : nat) (sec usec : Z) : Z * Z :=
  match fuel with
  | O => (sec, usec)
  | S fuel =>
      if 1000000 <? usec then normalize fuel (sec + 1) (usec - 1000000) else (sec, usec)
  end.
Definition normalized (sec usec : Z) : Z * Z :=
  let '(sec, usec) := normalize (Z.to_nat (usec / 1000000)) sec usec in
  if usec <? 0 then (sec - 1, usec + 1000000) else (sec, usec).

(** The do-while loop behind select(): [now] is the current time of the first
    round if it is known without the clock, [clock] the readings for the rounds. *)
Fixpoint handle_timeouts (fuel : nat) (secs : Z) (now : option timeval) (clock : list timeval)
    (lasttime : timeval) (diff_usec : Z) : M igmpd (timeval * Z) :=
  match fuel with
  | O => nofuel
  | S fuel =>
      let '(curtime, clock) :=
        match now, clock with
        | Some t, _ => (t, clock)
        | None, t :: u :: r => (t, u :: r)
        | None, [t] => (t, [t])
        | None, [] => (lasttime, [])
        end in
      let '(sec, usec) :=
        normalized (curtime.1 - lasttime.1) (diff_usec + (curtime.2 - lasttime.2)) in
      when ((secs =? 0) || (0 <? sec)) (age_callout_queue run_action (i32 sec));;
      if 0 <? sec then handle_timeouts fuel (-1) None clock curtime usec
      else mret (curtime, usec)
  end.

(** A pass of the main loop; [None]: the loop is left. *)
Definition proxy_pass (v : run_vars) (i : pass_input) : M igmpd (option run_vars) :=
  if in_signal i then mret None
  else
    secs ← timer_nextTimer;
    timeout ← (if secs =? -1 then mret false
               else if v_timeout_set v then mret true else fail NullDeref);
    let after (now : option timeval) :=
      '(last, usec) ← handle_timeouts (length (in_clock i) + 3) secs now (in_clock i)
                        (v_lasttime v) (v_diff_usec v);
      mret (Some (Vars timeout last usec)) in
    let continue := mret (Some (Vars timeout (v_lasttime v) (v_diff_usec v))) in
    match in_select i with
    | SelectError => continue
    | SelectPacket None => continue
    | SelectPacket (Some packet) => n ← recv_packet packet; acceptIgmp n;; after None
    | SelectTimeout => after (Some ((v_lasttime v).1 + secs, (v_lasttime v).2))
    end.

Fixpoint proxy_loop (v : run_vars) (ins : list pass_input) : M igmpd (option run_vars) :=
  match ins with
  | [] => mret (Some v)
  | i :: ins' =>
      r ← proxy_pass v i;
      match r with
      | None => mret None
      | Some v => proxy_loop v ins'
      end
  end.

(** igmpProxyRun on the inputs of its passes; [start] is the first reading of the
    clock. *)
Definition igmpProxyRun (start : timeval) (ins : list pass_input) : M igmpd (option run_vars) :=
  sendGeneralMembershipQuery;;
  proxy_loop (Vars true start 0) ins.
End proxy.
