(* ===== verification/IgmpConfig.v ===== *)
(** * igmpproxy/src: the configuration file and the start of the program

    confread.c, config.c, buildIfVc of ifvc.c, addVIF of mroute-api.c and the start
    of igmpproxy.c.  What ioctl() says about an interface is an argument. *)
From S2P Require Import Prelude CLib Heap System Bytes Genconfig SystemApi Callout Igmp McSwitch.
From S2P Require Import RouteTable IgmpProxy.

(** ** confread.c *)
Definition READ_BUFFER_SIZE : nat := 512.
Definition MAX_TOKEN_LENGTH : nat := 30.

(** The reader: what fread has not given yet, the bytes of iBuffer from bufPtr on,
    whether the buffer was filled ([readSize == READ_BUFFER_SIZE]), and the two
    variables of the last token. *)
Record reader := Reader {
  rd_file : str;
  rd_left : str;
  rd_full : bool;
  rd_token : str;
  rd_valid : bool
}.
Definition openConfigFile (content : str) : reader := Reader content [] false [] false.

(** The inner loop over the buffer.  [finished] is whether it ended with a token;
    a NUL ends it where it is. *)
Fixpoint chars_loop (rest token : str) (comment : bool) : str * str * bool * bool :=
  match rest with
  | [] => ([], token, comment, false)
  | c :: rest' =>
      if is_char NUL c then (rest, token, comment, false)
      else
        let '(token, comment, finished) :=
          if comment then (token, negb (is_char LF c), false)
          else if is_char "#" c then (token, true, false)
          else if one_of [LF; CR; ascii_of_nat 9; " "%char] c
          then (token, false, negb (streq token []))
          else (token ++ [c], false, false) in
        let finished := finished || (length token =? MAX_TOKEN_LENGTH - 1)%nat in
        if finished then (rest', token, comment, true) else chars_loop rest' token comment
  end.

(** The outer loop; [None] is NULL. *)
Fixpoint token_loop (fuel : nat) (r : reader) (token : str) (comment : bool)
    : res (option str * reader) :=
  match fuel with
  | O => NoFuel
  | S fuel =>
      let r :=
        match rd_left r with
        | [] =>
            let chunk := take READ_BUFFER_SIZE (rd_file r) in
            Reader (drop READ_BUFFER_SIZE (rd_file r)) chunk
              (length chunk =? READ_BUFFER_SIZE)%nat (rd_token r) (rd_valid r)
        | _ :: _ => r
        end in
      match rd_left r with
      | [] => Ok (None, r)
      | _ :: _ =>
          let '(rest, token, comment, finished) := chars_loop (rd_left r) token comment in
          let r := Reader (rd_file r) rest (rd_full r) token false in
          if negb (rd_full r) && streq rest [] then Ok (None, r)
          else if finished : bool then
            Ok (Some token, Reader (rd_file r) rest (rd_full r) token true)
          else token_loop fuel r token comment
      end
  end.

Definition nextConfigToken (r : reader) : res (option str * reader) :=
  token_loop (S (S (length (rd_file r)))) (Reader (rd_file r) (rd_left r) (rd_full r) (rd_token r) false)
    [] false.

Definition getCurrentConfigToken (r : reader) : option str :=
  if rd_valid r then Some (rd_token r) else None.

(** ** config.c *)

(** initCommonConfig *)
Definition DEFAULT_ROBUSTNESS : Z := 5.
Definition DEFAULT_THRESHOLD : Z := 1.
Definition DEFAULT_RATELIMIT : Z := 0.
Definition INTERVAL_QUERY : Z := 120.
Definition initCommonConfig : Config :=
  Conf DEFAULT_ROBUSTNESS INTERVAL_QUERY INTERVAL_QUERY_RESPONSE (INTERVAL_QUERY / 4)
    DEFAULT_ROBUSTNESS INTERVAL_QUERY_RESPONSE DEFAULT_ROBUSTNESS false.

(** struct vifconfig; the name is not set without one of the two directions. *)
Record vifconfig := VifConf {
  vc_name : option str;
  vc_state : Z;
  vc_ratelimit : Z;
  vc_threshold : Z;
  vc_allowednets : list (Z * Z)
}.

(** [a.b.c.d/n]; the mask is converted with ntohl.  [None] is NULL. *)
Definition parseSubnetAddress (addrstr : str) : res (option (Z * Z)) :=
  match strtok (lit "/") addrstr with
  | (None, _) => Fault NullDeref
  | (Some a, rest) =>
      let addr := inet_addr a in
      let mask :=
        match strtok (lit "/") rest with
        | (None, _) => Some 0xffffffff
        | (Some n, _) =>
            let bitcnt := atoi n in
            if (bitcnt <? 0) || (32 <? bitcnt) then None
            else Some (if bitcnt =? 0 then 0 else u32 (Z.shiftl 0xffffffff (32 - bitcnt)))
        end in
      match mask with
      | None => Ok None
      | Some mask => if addr =? INADDR_NONE then Ok None else Ok (Some (addr, ntohl mask))
      end
  end.

(** [atoi(token)], where the token may be NULL. *)
Definition token_number (token : option str) : res Z :=
  match token with Some t => Ok (atoi t) | None => Fault NullDeref end.

(** The size that malloc(strlen(...)) gives to the name. *)
Definition UPSTREAM_NAME_SIZE : nat := 6.
Definition DOWNSTREAM_NAME_SIZE : nat := length IF_LOCAL.

Definition vc_with_name (n : str) (state : Z) (c : vifconfig) : vifconfig :=
  VifConf (Some n) state (vc_ratelimit c) (vc_threshold c) (vc_allowednets c).
Definition vc_with_nets (nets : list (Z * Z)) (c : vifconfig) : vifconfig :=
  VifConf (vc_name c) (vc_state c) (vc_ratelimit c) (vc_threshold c) nets.

(** The loop of parsePhyintToken from the token on; [None] is a parse error. *)
Fixpoint phyint_loop (fuel : nat) (token : option str) (r : reader) (c : vifconfig)
    : M sys (option vifconfig * reader) :=
  match fuel with
  | O => nofuel
  | S fuel =>
      match token with
      | None => mret (Some c, r)
      | Some token =>
          let next r c := '(t, r) ← of_res (nextConfigToken r); phyint_loop fuel t r c in
          if streq token (lit "altnet") then
            '(t, r) ← of_res (nextConfigToken r);
            net ← of_res (match t with Some t => parseSubnetAddress t | None => Fault NullDeref end);
            match net with
            | None => mret (None, r)
            | Some net => next r (vc_with_nets (vc_allowednets c ++ [net]) c)
            end
          else if streq token (lit "upstream") then
            '(_, name) ← get_wan_ifname WAN1_NAME UPSTREAM_NAME_SIZE;
            next r (vc_with_name name IF_STATE_UPSTREAM c)
          else if streq token (lit "downstream") then
            name ← strcpy DOWNSTREAM_NAME_SIZE IF_LOCAL;
            next r (vc_with_name name IF_STATE_DOWNSTREAM c)
          else if streq token (lit "disabled") then
            next r (VifConf (vc_name c) IF_STATE_DISABLED (vc_ratelimit c) (vc_threshold c)
                      (vc_allowednets c))
          else if streq token (lit "ratelimit") then
            '(t, r) ← of_res (nextConfigToken r);
            n ← of_res (token_number t);
            if n <? 0 then mret (None, r)
            else next r (VifConf (vc_name c) (vc_state c) n (vc_threshold c) (vc_allowednets c))
          else if streq token (lit "threshold") then
            '(t, r) ← of_res (nextConfigToken r);
            n ← of_res (token_number t);
            if (n <=? 0) || (255 <? n) then mret (None, r)
            else next r (VifConf (vc_name c) (vc_state c) (vc_ratelimit c) n (vc_allowednets c))
          else mret (Some c, r)
      end
  end.

Definition parsePhyintToken (fuel : nat) (r : reader) : M sys (option vifconfig * reader) :=
  '(t, r) ← of_res (nextConfigToken r);
  phyint_loop fuel t r (VifConf None IF_STATE_DOWNSTREAM 0 1 []).

(** The loop of loadConfig; the result of the function and the two things it
    fills. *)
Fixpoint config_loop (fuel : nat) (token : option str) (r : reader) (conf : Config)
    (vifs : list vifconfig) : M sys (bool * Config * list vifconfig) :=
  match fuel with
  | O => nofuel
  | S fuel =>
      match token with
      | None => mret (true, conf, vifs)
      | Some token =>
          if streq token (lit "phyint") then
            '(v, r) ← parsePhyintToken fuel r;
            match v with
            | None => mret (false, conf, vifs)
            | Some v => config_loop fuel (getCurrentConfigToken r) r conf (vifs ++ [v])
            end
          else if streq token (lit "quickleave") then
            '(t, r) ← of_res (nextConfigToken r);
            config_loop fuel t r
              (Conf (robustnessValue conf) (queryInterval conf) (queryResponseInterval conf)
                 (startupQueryInterval conf) (startupQueryCount conf)
                 (lastMemberQueryInterval conf) (lastMemberQueryCount conf) true) vifs
          else mret (false, conf, vifs)
      end
  end.

Definition loadConfig (content : str) : M sys (bool * Config * list vifconfig) :=
  '(t, r) ← of_res (nextConfigToken (openConfigFile content));
  config_loop (S (S (length content))) t r initCommonConfig [].

(** The first configuration with the name of the interface. *)
Fixpoint vif_config (name : str) (vifs : list vifconfig) : res (option vifconfig) :=
  match vifs with
  | [] => Ok None
  | c :: vifs' =>
      match vc_name c with
      | None => Fault Uninit
      | Some n => if streq name n then Ok (Some c) else vif_config name vifs'
      end
  end.

Definition configure_vif (vifs : list vifconfig) (Dp : IfDesc) : res IfDesc :=
  if negb (if_InAdr Dp =? 0) && (Z.land (if_Flags Dp) IFF_LOOPBACK =? 0) then
    c ← vif_config (if_Name Dp) vifs;
    match c with
    | None => Ok Dp
    | Some c =>
        match if_allowednets Dp with
        | [] => Fault NullDeref
        | _ :: _ =>
            Ok (If (if_Name Dp) (if_InAdr Dp) (if_Flags Dp) (vc_state c)
                  (if_allowednets Dp ++ vc_allowednets c) (if_robustness Dp)
                  (u8 (vc_threshold c)) (u32 (vc_ratelimit c)) (if_index Dp))
        end
    end
  else Ok Dp.

Fixpoint configure_loop (vifs : list vifconfig) (l : list IfDesc) : res (list IfDesc) :=
  match l with
  | [] => Ok []
  | Dp :: l' =>
      Dp ← configure_vif vifs Dp;
      l' ← configure_loop vifs l';
      mret (Dp :: l')
  end.

Definition configureVifs (vifs : list vifconfig) : M igmpd unit :=
  match vifs with
  | [] => mret tt
  | _ :: _ =>
      l ← gets ifvc;
      l ← of_res (configure_loop vifs l);
      modify (set_ifvc l)
  end.

(** ** ifvc.c, mroute-api.c and igmpproxy.c: the start *)

(** An interface as ioctl() describes it; no address: not of the family AF_INET. *)
Record ifreq := IfReq { fr_name : str; fr_addr : option Z; fr_mask : Z; fr_flags : Z }.
Definition NO_INDEX : Z := 2 ^ 32 - 1.

Section start.
Context `{!Multicast, !Interfaces}.

Definition if_desc (f : ifreq) : M igmpd IfDesc :=
  match fr_addr f with
  | None => mret (If (fr_name f) 0 0 IF_STATE_DISABLED [] 0 0 0 NO_INDEX)
  | Some addr =>
      '(_, wanif) ← ilib (get_wan_ifname WAN1_NAME 32);
      '(_, local_ip, _) ← ilib (get_ifconfig IF_LOCAL);
      if negb (streq wanif (fr_name f)) && negb (streq (inet_ntoa addr) local_ip)
      then mret (If (fr_name f) addr 0 IF_STATE_DISABLED [] 0 0 0 NO_INDEX)
      else mret (If (fr_name f) addr (fr_flags f) IF_STATE_DOWNSTREAM
                   [(Z.land addr (fr_mask f), fr_mask f)]
                   DEFAULT_ROBUSTNESS DEFAULT_THRESHOLD DEFAULT_RATELIMIT NO_INDEX)
  end.

Fixpoint buildIfVc (fs : list ifreq) : M igmpd unit :=
  match fs with
  | [] => mret tt
  | f :: fs' =>
      Dp ← if_desc f;
      modify (λ s, set_ifvc (ifvc s ++ [Dp]) s);;
      buildIfVc fs'
  end.

(** The addresses of the interfaces that get no virtual interface. *)
Definition internal_address (addr : Z) : bool :=
  streq (inet_ntoa addr) (lit "192.168.255.1") || streq (inet_ntoa addr) (lit "192.168.255.250").

Definition with_index (vifi : Z) (Dp : IfDesc) : IfDesc :=
  If (if_Name Dp) (if_InAdr Dp) (if_Flags Dp) (if_state Dp) (if_allowednets Dp)
    (if_robustness Dp) (if_threshold Dp) (if_ratelimit Dp) vifi.

(** The free entry of VifDescVc is the one behind the [vifi] entries in use; behind
    the last one the program writes beyond the array. *)
Definition addVIF (vifi : Z) (Dp : IfDesc) : M igmpd IfDesc :=
  if MAX_MC_VIFS <=? vifi then fail Overflow
  else emit (AddVIF vifi (if_threshold Dp) (if_ratelimit Dp) (if_InAdr Dp));;
       mret (with_index vifi Dp).

(** The loop of igmpProxyInit over the interfaces from [Ix] on. *)
Fixpoint vifs_loop (l : list IfDesc) (Ix vifi : Z) : M igmpd (list IfDesc) :=
  match l with
  | [] => mret []
  | Dp :: l' =>
      if negb (if_InAdr Dp =? 0) && (Z.land (if_Flags Dp) IFF_LOOPBACK =? 0) then
        up ← gets upStreamVif;
        when ((if_state Dp =? IF_STATE_UPSTREAM) && (up =? -1)) (modify (set_upstream Ix));;
        if internal_address (if_InAdr Dp) then
          l' ← vifs_loop l' (Ix + 1) vifi; mret (Dp :: l')
        else
          Dp ← addVIF vifi Dp;
          l' ← vifs_loop l' (Ix + 1) (vifi + 1); mret (Dp :: l')
      else l' ← vifs_loop l' (Ix + 1) vifi; mret (Dp :: l')
  end.

(** [junk] is what malloc leaves in the two buffers. *)
Definition initIgmp (junk : bytes) : M igmpd unit :=
  modify (set_recv_buf junk);;
  modify (set_send_buf (ip_header ++ drop 20 junk)).

Definition igmpProxyInit (getpid : Z) (junk : bytes) (fs : list ifreq) (vifs : list vifconfig)
    : M igmpd Z :=
  buildIfVc fs;;
  configureVifs vifs;;
  modify (set_upstream (-1));;
  l ← gets ifvc;
  l ← vifs_loop l 0 0;
  modify (set_ifvc l);;
  initIgmp junk;;
  initRouteTable;;
  callout_init;;
  ilib (create_pid (lit "igmpproxy") getpid);;
  ilib (system (lit "/sbin/iptables -I INPUT -d 224.0.0.0/4 -j ACCEPT"));;
  mret 1.

Definition init_iptables : M igmpd unit :=
  ilib (system (lit "/sbin/iptables -t nat -D PREROUTING -d 224.0.0.0/4 -j RETURN"));;
  ilib (system (lit "/sbin/iptables -t nat -I PREROUTING -d 224.0.0.0/4 -j RETURN")).
Definition fini_iptables : M igmpd unit :=
  ilib (system (lit "/sbin/iptables -t nat -D PREROUTING -d 224.0.0.0/4 -j RETURN")).

Definition check_igmp_proxy_or_snoop : M igmpd unit :=
  link ← ask get_wan_link;
  '(r, _) ← (if link : bool then ilib (get_wan_ip WAN1_NAME) else mret (0, []));
  modify (set_running (link && negb (r =? 0))).

(** main() on a configuration file and the inputs of the passes: whether the
    program has ended. *)
Definition igmpproxy_main (getpid : Z) (junk : bytes) (content : str) (fs : list ifreq)
    (start : Z * Z) (ins : list pass_input) : M igmpd bool :=
  '(ok, conf, vifs) ← ilib (loadConfig content);
  modify (set_conf conf);;
  ended ← (if ok : bool then
             igmpProxyInit getpid junk fs vifs;;
             init_iptables;;
             switch_init;;
             check_igmp_proxy_or_snoop;;
             r ← igmpProxyRun start ins;
             match r with
             | None => igmpProxyCleanUp;; mret true
             | Some _ => mret false
             end
           else mret true);
  when ended (switch_fini;; fini_iptables);;
  mret ended.
End start.
