(* ===== verification/IgmpFrame.v ===== *)
(** * Which parts of the IGMP proxy a function leaves alone

    [Runs F R m]: from every state [m] ends, with a fault of [F] or in a state
    related by [R] to the first one.  Its instances follow the structure of the
    code, so that the search for instances derives the property for a function
    from the ones it calls.  [aside] relates two states that agree on the tables:
    what lies between them is output, questions to the environment and the files. *)
From S2P Require Import Prelude CLib Heap System Bytes Genconfig SystemApi Callout Igmp McSwitch.

(** Faults other than the use of a bad pointer. *)
Definition memory_safe : fault → Prop := λ e, e ≠ Dangling ∧ e ≠ NullDeref.
Class Safe (F : fault → Prop) : Prop := safe e : memory_safe e → F e.
#[export] Instance safe_memory : Safe memory_safe.
Proof. by intros e. Qed.
#[export] Instance safe_any : Safe any_fault.
Proof. by intros e. Qed.

Class Runs {S A} (F : fault → Prop) (R : relation S) (m : M S A) : Prop :=
  runs s : wp F m (λ _ s', R s s') s.
Class ResRuns {A} (F : fault → Prop) (r : res A) : Prop :=
  res_runs : match r with Ok _ => True | Fault e => F e | NoFuel => False end.

Section structure.
Context {S : Type} {F : fault → Prop} {R : relation S} `{!PreOrder R}.

#[export] Instance runs_ret {A} (a : A) : Runs F R (mret a : M S A).
Proof. intros s. apply wp_ret. reflexivity. Qed.
#[export] Instance runs_gets {A} (f : S → A) : Runs F R (gets f).
Proof. intros s. unfold wp. simpl. reflexivity. Qed.
#[export] Instance runs_bind {A B} (m : M S A) (f : A → M S B) :
  Runs F R m → (∀ a, Runs F R (f a)) → Runs F R (m ≫= f).
Proof.
  intros Hm Hf s. eapply wp_seq; [apply Hm|]. intros a s' Hs.
  eapply wp_mono; [apply Hf|]. intros b s'' Hs'. by transitivity s'.
Qed.
#[export] Instance runs_when b (m : M S unit) : Runs F R m → Runs F R (when b m).
Proof. intros Hm. destruct b; [done|apply runs_ret]. Qed.
#[export] Instance runs_if {A} (b : bool) (m m' : M S A) :
  Runs F R m → Runs F R m' → Runs F R (if b then m else m').
Proof. by destruct b. Qed.
#[export] Instance runs_option {A B} (o : option A) (f : A → M S B) (m : M S B) :
  (∀ a, Runs F R (f a)) → Runs F R m → Runs F R (match o with Some a => f a | None => m end).
Proof. by destruct o. Qed.
#[export] Instance runs_pair {A B C} (p : A * B) (f : A → B → M S C) :
  (∀ a b, Runs F R (f a b)) → Runs F R (let '(a, b) := p in f a b).
Proof. by destruct p. Qed.
#[export] Instance runs_of_res {A} (r : res A) : ResRuns F r → Runs F R (of_res r : M S A).
Proof. intros Hr s. unfold wp, of_res. destruct r; [reflexivity|done|done]. Qed.
End structure.

Section results.
Context {F : fault → Prop} `{!Safe F}.

#[export] Instance res_runs_ok {A} (a : A) : ResRuns F (Ok a).
Proof. done. Qed.
#[export] Instance res_runs_if {A} (b : bool) (r r' : res A) :
  ResRuns F r → ResRuns F r' → ResRuns F (if b then r else r').
Proof. by destruct b. Qed.
#[export] Instance res_runs_ret {A} (a : A) : ResRuns F (mret a).
Proof. done. Qed.
#[export] Instance res_runs_bind {A B} (r : res A) (f : A → res B) :
  ResRuns F r → (∀ a, ResRuns F (f a)) → ResRuns F (r ≫= f).
Proof. intros Hr Hf. destruct r; [apply Hf|done|done]. Qed.
#[export] Instance res_runs_pair {A B C} (p : A * B) (f : A → B → res C) :
  (∀ a b, ResRuns F (f a b)) → ResRuns F (let '(a, b) := p in f a b).
Proof. by destruct p. Qed.

Lemma res_runs_fault {A} e : memory_safe e → ResRuns F (Fault e : res A).
Proof. intros He. exact (safe e He). Qed.

#[export] Instance bit_runs n : ResRuns F (bit n).
Proof. unfold bit, ResRuns. destruct (_ && _); [done|]. by apply safe. Qed.
#[export] Instance BIT_SET_runs x n : ResRuns F (BIT_SET x n).
Proof. unfold BIT_SET. apply _. Qed.
#[export] Instance BIT_TST_runs x n : ResRuns F (BIT_TST x n).
Proof. unfold BIT_TST. apply _. Qed.
#[export] Instance rd_runs a i : ResRuns F (rd a i).
Proof.
  unfold rd, ResRuns. destruct (i <? 0); [by apply safe|].
  by destruct (a !! Z.to_nat i); [|apply safe].
Qed.
#[export] Instance wr_runs a i b : ResRuns F (wr a i b).
Proof. unfold wr, ResRuns. destruct (_ || _); [by apply safe|done]. Qed.
#[export] Instance blit_runs a i src n : ResRuns F (blit a i src n).
Proof. unfold blit, ResRuns. destruct (_ || _); [by apply safe|done]. Qed.
#[export] Instance scan_field_runs cap s : ResRuns F (scan_field cap s).
Proof.
  unfold scan_field, ResRuns. destruct (scan_word s) as [[w r]|]; [|done].
  destruct (_ <? _)%nat; [done|by apply safe].
Qed.

Lemma arp_loop_runs fuel ip content :
  (length content < fuel)%nat → ResRuns F (arp_loop fuel ip content).
Proof.
  revert content. induction fuel as [|fuel IH]; intros content Hl; [lia|].
  cbn [arp_loop]. destruct (fgets 256 content) as [[buf rest]|] eqn:E; [|apply _].
  apply fgets_shorter in E; [|lia].
  do 4 (apply res_runs_bind; [apply _|intros [? ?]]).
  destruct o as [w|]; [|by apply res_runs_fault].
  destruct (streq ip w); [|apply IH; lia].
  destruct o2; [apply _|by apply res_runs_fault].
Qed.
End results.

(** The calls of the library that the proxy makes. *)
Definition anyhow : relation sys := λ _ _, True.
#[export] Instance anyhow_preorder : PreOrder anyhow.
Proof. by split. Qed.

Section library.
Context {F : fault → Prop} `{!Safe F}.

#[export] Instance modify_runs f : Runs F anyhow (modify f).
Proof. by intros s. Qed.
#[export] Instance lock_file_runs f : Runs F anyhow (lock_file f).
Proof.
  unfold lock_file, on_env. apply runs_bind; [apply _|]. intros e.
  destruct (bool_decide _); [apply _|]. apply runs_bind; [apply _|]. intros _.
  destruct (bool_decide _); [|apply _]. intros s. apply wp_fail. by apply safe.
Qed.
#[export] Instance unlock_file_runs fd : Runs F anyhow (unlock_file fd).
Proof. unfold unlock_file, on_env. apply _. Qed.
#[export] Instance fopen_w_runs p : Runs F anyhow (fopen_w p).
Proof. unfold fopen_w, on_env. apply _. Qed.
#[export] Instance fprintf_runs p s : Runs F anyhow (fprintf p s).
Proof. unfold fprintf, on_env. apply _. Qed.
#[export] Instance unlink_runs p : Runs F anyhow (unlink p).
Proof. unfold unlink, on_env. apply _. Qed.
#[export] Instance system_runs c : Runs F anyhow (system c).
Proof. unfold system, on_env. apply _. Qed.
#[export] Instance strcpy_runs {S} (R : relation S) `{!PreOrder R} n s :
  Runs F R (strcpy n s : M S str).
Proof.
  unfold strcpy. intros σ. destruct (_ <? _)%nat; [by apply wp_ret|].
  apply wp_fail. by apply safe.
Qed.
#[export] Instance get_ifconfig_runs `{!Interfaces} n : Runs F anyhow (get_ifconfig n).
Proof.
  unfold get_ifconfig. apply runs_bind; [apply _|]. intros name.
  destruct (ifaddr name) as [a|]; [|apply _]. by destruct (ifmask name); apply _.
Qed.
End library.

(** ** States that agree on the tables *)
Record aside (s s' : igmpd) : Prop := {
  as_ifvc : ifvc s' = ifvc s;
  as_upstream : upStreamVif s' = upStreamVif s;
  as_config : commonConfig s' = commonConfig s;
  as_running : igmp_proxy_running s' = igmp_proxy_running s;
  as_timeouts : timeouts s' = timeouts s;
  as_routes : routes s' = routes s;
  as_routing_table : routing_table s' = routing_table s;
  as_groups : groups s' = groups s;
  as_members : group_members s' = group_members s;
  as_group_list : group_list s' = group_list s
}.

#[export] Instance aside_preorder : PreOrder aside.
Proof.
  split; [by intros s|]. intros s1 s2 s3 [] []. split; congruence.
Qed.

(** The same without the groups: what the switch support leaves alone. *)
Record beside (s s' : igmpd) : Prop := {
  be_ifvc : ifvc s' = ifvc s;
  be_upstream : upStreamVif s' = upStreamVif s;
  be_config : commonConfig s' = commonConfig s;
  be_running : igmp_proxy_running s' = igmp_proxy_running s;
  be_timeouts : timeouts s' = timeouts s;
  be_routes : routes s' = routes s;
  be_routing_table : routing_table s' = routing_table s
}.
#[export] Instance beside_preorder : PreOrder beside.
Proof. split; [by intros s|]. intros s1 s2 s3 [] []. split; congruence. Qed.
Lemma aside_beside s s' : aside s s' → beside s s'.
Proof. by intros []. Qed.

Section leaves.
Context `{!Multicast} {F : fault → Prop} `{!Safe F}.

#[export] Instance emit_runs e : Runs F aside (emit e).
Proof. by intros s. Qed.
#[export] Instance ask_runs {A} (f : nat → A) : Runs F aside (ask f).
Proof. by intros s. Qed.
#[export] Instance ilib_runs {A} (m : M sys A) : Runs F anyhow m → Runs F aside (ilib m).
Proof.
  intros Hm s. specialize (Hm (ios s)). unfold wp, ilib in *.
  by destruct (m (ios s)) as [[a o]|e|].
Qed.
#[export] Instance set_mgroup_runs i e : Runs F aside (set_mgroup i e).
Proof. by intros s. Qed.
#[export] Instance set_send_buf_runs b : Runs F aside (modify (set_send_buf b)).
Proof. by intros s. Qed.
#[export] Instance set_recv_buf_runs b : Runs F aside (modify (set_recv_buf b)).
Proof. by intros s. Qed.
#[export] Instance set_router_port_runs b : Runs F aside (modify (set_router_port b)).
Proof. by intros s. Qed.

#[export] Instance updateMacTable_runs e : Runs F aside (updateMacTable e).
Proof. unfold updateMacTable, get_mgroup_index. apply _. Qed.

#[export] Instance arpLookUp_runs ip : Runs F aside (arpLookUp ip).
Proof.
  unfold arpLookUp. apply runs_bind; [apply _|]. intros [content|]; [|apply _].
  apply runs_of_res, arp_loop_runs. lia.
Qed.
#[export] Instance portLookUpByIP_runs ip : Runs F aside (portLookUpByIP ip).
Proof. unfold portLookUpByIP, portLookUpByMac, get_switch_port_num. apply _. Qed.
#[export] Instance port_of_runs u : Runs F aside (port_of u).
Proof. unfold port_of. apply _. Qed.

#[export] Instance buildIgmp_runs a b c d e f : Runs F aside (buildIgmp a b c d e f).
Proof. unfold buildIgmp. apply _. Qed.
#[export] Instance sendIgmp_runs a b c d e f : Runs F aside (sendIgmp a b c d e f).
Proof. unfold sendIgmp. apply _. Qed.

#[export] Instance specific_loop_runs dst grp l : Runs F aside (specific_loop dst grp l).
Proof. induction l; cbn [specific_loop]; apply _. Qed.
#[export] Instance sendSpecific_runs dst grp :
  Runs F aside (sendSpecificMembershipQueryToSpecificMember dst grp).
Proof. unfold sendSpecificMembershipQueryToSpecificMember. apply _. Qed.
End leaves.
