(* ===== verification/McInv.v ===== *)
(** * mc_switch.c: the lists of groups and members

    Singly linked lists of the heap, the representation [groups_ok] of the group
    table by a list of groups with their members, and what each operation of
    mc_switch.c does to it.  [F] are the faults that are allowed: with
    [memory_safe] the lemmas show that no bad pointer is used. *)
From S2P Require Import Prelude CLib Heap System Bytes Genconfig SystemApi Callout Igmp McSwitch.
From S2P Require Import IgmpFrame.

(** ** Singly linked lists *)
Section sls.
Context {V : Type} (next : V → ptr).
Implicit Types (h : gmap loc V) (cs a b : list (loc * V)).

(** The blocks [cs] in order, the last one pointing to [nn]. *)
Fixpoint sls h cs (nn : ptr) : Prop :=
  match cs with
  | [] => True
  | (l, v) :: cs' => h !! l = Some v ∧ next v = first_loc cs' nn ∧ sls h cs' nn
  end.

Lemma sls_app h a b nn : sls h (a ++ b) nn ↔ sls h a (first_loc b nn) ∧ sls h b nn.
Proof.
  induction a as [|[l v] a IH]; simpl; [tauto|]. rewrite first_loc_app, IH. tauto.
Qed.

Lemma sls_frame h h' cs nn :
  (∀ l, l ∈ cs.*1 → h' !! l = h !! l) → sls h cs nn → sls h' cs nn.
Proof.
  induction cs as [|[l v] cs IH]; simpl; [done|]. intros Hh (Hl & Hn & Hs).
  rewrite (Hh l) by set_solver. split_and!; [done|done|]. apply IH; [|done].
  intros k Hk. apply Hh. set_solver.
Qed.

Lemma sls_lookup h a l v b nn :
  sls h (a ++ (l, v) :: b) nn → h !! l = Some v ∧ next v = first_loc b nn.
Proof. rewrite sls_app. simpl. tauto. Qed.

Lemma sls_set h a l v w b nn :
  NoDup (a ++ (l, v) :: b).*1 → next w = next v →
  sls h (a ++ (l, v) :: b) nn → sls (<[l := w]> h) (a ++ (l, w) :: b) nn.
Proof.
  rewrite fmap_app, fmap_cons, NoDup_app, NoDup_cons. simpl.
  intros (_ & Hab & Hl & _) Hw. rewrite !sls_app. simpl.
  intros (Ha & Hv & Hn & Hb). rewrite lookup_insert_eq. split_and!; [|done|congruence|].
  - eapply sls_frame; [|done]. intros k Hk. apply lookup_insert_ne. set_solver.
  - eapply sls_frame; [|done]. intros k Hk. apply lookup_insert_ne. set_solver.
Qed.

Lemma sls_length h cs nn : NoDup cs.*1 → sls h cs nn → (length cs ≤ size h)%nat.
Proof.
  intros Hnd Hs. rewrite <-size_dom.
  rewrite <-(length_fmap fst cs), <-(size_list_to_set (C := gset loc)) by done.
  apply subseteq_size. intros l. rewrite elem_of_list_to_set, elem_of_dom.
  intros Hl. apply list_elem_of_fmap in Hl as ([k v] & -> & Hl).
  apply list_elem_of_split in Hl as (a & b & ->).
  destruct (sls_lookup _ _ _ _ _ _ Hs) as [H _]. by eexists.
Qed.
End sls.

(** The location that a search finds. *)
Definition found {V} (P : V → bool) (cs : list (loc * V)) : ptr :=
  fst <$> find (λ c, P c.2) cs.

Lemma found_split {V} (P : V → bool) (cs : list (loc * V)) :
  (found P cs = None ∧ Forall (λ c, P c.2 = false) cs) ∨
  (∃ a l v b, cs = a ++ (l, v) :: b ∧ found P cs = Some l ∧ P v = true ∧
     Forall (λ c, P c.2 = false) a).
Proof.
  unfold found. induction cs as [|[l v] cs IH]; simpl; [by left|].
  destruct (P v) eqn:E; simpl.
  - right. exists [], l, v, cs. by split_and!.
  - destruct IH as [[-> Hn]|(a & l' & v' & b & -> & -> & Hv & Ha)].
    + left. by split; [|constructor].
    + right. exists ((l, v) :: a), l', v', b. split_and!; [done..|by constructor].
Qed.

(** ** The table of groups *)

(** A group with its block and its members. *)
Record gcell := GCell { gc_loc : loc; gc_val : group; gc_ms : list (loc * group_member) }.
Definition gc_pair (c : gcell) : loc * group := (gc_loc c, gc_val c).
Definition gc_key (c : gcell) : Z * Z * Z := (g_a1 (gc_val c), g_a2 (gc_val c), g_a3 (gc_val c)).
(** A host and the upper bits of the group address it has joined. *)
Definition gm_key (m : group_member) : Z * Z := (gm_ip_addr m, gm_a0 m).
Definition member_locs (gs : list gcell) : list loc := gs ≫= λ c, (gc_ms c).*1.

Record groups_ok (s : igmpd) (gs : list gcell) : Prop := {
  go_head : group_list s = first_loc (gc_pair <$> gs) None;
  go_list : sls g_next (groups s) (gc_pair <$> gs) None;
  go_nodup : NoDup (gc_loc <$> gs);
  go_dom : dom (groups s) = list_to_set (gc_loc <$> gs);
  go_heads : Forall (λ c, g_members (gc_val c) = first_loc (gc_ms c) None) gs;
  go_members : Forall (λ c, sls gm_next (group_members s) (gc_ms c) None) gs;
  go_mnodup : NoDup (member_locs gs);
  go_mdom : dom (group_members s) = list_to_set (member_locs gs);
  go_keys : NoDup (gc_key <$> gs);
  go_uniq : Forall (λ c, NoDup (gm_key <$> (gc_ms c).*2)) gs
}.

Lemma gc_pair_locs gs : (gc_pair <$> gs).*1 = gc_loc <$> gs.
Proof. rewrite <-list_fmap_compose. by apply list_fmap_ext. Qed.

Lemma member_locs_app a b : member_locs (a ++ b) = member_locs a ++ member_locs b.
Proof. apply bind_app. Qed.

Lemma groups_ok_aside s s' gs : aside s s' → groups_ok s gs → groups_ok s' gs.
Proof.
  intros [? ? ? ? ? ? ? Eg Em El] []. split; rewrite ?Eg, ?Em, ?El; done.
Qed.

Lemma group_fuel_enough s gs : groups_ok s gs → (length (gc_pair <$> gs) ≤ size (groups s))%nat.
Proof.
  intros [? Hl Hn]. eapply sls_length; [|exact Hl]. by rewrite gc_pair_locs.
Qed.

(** What is known about the members of one group. *)
Lemma groups_ok_cell s a c b :
  groups_ok s (a ++ c :: b) →
  groups s !! gc_loc c = Some (gc_val c) ∧
  g_next (gc_val c) = first_loc (gc_pair <$> b) None ∧
  g_members (gc_val c) = first_loc (gc_ms c) None ∧
  sls gm_next (group_members s) (gc_ms c) None ∧
  NoDup (gc_ms c).*1.
Proof.
  intros [_ Hl _ _ Hh Hm Hn _ _ _]. rewrite fmap_app, fmap_cons in Hl.
  destruct (sls_lookup _ _ _ _ _ _ _ Hl) as [H1 H2].
  apply Forall_app in Hh as [_ Hh]. apply Forall_app in Hm as [_ Hm].
  apply Forall_cons in Hh as [Hh _]. apply Forall_cons in Hm as [Hm _].
  rewrite member_locs_app in Hn. apply NoDup_app in Hn as (_ & _ & Hn).
  apply NoDup_app in Hn as (Hn & _). done.
Qed.

Lemma member_fuel_enough s a c b :
  groups_ok s (a ++ c :: b) → (length (gc_ms c) ≤ size (group_members s))%nat.
Proof.
  intros H. destruct (groups_ok_cell _ _ _ _ H) as (_ & _ & _ & Hs & Hn).
  by eapply sls_length.
Qed.

(** ** Changing one group

    The block and the members of one group change, not its links and its address.
    The new members are old ones of the group or fresh blocks. *)
Section change.
Context (s s' : igmpd) (a : list gcell) (c : gcell) (b : list gcell) (c' : gcell).
Context (Hok : groups_ok s (a ++ c :: b)).
Context (Eloc : gc_loc c' = gc_loc c) (Ekey : gc_key c' = gc_key c).
Context (Enext : g_next (gc_val c') = g_next (gc_val c)).
Context (Ehead : g_members (gc_val c') = first_loc (gc_ms c') None).
Context (Hms : sls gm_next (group_members s') (gc_ms c') None).
Context (Hnd : NoDup (gc_ms c').*1) (Huniq : NoDup (gm_key <$> (gc_ms c').*2)).
Context (Hout : ∀ l, l ∉ (gc_ms c).*1 → l ∉ (gc_ms c').*1 →
                  group_members s' !! l = group_members s !! l).
Context (Hnew : ∀ l, l ∈ (gc_ms c').*1 → l ∈ (gc_ms c).*1 ∨ group_members s !! l = None).
Context (Hgone : ∀ l, l ∈ (gc_ms c).*1 → l ∉ (gc_ms c').*1 → group_members s' !! l = None).

Lemma member_locs_at x d y : member_locs (x ++ d :: y) = member_locs x ++ (gc_ms d).*1 ++ member_locs y.
Proof. by rewrite member_locs_app. Qed.

Lemma change_apart l : l ∈ (gc_ms c').*1 → l ∉ member_locs a ∧ l ∉ member_locs b.
Proof.
  pose proof (go_mnodup _ _ Hok) as Hn. pose proof (go_mdom _ _ Hok) as Hd.
  rewrite member_locs_at in Hn, Hd. apply NoDup_app in Hn as (_ & Hac & Hn).
  apply NoDup_app in Hn as (_ & Hcb & _).
  intros Hl. destruct (Hnew l Hl) as [Hin|Hno]; [set_solver|].
  apply not_elem_of_dom in Hno. set_solver.
Qed.

Lemma change_others d l :
  d ∈ a ∨ d ∈ b → l ∈ (gc_ms d).*1 → group_members s' !! l = group_members s !! l.
Proof.
  pose proof (go_mnodup _ _ Hok) as Hn. rewrite member_locs_at in Hn.
  apply NoDup_app in Hn as (_ & Hac & Hn). apply NoDup_app in Hn as (_ & Hcb & _).
  intros Hd Hin. assert (l ∈ member_locs a ∨ l ∈ member_locs b) as Hin'.
  { destruct Hd; [left|right]; apply list_elem_of_bind; eauto. }
  apply Hout; [set_solver|]. intros Hc'. destruct (change_apart l Hc'). tauto.
Qed.

Lemma change_dom :
  dom (group_members s') = list_to_set (member_locs (a ++ c' :: b)).
Proof.
  pose proof (go_mdom _ _ Hok) as Hd. pose proof (go_mnodup _ _ Hok) as Hn.
  rewrite member_locs_at in Hn, Hd. apply NoDup_app in Hn as (_ & Hac & Hn).
  apply NoDup_app in Hn as (_ & Hcb & _). rewrite member_locs_at.
  apply set_eq. intros l. rewrite elem_of_dom.
  destruct (decide (l ∈ (gc_ms c').*1)) as [Hin|Hin].
  { split; [set_solver|]. intros _. apply list_elem_of_fmap in Hin as ([k v] & -> & Hin).
    apply list_elem_of_split in Hin as (x & y & E). rewrite E in Hms.
    destruct (sls_lookup _ _ _ _ _ _ _ Hms) as [E' _]. by eexists. }
  destruct (decide (l ∈ (gc_ms c).*1)) as [Hin'|Hin'].
  { rewrite Hgone by done. split; [by intros []|].
    rewrite elem_of_list_to_set, !elem_of_app. set_solver. }
  rewrite Hout, <-elem_of_dom, Hd by done. set_solver.
Qed.

Lemma change_nodup : NoDup (member_locs (a ++ c' :: b)).
Proof.
  pose proof (go_mnodup _ _ Hok) as Hn. rewrite member_locs_at in Hn.
  apply NoDup_app in Hn as (Na & Hac & Hn). apply NoDup_app in Hn as (_ & Hcb & Nb).
  rewrite member_locs_at. apply NoDup_app.
  split_and!; [done| |apply NoDup_app; split_and!; [done| |done]].
  - intros l Hla Hlb. apply elem_of_app in Hlb as [Hlb|Hlb]; [|set_solver].
    by apply change_apart in Hlb as [].
  - intros l Hl' Hlb. by apply change_apart in Hl' as [].
Qed.

Lemma groups_ok_change :
  groups s' = <[gc_loc c := gc_val c']> (groups s) → group_list s' = group_list s →
  groups_ok s' (a ++ c' :: b).
Proof.
  intros Eg El. pose proof change_dom as Hd. pose proof change_nodup as Hn.
  destruct (groups_ok_cell _ _ _ _ Hok) as (Hc & _).
  assert (gc_pair c' = (gc_loc c, gc_val c')) as Ec by (unfold gc_pair; by rewrite Eloc).
  destruct Hok as [H1 H2 H3 H4 H5 H6 _ _ H9 H10].
  split; try done; rewrite ?fmap_app, ?fmap_cons; simpl.
  - rewrite El, H1, fmap_app, fmap_cons, !first_loc_app. simpl. by rewrite Eloc.
  - rewrite Eg, Ec. rewrite fmap_app, fmap_cons in H2.
    eapply sls_set; [|exact Enext|exact H2].
    rewrite fmap_app, fmap_cons, !gc_pair_locs. by rewrite fmap_app, fmap_cons in H3.
  - rewrite Eloc. by rewrite fmap_app, fmap_cons in H3.
  - rewrite Eg, dom_insert_L, H4, Eloc, fmap_app, fmap_cons. set_solver.
  - rewrite Forall_app, Forall_cons in *. tauto.
  - rewrite Forall_app, Forall_cons in *. destruct H6 as (Ha & _ & Hb).
    rewrite Forall_forall in Ha, Hb. split_and!; [|done|]; apply Forall_forall; intros d Hd'.
    + eapply sls_frame; [|by apply Ha]. intros l. apply change_others. by left.
    + eapply sls_frame; [|by apply Hb]. intros l. apply change_others. by right.
  - rewrite Ekey. by rewrite fmap_app, fmap_cons in H9.
  - rewrite Forall_app, Forall_cons in *. tauto.
Qed.
End change.
