(* ===== verification/McOps.v ===== *)
(** * mc_switch.c: what the operations do to the table of groups *)
From S2P Require Import Prelude CLib Heap System Bytes Genconfig SystemApi Callout Igmp McSwitch.
From S2P Require Import IgmpFrame McInv.

(** ** Searches *)
Definition key_is (ip : Z) (g : group) : bool :=
  (g_a1 g =? addr_a1 ip) && (g_a2 g =? addr_a2 ip) && (g_a3 g =? addr_a3 ip).
Definition member_is (u a0 : Z) (m : group_member) : bool :=
  (gm_ip_addr m =? u) && (gm_a0 m =? a0).

(** The key of a group address, and of a host in the group. *)
Definition group_key (ip : Z) : Z * Z * Z := (addr_a1 ip, addr_a2 ip, addr_a3 ip).
Definition member_key (m u : Z) : Z * Z := (u, IP_GET_LOST_MAPPING m).

Lemma key_is_key ip c : key_is ip (gc_val c) = true ↔ gc_key c = group_key ip.
Proof.
  unfold key_is, gc_key, group_key. rewrite !andb_true_iff, !Z.eqb_eq.
  split; [by intros [[-> ->] ->]|by intros [= -> -> ->]].
Qed.
Lemma member_is_key u a0 m : member_is u a0 m = true ↔ gm_key m = (u, a0).
Proof. unfold member_is, gm_key. rewrite andb_true_iff, !Z.eqb_eq.
  split; [by intros [-> ->]|by intros [= -> ->]]. Qed.

(** ** Steps on blocks *)
Section steps.
Implicit Types (s : igmpd) (l : loc).

Lemma load_group_at l g s : groups s !! l = Some g → load_group (Some l) s = Ok (g, s).
Proof. exact (load_Some (V := group) l g s). Qed.
Lemma update_group_at l g f s :
  groups s !! l = Some g →
  update_group (Some l) f s = Ok (tt, set_groups (<[l := f g]> (groups s)) s).
Proof. exact (update_at (V := group) l g f s). Qed.
Lemma free_group_at l g s :
  groups s !! l = Some g → free_group (Some l) s = Ok (tt, set_groups (delete l (groups s)) s).
Proof. exact (free_Some (V := group) l g s). Qed.
Lemma load_member_at l m s :
  group_members s !! l = Some m → load_member (Some l) s = Ok (m, s).
Proof. exact (load_Some (V := group_member) l m s). Qed.
Lemma update_member_at l m f s :
  group_members s !! l = Some m →
  update_member (Some l) f s = Ok (tt, set_group_members (<[l := f m]> (group_members s)) s).
Proof. exact (update_at (V := group_member) l m f s). Qed.
Lemma free_member_at l m s :
  group_members s !! l = Some m →
  free_member (Some l) s = Ok (tt, set_group_members (delete l (group_members s)) s).
Proof. exact (free_Some (V := group_member) l m s). Qed.
End steps.

Section searches.
Context {MC : Multicast}.

Lemma find_entry_loop_ok fuel ip cs s :
  sls g_next (groups s) cs None → (length cs < fuel)%nat →
  find_entry_loop fuel (addr_a1 ip) (addr_a2 ip) (addr_a3 ip) (first_loc cs None) s =
    Ok (found (key_is ip) cs, s).
Proof.
  revert fuel. induction cs as [|[l v] cs IH]; intros [|fuel] Hs Hf; simpl in Hf; try lia; [done|].
  destruct Hs as (Hl & Hn & Hs). cbn [find_entry_loop first_loc].
  rewrite (bind_Ok _ _ _ v s) by by apply load_group_at.
  unfold found. cbn [find]. cbv beta. fold (key_is ip v). cbn [snd].
  destruct (key_is ip v); [done|]. rewrite Hn. apply IH; [done|lia].
Qed.

Lemma find_entry_ok ip s gs :
  groups_ok s gs → find_entry ip s = Ok (found (key_is ip) (gc_pair <$> gs), s).
Proof.
  intros H. pose proof (group_fuel_enough _ _ H). destruct H.
  unfold find_entry, group_fuel. rewrite !bind_gets, go_head.
  apply find_entry_loop_ok; [done|lia].
Qed.

(** The entry of an address, if there is one. *)
Lemma find_cell ip gs :
  (found (key_is ip) (gc_pair <$> gs) = None ∧ Forall (λ c, key_is ip (gc_val c) = false) gs) ∨
  (∃ a c b, gs = a ++ c :: b ∧ found (key_is ip) (gc_pair <$> gs) = Some (gc_loc c) ∧
     key_is ip (gc_val c) = true).
Proof.
  destruct (found_split (key_is ip) (gc_pair <$> gs))
    as [[E Hn]|(a & l & v & b & E & Ef & Hv & Ha)].
  - left. split; [done|]. apply Forall_fmap in Hn. eapply Forall_impl; [exact Hn|]. done.
  - right. apply fmap_app_inv in E as (ga & gb & -> & Eb & ->).
    destruct gb as [|c gb]; [done|]. injection Eb as -> -> ->. by exists ga, c, gb.
Qed.

Lemma found_at ip a c b :
  NoDup (gc_key <$> a ++ c :: b) → gc_key c = group_key ip →
  found (key_is ip) (gc_pair <$> a ++ c :: b) = Some (gc_loc c).
Proof.
  intros Hnd Hk. unfold found. induction a as [|d a IH]; simpl.
  - by rewrite (proj2 (key_is_key ip c) Hk).
  - apply NoDup_cons in Hnd as [Hd Hnd]. destruct (key_is ip (gc_val d)) eqn:E; [|by apply IH].
    apply key_is_key in E. destruct Hd. rewrite E, <-Hk. apply list_elem_of_fmap_2. set_solver.
Qed.

Lemma no_key ip gs :
  Forall (λ c, key_is ip (gc_val c) = false) gs → group_key ip ∉ gc_key <$> gs.
Proof.
  intros Hn Hin. apply list_elem_of_fmap in Hin as (c & E & Hin). rewrite Forall_forall in Hn.
  specialize (Hn _ Hin). pose proof (proj2 (key_is_key ip c) (eq_sym E)). congruence.
Qed.

Lemma lookup_member_loop_ok fuel a0 u cs s :
  sls gm_next (group_members s) cs None → (length cs < fuel)%nat →
  lookup_member_loop fuel a0 u (first_loc cs None) s = Ok (found (member_is u a0) cs, s).
Proof.
  revert fuel. induction cs as [|[l v] cs IH]; intros [|fuel] Hs Hf; simpl in Hf; try lia; [done|].
  destruct Hs as (Hl & Hn & Hs). cbn [lookup_member_loop first_loc].
  rewrite (bind_Ok _ _ _ v s) by by apply load_member_at.
  unfold found. cbn [find]. cbv beta. fold (member_is u a0 v). cbn [snd].
  destruct (member_is u a0 v); [done|]. rewrite Hn. apply IH; [done|lia].
Qed.

Lemma load_group_ok s a c b :
  groups_ok s (a ++ c :: b) → load_group (Some (gc_loc c)) s = Ok (gc_val c, s).
Proof. intros H. apply groups_ok_cell in H as (H & _). by apply load_group_at. Qed.

Lemma lookup_member_ok s a c b m u :
  groups_ok s (a ++ c :: b) →
  lookup_member (Some (gc_loc c)) m u s =
    Ok (found (member_is u (IP_GET_LOST_MAPPING m)) (gc_ms c), s).
Proof.
  intros H. pose proof (member_fuel_enough _ _ _ _ H) as Hf.
  destruct (groups_ok_cell _ _ _ _ H) as (_ & _ & Hm & Hs & _).
  unfold lookup_member, member_fuel. rewrite (bind_Ok _ _ _ _ _ (load_group_ok _ _ _ _ H)).
  rewrite bind_gets, Hm. apply lookup_member_loop_ok; [done|lia].
Qed.
End searches.

Lemma NoDup_without {A} (x : list A) k y : NoDup (x ++ k :: y) → NoDup (x ++ y).
Proof.
  rewrite !NoDup_app, NoDup_cons. intros (Hx & Hxy & _ & Hy). split_and!; [done| |done].
  intros z Hz Hz'. apply (Hxy z Hz). by constructor.
Qed.

(** ** Members without their links *)
Record mview := MView { mv_key : Z * Z; mv_port : Z; mv_has_report : Z; mv_sent_report : Z }.
Definition view (m : group_member) : mview :=
  MView (gm_key m) (gm_port_num m) (gm_has_report m) (gm_sent_report m).
Definition views (c : gcell) : list mview := view <$> (gc_ms c).*2.

(** The members after a report of the host [k], which is behind [port]. *)
Definition joined (k : Z * Z) (port : Z) (vs : list mview) : list mview :=
  if bool_decide (k ∈ mv_key <$> vs)
  then (λ v, if bool_decide (mv_key v = k) then MView k port 10 0 else v) <$> vs
  else MView k port 10 0 :: vs.

(** The members after the host [k] has left. *)
Definition departed (k : Z * Z) (vs : list mview) : list mview :=
  filter (λ v, mv_key v ≠ k) vs.

Lemma joined_at k port x v y :
  NoDup (mv_key <$> x ++ v :: y) → mv_key v = k →
  joined k port (x ++ v :: y) = x ++ MView k port 10 0 :: y.
Proof.
  intros Hnd Hv. unfold joined. rewrite bool_decide_true.
  2: { rewrite fmap_app, fmap_cons, Hv. set_solver. }
  rewrite fmap_app, fmap_cons in Hnd. rewrite fmap_app, fmap_cons.
  apply NoDup_app in Hnd as (_ & Hx & Hnd).
  apply NoDup_cons in Hnd as [Hy _]. rewrite Hv in *. rewrite bool_decide_true by done.
  assert (∀ l : list mview, k ∉ mv_key <$> l →
    (λ v, if bool_decide (mv_key v = k) then MView k port 10 0 else v) <$> l = l) as Hid.
  { intros l Hk. rewrite <-(list_fmap_id l) at 2. apply list_fmap_ext. intros i w Hw.
    rewrite bool_decide_false; [done|]. intros E. apply Hk. rewrite <-E.
    apply list_elem_of_fmap_2. by eapply list_elem_of_lookup_2. }
  rewrite !Hid; [done|set_solver|]. intros Hin. apply (Hx k Hin). set_solver.
Qed.

Lemma joined_new k port vs : k ∉ mv_key <$> vs → joined k port vs = MView k port 10 0 :: vs.
Proof. intros H. unfold joined. by rewrite bool_decide_false. Qed.

Lemma departed_at k x v y :
  NoDup (mv_key <$> x ++ v :: y) → mv_key v = k → departed k (x ++ v :: y) = x ++ y.
Proof.
  intros Hnd Hv. rewrite fmap_app, fmap_cons in Hnd. apply NoDup_app in Hnd as (_ & Hx & Hnd).
  apply NoDup_cons in Hnd as [Hy _]. rewrite Hv in *. unfold departed.
  rewrite filter_app, filter_cons_False by naive_solver.
  assert (∀ l : list mview, k ∉ mv_key <$> l → filter (λ v, mv_key v ≠ k) l = l) as Hid.
  { intros l Hk. apply filter_all, Forall_forall. intros w Hw E. apply Hk. rewrite <-E.
    by apply list_elem_of_fmap_2. }
  rewrite !Hid; [done|set_solver|]. intros Hin. apply (Hx k Hin). set_solver.
Qed.

Lemma departed_none k vs : k ∉ mv_key <$> vs → departed k vs = vs.
Proof.
  intros Hk. apply filter_all, Forall_forall. intros w Hw E. apply Hk. rewrite <-E.
  by apply list_elem_of_fmap_2.
Qed.

Lemma views_keys c : mv_key <$> views c = gm_key <$> (gc_ms c).*2.
Proof. unfold views. by rewrite <-list_fmap_compose. Qed.

Lemma views_at c x l v y :
  gc_ms c = x ++ (l, v) :: y → views c = (view <$> x.*2) ++ view v :: (view <$> y.*2).
Proof. intros E. unfold views. by rewrite E, !fmap_app, !fmap_cons. Qed.

Lemma no_member u a0 c :
  Forall (λ d : loc * group_member, member_is u a0 d.2 = false) (gc_ms c) →
  (u, a0) ∉ mv_key <$> views c.
Proof.
  rewrite views_keys, Forall_forall. intros Hn Hin.
  apply list_elem_of_fmap in Hin as (m & E & Hin).
  apply list_elem_of_fmap in Hin as ([l m'] & -> & Hin). specialize (Hn _ Hin). simpl in *.
  symmetry in E. apply member_is_key in E. congruence.
Qed.

(** The same group with other members or another map of ports. *)
Definition same_group (c c' : gcell) : Prop :=
  gc_loc c' = gc_loc c ∧ gc_key c' = gc_key c ∧ g_a0 (gc_val c') = g_a0 (gc_val c).
#[export] Instance same_group_preorder : PreOrder same_group.
Proof. split; [done|]. intros c1 c2 c3 (? & ? & ?) (? & ? & ?). split_and!; congruence. Qed.

(** ** The map of ports *)

(** [z] has the ports of the members, or the ports of the local network when the
    port of one of them is not known. *)
Definition lan_ports `{!Multicast} (ports : list Z) (z : Z) : Prop :=
  if bool_decide (255 ∈ ports) then ∃ b, bit hw_wan_port = Ok b ∧ z = Z.land 0x5f (Z.lnot b)
  else ∀ i, 0 ≤ i → Z.testbit z i = bool_decide (i ∈ ports).
Definition ports_ok `{!Multicast} (c : gcell) : Prop :=
  lan_ports (mv_port <$> views c) (g_port_map (gc_val c)).

Lemma bit_testbit n b i : bit n = Ok b → 0 ≤ i → Z.testbit b i = bool_decide (i = n).
Proof.
  unfold bit. destruct (_ && _) eqn:E; intros [= <-] Hi.
  apply andb_true_iff in E as [E%Z.leb_le _].
  destruct (decide (i = n)) as [->|Hne]; [by rewrite Z.pow2_bits_true, bool_decide_true|].
  rewrite Z.pow2_bits_false by lia. by rewrite bool_decide_false.
Qed.

(** ** The table without locations *)
Abbreviation table := (list ((Z * Z * Z) * list mview)).
Definition tview (gs : list gcell) : table := (λ c, (gc_key c, views c)) <$> gs.
Definition ALL_HOSTS_KEY : Z * Z * Z := (0, 0, 1).

Definition at_group (k : Z * Z * Z) (f : list mview → list mview) (t : table) : table :=
  (λ e, if bool_decide (e.1 = k) then (e.1, f e.2) else e) <$> t.

(** The report of a host for a group: its entry is new, or has the host with a
    fresh report. *)
Definition spec_join (m u port : Z) (t : table) : table :=
  if bool_decide (group_key m ∈ t.*1) then at_group (group_key m) (joined (member_key m u) port) t
  else (group_key m, [MView (member_key m u) port 10 0]) :: t.
Definition spec_leave (m u : Z) (t : table) : table :=
  at_group (group_key m) (departed (member_key m u)) t.

Lemma tview_keys gs : (tview gs).*1 = gc_key <$> gs.
Proof. unfold tview. by rewrite <-list_fmap_compose. Qed.

Lemma at_group_other k f t : k ∉ t.*1 → at_group k f t = t.
Proof.
  intros Hk. unfold at_group. rewrite <-(list_fmap_id t) at 2. apply list_fmap_ext.
  intros i e He. rewrite bool_decide_false; [done|]. intros <-. apply Hk.
  apply list_elem_of_fmap_2. by eapply list_elem_of_lookup_2.
Qed.

Lemma at_group_split k f a c b :
  NoDup (gc_key <$> a ++ c :: b) → gc_key c = k →
  at_group k f (tview (a ++ c :: b)) = tview a ++ (k, f (views c)) :: tview b.
Proof.
  intros Hnd <-. rewrite fmap_app, fmap_cons in Hnd. apply NoDup_app in Hnd as (_ & Ha & Hnd).
  apply NoDup_cons in Hnd as [Hb _]. unfold tview. rewrite fmap_app, fmap_cons.
  unfold at_group. rewrite fmap_app, fmap_cons, bool_decide_true by done.
  pose proof (at_group_other (gc_key c) f (tview a)) as Ea.
  pose proof (at_group_other (gc_key c) f (tview b)) as Eb. rewrite tview_keys in Ea, Eb.
  unfold at_group, tview in Ea, Eb. rewrite Ea, Eb; [done|done|].
  intros Hin. apply (Ha _ Hin). set_solver.
Qed.

Section operations.
Context {MC : Multicast} {F : fault → Prop} `{!Safe F}.

(** A change of the value of one member. *)
Lemma groups_ok_member s a c b x l v w y :
  groups_ok s (a ++ c :: b) → gc_ms c = x ++ (l, v) :: y →
  gm_next w = gm_next v → gm_key w = gm_key v →
  groups_ok (set_group_members (<[l := w]> (group_members s)) s)
    (a ++ GCell (gc_loc c) (gc_val c) (x ++ (l, w) :: y) :: b).
Proof.
  intros H E Hn Hk. destruct (groups_ok_cell _ _ _ _ H) as (Hc & _ & Hh & Hs & Hnd).
  pose proof (go_uniq _ _ H) as Hu. rewrite Forall_app, Forall_cons in Hu.
  destruct Hu as (_ & Hu & _). rewrite E in *.
  eapply groups_ok_change; try done; simpl.
  - rewrite Hh, !first_loc_app. done.
  - by eapply sls_set.
  - by rewrite fmap_app, fmap_cons in Hnd |- *.
  - rewrite !fmap_app, !fmap_cons in Hu |- *. cbn [snd] in *. by rewrite Hk.
  - rewrite E, !fmap_app, !fmap_cons. intros k Hk' _. apply lookup_insert_ne. set_solver.
  - rewrite E, !fmap_app, !fmap_cons. by left.
  - rewrite E, !fmap_app, !fmap_cons. done.
  - by rewrite insert_id.
Qed.

(** A new member at the head of a group. *)
Lemma groups_ok_add s a c b m :
  groups_ok s (a ++ c :: b) → gm_key m ∉ mv_key <$> views c → gm_next m = g_members (gc_val c) →
  let l := fresh (dom (group_members s)) in
  groups_ok (set_groups (<[gc_loc c := with_members (Some l) (gc_val c)]> (groups s))
               (set_group_members (<[l := m]> (group_members s)) s))
    (a ++ GCell (gc_loc c) (with_members (Some l) (gc_val c)) ((l, m) :: gc_ms c) :: b).
Proof.
  intros H Hk Hn l. destruct (groups_ok_cell _ _ _ _ H) as (Hc & _ & Hh & Hs & Hnd).
  assert (group_members s !! l = None) as Hl by apply not_elem_of_dom, is_fresh.
  assert (l ∉ (gc_ms c).*1) as Hl'.
  { intros Hin. assert (l ∈ dom (group_members s)) as Hd; [|by apply elem_of_dom in Hd as []; congruence].
    rewrite (go_mdom _ _ H). apply elem_of_list_to_set. rewrite member_locs_at. set_solver. }
  pose proof (go_uniq _ _ H) as Hu. rewrite Forall_app, Forall_cons in Hu.
  destruct Hu as (_ & Hu & _). rewrite views_keys in Hk.
  eapply groups_ok_change; try done; simpl.
  - rewrite lookup_insert_eq. split_and!; [done|congruence|].
    eapply sls_frame; [|done]. intros k Hk'. apply lookup_insert_ne. by intros ->.
  - by constructor.
  - by constructor.
  - intros k Hk' Hk2. apply lookup_insert_ne. set_solver.
  - intros k Hk'. apply elem_of_cons in Hk' as [->|Hk']; [by right|by left].
  - set_solver.
Qed.

Lemma insert_member_ok s a c b m u :
  groups_ok s (a ++ c :: b) →
  wp F (insert_member (Some (gc_loc c)) m u) (λ _ s', ∃ c' port,
    groups_ok s' (a ++ c' :: b) ∧ beside s s' ∧ same_group c c' ∧
    views c' = joined (u, IP_GET_LOST_MAPPING m) port (views c)) s.
Proof.
  intros H. unfold insert_member. eapply wp_step; [by eapply load_group_ok|].
  destruct (groups_ok_cell _ _ _ _ H) as (Hc & _ & Hh & Hs & Hnd).
  eapply (wp_step _ _ _ _ (found (member_is u (IP_GET_LOST_MAPPING m)) (gc_ms c)) s).
  { rewrite Hh. destruct (gc_ms c) as [|[l v] ms] eqn:E; [done|]. cbn [first_loc].
    rewrite (lookup_member_ok s a c b) by done. by rewrite E. }
  destruct (found_split (member_is u (IP_GET_LOST_MAPPING m)) (gc_ms c))
    as [[-> Hn]|(x & l & v & y & E & -> & Hv & _)].
  - eapply wp_seq; [apply port_of_runs|]. intros port s1 Ha.
    pose proof (groups_ok_aside _ _ _ Ha H) as H1. pose proof (no_member _ _ _ Hn) as Hno.
    pose proof (groups_ok_add s1 a c b (Member u (IP_GET_LOST_MAPPING m) port 10 0
      (g_members (gc_val c))) H1 Hno eq_refl) as H2.
    eapply wp_step; [done|]. eapply wp_step.
    { apply update_group_at. simpl. by destruct (groups_ok_cell _ _ _ _ H1) as (Hc1 & _). }
    apply wp_ret. eexists _, port. split; [exact H2|]. split; [|split; [done|]].
    + transitivity s1; [by apply aside_beside|done].
    + by rewrite joined_new.
  - apply member_is_key in Hv. eapply wp_seq; [apply port_of_runs|]. intros port s1 Ha.
    pose proof (groups_ok_aside _ _ _ Ha H) as H1.
    destruct (groups_ok_cell _ _ _ _ H1) as (_ & _ & _ & Hs1 & _).
    pose proof Hs1 as Hl. rewrite E in Hl. apply sls_lookup in Hl as [Hl _].
    eapply wp_step; [by apply load_member_at|].
    set (w := if negb (port =? gm_port_num v) then with_port port v else v).
    eapply (wp_step _ _ _ _ tt (set_group_members (<[l := w]> (group_members s1)) s1)).
    { subst w. destruct (negb _); simpl; [by apply update_member_at|].
      unfold mret, M_ret. do 2 f_equal. rewrite insert_id by done. by destruct s1. }
    eapply wp_step; [apply (update_member_at l w), lookup_insert_eq|].
    pose proof (groups_ok_member s1 a c b x l v (with_report 10 0 w) y H1 E
      ltac:(by subst w; destruct (negb _)) ltac:(by subst w; destruct (negb _))) as H2.
    apply wp_ret. eexists _, port. split; [|split; [|split]].
    + simpl. rewrite insert_insert_eq. exact H2.
    + transitivity s1; [by apply aside_beside|done].
    + done.
    + rewrite (views_at c x l v y E), joined_at.
      * unfold views. simpl. rewrite !fmap_app, !fmap_cons, <-Hv. subst w.
        destruct (Z.eqb_spec port (gm_port_num v)) as [->|]; done.
      * rewrite <-(views_at c x l v y E), views_keys.
        pose proof (go_uniq _ _ H) as Hu. rewrite Forall_app, Forall_cons in Hu. tauto.
      * done.
Qed.

Lemma port_map_loop_ok fuel ms acc s :
  sls gm_next (group_members s) ms None → (length ms < fuel)%nat →
  wp F (port_map_loop fuel (first_loc ms None) acc) (λ z s', s' = s ∧
    if bool_decide (255 ∈ gm_port_num <$> ms.*2)
    then ∃ b, bit hw_wan_port = Ok b ∧ z = Z.land 0x5f (Z.lnot b)
    else ∀ i, 0 ≤ i → Z.testbit z i = Z.testbit acc i || bool_decide (i ∈ gm_port_num <$> ms.*2)) s.
Proof.
  revert fuel acc. induction ms as [|[l m] ms IH]; intros [|fuel] acc Hs Hf; simpl in Hf; try lia.
  { apply wp_ret. split; [done|]. rewrite bool_decide_false by set_solver. intros i _.
    rewrite bool_decide_false by set_solver. by rewrite orb_false_r. }
  destruct Hs as (Hl & Hn & Hs). cbn [port_map_loop first_loc].
  eapply wp_step; [by apply load_member_at|]. cbn [fmap list_fmap snd].
  destruct (Z.eqb_spec (gm_port_num m) 255) as [E|E].
  - rewrite E, bool_decide_true by set_solver. destruct (bit hw_wan_port) as [b|e|] eqn:Eb.
    + eapply wp_step; [done|]. apply wp_ret. eauto.
    + pose proof (bit_runs (F := F) hw_wan_port) as Hb. by rewrite Eb in Hb.
    + pose proof (bit_runs (F := F) hw_wan_port) as Hb. by rewrite Eb in Hb.
  - destruct (bit (gm_port_num m)) as [b|e|] eqn:Eb.
    2,3: pose proof (bit_runs (F := F) (gm_port_num m)) as Hb; by rewrite Eb in Hb.
    eapply wp_step; [done|]. rewrite Hn. eapply wp_mono; [apply IH; [done|lia]|].
    intros z s' [-> Hz]. split; [done|].
    destruct (decide (255 ∈ gm_port_num <$> ms.*2)) as [Hin|Hin].
    + rewrite bool_decide_true in Hz |- * by set_solver. done.
    + rewrite bool_decide_false in Hz |- * by set_solver. intros i Hi.
      rewrite Hz, Z.lor_spec, (bit_testbit _ _ _ Eb Hi), <-orb_assoc by done. f_equal.
      rewrite <-bool_decide_or. apply bool_decide_ext. rewrite elem_of_cons. done.
Qed.

Lemma update_group_port_map_ok s a c b :
  groups_ok s (a ++ c :: b) →
  wp F (update_group_port_map (Some (gc_loc c))) (λ _ s', ∃ c',
    groups_ok s' (a ++ c' :: b) ∧ beside s s' ∧ same_group c c' ∧ gc_ms c' = gc_ms c ∧
    ports_ok c') s.
Proof.
  intros H. unfold update_group_port_map. eapply wp_step; [by eapply load_group_ok|].
  pose proof (member_fuel_enough _ _ _ _ H) as Hf.
  destruct (groups_ok_cell _ _ _ _ H) as (Hc & Hnx & Hh & Hs & Hnd).
  apply wp_gets. rewrite Hh. eapply wp_seq; [apply port_map_loop_ok; [done|lia]|].
  intros z s1 [-> Hz].
  assert (lan_ports (mv_port <$> views c) z) as Hp.
  { unfold lan_ports, views. rewrite <-list_fmap_compose.
    change (mv_port ∘ view) with gm_port_num. destruct (bool_decide _); [done|].
    intros i Hi. by rewrite (Hz i Hi), Z.bits_0. }
  destruct (Z.eqb_spec (g_port_map (gc_val c)) z) as [E|E]; simpl.
  { apply wp_ret. exists c. unfold ports_ok. by rewrite E. }
  eapply wp_step; [by apply update_group_at|].
  set (c' := GCell (gc_loc c) (with_port_map z (gc_val c)) (gc_ms c)).
  assert (groups_ok (set_groups (<[gc_loc c := gc_val c']> (groups s)) s) (a ++ c' :: b)) as H'.
  { pose proof (go_uniq _ _ H) as Hu. rewrite Forall_app, Forall_cons in Hu.
    eapply groups_ok_change; try done; [tauto|by left]. }
  eapply wp_step; [exact (load_group_ok _ a c' b H')|].
  eapply wp_mono; [apply updateMacTable_runs|]. intros [] s2 Ha. exists c'.
  split; [by eapply groups_ok_aside|]. split; [|done].
  etransitivity; [|by apply aside_beside]. done.
Qed.

(** ** The file of groups *)
Lemma write_members_ok fuel ms s :
  sls gm_next (group_members s) ms None → (length ms < fuel)%nat →
  wp F (write_members fuel (first_loc ms None)) (λ _ s', aside s s') s.
Proof.
  revert fuel s. induction ms as [|[l m] ms IH]; intros [|fuel] s Hs Hf; simpl in Hf; try lia.
  { by apply wp_ret. }
  destruct Hs as (Hl & Hn & Hs). cbn [write_members first_loc].
  eapply wp_step; [by apply load_member_at|].
  eapply wp_seq; [apply ilib_runs, fprintf_runs|]. intros [] s1 Ha. rewrite Hn.
  eapply wp_mono; [apply IH; [|lia]|].
  - by rewrite (as_members _ _ Ha).
  - intros [] s2 Ha2. by transitivity s1.
Qed.

Lemma write_groups_ok fuel a gs s :
  groups_ok s (a ++ gs) → (length gs < fuel)%nat →
  wp F (write_groups fuel (first_loc (gc_pair <$> gs) None)) (λ _ s', aside s s') s.
Proof.
  revert fuel a s. induction gs as [|c gs IH]; intros [|fuel] a s H Hf; simpl in Hf; try lia.
  { by apply wp_ret. }
  cbn [write_groups fmap list_fmap first_loc gc_pair].
  destruct (groups_ok_cell _ _ _ _ H) as (Hc & Hnx & Hh & Hs & _).
  eapply wp_step; [by eapply load_group_ok|]. rewrite Hh, Hnx.
  apply wp_seq with (λ _ s', aside s s').
  { destruct (gc_ms c) as [|[l m] ms]; simpl; [by apply wp_ret|].
    eapply wp_step; [apply load_member_at, Hs|]. apply ilib_runs, fprintf_runs. }
  intros [] s1 Ha. pose proof (groups_ok_aside _ _ _ Ha H) as H1. apply wp_gets.
  eapply wp_seq.
  { apply write_members_ok.
    - by destruct (groups_ok_cell _ _ _ _ H1) as (_ & _ & _ & Hs1 & _).
    - pose proof (member_fuel_enough _ _ _ _ H1). lia. }
  intros [] s2 Ha2. eapply wp_mono; [apply (IH _ (a ++ [c])); [|lia]|].
  - rewrite <-app_assoc. by do 2 (eapply groups_ok_aside; [done|]).
  - intros [] s3 Ha3. by transitivity s2; [transitivity s1|].
Qed.

Lemma write_entry_ok s gs :
  groups_ok s gs → wp F write_entry (λ _ s', aside s s') s.
Proof.
  intros H. unfold write_entry, group_fuel.
  eapply wp_seq; [apply ilib_runs, lock_file_runs|]. intros fd s1 H1.
  eapply wp_seq; [apply ilib_runs, fopen_w_runs|]. intros fp s2 H2.
  assert (aside s s2) as Ha by by transitivity s1.
  destruct (negb fp).
  { eapply wp_mono; [apply ilib_runs, unlock_file_runs|]. intros [] s3 H3. by transitivity s2. }
  pose proof (groups_ok_aside _ _ _ Ha H) as Hg. do 2 apply wp_gets.
  eapply wp_seq.
  { rewrite (go_head _ _ Hg). apply (write_groups_ok _ [] gs); [done|].
    pose proof (group_fuel_enough _ _ Hg) as Hf. rewrite length_fmap in Hf. lia. }
  intros [] s3 H3. eapply wp_mono; [apply ilib_runs, unlock_file_runs|].
  intros [] s4 H4. by transitivity s3; [transitivity s2|].
Qed.

(** ** Joining *)
Lemma groups_ok_new s gs g :
  groups_ok s gs → g_members g = None → g_next g = group_list s →
  (g_a1 g, g_a2 g, g_a3 g) ∉ gc_key <$> gs →
  let l := fresh (dom (groups s)) in
  groups_ok (set_group_list (Some l) (set_groups (<[l := g]> (groups s)) s)) (GCell l g [] :: gs).
Proof.
  intros H Hm Hn Hk l.
  assert (l ∉ gc_loc <$> gs) as Hl.
  { intros Hin. assert (l ∈ dom (groups s)) as Hd; [|by apply is_fresh in Hd].
    rewrite (go_dom _ _ H). by apply elem_of_list_to_set. }
  destruct H as [H1 H2 H3 H4 H5 H6 H7 H8 H9 H10].
  split; try done; rewrite ?fmap_cons; simpl.
  - rewrite lookup_insert_eq. split_and!; [done|by rewrite Hn|].
    eapply sls_frame; [|done]. rewrite gc_pair_locs. intros k Hk'.
    apply lookup_insert_ne. by intros ->.
  - by constructor.
  - rewrite dom_insert_L, H4. done.
  - by constructor.
  - by constructor.
  - by constructor.
  - constructor; [by constructor|done].
Qed.

(** The entry of an address: found, new, or none for the address of all hosts. *)
Definition get_entry (m : Z) : M igmpd ptr :=
  found ← find_entry m;
  match found with
  | Some _ => mret found
  | None =>
      built ← build_entry m;
      match built with
      | None => mret None
      | Some _ =>
          hd ← gets group_list;
          when (bool_decide (hd ≠ None)) (update_group built (with_next hd));;
          modify (set_group_list built);;
          mret built
      end
  end.

Lemma get_entry_ok s gs m :
  groups_ok s gs →
  wp F (get_entry m) (λ p s', beside s s' ∧
    match p with
    | None => s' = s ∧ group_key m = ALL_HOSTS_KEY ∧ group_key m ∉ gc_key <$> gs
    | Some l => ∃ a c b, groups_ok s' (a ++ c :: b) ∧ gc_loc c = l ∧ gc_key c = group_key m ∧
        (a ++ c :: b = gs ∨
         (a = [] ∧ b = gs ∧ gc_ms c = [] ∧ group_key m ∉ gc_key <$> gs ∧
          group_key m ≠ ALL_HOSTS_KEY))
    end) s.
Proof.
  intros H. unfold get_entry. eapply wp_step; [by apply find_entry_ok|].
  destruct (find_cell m gs) as [[-> Hn]|(a & c & b & -> & -> & Hc)].
  2: { apply wp_ret. split; [done|]. exists a, c, b. apply key_is_key in Hc. eauto. }
  pose proof (no_key _ _ Hn) as Hk.
  unfold build_entry. destruct (_ && _ && _) eqn:E.
  { eapply wp_step; [done|]. apply wp_ret. split_and!; try done.
    rewrite !andb_true_iff, !Z.eqb_eq in E. destruct E as [[E1 E2] E3].
    unfold group_key. by rewrite E1, E2, E3. }
  set (g := Group (IP_GET_LOST_MAPPING m) (addr_a1 m) (addr_a2 m) (addr_a3 m) 0 None None).
  pose proof (groups_ok_new s gs (with_next (group_list s) g) H eq_refl eq_refl Hk) as H1.
  eapply wp_step; [done|]. apply wp_gets.
  eapply (wp_step _ _ _ _ tt
    (set_groups (<[fresh (dom (groups s)) := with_next (group_list s) g]> (groups s)) s)).
  { simpl. destruct (group_list s) eqn:El; [|done].
    rewrite bool_decide_true by done. simpl.
    rewrite (update_group_at _ g) by apply lookup_insert_eq. simpl.
    by rewrite insert_insert_eq. }
  apply wp_modify, wp_ret. split; [done|].
  exists [], (GCell (fresh (dom (groups s))) (with_next (group_list s) g) []), gs.
  split; [exact H1|]. split; [done|]. split; [done|]. right. split_and!; [done..|].
  intros [= E1 E2 E3]. by rewrite E1, E2, E3 in E.
Qed.

(** The entry of the table changes, the others stay. *)
Lemma tview_at a c b : tview (a ++ c :: b) = tview a ++ (gc_key c, views c) :: tview b.
Proof. unfold tview. by rewrite fmap_app, fmap_cons. Qed.

Lemma ports_ok_at a c c' b :
  Forall ports_ok (a ++ c :: b) → ports_ok c' → Forall ports_ok (a ++ c' :: b).
Proof. rewrite !Forall_app, !Forall_cons. tauto. Qed.

Lemma insert_multicast_ip_ok s gs m u :
  groups_ok s gs →
  wp F (insert_multicast_ip m u) (λ _ s', beside s s' ∧ ∃ gs', groups_ok s' gs' ∧
    (Forall ports_ok gs → Forall ports_ok gs') ∧
    (((group_key m ∈ gc_key <$> gs ∨ group_key m ≠ ALL_HOSTS_KEY) ∧
      ∃ port, tview gs' = spec_join m u port (tview gs)) ∨
     (group_key m = ALL_HOSTS_KEY ∧ group_key m ∉ gc_key <$> gs ∧ gs' = gs))) s.
Proof.
  intros H. apply wp_assoc. eapply wp_seq; [by apply get_entry_ok|].
  intros [l|] s1 [Hb Hp].
  2: { destruct Hp as (-> & E & Hn). apply wp_ret. split; [done|]. exists gs. eauto 10. }
  destruct Hp as (a & c & b & H1 & <- & Hk & Hgs).
  eapply wp_seq; [by apply insert_member_ok|].
  intros _ s2 (c2 & port & H2 & Hb2 & Hs2 & Hv2). rewrite <-(proj1 Hs2).
  eapply wp_seq; [by apply update_group_port_map_ok|].
  intros _ s3 (c3 & H3 & Hb3 & Hs3 & Hm3 & Hp3).
  eapply wp_mono; [by eapply write_entry_ok|]. intros [] s4 Ha4. split.
  { transitivity s3; [|by apply aside_beside]. transitivity s2; [|done]. by transitivity s1. }
  exists (a ++ c3 :: b). split; [by eapply groups_ok_aside|].
  assert (gc_key c3 = group_key m) as Hk3 by (destruct Hs2 as (_ & E2 & _), Hs3 as (_ & E3 & _); congruence).
  assert (views c3 = joined (member_key m u) port (views c)) as Hv3.
  { transitivity (views c2); [|done]. unfold views. by rewrite Hm3. }
  destruct Hgs as [<-|(-> & -> & Hms & Hno & Hall)].
  - split; [intros Hp; by eapply ports_ok_at|]. left.
    split; [left; rewrite fmap_app, fmap_cons, Hk; set_solver|]. exists port. unfold spec_join.
    rewrite bool_decide_true by (rewrite tview_keys, fmap_app, fmap_cons, Hk; set_solver).
    rewrite at_group_split, tview_at, Hk3, Hv3; [done|by destruct H1|done].
  - split; [by constructor|]. left. split; [by right|]. exists port. unfold spec_join.
    rewrite bool_decide_false by by rewrite tview_keys.
    rewrite (tview_at []), Hk3, Hv3. unfold views. by rewrite Hms.
Qed.

(** ** Leaving *)

(** A group without one of its members, whose block is freed. *)
Lemma groups_ok_drop s s' a c b x l v y hm :
  groups_ok s (a ++ c :: b) → gc_ms c = x ++ (l, v) :: y →
  groups s' = <[gc_loc c := with_members (first_loc (hm ++ y) None) (gc_val c)]> (groups s) →
  group_list s' = group_list s →
  sls gm_next (group_members s') (hm ++ y) None →
  hm.*1 = x.*1 → gm_key <$> hm.*2 = gm_key <$> x.*2 →
  (∀ k, k ∉ x.*1 → k ≠ l → group_members s' !! k = group_members s !! k) →
  group_members s' !! l = None →
  groups_ok s' (a ++ GCell (gc_loc c) (with_members (first_loc (hm ++ y) None) (gc_val c)) (hm ++ y) :: b).
Proof.
  intros H E Eg El Hs Hl Hk Hout Hgone.
  destruct (groups_ok_cell _ _ _ _ H) as (_ & _ & _ & _ & Hnd).
  pose proof (go_uniq _ _ H) as Hu. rewrite Forall_app, Forall_cons in Hu.
  destruct Hu as (_ & Hu & _). rewrite E in Hnd, Hu.
  rewrite fmap_app, fmap_cons in Hnd. rewrite !fmap_app, !fmap_cons in Hu. simpl in Hnd, Hu.
  eapply groups_ok_change; try done; simpl; rewrite ?E, ?fmap_app, ?fmap_cons, ?Hl; simpl.
  - by eapply NoDup_without.
  - rewrite ?fmap_app, Hk. by eapply NoDup_without.
  - intros k Hk1 Hk2. apply Hout; set_solver.
  - set_solver.
  - intros k Hk1 Hk2. replace k with l; [done|]. set_solver.
Qed.

(** The walk of remove_member behind the head of the list. *)
Lemma remove_loop_ok fuel u a0 p vp rest s :
  sls gm_next (group_members s) ((p, vp) :: rest) None → NoDup (p :: rest.*1) →
  (length rest < fuel)%nat →
  (Forall (λ d, member_is u a0 d.2 = false) rest ∧
   remove_loop fuel u a0 (Some p) s = Ok (None, s)) ∨
  (∃ x l v y hm h, rest = x ++ (l, v) :: y ∧ member_is u a0 v = true ∧
     remove_loop fuel u a0 (Some p) s = Ok (Some l, set_group_members h s) ∧
     hm.*1 = p :: x.*1 ∧ view <$> hm.*2 = view vp :: (view <$> x.*2) ∧
     sls gm_next h (hm ++ y) None ∧
     (∀ k, k ∉ p :: x.*1 → h !! k = group_members s !! k)).
Proof.
  revert fuel p vp. induction rest as [|[q vq] rest IH];
    intros [|fuel] p vp (Hp & Hn & Hs) Hnd Hf; simpl in Hf; try lia.
  { left. split; [done|]. cbn [remove_loop].
    rewrite (bind_Ok _ _ _ vp s) by by apply load_member_at. by rewrite Hn. }
  destruct Hs as (Hq & Hnq & Hs). apply NoDup_cons in Hnd as [Hpq Hnd].
  rewrite fmap_cons in Hpq, Hnd. cbn [fst] in Hpq, Hnd.
  cbn [remove_loop].
  rewrite (bind_Ok _ _ _ vp s) by by apply load_member_at. rewrite Hn. cbn [first_loc].
  rewrite (bind_Ok _ _ _ vq s) by by apply load_member_at.
  change ((gm_ip_addr vq =? u) && (gm_a0 vq =? a0)) with (member_is u a0 vq).
  destruct (member_is u a0 vq) eqn:Em.
  - right. exists [], q, vq, rest, [(p, with_member_next (gm_next vq) vp)],
      (<[p := with_member_next (gm_next vq) vp]> (group_members s)).
    split_and!; try done.
    + by rewrite (bind_Ok _ _ _ _ _ (update_member_at p vp _ s Hp)).
    + simpl. rewrite lookup_insert_eq. split_and!; [done|done|].
      eapply sls_frame; [|done]. intros k Hk. apply lookup_insert_ne. set_solver.
    + intros k Hk. apply lookup_insert_ne. set_solver.
  - destruct (IH fuel q vq) as [[Hall E]|(x & l & v & y & hm & h & -> & Hv & E & El & Ev & Hh & Ho)];
      [done|done|lia| |].
    + left. by split; [constructor|].
    + right. exists ((q, vq) :: x), l, v, y, ((p, vp) :: hm), h. split_and!; try done.
      * by rewrite !fmap_cons, El.
      * by rewrite !fmap_cons, Ev.
      * simpl. split_and!; [| |done].
        -- rewrite Ho; [done|]. rewrite fmap_app in Hpq. set_solver.
        -- rewrite first_loc_app. destruct hm as [|[q' w] hm]; [done|]. by injection El as -> _.
      * intros k Hk. apply Ho. set_solver.
Qed.

(** Unlinking and freeing a member: the head of the list, or another one. *)
Lemma uniq_views s a c b : groups_ok s (a ++ c :: b) → NoDup (mv_key <$> views c).
Proof.
  intros H. rewrite views_keys. pose proof (go_uniq _ _ H) as Hu.
  rewrite Forall_app, Forall_cons in Hu. tauto.
Qed.

(** [c'] is the group [c] without the member of the key [k]. *)
Definition dropped (k : Z * Z) (c c' : gcell) : Prop :=
  (k ∉ mv_key <$> views c ∧ gc_ms c' = gc_ms c) ∨
  (∃ x l v y hm, gc_ms c = x ++ (l, v) :: y ∧ gm_key v = k ∧ gc_ms c' = hm ++ y ∧
     hm.*1 = x.*1 ∧ view <$> hm.*2 = view <$> x.*2).

Lemma dropped_views s a c b k c' :
  groups_ok s (a ++ c :: b) → dropped k c c' → views c' = departed k (views c).
Proof.
  intros H [[Hk E]|(x & l & v & y & hm & E & Hv & E' & _ & Ev)].
  - rewrite departed_none by done. unfold views. by rewrite E.
  - pose proof (uniq_views _ _ _ _ H) as Hu. rewrite (views_at c _ _ _ _ E) in Hu |- *.
    rewrite departed_at by done. unfold views. by rewrite E', !fmap_app, Ev.
Qed.

Lemma drop_head_ok s a c b k p vp rest :
  groups_ok s (a ++ c :: b) → gc_ms c = (p, vp) :: rest → gm_key vp = k →
  let s' := set_groups (<[gc_loc c := with_members (gm_next vp) (gc_val c)]> (groups s))
              (set_group_members (delete p (group_members s)) s) in
  ∃ c', groups_ok s' (a ++ c' :: b) ∧ same_group c c' ∧ dropped k c c'.
Proof.
  intros H E Hk s'. destruct (groups_ok_cell _ _ _ _ H) as (_ & _ & _ & Hs & Hnd).
  rewrite E in Hs, Hnd. destruct Hs as (Hp & Hn & Hs).
  apply NoDup_cons in Hnd as [Hpr _].
  eexists. split; [eapply (groups_ok_drop s s' a c b [] p vp rest []); try done|]; simpl.
  - by rewrite <-Hn.
  - eapply sls_frame; [|done]. intros l Hl. apply lookup_delete_ne. by intros ->.
  - intros l _ Hl. by apply lookup_delete_ne.
  - apply lookup_delete_eq.
  - split; [done|]. right. by exists [], p, vp, rest, [].
Qed.

Lemma drop_inner_ok s a c b k p vp x l v y hm h :
  groups_ok s (a ++ c :: b) → gc_ms c = ((p, vp) :: x) ++ (l, v) :: y → gm_key v = k →
  hm.*1 = p :: x.*1 → view <$> hm.*2 = view vp :: (view <$> x.*2) →
  sls gm_next h (hm ++ y) None → (∀ i, i ∉ p :: x.*1 → h !! i = group_members s !! i) →
  h !! l = Some v ∧
  ∃ c', groups_ok (set_group_members (delete l h) s) (a ++ c' :: b) ∧ same_group c c' ∧
    dropped k c c'.
Proof.
  intros H E Hk El Ev Hsl Ho. destruct (groups_ok_cell _ _ _ _ H) as (Hc & _ & Hh & Hs & Hnd).
  rewrite E in Hs, Hnd, Hh.
  pose proof (sls_lookup _ _ _ _ _ _ _ Hs) as [Hv _].
  rewrite fmap_app, fmap_cons in Hnd. apply NoDup_app in Hnd as (_ & Hxl & Hly).
  apply NoDup_cons in Hly as [Hly _]. rewrite fmap_cons in Hxl. cbn [fst] in Hly, Hxl.
  assert (l ∉ p :: x.*1) as Hl by (intros Hin; apply (Hxl l Hin); by constructor).
  split; [by rewrite Ho|].
  assert (with_members (first_loc (hm ++ y) None) (gc_val c) = gc_val c) as Ew.
  { destruct hm as [|[p' w] hm]; [done|]. injection El as -> _. simpl in Hh |- *.
    rewrite <-Hh. by destruct (gc_val c). }
  eexists. split; [eapply (groups_ok_drop s _ a c b ((p, vp) :: x) l v y hm); try done|].
  - rewrite Ew. by rewrite insert_id.
  - eapply sls_frame; [|done]. intros i Hi. apply lookup_delete_ne. intros <-.
    rewrite fmap_app, El in Hi. apply elem_of_app in Hi as [?|?]; done.
  - change gm_key with (mv_key ∘ view). rewrite !list_fmap_compose, Ev. done.
  - intros i Hi Hil. rewrite fmap_cons in Hi.
    change (delete l h !! i = group_members s !! i). rewrite lookup_delete_ne by done. by apply Ho.
  - apply lookup_delete_eq.
  - split; [done|]. right. by exists ((p, vp) :: x), l, v, y, hm.
Qed.

(** The search of remove_member, with the block freed. *)
Lemma unlink_member_ok s a c b u a0 p vp rest :
  groups_ok s (a ++ c :: b) → gc_ms c = (p, vp) :: rest →
  wp F (del ← (if member_is u a0 vp then
                 update_group (Some (gc_loc c)) (with_members (gm_next vp));;
                 mret (g_members (gc_val c))
               else
                 fuel ← member_fuel;
                 remove_loop fuel u a0 (g_members (gc_val c)));
        match del with Some _ => free_member del | None => mret tt end)
    (λ _ s', beside s s' ∧ ∃ c', groups_ok s' (a ++ c' :: b) ∧ same_group c c' ∧
       dropped (u, a0) c c') s.
Proof.
  intros H E. destruct (groups_ok_cell _ _ _ _ H) as (Hc & _ & Hh & Hs & Hnd).
  pose proof (member_fuel_enough _ _ _ _ H) as Hf. rewrite E in Hh, Hs, Hnd, Hf. simpl in Hf, Hh.
  destruct (member_is u a0 vp) eqn:Em.
  - eapply wp_step; [by rewrite (bind_Ok _ _ _ _ _ (update_group_at _ _ _ s Hc))|].
    rewrite Hh. eapply wp_Ok; [apply (free_member_at p vp), Hs|]. split; [done|].
    apply member_is_key in Em. exact (drop_head_ok s a c b (u, a0) p vp rest H E Em).
  - rewrite Hh.
    destruct (remove_loop_ok (S (size (group_members s))) u a0 p vp rest s Hs Hnd ltac:(lia))
      as [[Hall Er]|(x & l & v & y & hm & h & -> & Hv & Er & El & Ev & Hsl & Ho)];
      (eapply wp_step; [unfold member_fuel; by rewrite bind_gets|]).
    + apply wp_ret. split; [done|]. exists c. split; [done|]. split; [done|].
      left. split; [|done]. apply no_member. rewrite E. by constructor.
    + apply member_is_key in Hv.
      destruct (drop_inner_ok s a c b (u, a0) p vp x l v y hm h) as [Hl Hc']; try done.
      by eapply wp_Ok; [apply (free_member_at l v)|].
Qed.

(** The entry of the group is at hand. *)
Lemma remove_member_at s a c b m u w :
  groups_ok s (a ++ c :: b) → gc_key c = group_key m →
  wp F (remove_member m u w) (λ _ s', beside s s' ∧ ∃ c', groups_ok s' (a ++ c' :: b) ∧
    same_group c c' ∧ dropped (member_key m u) c c' ∧ (ports_ok c → ports_ok c')) s.
Proof.
  intros H Hk. unfold remove_member. eapply wp_step; [by apply find_entry_ok|].
  rewrite (found_at m a c b) by (by destruct H || done).
  eapply wp_step; [by eapply load_group_ok|].
  destruct (groups_ok_cell _ _ _ _ H) as (_ & _ & Hh & Hs & _).
  rewrite Hh. destruct (gc_ms c) as [|[p vp] rest] eqn:E; cbn [first_loc].
  { apply wp_ret. split; [done|]. exists c. split; [done|]. split; [done|]. split; [|done].
    left. split; [|done]. unfold views. rewrite E. set_solver. }
  destruct Hs as (Hp & _). eapply wp_step; [by apply load_member_at|].
  change (Some p) with (first_loc ((p, vp) :: rest) None). rewrite <-Hh.
  apply wp_assoc. eapply wp_seq.
  { exact (unlink_member_ok s a c b u (IP_GET_LOST_MAPPING m) p vp rest H E). }
  intros _ s1 (Hb1 & c1 & H1 & Hs1 & Hd1). rewrite <-(proj1 Hs1).
  eapply wp_seq; [by apply update_group_port_map_ok|].
  intros _ s2 (c2 & H2 & Hb2 & Hs2 & Hm2 & Hp2).
  apply wp_mono with (λ _ s', aside s2 s').
  { destruct w; [by eapply write_entry_ok|by apply wp_ret]. }
  intros [] s3 Ha. split.
  { transitivity s2; [by transitivity s1|by apply aside_beside]. }
  exists c2. split; [by eapply groups_ok_aside|]. split; [by transitivity c1|].
  split; [|done]. unfold dropped. rewrite Hm2. exact Hd1.
Qed.

Lemma remove_member_ok s gs m u w :
  groups_ok s gs →
  wp F (remove_member m u w) (λ _ s', beside s s' ∧ ∃ gs', groups_ok s' gs' ∧
    (Forall ports_ok gs → Forall ports_ok gs') ∧ tview gs' = spec_leave m u (tview gs)) s.
Proof.
  intros H. destruct (find_cell m gs) as [[E Hn]|(a & c & b & -> & _ & Hk)].
  { unfold remove_member. eapply wp_step; [by apply find_entry_ok|]. rewrite E.
    apply wp_ret. split; [done|]. exists gs. split; [done|]. split; [done|].
    unfold spec_leave. rewrite at_group_other; [done|]. rewrite tview_keys. by apply no_key. }
  apply key_is_key in Hk. eapply wp_mono; [by apply remove_member_at|].
  intros [] s' (Hb & c' & H' & (_ & Ek & _) & Hd & Hp). split; [done|].
  exists (a ++ c' :: b). split; [done|]. split.
  { intros Hps. eapply ports_ok_at; [done|]. apply Hp.
    rewrite Forall_app, Forall_cons in Hps. tauto. }
  unfold spec_leave. rewrite at_group_split; [|by destruct H|done].
  rewrite tview_at, Ek, Hk, (dropped_views _ _ _ _ _ _ H Hd). done.
Qed.
End operations.
