(* ===== verification/McGroups.v ===== *)
(** * mc_switch.c: operations on whole groups

    Queries, the sweep of silent members, and the removal of groups. *)
From S2P Require Import Prelude CLib Heap System Bytes Genconfig SystemApi Callout Igmp McSwitch.
From S2P Require Import IgmpFrame McInv McOps.

(** The same groups with other members: well formed, and with the ports of the
    members if they were before. *)
Definition thinned `{!Multicast} (s : igmpd) (gs : list gcell) (s' : igmpd) (gs' : list gcell) : Prop :=
  beside s s' ∧ groups_ok s' gs' ∧ Forall2 same_group gs gs' ∧
  (Forall ports_ok gs → Forall ports_ok gs').

Lemma thinned_trans `{!Multicast} s1 gs1 s2 gs2 s3 gs3 :
  thinned s1 gs1 s2 gs2 → thinned s2 gs2 s3 gs3 → thinned s1 gs1 s3 gs3.
Proof.
  intros (? & ? & ? & ?) (? & ? & ? & ?). split_and!; [|done| |by auto].
  - by transitivity s2.
  - by transitivity gs2.
Qed.

Section groups.
Context {MC : Multicast} {F : fault → Prop} `{!Safe F}.

Lemma all_member_leaved_ok s gs m :
  groups_ok s gs →
  all_member_leaved m s =
    Ok (forallb (λ c, negb (key_is m (gc_val c)) || (g_port_map (gc_val c) =? 0)) gs, s).
Proof.
  intros H. unfold all_member_leaved. rewrite (bind_Ok _ _ _ _ _ (find_entry_ok m s gs H)).
  destruct (find_cell m gs) as [[-> Hn]|(a & c & b & -> & -> & Hk)].
  - unfold mret, M_ret. do 2 f_equal. symmetry. apply List.forallb_forall.
    rewrite Forall_forall in Hn. intros c Hc%list_elem_of_In. by rewrite (Hn c Hc).
  - rewrite (bind_Ok _ _ _ _ _ (load_group_ok _ _ _ _ H)). unfold mret, M_ret. do 2 f_equal.
    rewrite forallb_app. cbn [forallb]. rewrite Hk. cbn [negb orb].
    pose proof (go_keys _ _ H) as Hnd. apply key_is_key in Hk.
    rewrite fmap_app, fmap_cons in Hnd. apply NoDup_app in Hnd as (_ & Ha & Hnd).
    apply NoDup_cons in Hnd as [Hb _].
    assert (∀ l, group_key m ∉ gc_key <$> l →
      forallb (λ c, negb (key_is m (gc_val c)) || (g_port_map (gc_val c) =? 0)) l = true) as Hl.
    { intros l Hl. apply List.forallb_forall. intros d Hd%list_elem_of_In.
      destruct (key_is m (gc_val d)) eqn:E; [|done]. apply key_is_key in E. destruct Hl.
      rewrite <-E. by apply list_elem_of_fmap_2. }
    rewrite !Hl; [by destruct (_ =? 0)|by rewrite <-Hk|].
    intros Hin. apply (Ha _ Hin). rewrite Hk. by constructor.
Qed.

(** ** Queries *)
Lemma ports_ok_ports c c' :
  mv_port <$> views c' = mv_port <$> views c → g_port_map (gc_val c') = g_port_map (gc_val c) →
  ports_ok c → ports_ok c'.
Proof. unfold ports_ok. by intros -> ->. Qed.

Lemma query_members_ok fuel s a c b x y :
  groups_ok s (a ++ c :: b) → gc_ms c = x ++ y → (length y < fuel)%nat →
  wp F (query_members fuel (gc_val c) (first_loc y None)) (λ _ s', beside s s' ∧ ∃ c',
    groups_ok s' (a ++ c' :: b) ∧ same_group c c' ∧ (ports_ok c → ports_ok c')) s.
Proof.
  revert fuel s c x. induction y as [|[l m] y IH]; intros [|fuel] s c x H E Hf; simpl in Hf; try lia.
  { apply wp_ret. split; [done|]. by exists c. }
  destruct (groups_ok_cell _ _ _ _ H) as (_ & _ & _ & Hs & _). rewrite E in Hs.
  destruct (sls_lookup _ _ _ _ _ _ _ Hs) as [Hl Hn]. cbn [query_members first_loc].
  eapply wp_step; [by apply update_member_at|].
  eapply wp_step; [apply load_member_at, lookup_insert_eq|].
  set (w := with_report _ _ m).
  pose proof (groups_ok_member s a c b x l m w y H E eq_refl eq_refl) as H1.
  set (s1 := set_group_members _ s) in *. set (c1 := GCell (gc_loc c) (gc_val c) (x ++ (l, w) :: y)).
  apply wp_seq with (λ _ s', aside s1 s').
  { destruct (_ <=? 5); [apply sendSpecific_runs|by apply wp_ret]. }
  intros [] s2 Ha. change (gm_next w) with (gm_next m). rewrite Hn.
  eapply wp_mono.
  { apply (IH fuel s2 c1 (x ++ [(l, w)])); [by eapply groups_ok_aside|by rewrite <-app_assoc|lia]. }
  intros [] s3 (Hb & c' & H3 & Hs3 & Hp3). split.
  { transitivity s2; [|done]. transitivity s1; [done|by apply aside_beside]. }
  exists c'. split; [done|]. split; [exact Hs3|]. intros Hp. apply Hp3, (ports_ok_ports c); [|done..].
  unfold views. rewrite E. simpl. by rewrite !fmap_app, !fmap_cons.
Qed.

Lemma query_groups_ok fuel s a gs :
  groups_ok s (a ++ gs) → (length gs < fuel)%nat →
  wp F (query_groups fuel (first_loc (gc_pair <$> gs) None))
    (λ _ s', ∃ gs', thinned s (a ++ gs) s' gs') s.
Proof.
  revert fuel s a. induction gs as [|c gs IH]; intros [|fuel] s a H Hf; simpl in Hf; try lia.
  { apply wp_ret. by eexists. }
  cbn [query_groups fmap list_fmap first_loc gc_pair].
  destruct (groups_ok_cell _ _ _ _ H) as (_ & Hnx & Hh & _).
  eapply wp_step; [by eapply load_group_ok|]. apply wp_gets. rewrite Hh.
  pose proof (member_fuel_enough _ _ _ _ H) as Hm.
  eapply wp_seq; [apply (query_members_ok _ s a c gs [] (gc_ms c)); [done|done|lia]|].
  intros [] s1 (Hb & c' & H1 & Hs & Hp). rewrite Hnx.
  eapply wp_mono; [apply (IH fuel s1 (a ++ [c'])); [by rewrite <-app_assoc|lia]|].
  intros [] s2 (gs2 & Ht). exists gs2. eapply thinned_trans; [|exact Ht].
  rewrite <-app_assoc. split_and!; [done|done|by apply Forall2_app; [|constructor]|].
  rewrite !Forall_app, !Forall_cons. naive_solver.
Qed.

Lemma query_specific_members_ok s gs :
  groups_ok s gs → wp F query_specific_members (λ _ s', ∃ gs', thinned s gs s' gs') s.
Proof.
  intros H. unfold query_specific_members. do 2 apply wp_gets. rewrite (go_head _ _ H).
  pose proof (group_fuel_enough _ _ H) as Hf. rewrite length_fmap in Hf.
  apply (query_groups_ok _ _ []); [done|lia].
Qed.

(** ** The port of the router *)
Lemma refresh_groups_ok fuel s a gs :
  groups_ok s (a ++ gs) → (length gs < fuel)%nat →
  wp F (refresh_groups fuel (first_loc (gc_pair <$> gs) None)) (λ _ s', aside s s') s.
Proof.
  revert fuel s a. induction gs as [|c gs IH]; intros [|fuel] s a H Hf; simpl in Hf; try lia.
  { by apply wp_ret. }
  cbn [refresh_groups fmap list_fmap first_loc gc_pair].
  destruct (groups_ok_cell _ _ _ _ H) as (_ & Hnx & _).
  eapply wp_step; [by eapply load_group_ok|].
  eapply wp_seq; [apply updateMacTable_runs|]. intros [] s1 Ha. rewrite Hnx.
  eapply wp_mono; [apply (IH fuel s1 (a ++ [c])); [|lia]|].
  - rewrite <-app_assoc. by eapply groups_ok_aside.
  - intros [] s2 Ha2. by transitivity s1.
Qed.

Lemma update_router_port_ok s gs src :
  groups_ok s gs → wp F (update_router_port src) (λ _ s', aside s s') s.
Proof.
  intros H. unfold update_router_port. apply wp_gets.
  eapply wp_seq; [apply portLookUpByIP_runs|]. intros rport s1 Ha. apply wp_gets.
  destruct (_ =? _); [by apply wp_ret|]. apply wp_modify.
  assert (aside s (set_router_port rport s1)) as Ha' by by transitivity s1.
  destruct (0 <=? rport); [|by apply wp_ret]. apply wp_gets.
  pose proof (groups_ok_aside _ _ _ Ha' H) as H1. rewrite (go_head _ _ H).
  pose proof (group_fuel_enough _ _ H1) as Hf. rewrite length_fmap in Hf.
  eapply wp_mono; [apply (refresh_groups_ok _ _ [] gs H1); simpl in *; lia|].
  intros [] s2 Ha2. by transitivity (set_router_port rport s1).
Qed.

(** ** Removing a group *)
Lemma free_members_ok fuel ms s :
  sls gm_next (group_members s) ms None → NoDup ms.*1 → (length ms < fuel)%nat →
  ∃ h, free_members fuel (first_loc ms None) s = Ok (tt, set_group_members h s) ∧
    (∀ k, k ∈ ms.*1 → h !! k = None) ∧ (∀ k, k ∉ ms.*1 → h !! k = group_members s !! k).
Proof.
  revert fuel s. induction ms as [|[l m] ms IH]; intros [|fuel] s Hs Hnd Hf; simpl in Hf; try lia.
  { exists (group_members s). split; [by destruct s|]. split; [|done]. intros k Hk. set_solver. }
  destruct Hs as (Hl & Hn & Hs). rewrite fmap_cons in Hnd. apply NoDup_cons in Hnd as [Hlm Hnd].
  cbn [fst] in Hlm. cbn [free_members first_loc].
  rewrite (bind_Ok _ _ _ _ _ (load_member_at l m s Hl)),
    (bind_Ok _ _ _ _ _ (free_member_at l m s Hl)), Hn.
  destruct (IH fuel (set_group_members (delete l (group_members s)) s)) as (h & E & Hin & Hout);
    [|done|lia|].
  { eapply sls_frame; [|done]. intros k Hk. apply lookup_delete_ne. by intros ->. }
  exists h. split; [exact E|]. rewrite fmap_cons. cbn [fst].
  split; intros k Hk.
  - apply elem_of_cons in Hk as [->|Hk]; [|by apply Hin].
    rewrite Hout by done. apply lookup_delete_eq.
  - apply not_elem_of_cons in Hk as [Hk1 Hk2]. rewrite Hout by done. by apply lookup_delete_ne.
Qed.

(** The same group with another link. *)
Definition relinked (c c' : gcell) : Prop :=
  gc_loc c' = gc_loc c ∧ gc_ms c' = gc_ms c ∧ gc_val c' = with_next (g_next (gc_val c')) (gc_val c).

Lemma relinked_refl c : relinked c c.
Proof. split_and!; [done..|]. by destruct c as [? [] ?]. Qed.

Lemma unlink_group_ok fuel d x c y s :
  sls g_next (groups s) (gc_pair <$> d :: x ++ c :: y) None →
  NoDup (gc_loc <$> d :: x ++ c :: y) → (length x < fuel)%nat →
  ∃ a h, unlink_group fuel (Some (gc_loc c)) (Some (gc_loc d)) s = Ok (true, set_groups h s) ∧
    Forall2 relinked (d :: x) a ∧ sls g_next h (gc_pair <$> a ++ y) None ∧
    (∀ k, k ∉ gc_loc <$> d :: x → h !! k = groups s !! k).
Proof.
  revert fuel d. induction x as [|e x IH]; intros [|fuel] d Hs Hnd Hf; simpl in Hf; try lia.
  - destruct Hs as (Hd & Hnx & Hc & Hnc & Hy). cbn [unlink_group].
    rewrite fmap_cons in Hnd. apply NoDup_cons in Hnd as [Hd' Hnd].
    rewrite (bind_Ok _ _ _ _ _ (load_group_at _ _ s Hd)), Hnx. cbn [fmap list_fmap first_loc gc_pair app].
    rewrite bool_decide_true by done. rewrite (bind_Ok _ _ _ _ _ (load_group_at _ _ s Hc)).
    rewrite (bind_Ok _ _ _ _ _ (update_group_at _ _ _ s Hd)).
    exists [GCell (gc_loc d) (with_next (g_next (gc_val c)) (gc_val d)) (gc_ms d)],
      (<[gc_loc d := with_next (g_next (gc_val c)) (gc_val d)]> (groups s)).
    split; [done|]. split; [by repeat constructor|]. split.
    + simpl. rewrite lookup_insert_eq. split_and!; [done|done|].
      eapply sls_frame; [|done]. rewrite gc_pair_locs. intros k Hk. apply lookup_insert_ne.
      intros <-. apply Hd'. simpl. by constructor.
    + intros k Hk. apply lookup_insert_ne. set_solver.
  - destruct Hs as (Hd & Hnx & Hs). cbn [unlink_group].
    rewrite fmap_cons in Hnd. apply NoDup_cons in Hnd as [Hd' Hnd].
    rewrite (bind_Ok _ _ _ _ _ (load_group_at _ _ s Hd)), Hnx.
    cbn [fmap list_fmap first_loc gc_pair app]. rewrite bool_decide_false.
    2: { intros [= E]. simpl in Hnd. apply NoDup_cons in Hnd as [He _]. apply He.
         rewrite E, fmap_app, fmap_cons. set_solver. }
    destruct (IH fuel e Hs Hnd ltac:(lia)) as (a & h & E & Ha & Hsl & Ho).
    exists (d :: a), h. split; [exact E|]. split; [by constructor; [apply relinked_refl|]|].
    split.
    + cbn [app fmap list_fmap]. split; [|split; [|done]].
      * rewrite Ho; [done|]. intros Hin. apply Hd'. simpl in Hin |- *. rewrite fmap_app. set_solver.
      * rewrite Hnx. inversion Ha as [|? c' ? ? (El & _)]; subst. simpl. by rewrite El.
    + intros k Hk. apply Ho. set_solver.
Qed.

Lemma relinked_all a a' :
  Forall2 relinked a a' →
  gc_loc <$> a' = gc_loc <$> a ∧ gc_key <$> a' = gc_key <$> a ∧ gc_ms <$> a' = gc_ms <$> a ∧
  member_locs a' = member_locs a ∧ tview a' = tview a ∧
  (Forall (λ c, g_members (gc_val c) = first_loc (gc_ms c) None) a →
   Forall (λ c, g_members (gc_val c) = first_loc (gc_ms c) None) a') ∧
  (Forall ports_ok a → Forall ports_ok a').
Proof.
  induction 1 as [|c c' a a' (El & Em & Ev) H (I1 & I2 & I3 & I4 & I5 & I6 & I7)]; [done|].
  assert (gc_key c' = gc_key c ∧ views c' = views c ∧
    g_members (gc_val c') = g_members (gc_val c) ∧
    g_port_map (gc_val c') = g_port_map (gc_val c)) as (E1 & E2 & E3 & E4).
  { unfold gc_key, views. rewrite Em, Ev. done. }
  unfold member_locs, tview in *. rewrite !fmap_cons. cbn [mbind list_bind].
  rewrite El, Em, E1, E2, I1, I2, I3, I4, I5, !Forall_cons. split_and!; try done.
  - intros [Hc ?]. split; [by rewrite E3, Em|auto].
  - intros [Hc ?]. split; [by unfold ports_ok; rewrite E2, E4|auto].
Qed.

(** A table without the group [c] and its members. *)
Lemma groups_ok_remove s s' a a' c b :
  groups_ok s (a ++ c :: b) → Forall2 relinked a a' →
  group_list s' = first_loc (gc_pair <$> a' ++ b) None →
  sls g_next (groups s') (gc_pair <$> a' ++ b) None →
  dom (groups s') = dom (groups s) ∖ {[gc_loc c]} →
  (∀ k, k ∈ (gc_ms c).*1 → group_members s' !! k = None) →
  (∀ k, k ∉ (gc_ms c).*1 → group_members s' !! k = group_members s !! k) →
  groups_ok s' (a' ++ b).
Proof.
  intros [_ _ Hnd Hdom Hhd Hms Hmn Hmd Hk Hu] Ha Eh Hs Ed Hin Hout.
  destruct (relinked_all _ _ Ha) as (E1 & E2 & E3 & E4 & _ & E6 & _).
  rewrite member_locs_at in Hmn, Hmd.
  rewrite fmap_app, fmap_cons in Hnd. rewrite fmap_app, fmap_cons in Hk.
  rewrite fmap_app, fmap_cons in Hdom.
  assert (∀ k, k ∈ member_locs a ++ member_locs b → k ∉ (gc_ms c).*1) as Hsep.
  { apply NoDup_app in Hmn as (_ & Hac & Hmn). apply NoDup_app in Hmn as (_ & Hcb & _).
    intros k [Hk1|Hk1]%elem_of_app Hk2; [apply (Hac k); set_solver|by apply (Hcb k)]. }
  assert (Forall (λ ms, sls gm_next (group_members s') ms None) (gc_ms <$> a' ++ b)) as Hms'.
  { rewrite fmap_app, E3, <-fmap_app. apply Forall_fmap, Forall_forall. intros d Hd.
    rewrite Forall_forall in Hms. eapply sls_frame; [|apply (Hms d)].
    - intros k Hk'. apply Hout, Hsep. rewrite <-member_locs_app.
      apply list_elem_of_bind. by exists d.
    - set_solver. }
  split; try done.
  - rewrite fmap_app, E1. by eapply NoDup_without.
  - rewrite Ed, Hdom, fmap_app, E1. apply NoDup_app in Hnd as (_ & Hac & Hnd).
    apply NoDup_cons in Hnd as [Hcb _]. set_solver.
  - apply Forall_app in Hhd as [Hha Hhb]. apply Forall_cons in Hhb as [_ Hhb].
    apply Forall_app. auto.
  - by apply Forall_fmap in Hms'.
  - rewrite member_locs_app, E4. apply NoDup_app in Hmn as (N1 & N2 & Hmn).
    apply NoDup_app in Hmn as (_ & _ & N3). apply NoDup_app. split_and!; [done| |done].
    intros k Hk1 Hk2. apply (N2 k Hk1), elem_of_app. by right.
  - rewrite member_locs_app, E4. apply set_eq. intros k.
    rewrite elem_of_dom, elem_of_list_to_set.
    destruct (decide (k ∈ (gc_ms c).*1)) as [Hk'|Hk'].
    + rewrite Hin by done. split; [by intros []|]. intros Hk2. by destruct (Hsep k Hk2).
    + rewrite Hout, <-elem_of_dom, Hmd by done. set_solver.
  - rewrite fmap_app, E2. by eapply NoDup_without.
  - assert (Forall (λ ms, NoDup (gm_key <$> ms.*2)) (gc_ms <$> a' ++ b)) as Hu';
      [|by apply (Forall_fmap gc_ms) in Hu'].
    rewrite fmap_app, E3, <-fmap_app. apply (Forall_fmap gc_ms).
    apply Forall_app in Hu as [Hu1 Hu2]. apply Forall_cons in Hu2 as [_ Hu2].
    by apply Forall_app.
Qed.

Lemma remove_all_members_ok l g ms s :
  groups s !! l = Some g → g_members g = first_loc ms None →
  sls gm_next (group_members s) ms None → NoDup ms.*1 →
  ∃ h, remove_all_members (Some l) s =
      Ok (tt, set_groups (<[l := with_members None g]> (groups s)) (set_group_members h s)) ∧
    (∀ k, k ∈ ms.*1 → h !! k = None) ∧ (∀ k, k ∉ ms.*1 → h !! k = group_members s !! k).
Proof.
  intros Hl Hm Hs Hnd.
  destruct (free_members_ok (S (size (group_members s))) ms s Hs Hnd) as (h & E & Hin & Hout).
  { pose proof (sls_length _ _ _ _ Hnd Hs). lia. }
  exists h. split; [|done]. unfold remove_all_members, member_fuel.
  rewrite (bind_Ok _ _ _ _ _ (load_group_at _ _ _ Hl)), bind_gets, Hm,
    (bind_Ok _ _ _ _ _ E).
  by rewrite (update_group_at l g) by done.
Qed.

(** What a group and its members leave behind. *)
Definition erased (l : loc) (ms : list (loc * group_member)) (s s' : igmpd) : Prop :=
  beside s s' ∧ group_list s' = group_list s ∧ groups s' = delete l (groups s) ∧
  (∀ k, k ∈ ms.*1 → group_members s' !! k = None) ∧
  (∀ k, k ∉ ms.*1 → group_members s' !! k = group_members s !! k).

(** The end of both removals: the group is taken out of the switch and freed. *)
Lemma erase_group_ok l g ms (k : M igmpd unit) Q s :
  groups s !! l = Some g → g_members g = first_loc ms None →
  sls gm_next (group_members s) ms None → NoDup ms.*1 →
  (∀ s', erased l ms s s' → wp F k Q s') →
  wp F (update_group (Some l) (with_port_map 0);;
        e ← load_group (Some l);
        updateMacTable e;;
        remove_all_members (Some l);;
        free_group (Some l);;
        k) Q s.
Proof.
  intros Hl Hm Hs Hnd Hk.
  eapply wp_step; [by apply update_group_at|].
  eapply wp_step; [by apply load_group_at; simpl; rewrite lookup_insert_eq|].
  eapply wp_seq; [apply updateMacTable_runs|]. intros [] s1 Ha.
  assert (groups s1 !! l = Some (with_port_map 0 g)) as Hl1.
  { rewrite (as_groups _ _ Ha). apply lookup_insert_eq. }
  pose proof (as_members _ _ Ha) as Em. simpl in Em. rewrite <-Em in Hs.
  destruct (remove_all_members_ok l (with_port_map 0 g) ms s1) as (h & E & Hin & Hout); [done..|].
  eapply wp_step; [exact E|].
  eapply wp_step; [by apply (free_group_at l (with_members None (with_port_map 0 g))); simpl;
                   rewrite lookup_insert_eq|].
  apply Hk. split_and!.
  - by destruct Ha.
  - exact (as_group_list _ _ Ha).
  - simpl. rewrite (as_groups _ _ Ha). simpl. by rewrite !delete_insert_eq.
  - done.
  - intros j Hj. simpl. by rewrite Hout, Em.
Qed.

Definition spec_remove (m : Z) (t : table) : table :=
  filter (λ e, e.1 ≠ group_key m) t.

Lemma spec_remove_split m a c b :
  NoDup (gc_key <$> a ++ c :: b) → gc_key c = group_key m →
  spec_remove m (tview (a ++ c :: b)) = tview (a ++ b).
Proof.
  intros Hnd Hk. rewrite fmap_app, fmap_cons, Hk in Hnd.
  apply NoDup_app in Hnd as (_ & Ha & Hnd). apply NoDup_cons in Hnd as [Hb _].
  unfold spec_remove, tview. rewrite !fmap_app, fmap_cons, filter_app, filter_cons_False by naive_solver.
  f_equal; apply filter_all; apply Forall_fmap, Forall_forall; intros d Hd E; cbn in E.
  - apply (Ha (group_key m)); [|by constructor]. rewrite <-E. by apply list_elem_of_fmap_2.
  - apply Hb. rewrite <-E. by apply list_elem_of_fmap_2.
Qed.

(** The list around the group [c]. *)
Definition bypassed (a : list gcell) (c : gcell) (b a' : list gcell) (s s' : igmpd) : Prop :=
  beside s s' ∧ Forall2 relinked a a' ∧
  group_list s' = first_loc (gc_pair <$> a' ++ b) None ∧
  sls g_next (groups s') (gc_pair <$> a' ++ b) None ∧
  groups s' !! gc_loc c = Some (gc_val c) ∧ dom (groups s') = dom (groups s) ∧
  group_members s' = group_members s.

Lemma unlink_entry_ok s a c b :
  groups_ok s (a ++ c :: b) →
  ∃ a' s', (if bool_decide (group_list s = Some (gc_loc c)) then
              e ← load_group (Some (gc_loc c));
              modify (set_group_list (g_next e));;
              mret true
            else
              fuel ← group_fuel;
              unlink_group fuel (Some (gc_loc c)) (group_list s)) s = Ok (true, s') ∧
    bypassed a c b a' s s'.
Proof.
  intros H. destruct (groups_ok_cell _ _ _ _ H) as (Hc & Hn & _).
  pose proof (go_head _ _ H) as Hh. pose proof (go_list _ _ H) as Hs.
  pose proof (go_nodup _ _ H) as Hnd. destruct a as [|d x].
  - exists [], (set_group_list (g_next (gc_val c)) s). rewrite Hh.
    rewrite bool_decide_true by done.
    rewrite (bind_Ok _ _ _ _ _ (load_group_at _ _ _ Hc)). split; [done|].
    split_and!; try done. by destruct Hs as (_ & _ & Hs).
  - rewrite bool_decide_false.
    2: { rewrite Hh. intros [= E]. simpl in Hnd. apply NoDup_cons in Hnd as [Hd _]. apply Hd.
         rewrite E, fmap_app, fmap_cons. set_solver. }
    destruct (unlink_group_ok (S (size (groups s))) d x c b s Hs Hnd)
      as (a' & h & E & Ha & Hsl & Ho).
    { pose proof (group_fuel_enough _ _ H) as Hf. rewrite length_fmap, length_app in Hf.
      simpl in Hf. lia. }
    exists a', (set_groups h s). unfold group_fuel. rewrite bind_gets, Hh. split; [exact E|].
    assert (h !! gc_loc c = Some (gc_val c)) as Hc'.
    { rewrite Ho; [done|]. intros Hin. rewrite fmap_app, fmap_cons in Hnd.
      apply NoDup_app in Hnd as (_ & Hnd & _). apply (Hnd _ Hin). by constructor. }
    split_and!; try done.
    + simpl. rewrite Hh. inversion Ha as [|? ? ? ? (El & _)]; subst. simpl. by rewrite El.
    + apply set_eq. intros k. simpl. rewrite !elem_of_dom.
      destruct (decide (k ∈ gc_loc <$> d :: x)) as [Hk|Hk]; [|by rewrite Ho].
      assert (∀ h l, sls g_next h (gc_pair <$> l) None → k ∈ gc_loc <$> l → is_Some (h !! k)) as Hl.
      { intros h' l Hl Hkl. apply list_elem_of_fmap in Hkl as (e & -> & He).
        apply list_elem_of_split in He as (y & z & ->). rewrite fmap_app, fmap_cons in Hl.
        apply sls_lookup in Hl as [-> _]. by eexists. }
      destruct (relinked_all _ _ Ha) as (E1 & _).
      split; intros _; (eapply Hl; [eassumption|]); rewrite ?fmap_app, ?E1; set_solver.
Qed.

Lemma remove_multicast_ip_ok s gs m :
  groups_ok s gs →
  wp F (remove_multicast_ip m) (λ _ s', beside s s' ∧ ∃ gs', groups_ok s' gs' ∧
    (Forall ports_ok gs → Forall ports_ok gs') ∧ tview gs' = spec_remove m (tview gs)) s.
Proof.
  intros H. unfold remove_multicast_ip. apply wp_gets.
  eapply wp_step; [by apply find_entry_ok|].
  destruct (find_cell m gs) as [[-> Hn]|(a & c & b & -> & -> & Hk)].
  { apply wp_ret. split; [done|]. exists gs. split_and!; [done..|].
    unfold spec_remove. rewrite filter_all; [done|]. apply no_key in Hn.
    apply Forall_forall. intros e He E. apply Hn. rewrite <-E, <-tview_keys.
    by apply list_elem_of_fmap_2. }
  apply key_is_key in Hk.
  destruct (unlink_entry_ok s a c b H) as (a' & s1 & E & Hb & Ha & Eh & Hs & Hc & Ed & Em).
  destruct (groups_ok_cell _ _ _ _ H) as (_ & _ & Hm & Hms & Hmn).
  eapply wp_step; [exact E|]. cbn [negb].
  eapply erase_group_ok; [done|done|by rewrite Em|done|].
  intros s2 (Hb2 & El2 & Eg2 & Hin & Hout).
  assert (groups_ok s2 (a' ++ b)) as H2.
  { eapply groups_ok_remove; [exact H|done|by rewrite El2| | |done|].
    - rewrite Eg2. eapply sls_frame; [|exact Hs]. intros k Hk'. apply lookup_delete_ne.
      intros <-. rewrite gc_pair_locs, fmap_app in Hk'.
      destruct (relinked_all _ _ Ha) as (E1 & _). rewrite E1 in Hk'.
      pose proof (go_nodup _ _ H) as Hnd. rewrite fmap_app, fmap_cons in Hnd.
      apply NoDup_app in Hnd as (_ & Hac & Hnd). apply NoDup_cons in Hnd as [Hcb _].
      apply elem_of_app in Hk' as [Hk'|Hk']; [|done]. apply (Hac _ Hk'). by constructor.
    - by rewrite Eg2, dom_delete_L, Ed.
    - intros k Hk'. by rewrite Hout, Em. }
  destruct (relinked_all _ _ Ha) as (_ & _ & _ & _ & Ev & _ & Hp).
  eapply wp_mono; [by eapply write_entry_ok|]. intros [] s3 Ha3. split.
  { transitivity s1; [done|]. transitivity s2; [done|]. by apply aside_beside. }
  exists (a' ++ b). split; [by eapply groups_ok_aside|]. split.
  - rewrite !Forall_app, Forall_cons. intros (? & _ & ?). auto.
  - rewrite (spec_remove_split m a c b); [|by destruct H|done].
    unfold tview in *. by rewrite !fmap_app, Ev.
Qed.

Lemma remove_groups_ok fuel gs s :
  groups_ok (set_group_list (first_loc (gc_pair <$> gs) None) s) gs → (length gs < fuel)%nat →
  wp F (remove_groups fuel (first_loc (gc_pair <$> gs) None)) (λ _ s', beside s s' ∧
    groups s' = ∅ ∧ group_members s' = ∅) s.
Proof.
  revert fuel s. induction gs as [|c gs IH]; intros [|fuel] s H Hf; simpl in Hf; try lia.
  { apply wp_ret. pose proof (go_dom _ _ H) as Hd. pose proof (go_mdom _ _ H) as Hm.
    simpl in Hd, Hm. split; [done|]. by apply dom_empty_iff_L in Hd, Hm. }
  destruct (groups_ok_cell _ [] c gs H) as (Hc & Hn & Hm & Hms & Hmn).
  simpl in Hc, Hms. cbn [fmap list_fmap first_loc gc_pair remove_groups].
  eapply wp_step; [by apply load_group_at|].
  eapply erase_group_ok; [done..|]. intros s1 (Hb & El & Eg & Hin & Hout).
  rewrite Hn. eapply wp_mono; [apply IH; [|lia]|].
  - apply (groups_ok_remove _ _ [] [] c gs H); simpl; [constructor|done| | |done|done].
    + rewrite Eg. destruct (go_list _ _ H) as (_ & _ & Hs). eapply sls_frame; [|exact Hs].
      intros k Hk. apply lookup_delete_ne. intros <-.
      pose proof (go_nodup _ _ H) as Hnd. rewrite fmap_cons in Hnd.
      apply NoDup_cons in Hnd as [Hnd _]. by rewrite gc_pair_locs in Hk.
    + by rewrite Eg, dom_delete_L.
  - intros _ s2 (Hb2 & ? & ?). split; [by transitivity s1|done].
Qed.

Lemma remove_all_groups_ok s gs :
  groups_ok s gs →
  wp F remove_all_groups (λ _ s', beside s s' ∧ groups_ok s' []) s.
Proof.
  intros H. unfold remove_all_groups, group_fuel. do 2 apply wp_gets.
  rewrite (go_head _ _ H). eapply wp_seq.
  { apply remove_groups_ok; [by rewrite <-(go_head _ _ H); destruct s|].
    pose proof (group_fuel_enough _ _ H) as Hf. rewrite length_fmap in Hf. lia. }
  intros [] s1 (Hb & Eg & Em). apply wp_modify.
  eapply wp_mono; [apply ilib_runs, _|]. intros r s2 Ha. split.
  { transitivity s1; [done|]. by destruct Ha. }
  eapply groups_ok_aside; [exact Ha|].
  by split; simpl; rewrite ?Eg, ?Em; try constructor; rewrite ?dom_empty_L.
Qed.
End groups.

(** ** The sweep *)

(** A walker in the list of members of the group at [i]: at the end, at a block
    that has been freed, or with at most [n] members ahead. *)
Definition walker (s : igmpd) (gs : list gcell) (i n : nat) (p : ptr) : Prop :=
  p = None ∨ (∃ l, p = Some l ∧ group_members s !! l = None) ∨
  (∃ c z y, gs !! i = Some c ∧ gc_ms c = z ++ y ∧ p = first_loc y None ∧ (length y ≤ n)%nat).

Lemma freed_member s gs l : groups_ok s gs → group_members s !! l = None ↔ l ∉ member_locs gs.
Proof.
  intros H. rewrite <-not_elem_of_dom, (go_mdom _ _ H), elem_of_list_to_set. done.
Qed.

Lemma dropped_locs k c c' l : dropped k c c' → l ∈ (gc_ms c').*1 → l ∈ (gc_ms c).*1.
Proof.
  intros [[_ ->]|(x & j & v & y & hm & -> & _ & -> & E & _)]; [done|].
  rewrite !fmap_app, fmap_cons, E. set_solver.
Qed.

(** The block of the member that was dropped. *)
Lemma freed_dropped s s' a c c' b x l v y hm :
  groups_ok s (a ++ c :: b) → groups_ok s' (a ++ c' :: b) →
  gc_ms c = x ++ (l, v) :: y → gc_ms c' = hm ++ y → hm.*1 = x.*1 →
  group_members s' !! l = None.
Proof.
  intros H H' E E' Ex. apply (freed_member _ _ _ H'). rewrite member_locs_at, E', fmap_app, Ex.
  pose proof (go_mnodup _ _ H) as Hnd. rewrite member_locs_at, E, fmap_app, fmap_cons in Hnd.
  cbn [fst] in Hnd. rewrite <-app_assoc, <-app_comm_cons, (app_assoc (member_locs a)) in Hnd.
  apply NoDup_app in Hnd as (_ & Ha & Hnd). apply NoDup_cons in Hnd as [Hb _].
  intros Hin. rewrite <-app_assoc, app_assoc in Hin. apply elem_of_app in Hin as [Hin|Hin]; [|done].
  apply (Ha _ Hin). by constructor.
Qed.

(** A removal leaves a walker where it is, or frees what it points to. *)
Lemma walker_dropped k s s' a c c' b i n p :
  groups_ok s (a ++ c :: b) → groups_ok s' (a ++ c' :: b) → dropped k c c' →
  walker s (a ++ c :: b) i n p → walker s' (a ++ c' :: b) i n p.
Proof.
  intros H H' Hd [->|[(l & -> & Hl)|(e & z & y & Hi & Ems & Hp & Hn)]]; [by left| |].
  { right. left. exists l. split; [done|]. rewrite freed_member in Hl |- * by done.
    rewrite member_locs_at in Hl |- *. pose proof (dropped_locs _ _ _ l Hd). set_solver. }
  right. destruct (decide (i = length a)) as [->|Hne].
  2: { right. exists e, z, y. split_and!; [|done..]. apply lookup_app_Some.
       apply lookup_app_Some in Hi as [Hi|[Hle Hi]]; [by left|]. right. split; [done|].
       destruct (i - length a)%nat eqn:E; [lia|done]. }
  rewrite list_lookup_middle in Hi by done. injection Hi as <-.
  destruct Hd as [[_ E]|(x & l & v & y0 & hm & E & _ & E' & Eloc & _)].
  { right. exists c', z, y. split_and!; [by apply list_lookup_middle|congruence|done..]. }
  assert (group_members s' !! l = None) as Hl by exact (freed_dropped _ _ _ _ _ _ _ _ _ _ _ H H' E E' Eloc).
  assert (∀ z' y', hm ++ y0 = z' ++ y' → p = first_loc y' None → (length y' ≤ n)%nat →
    ∃ c0 z0 y1, (a ++ c' :: b) !! length a = Some c0 ∧ gc_ms c0 = z0 ++ y1 ∧
      p = first_loc y1 None ∧ (length y1 ≤ n)%nat) as Hat.
  { intros z' y' ? ? ?. exists c', z', y'.
    split_and!; [by apply list_lookup_middle|congruence|done..]. }
  rewrite E in Ems. apply app_eq_inv in Ems as [([|[l2 v2] x2] & -> & ->)|([|e z2] & -> & Ey)];
    simplify_eq/=; try (left; by exists l).
  - right. apply (Hat (take (length z) hm) (drop (length z) hm ++ y0)).
    + by rewrite app_assoc, take_drop.
    + apply (f_equal (drop (length z))) in Eloc.
      rewrite fmap_app, drop_app_length', <-fmap_drop in Eloc by by rewrite length_fmap.
      by destruct (drop (length z) hm) as [|[] ?]; simplify_eq/=.
    + apply (f_equal length) in Eloc. rewrite !length_fmap, length_app in Eloc.
      rewrite length_app in Hn |- *. rewrite length_drop. simpl in *. lia.
  - right. apply (Hat (hm ++ z2) y); [by rewrite <-app_assoc|done..].
Qed.

Lemma walker_load s gs i n l :
  groups_ok s gs → walker s gs i n (Some l) →
  group_members s !! l = None ∨
  (∃ m n', group_members s !! l = Some m ∧ n = S n' ∧ walker s gs i n' (gm_next m)).
Proof.
  intros H [?|[(k & [= <-] & Hl)|(c & z & [|[k m] y] & Hi & Ems & [= ->] & Hn)]]; [done|by left|].
  right. simpl in Hn. destruct n as [|n]; [lia|]. exists m, n.
  pose proof (go_members _ _ H) as Hm. rewrite Forall_forall in Hm.
  specialize (Hm c ltac:(by eapply list_elem_of_lookup_2)). simpl in Hm. rewrite Ems in Hm.
  apply sls_lookup in Hm as [Hk Hnext]. split_and!; [done..|]. right. right.
  exists c, (z ++ [(k, m)]), y. rewrite <-app_assoc. split_and!; [done..|lia].
Qed.

Section sweep.
Context {MC : Multicast}.

Lemma remove_member_walk {F : fault → Prop} `{!Safe F} s gs m u w :
  groups_ok s gs →
  wp F (remove_member m u w) (λ _ s', ∃ gs', thinned s gs s' gs' ∧
    ∀ i n p, walker s gs i n p → walker s' gs' i n p) s.
Proof.
  intros H. destruct (find_cell m gs) as [[E Hn]|(a & c & b & -> & _ & Hk)].
  { unfold remove_member. eapply wp_step; [by apply find_entry_ok|]. rewrite E.
    apply wp_ret. exists gs. by split_and!. }
  apply key_is_key in Hk. eapply wp_mono; [by apply remove_member_at|].
  intros [] s' (Hb & c' & H' & Hs & Hd & Hp). exists (a ++ c' :: b). split.
  - split_and!; [done|done|by apply Forall2_app; [|constructor]|].
    intros Hps. eapply ports_ok_at; [done|]. apply Hp.
    rewrite Forall_app, Forall_cons in Hps. tauto.
  - intros i n p. by apply (walker_dropped (member_key m u)).
Qed.

Lemma dangling_member {A} (f : group_member → M igmpd A) Q l s :
  group_members s !! l = None → wp any_fault (load_member (Some l) ≫= f) Q s.
Proof. intros Hl. unfold wp, load_member, load, mbind, M_bind. simpl. by rewrite Hl. Qed.

Lemma sweap_members_ok fuel mip s gs i n p :
  groups_ok s gs → walker s gs i n p → (n < fuel)%nat →
  wp any_fault (sweap_members fuel mip p) (λ _ s', ∃ gs', thinned s gs s' gs') s.
Proof.
  revert s gs n p. induction fuel as [|fuel IH]; intros s gs n p H Hw Hf; [lia|].
  destruct p as [l|]; cbn [sweap_members]; [|by apply wp_ret; exists gs].
  destruct (walker_load _ _ _ _ _ H Hw) as [Hl|(m & n' & Hl & -> & Hw')].
  { by apply dangling_member. }
  eapply wp_step; [by apply load_member_at|].
  apply wp_seq with (λ nb s1, ∃ gs1, thinned s gs s1 gs1 ∧
    walker s1 gs1 i (S n') (Some l) ∧ walker s1 gs1 i n' nb).
  { destruct (gm_has_report m =? 0); [|apply wp_ret; exists gs; by split_and!; [..|left]].
    eapply wp_seq; [by apply remove_member_walk|]. intros [] s1 (gs1 & Ht & Hws).
    apply wp_ret. exists gs1. split_and!; auto. }
  intros nb s1 (gs1 & Ht & Hw1 & Hw2).
  assert (∀ p', walker s1 gs1 i n' p' →
    wp any_fault (sweap_members fuel mip p') (λ _ s', ∃ gs', thinned s gs s' gs') s1) as Hrec.
  { intros p' Hp'. eapply wp_mono; [apply (IH _ gs1 n'); [apply Ht|done|lia]|].
    intros [] s2 (gs2 & Ht2). exists gs2. by eapply thinned_trans. }
  destruct nb as [k|]; [by eapply wp_step; [done|]; apply Hrec|].
  destruct (walker_load s1 gs1 i (S n') l) as [Hl1|(m1 & n1 & Hl1 & [= <-] & Hw3)];
    [apply Ht|done|by apply wp_bind, dangling_member|].
  eapply wp_step; [by rewrite (bind_Ok _ _ _ _ _ (load_member_at _ _ _ Hl1))|].
  by apply Hrec.
Qed.

Lemma sweap_groups_ok fuel ip s a gs :
  groups_ok s (a ++ gs) → (length gs < fuel)%nat →
  wp any_fault (sweap_groups fuel ip (first_loc (gc_pair <$> gs) None))
    (λ _ s', ∃ gs', thinned s (a ++ gs) s' gs') s.
Proof.
  revert s a gs. induction fuel as [|fuel IH]; intros s a gs H Hf; [lia|].
  destruct gs as [|c gs]; cbn [fmap list_fmap first_loc gc_pair sweap_groups].
  { apply wp_ret. exists (a ++ []). by split_and!. }
  eapply wp_step; [by eapply load_group_ok|]. apply wp_gets.
  set (mip := craft_mip _ _ _ _).
  apply wp_seq with (λ _ s1, ∃ a1 c1 gs1, thinned s (a ++ c :: gs) s1 (a1 ++ c1 :: gs1) ∧
    gc_loc c1 = gc_loc c ∧ length gs1 = length gs).
  { apply wp_mono with (λ _ s', ∃ gs', thinned s (a ++ c :: gs) s' gs').
    - unfold when. destruct (ip =? mip); [|by apply wp_ret; exists (a ++ c :: gs); split_and!].
      destruct (groups_ok_cell _ _ _ _ H) as (_ & _ & -> & _).
      eapply (sweap_members_ok _ _ _ _ (length a)); [done| |].
      + right. right. exists c, [], (gc_ms c). split_and!; [by apply list_lookup_middle|done..].
      + pose proof (member_fuel_enough _ _ _ _ H). lia.
    - intros [] s1 (gs' & Ht). pose proof Ht as (_ & _ & Hsame & _).
      apply Forall2_app_inv_l in Hsame as (a1 & r1 & _ & Hr & ->).
      apply Forall2_cons_inv_l in Hr as (c1 & gs1 & (El & _) & Hgs & ->).
      exists a1, c1, gs1. split_and!; [done..|by symmetry; eapply Forall2_length]. }
  intros [] s1 (a1 & c1 & gs1 & Ht & El & Elen). pose proof Ht as (_ & H1 & _).
  rewrite <-El. eapply wp_step; [by eapply load_group_ok|].
  destruct (_ && _); [by apply wp_ret; exists (a1 ++ c1 :: gs1)|].
  destruct (groups_ok_cell _ _ _ _ H1) as (_ & -> & _).
  eapply wp_mono.
  - apply (IH s1 (a1 ++ [c1]) gs1); [by rewrite <-app_assoc|simpl in Hf; lia].
  - intros ? s2 (gs2 & Ht2). exists gs2. rewrite <-app_assoc in Ht2. by eapply thinned_trans.
Qed.

Lemma sweap_no_report_members_ok s gs ip :
  groups_ok s gs →
  wp any_fault (sweap_no_report_members ip) (λ _ s', ∃ gs', thinned s gs s' gs') s.
Proof.
  intros H. unfold sweap_no_report_members, group_fuel. do 2 apply wp_gets.
  rewrite (go_head _ _ H). eapply wp_seq.
  { apply (sweap_groups_ok _ _ _ [] gs); [done|].
    pose proof (group_fuel_enough _ _ H) as Hf. rewrite length_fmap in Hf. lia. }
  intros r s1 (gs1 & Ht). eapply wp_seq; [eapply write_entry_ok, Ht|].
  intros [] s2 Ha. apply wp_ret. exists gs1. destruct Ht as (Hb & H1 & Hs & Hp).
  split_and!; [|by eapply groups_ok_aside|done..].
  transitivity s1; [done|by apply aside_beside].
Qed.
End sweep.
