(* ===== verification/McSpec.v ===== *)
(** * The directory of group members

    What mc_switch.c promises to its callers: for every group the hosts that have
    reported it and not left it.  [run_ops] runs a sequence of calls; [dir_op] is
    the effect of a call on the directory. *)
From S2P Require Import Prelude CLib Heap System Bytes Genconfig SystemApi Callout Igmp McSwitch.
From S2P Require Import IgmpFrame McInv McOps McGroups.

(** The groups with the keys of their members. *)
Abbreviation directory := (list ((Z * Z * Z) * list (Z * Z))).
Definition hosts (t : table) : directory :=
  (λ e : (Z * Z * Z) * list mview, (e.1, mv_key <$> e.2)) <$> t.
Definition hosts_of (gs : list gcell) : directory := hosts (tview gs).

Inductive mc_op :=
  | Report (m_ip_addr u_ip_addr : Z)
  | Leave (m_ip_addr u_ip_addr : Z)
  | RemoveGroup (m_ip_addr : Z).

Definition enter (k : Z * Z) (ks : list (Z * Z)) : list (Z * Z) :=
  if bool_decide (k ∈ ks) then ks else k :: ks.
Definition at_key (k : Z * Z * Z) (f : list (Z * Z) → list (Z * Z)) (d : directory) : directory :=
  (λ e, if bool_decide (e.1 = k) then (e.1, f e.2) else e) <$> d.
(** The group of all hosts is never entered. *)
Definition dir_op (d : directory) (op : mc_op) : directory :=
  match op with
  | Report m u =>
      if bool_decide (group_key m ∈ d.*1) then at_key (group_key m) (enter (member_key m u)) d
      else if bool_decide (group_key m = ALL_HOSTS_KEY) then d
      else (group_key m, [member_key m u]) :: d
  | Leave m u => at_key (group_key m) (filter (λ k, k ≠ member_key m u)) d
  | RemoveGroup m => filter (λ e, e.1 ≠ group_key m) d
  end.

Lemma hosts_keys t : (hosts t).*1 = t.*1.
Proof. unfold hosts. by rewrite <-list_fmap_compose. Qed.

Lemma joined_keys k port vs : mv_key <$> joined k port vs = enter k (mv_key <$> vs).
Proof.
  unfold joined, enter. destruct (bool_decide _); [|done]. rewrite <-list_fmap_compose.
  apply list_fmap_ext. intros i v _. simpl. by case_bool_decide.
Qed.
Lemma departed_keys k vs : mv_key <$> departed k vs = filter (λ k', k' ≠ k) (mv_key <$> vs).
Proof.
  unfold departed. induction vs as [|v vs IH]; [done|]. rewrite fmap_cons, !filter_cons.
  destruct (decide (mv_key v ≠ k)) as [E|E]; rewrite ?fmap_cons, IH; done.
Qed.
Lemma hosts_at k f g t :
  (∀ vs, mv_key <$> f vs = g (mv_key <$> vs)) → hosts (at_group k f t) = at_key k g (hosts t).
Proof.
  intros Hf. unfold hosts, at_group, at_key. rewrite <-!list_fmap_compose. apply list_fmap_ext.
  intros i e _. simpl. case_bool_decide; simpl; [by rewrite Hf|done].
Qed.
Lemma hosts_filter k t : hosts (filter (λ e, e.1 ≠ k) t) = filter (λ e, e.1 ≠ k) (hosts t).
Proof.
  unfold hosts. induction t as [|e t IH]; [done|]. rewrite fmap_cons, !filter_cons. simpl.
  destruct (decide (e.1 ≠ k)) as [E|E]; rewrite ?fmap_cons, IH; done.
Qed.

Section runs.
Context {MC : Multicast} {F : fault → Prop} `{!Safe F}.

Definition run_op (op : mc_op) : M igmpd unit :=
  match op with
  | Report m u => insert_multicast_ip m u
  | Leave m u => remove_member m u true
  | RemoveGroup m => remove_multicast_ip m
  end.
Fixpoint run_ops (ops : list mc_op) : M igmpd unit :=
  match ops with
  | [] => mret tt
  | op :: ops' => run_op op;; run_ops ops'
  end.

Lemma run_op_ok s gs op :
  groups_ok s gs → Forall ports_ok gs →
  wp F (run_op op) (λ _ s', ∃ gs', groups_ok s' gs' ∧ Forall ports_ok gs' ∧
    hosts_of gs' = dir_op (hosts_of gs) op) s.
Proof.
  intros H Hp. unfold hosts_of. destruct op as [m u|m u|m]; cbn [run_op dir_op].
  - eapply wp_mono; [by apply insert_multicast_ip_ok|]. intros [] s' (_ & gs' & H' & Hp' & Hv).
    exists gs'. split; [done|]. split; [by apply Hp'|]. rewrite hosts_keys.
    destruct Hv as [[Hall [port ->]]|(E & Hn & ->)].
    + unfold spec_join. rewrite tview_keys. case_bool_decide as Ek; [apply hosts_at, joined_keys|].
      rewrite bool_decide_false by (by destruct Hall). by unfold hosts; rewrite fmap_cons.
    + rewrite bool_decide_false by by rewrite tview_keys. by rewrite bool_decide_true.
  - eapply wp_mono; [by apply remove_member_ok|]. intros [] s' (_ & gs' & H' & Hp' & Ev).
    exists gs'. split; [done|]. split; [by apply Hp'|]. rewrite Ev. apply hosts_at, departed_keys.
  - eapply wp_mono; [by apply remove_multicast_ip_ok|]. intros [] s' (_ & gs' & H' & Hp' & Ev).
    exists gs'. split; [done|]. split; [by apply Hp'|]. rewrite Ev. apply hosts_filter.
Qed.

Lemma run_ops_ok ops s gs :
  groups_ok s gs → Forall ports_ok gs →
  wp F (run_ops ops) (λ _ s', ∃ gs', groups_ok s' gs' ∧ Forall ports_ok gs' ∧
    hosts_of gs' = foldl dir_op (hosts_of gs) ops) s.
Proof.
  revert s gs. induction ops as [|op ops IH]; intros s gs H Hp; cbn [run_ops].
  { apply wp_ret. by exists gs. }
  eapply wp_seq; [by apply run_op_ok|]. intros [] s1 (gs1 & H1 & Hp1 & E1). simpl.
  rewrite <-E1. by apply IH.
Qed.
End runs.
