(* ===== verification/RouteInv.v ===== *)
(** * rttable.c: the list of routes

    The representation [routes_ok] of the routing table by a list of routes, the
    steps of the code on the list, and what findRoute, link_route and removeRoute
    do to it. *)
From S2P Require Import Prelude CLib Heap System Bytes Genconfig SystemApi Callout Igmp McSwitch.
From S2P Require Import RouteTable IgmpFrame McInv.
From Stdlib Require Import Sorting.Sorted.

Abbreviation rcells := (list (loc * RouteTable)).
Definition rgroups (cs : rcells) : list Z := rt_group <$> cs.*2.

(** What holds of every route of the table. *)
Definition route_ok (r : RouteTable) : Prop :=
  IN_MULTICAST (ntohl (rt_group r)) = true ∧ 0 ≤ rt_vifBits r ∧ 0 ≤ rt_ageVifBits r.

Record routes_ok (s : igmpd) (cs : rcells) : Prop := {
  ro_dll : dll (routes s) (routing_table s) (last_loc None cs) cs;
  ro_dom : dom (routes s) = list_to_set cs.*1;
  ro_sorted : StronglySorted Z.lt (rgroups cs);
  ro_routes : Forall (λ c, route_ok c.2) cs
}.

Lemma routes_ok_same s s' cs :
  routes s' = routes s → routing_table s' = routing_table s → routes_ok s cs → routes_ok s' cs.
Proof. intros Er Et []. split; by rewrite ?Er, ?Et. Qed.

(** All but the routes unchanged. *)
Record astride (s s' : igmpd) : Prop := {
  at_ifvc : ifvc s' = ifvc s;
  at_upstream : upStreamVif s' = upStreamVif s;
  at_config : commonConfig s' = commonConfig s;
  at_running : igmp_proxy_running s' = igmp_proxy_running s;
  at_timeouts : timeouts s' = timeouts s;
  at_groups : groups s' = groups s;
  at_members : group_members s' = group_members s;
  at_group_list : group_list s' = group_list s
}.
#[export] Instance astride_preorder : PreOrder astride.
Proof. split; [by intros s|]. intros s1 s2 s3 [] []. split; congruence. Qed.
Lemma aside_astride s s' : aside s s' → astride s s'.
Proof. by intros []. Qed.

Lemma groups_ok_astride s s' gs : astride s s' → groups_ok s gs → groups_ok s' gs.
Proof. intros [? ? ? ? ? Eg Em El] []. split; rewrite ?Eg, ?Em, ?El; done. Qed.

(** ** Sorted lists of groups *)
Lemma sorted_app l1 l2 :
  StronglySorted Z.lt (l1 ++ l2) ↔
  StronglySorted Z.lt l1 ∧ StronglySorted Z.lt l2 ∧ (∀ x y, x ∈ l1 → y ∈ l2 → x < y).
Proof.
  induction l1 as [|x l1 IH]; simpl.
  { split; [|tauto]. intros H. split_and!; [constructor|done|set_solver]. }
  split.
  - intros [Hs Hf]%StronglySorted_inv. apply IH in Hs as (H1 & H2 & H3).
    apply Forall_app in Hf as [Hf1 Hf2]. split_and!; [by constructor|done|].
    intros y z [->|Hy]%elem_of_cons Hz; [|by apply H3].
    rewrite Forall_forall in Hf2. by apply Hf2.
  - intros ([H1 Hf]%StronglySorted_inv & H2 & H3). constructor.
    + apply IH. split_and!; [done..|]. set_solver.
    + apply Forall_app. split; [done|]. apply Forall_forall. intros y Hy. apply H3; set_solver.
Qed.

Lemma sorted_insert a b g :
  StronglySorted Z.lt (a ++ b) → Forall (λ x, x < g) a → Forall (λ x, g < x) b →
  StronglySorted Z.lt (a ++ g :: b).
Proof.
  intros (Ha & Hb & Hab)%sorted_app Hla Hlb. rewrite Forall_forall in Hla.
  apply sorted_app. split_and!; [done|by constructor|].
  intros x y Hx [->|Hy]%elem_of_cons; [by apply Hla|by apply Hab].
Qed.

Lemma sorted_remove a g b : StronglySorted Z.lt (a ++ g :: b) → StronglySorted Z.lt (a ++ b).
Proof.
  intros (Ha & [Hb _]%StronglySorted_inv & Hab)%sorted_app.
  apply sorted_app. split_and!; [done..|]. intros x y Hx Hy. apply Hab; set_solver.
Qed.

Lemma sorted_NoDup l : StronglySorted Z.lt l → NoDup l.
Proof.
  induction 1 as [|x l _ IH Hf]; constructor; [|done]. rewrite Forall_forall in Hf.
  intros Hx%Hf. lia.
Qed.

Lemma relink_dom {A} p q x y (h : gmap loc (node A)) : dom (relink p q x y h) = dom h.
Proof. unfold relink. destruct p, q; by rewrite ?dom_alter_L. Qed.

(** ** Steps on the list *)
Lemma load_route_at l n s : routes s !! l = Some n → load_route (Some l) s = Ok (n, s).
Proof. exact (@load_Some _ _ routes_heap l n s). Qed.
Lemma update_route_at l n f s :
  routes s !! l = Some n →
  update_route (Some l) f s = Ok (tt, set_routes (alter f l (routes s)) s).
Proof. exact (@update_Some _ _ routes_heap l n f s). Qed.
Lemma free_route_at l n s :
  routes s !! l = Some n → free_route (Some l) s = Ok (tt, set_routes (delete l (routes s)) s).
Proof. exact (@free_Some _ _ routes_heap l n s). Qed.

Lemma route_cell s a l r b :
  routes_ok s (a ++ (l, r) :: b) →
  routes s !! l = Some (Node r (first_loc b None) (last_loc None a)).
Proof. intros [[_ Hs _ _] _ _ _]. by eapply seg_lookup. Qed.

Lemma route_fuel_enough s cs : routes_ok s cs → (length cs ≤ size (routes s))%nat.
Proof.
  intros [[Hnd _ _ _] Hd _ _]. rewrite <-size_dom, Hd, size_list_to_set by done.
  by rewrite length_fmap.
Qed.

(** A route of the table with other values. *)
Lemma routes_ok_set s a l r b w :
  routes_ok s (a ++ (l, r) :: b) → rt_group w = rt_group r → route_ok w →
  routes_ok (set_routes (alter (set_val w) l (routes s)) s) (a ++ (l, w) :: b).
Proof.
  intros [Hd Hdom Hs Hr] Eg Hw. split.
  - simpl. replace (last_loc None _) with (last_loc None (a ++ (l, r) :: b)) by
      by rewrite !last_loc_app.
    by eapply dll_set_val.
  - simpl. rewrite dom_alter_L, Hdom. by rewrite !fmap_app, !fmap_cons.
  - unfold rgroups in *. rewrite !fmap_app, !fmap_cons in Hs |- *. simpl in *. by rewrite Eg.
  - apply Forall_app in Hr as [Ha Hr]. apply Forall_cons in Hr as [_ Hb].
    apply Forall_app. split; [done|]. by constructor.
Qed.

(** ** findRoute *)
Definition has_group (g : Z) (r : RouteTable) : bool := rt_group r =? g.

Lemma findRoute_loop_ok fuel g a b s :
  routes_ok s (a ++ b) → (length b < fuel)%nat →
  findRoute_loop fuel g (first_loc b None) s = Ok (found (has_group g) b, s).
Proof.
  revert a b. induction fuel as [|fuel IH]; intros a [|[l r] b] H Hf; simpl in Hf; try lia; [done|].
  cbn [findRoute_loop first_loc]. rewrite (bind_Ok _ _ _ _ _ (load_route_at _ _ _ (route_cell _ _ _ _ _ H))).
  cbn [nval nnext]. unfold found, has_group. simpl. destruct (rt_group r =? g); [done|].
  apply (IH (a ++ [(l, r)])); [by rewrite <-app_assoc|lia].
Qed.

Lemma findRoute_ok g cs s :
  routes_ok s cs → findRoute g s = Ok (found (has_group g) cs, s).
Proof.
  intros H. unfold findRoute, route_fuel. rewrite !bind_gets.
  rewrite (dll_head _ _ _ _ (ro_dll _ _ H)). apply (findRoute_loop_ok _ _ []); [done|].
  pose proof (route_fuel_enough _ _ H). lia.
Qed.

Lemma find_route_cell g cs :
  (found (has_group g) cs = None ∧ g ∉ rgroups cs) ∨
  (∃ a l r b, cs = a ++ (l, r) :: b ∧ found (has_group g) cs = Some l ∧ rt_group r = g).
Proof.
  destruct (found_split (has_group g) cs) as [[E Hn]|(a & l & r & b & E & E' & Hr & _)].
  - left. split; [done|]. unfold rgroups. intros (r & -> & Hr)%list_elem_of_fmap.
    apply list_elem_of_fmap in Hr as (c & -> & Hc). rewrite Forall_forall in Hn.
    specialize (Hn c Hc). unfold has_group in Hn. simpl in Hn. lia.
  - right. exists a, l, r, b. split_and!; [done..|]. unfold has_group in Hr. lia.
Qed.

(** A group is in the table once. *)
Lemma lower_cells s a l r b :
  routes_ok s (a ++ (l, r) :: b) → Forall (λ c, rt_group c.2 < rt_group r) a.
Proof.
  intros H. pose proof (ro_sorted _ _ H) as Hs. unfold rgroups in Hs.
  rewrite !fmap_app, !fmap_cons in Hs. apply sorted_app in Hs as (_ & _ & Hs).
  apply Forall_forall. intros c Hc. apply Hs; [|by constructor]. by do 2 apply list_elem_of_fmap_2.
Qed.

Lemma found_route_at s a l r b :
  routes_ok s (a ++ (l, r) :: b) →
  found (has_group (rt_group r)) (a ++ (l, r) :: b) = Some l ∧
  find (has_group (rt_group r)) (a ++ (l, r) :: b).*2 = Some r.
Proof.
  intros H%lower_cells. unfold found, has_group. induction H as [|c a Hc _ IH]; simpl.
  - by rewrite Z.eqb_refl.
  - by rewrite (proj2 (Z.eqb_neq _ _)) by lia.
Qed.

Lemma route_absent g cs : g ∉ rgroups cs → find (has_group g) cs.*2 = None.
Proof.
  unfold rgroups, has_group. induction cs as [|[l r] cs IH]; simpl; [done|].
  intros [Hg Hcs]%not_elem_of_cons. rewrite (proj2 (Z.eqb_neq _ _)) by done. by apply IH.
Qed.

(** ** Linking a route *)
Lemma insert_position_ok fuel g pp l r y s :
  seg (routes s) pp ((l, r) :: y) None → (length y < fuel)%nat → rt_group r ≤ g →
  ∃ a k w b, (l, r) :: y = a ++ (k, w) :: b ∧ insert_position fuel g (Some l) s = Ok (Some k, s) ∧
    Forall (λ c, rt_group c.2 ≤ g) (a ++ [(k, w)]) ∧
    (∀ c, head b = Some c → g < rt_group c.2).
Proof.
  revert pp l r y. induction fuel as [|fuel IH]; intros pp l r y [Hl Hs] Hf Hr; [lia|].
  cbn [insert_position]. rewrite (bind_Ok _ _ _ _ _ (load_route_at _ _ _ Hl)). cbn [nnext].
  destruct y as [|[k w] y]; cbn [first_loc].
  { exists [], l, r, []. split_and!; [done..|by repeat constructor|done]. }
  pose proof Hs as [Hk _]. rewrite (bind_Ok _ _ _ _ _ (load_route_at _ _ _ Hk)). cbn [nval].
  destruct (Z.ltb_spec g (rt_group w)) as [Hlt|Hge].
  { exists [], l, r, ((k, w) :: y). split_and!; [done..|by repeat constructor|].
    by intros c [= <-]. }
  simpl in Hf. destruct (IH _ _ _ _ Hs ltac:(lia) Hge) as (a & k' & w' & b & E & E' & Ha & Hb).
  exists ((l, r) :: a), k', w', b. split_and!; [by rewrite E|done|by constructor|done].
Qed.

Lemma head_below g b :
  StronglySorted Z.lt (rgroups b) → (∀ c, head b = Some c → g < rt_group c.2) →
  Forall (λ x, g < x) (rgroups b).
Proof.
  destruct b as [|c b]; [constructor|]. intros [_ Hf]%StronglySorted_inv Hc.
  specialize (Hc c eq_refl). constructor; [done|].
  eapply Forall_impl; [exact Hf|]. simpl. intros. lia.
Qed.

(** The new block [l] between [a] and [b]. *)
Lemma routes_ok_insert s a b l r :
  routes_ok s (a ++ b) → l ∉ dom (routes s) → route_ok r →
  Forall (λ x, x < rt_group r) (rgroups a) → Forall (λ x, rt_group r < x) (rgroups b) →
  routes_ok (set_routing_table (first_loc (a ++ (l, r) :: b) None)
    (set_routes (<[l := Node r (first_loc b None) (last_loc None a)]>
      (relink (last_loc None a) (first_loc b None) (Some l) (Some l) (routes s))) s))
    (a ++ (l, r) :: b).
Proof.
  intros [Hd Hdom Hs Hr] Hl Hok Ha Hb. rewrite Hdom, elem_of_list_to_set in Hl. split; simpl.
  - by eapply dll_insert.
  - rewrite dom_insert_L, relink_dom, Hdom, !fmap_app, fmap_cons. set_solver.
  - unfold rgroups in *. rewrite !fmap_app, !fmap_cons in *. by apply sorted_insert.
  - apply Forall_app in Hr as [? ?]. apply Forall_app. split; [done|]. by constructor.
Qed.

(** The last case of link_route: the new route behind the one at [k]. *)
Lemma link_behind l k q r s n :
  routes s !! k = Some n → nnext n = q → k ≠ l → q ≠ Some l → q ≠ Some k →
  (∀ j, q = Some j → is_Some (routes s !! j)) →
  (c ← load_route (Some k);
   update_route (Some l) (set_next (nnext c));;
   update_route (Some l) (set_prev (Some k));;
   (match nnext c with
    | Some _ => update_route (nnext c) (set_prev (Some l))
    | None => mret tt
    end);;
   update_route (Some k) (set_next (Some l)))
    (set_routes (<[l := Node r None None]> (routes s)) s) =
  Ok (tt, set_routes (<[l := Node r q (Some k)]>
                        (relink (Some k) q (Some l) (Some l) (routes s))) s).
Proof.
  intros Hk Hq Hkl Hql Hqk Hj.
  erewrite bind_Ok by (apply load_route_at; simpl; by rewrite lookup_insert_ne). rewrite Hq.
  do 2 (erewrite bind_Ok by (eapply update_route_at; simpl;
          by rewrite ?alter_insert_eq, lookup_insert_eq);
        simpl routes; rewrite ?alter_insert_eq). simpl. unfold relink.
  destruct q as [j|].
  - destruct (Hj j eq_refl) as [m Hm].
    erewrite bind_Ok by (apply update_route_at with m; simpl; by rewrite lookup_insert_ne by congruence).
    rewrite (update_route_at k n) by (simpl; rewrite lookup_alter_ne, lookup_insert_ne; congruence).
    simpl. rewrite !alter_insert_ne by congruence.
    by rewrite (alter_alter_ne _ _ _ k j) by congruence.
  - erewrite bind_Ok by done.
    rewrite (update_route_at k n) by (simpl; by rewrite lookup_insert_ne).
    simpl. by rewrite alter_insert_ne.
Qed.

(** In front of the whole list. *)
Lemma link_first l k r s n :
  routes s !! k = Some n → k ≠ l →
  (update_route (Some l) (set_next (Some k));;
   update_route (Some l) (set_prev None);;
   modify (set_routing_table (Some l));;
   update_route (Some k) (set_prev (Some l)))
    (set_routes (<[l := Node r None None]> (routes s)) s) =
  Ok (tt, set_routing_table (Some l) (set_routes (<[l := Node r (Some k) None]>
            (relink None (Some k) (Some l) (Some l) (routes s))) s)).
Proof.
  intros Hk Hkl.
  do 2 (erewrite bind_Ok by (eapply update_route_at; simpl;
          by rewrite ?alter_insert_eq, lookup_insert_eq);
        simpl routes; rewrite ?alter_insert_eq).
  erewrite bind_Ok by done.
  rewrite (update_route_at k n) by (simpl; by rewrite lookup_insert_ne).
  unfold relink. simpl. by rewrite alter_insert_ne.
Qed.

Lemma fresh_route s cs l g k v :
  routes_ok s cs → l ∉ dom (routes s) → g ∉ rgroups cs → (k, v) ∈ cs → k ≠ l ∧ rt_group v ≠ g.
Proof.
  intros H Hl Hg Hin. split.
  - intros ->. apply Hl. rewrite (ro_dom _ _ H). apply elem_of_list_to_set.
    apply list_elem_of_fmap. by exists (l, v).
  - intros E. apply Hg. rewrite <-E. unfold rgroups. apply list_elem_of_fmap_2.
    apply list_elem_of_fmap. by exists (k, v).
Qed.

Lemma link_behind_ok s a j w b l r :
  routes_ok s (a ++ (j, w) :: b) → l ∉ dom (routes s) → route_ok r →
  rt_group r ∉ rgroups (a ++ (j, w) :: b) →
  Forall (λ c, rt_group c.2 ≤ rt_group r) (a ++ [(j, w)]) →
  (∀ c, head b = Some c → rt_group r < rt_group c.2) →
  let s' := set_routing_table (routing_table s)
    (set_routes (<[l := Node r (first_loc b None) (Some j)]>
      (relink (Some j) (first_loc b None) (Some l) (Some l) (routes s))) s) in
  (c ← load_route (Some j);
   update_route (Some l) (set_next (nnext c));;
   update_route (Some l) (set_prev (Some j));;
   (match nnext c with
    | Some _ => update_route (nnext c) (set_prev (Some l))
    | None => mret tt
    end);;
   update_route (Some j) (set_next (Some l)))
    (set_routes (<[l := Node r None None]> (routes s)) s) = Ok (tt, s') ∧
  routes_ok s' ((a ++ [(j, w)]) ++ (l, r) :: b).
Proof.
  intros H Hl Hok Hg Ha Hb. pose proof (ro_dll _ _ H) as [Hnd Hs Hh _].
  pose proof (λ k v, fresh_route _ _ _ _ k v H Hl Hg) as Hne. split.
  - rewrite (link_behind l j (first_loc b None) r s _ (route_cell _ _ _ _ _ H)); [by destruct s|done|..].
    + apply (Hne j w). set_solver.
    + destruct b as [|[i u] b]; [done|]. intros [= ->]. by destruct (Hne l u ltac:(set_solver)).
    + destruct b as [|[i u] b]; [done|]. intros [= ->]. rewrite fmap_app in Hnd.
      apply NoDup_app in Hnd as (_ & _ & Hnd). apply NoDup_cons in Hnd as [Hnd _].
      apply Hnd. by constructor.
    + intros i Hi. destruct b as [|[i' u] b]; [done|]. injection Hi as ->.
      eapply seg_dom; [exact Hs|]. rewrite fmap_app. set_solver.
  - assert (a ++ (j, w) :: b = (a ++ [(j, w)]) ++ b) as Eab by by rewrite <-app_assoc.
    pose proof (routes_ok_insert s (a ++ [(j, w)]) b l r) as Hi. rewrite last_loc_snoc in Hi.
    rewrite Hh. replace (first_loc (a ++ (j, w) :: b) None)
      with (first_loc ((a ++ [(j, w)]) ++ (l, r) :: b) None) by by destruct a as [|[] ?].
    apply Hi; [by rewrite <-Eab|done|done| |].
    + apply Forall_fmap, Forall_fmap, Forall_forall. intros [i u] Hu.
      rewrite Forall_forall in Ha. specialize (Ha _ Hu). simpl in *.
      destruct (Hne i u ltac:(set_solver)). lia.
    + apply head_below; [|done]. pose proof (ro_sorted _ _ H) as Hso. rewrite Eab in Hso.
      unfold rgroups in Hso. rewrite !fmap_app in Hso. by apply sorted_app in Hso as (_ & Hso & _).
Qed.

(** The route is linked in between the routes of smaller and of greater groups. *)
Lemma link_route_ok s cs l r :
  routes_ok s cs → l ∉ dom (routes s) → route_ok r → rt_group r ∉ rgroups cs →
  ∃ a b p h, cs = a ++ b ∧
    link_route (Some l) (rt_group r) (set_routes (<[l := Node r None None]> (routes s)) s) =
      Ok (tt, set_routing_table p (set_routes h s)) ∧
    routes_ok (set_routing_table p (set_routes h s)) (a ++ (l, r) :: b).
Proof.
  intros H Hl Hok Hg. unfold link_route. rewrite bind_gets.
  set (s1 := set_routes _ s). change (routing_table s1) with (routing_table s).
  pose proof (ro_dll _ _ H) as [_ Hs Hh _].
  pose proof (λ k v, fresh_route _ _ _ _ k v H Hl Hg) as Hne.
  destruct cs as [|[k v] cs]; rewrite Hh; cbn [first_loc].
  { exists [], [], (Some l), (<[l := Node r None None]> (routes s)). split; [done|].
    split; [done|]. by apply (routes_ok_insert s [] []). }
  pose proof Hs as [Hk _]. destruct (Hne k v ltac:(by constructor)) as [Hkl _].
  erewrite bind_Ok by (apply load_route_at; simpl; by rewrite lookup_insert_ne).
  cbn [nval]. destruct (Z.ltb_spec (rt_group r) (rt_group v)) as [Hlt|Hge].
  { eexists [], ((k, v) :: cs), _, _. split; [done|]. split; [by eapply link_first|].
    apply (routes_ok_insert s [] ((k, v) :: cs)); [done..|constructor|].
    apply (head_below _ ((k, v) :: cs)); [apply H|]. by intros c [= <-]. }
  unfold route_fuel. rewrite bind_gets.
  assert (seg (routes s1) None ((k, v) :: cs) None) as Hs1.
  { apply seg_insert_ne; [|done]. intros ([j w] & -> & Hj)%list_elem_of_fmap.
    by destruct (Hne j w Hj). }
  destruct (insert_position_ok (S (size (routes s1))) (rt_group r) _ _ _ _ _ Hs1)
    as (a & j & w & b & E & Ep & Ha & Hb); [|lia|].
  { pose proof (route_fuel_enough _ _ H) as Hf. simpl in Hf |- *.
    rewrite map_size_insert_None by by apply not_elem_of_dom. lia. }
  rewrite (bind_Ok _ _ _ _ _ Ep). rewrite E in H, Hg |- *.
  destruct (link_behind_ok s a j w b l r) as [Er Hr]; [done..|].
  eexists (a ++ [(j, w)]), b, _, _. split; [by rewrite <-app_assoc|]. split; [exact Er|exact Hr].
Qed.

(** ** Removing a route *)
Lemma unlink_route_ok s a l r b :
  routes_ok s (a ++ (l, r) :: b) →
  unlink_route (Some l) s = Ok (tt, set_routing_table (first_loc (a ++ b) None)
    (set_routes (relink (last_loc None a) (first_loc b None) (first_loc b None) (last_loc None a)
                   (routes s)) s)).
Proof.
  intros H. unfold unlink_route.
  rewrite (bind_Ok _ _ _ _ _ (load_route_at _ _ _ (route_cell _ _ _ _ _ H))). cbn [nnext nprev].
  pose proof (ro_dll _ _ H) as [Hnd Hs Hh _].
  assert (∀ k, k ∈ (a ++ (l, r) :: b).*1 → ∃ n, routes s !! k = Some n) as Hdom.
  { intros k Hk. by apply (seg_dom _ _ _ _ _ Hs). }
  unfold relink. destruct (last_loc_cases None a) as [[-> ->]|(a' & k & v & -> & ->)].
  - destruct b as [|[q u] b]; cbn [first_loc app].
    { by erewrite bind_Ok by done. }
    destruct (Hdom q ltac:(set_solver)) as [n Hq].
    by rewrite (bind_Ok _ _ _ _ _ (update_route_at q n _ _ Hq)).
  - destruct (Hdom k ltac:(rewrite fmap_app; set_solver)) as [n Hk].
    rewrite (bind_Ok _ _ _ _ _ (update_route_at k n _ _ Hk)).
    assert (first_loc ((a' ++ [(k, v)]) ++ b) None = routing_table s) as -> by
      (rewrite Hh; by destruct a' as [|[] ?]).
    destruct b as [|[q u] b]; cbn [first_loc]; [by destruct s|].
    destruct (Hdom q ltac:(rewrite fmap_app; set_solver)) as [m Hq].
    rewrite (update_route_at q m); [by destruct s|]. simpl. rewrite lookup_alter_ne; [done|].
    intros ->. rewrite fmap_app, fmap_cons in Hnd. apply NoDup_app in Hnd as (_ & Hnd & _).
    apply (Hnd q); [rewrite fmap_app|]; set_solver.
Qed.

Lemma routes_ok_remove s a l r b :
  routes_ok s (a ++ (l, r) :: b) →
  routes_ok (set_routing_table (first_loc (a ++ b) None)
    (set_routes (delete l (relink (last_loc None a) (first_loc b None)
                  (first_loc b None) (last_loc None a) (routes s))) s)) (a ++ b).
Proof.
  intros [Hd Hdom Hs Hr]. pose proof (dll_nodup _ _ _ _ Hd) as Hnd.
  rewrite fmap_app, fmap_cons in Hnd. apply NoDup_app in Hnd as (_ & Hla & Hnd).
  apply NoDup_cons in Hnd as [Hlb _]. split; simpl.
  - by eapply dll_remove.
  - rewrite dom_delete_L, relink_dom, Hdom, !fmap_app, fmap_cons. set_solver.
  - unfold rgroups in *. rewrite !fmap_app, ?fmap_cons in *. by eapply sorted_remove.
  - apply Forall_app in Hr as [? Hr]. apply Forall_cons in Hr as [_ ?]. by apply Forall_app.
Qed.
