(* ===== verification/RouteOps.v ===== *)
(** * rttable.c: the operations on the routing table

    What joining, leaving, inserting, removing and ageing do to the list of
    routes.  [F] are the faults that are allowed, as in [McOps]. *)
From S2P Require Import Prelude CLib Heap System Bytes Genconfig SystemApi Callout Igmp McSwitch.
From S2P Require Import RouteTable IgmpFrame McInv McOps McGroups RouteInv.
From Stdlib Require Import Sorting.Sorted.

(** There is an upstream interface. *)
Definition upstream_ok (s : igmpd) : Prop := is_Some (ifvc s !! Z.to_nat (u32 (upStreamVif s))).

Lemma upstream_ok_same s s' :
  ifvc s' = ifvc s → upStreamVif s' = upStreamVif s → upstream_ok s → upstream_ok s'.
Proof. unfold upstream_ok. by intros -> ->. Qed.
Lemma upstream_ok_astride s s' : astride s s' → upstream_ok s → upstream_ok s'.
Proof. intros []. by apply upstream_ok_same. Qed.
Lemma upstream_ok_aside s s' : aside s s' → upstream_ok s → upstream_ok s'.
Proof. intros []. by apply upstream_ok_same. Qed.
Lemma upstream_ok_beside s s' : beside s s' → upstream_ok s → upstream_ok s'.
Proof. intros []. by apply upstream_ok_same. Qed.

Lemma routes_ok_aside s s' cs : aside s s' → routes_ok s cs → routes_ok s' cs.
Proof. intros []. by apply routes_ok_same. Qed.
Lemma routes_ok_beside s s' cs : beside s s' → routes_ok s cs → routes_ok s' cs.
Proof. intros []. by apply routes_ok_same. Qed.

(** ** The values of a route *)

(** The route after a join or a leave. *)
Definition told (join : bool) (r : RouteTable) : RouteTable :=
  if join then (if 0 <? rt_vifBits r then with_state ROUTESTATE_JOINED r else r)
  else if rt_upstrState r =? ROUTESTATE_NOTJOINED then r else with_state ROUTESTATE_NOTJOINED r.

(** The route with a listener on the interface [ifx]. *)
Definition listened (ifx : Z) (r : RouteTable) : RouteTable :=
  with_ageVifBits (Z.lor (rt_ageVifBits r) (2 ^ ifx))
    (with_vifBits (Z.lor (rt_vifBits r) (2 ^ ifx)) r).

Lemma told_group j r : rt_group (told j r) = rt_group r.
Proof. unfold told. by destruct j; [destruct (0 <? _)|destruct (_ =? _)]. Qed.
Lemma told_ok j r : route_ok r → route_ok (told j r).
Proof. unfold told, route_ok. by destruct j; [destruct (0 <? _)|destruct (_ =? _)]. Qed.
Lemma listened_ok ifx r : 0 ≤ ifx → route_ok r → route_ok (listened ifx r).
Proof.
  intros Hi (? & ? & ?). unfold route_ok, listened. simpl. split_and!; [done|..];
    apply Z.lor_nonneg; split; try done; apply Z.pow_nonneg; lia.
Qed.

Lemma BIT_SET_ok x n : 0 ≤ n < 32 → BIT_SET x n = Ok (Z.lor x (2 ^ n)).
Proof.
  intros H. unfold BIT_SET, bit.
  by rewrite (proj2 (Z.leb_le _ _)), (proj2 (Z.ltb_lt _ _)) by lia.
Qed.

(** The table with [r] in the place of its group. *)
Definition placed (r : RouteTable) (t : list RouteTable) : list RouteTable :=
  filter (λ x, rt_group x < rt_group r) t ++ r :: filter (λ x, rt_group r < rt_group x) t.

Lemma placed_at a l r b m :
  StronglySorted Z.lt (rgroups (a ++ (l, r) :: b)) → Forall (λ x, rt_group x = rt_group r) m →
  placed r (a.*2 ++ m ++ b.*2) = (a ++ (l, r) :: b).*2.
Proof.
  unfold rgroups. rewrite !fmap_app, !fmap_cons. intros (_ & Hb & Ha)%sorted_app Hm.
  apply StronglySorted_inv in Hb as [_ Hb].
  assert (Forall (λ x, rt_group r < rt_group x) b.*2) as Hb' by
    by apply (Forall_fmap rt_group (Z.lt (rt_group r))).
  assert (Forall (λ x, rt_group x < rt_group r) a.*2) as Ha'.
  { apply Forall_forall. intros x Hx. apply Ha; [by apply list_elem_of_fmap_2|by constructor]. }
  unfold placed. rewrite !filter_app.
  rewrite (filter_all (λ x, rt_group x < rt_group r) a.*2) by done.
  rewrite (filter_all (λ x, rt_group r < rt_group x) b.*2) by done.
  rewrite (filter_none (λ x, rt_group r < rt_group x) a.*2) by
    (eapply Forall_impl; [exact Ha'|]; simpl; lia).
  rewrite (filter_none (λ x, rt_group x < rt_group r) b.*2) by
    (eapply Forall_impl; [exact Hb'|]; simpl; lia).
  rewrite !filter_none by (eapply Forall_impl; [exact Hm|]; simpl; lia).
  by rewrite !app_nil_r.
Qed.

Section steps.
Context {MC : Multicast} {F : fault → Prop} `{!Safe F}.

#[export] Instance ttl_loop_runs bits l iv ttl : ResRuns F (ttl_loop bits l iv ttl).
Proof.
  revert iv ttl. induction l as [|Dp l IH]; intros iv ttl; cbn [ttl_loop]; [apply _|].
  destruct (_ =? _); [apply IH|]. apply res_runs_bind; [apply _|]. intros []; [|apply IH].
  apply res_runs_bind; [apply _|]. intros; apply IH.
Qed.
#[export] Instance kernel_runs r act : Runs F aside (internUpdateKernelRoute r act).
Proof. unfold internUpdateKernelRoute, addMRoute, delMRoute. apply _. Qed.

#[export] Instance join_runs Dp g : Runs F aside (joinMcGroup (Some Dp) g).
Proof. unfold joinMcGroup. apply _. Qed.
#[export] Instance leave_runs Dp g : Runs F aside (leaveMcGroup (Some Dp) g).
Proof. unfold leaveMcGroup. apply _. Qed.
#[export] Instance forward_rule_runs op Dp g : Runs F aside (forward_rule op (Some Dp) g).
Proof. unfold forward_rule. apply _. Qed.

Lemma sendJoinLeaveUpstream_ok s r j :
  upstream_ok s →
  wp F (sendJoinLeaveUpstream r j) (λ r' s', r' = told j r ∧ aside s s') s.
Proof.
  intros [Dp HD]. unfold sendJoinLeaveUpstream, getIfByIx, told. apply wp_gets.
  apply wp_bind. apply wp_gets. destruct (MAX_IF <? _); [by apply wp_fail, safe|].
  apply wp_ret. rewrite HD. destruct j.
  - destruct (0 <? _); [|by apply wp_ret].
    eapply wp_seq; [apply join_runs|]. intros [] s1 H1.
    eapply wp_seq; [apply forward_rule_runs|]. intros [] s2 H2.
    apply wp_ret. split; [done|by transitivity s1].
  - destruct (_ =? _); [by apply wp_ret|].
    eapply wp_seq; [apply leave_runs|]. intros [] s1 H1.
    eapply wp_seq; [apply forward_rule_runs|]. intros [] s2 H2.
    apply wp_ret. split; [done|by transitivity s1].
Qed.

(** [croute->field = ...] on a route of the table. *)
Lemma update_value_ok s a l r b f :
  routes_ok s (a ++ (l, r) :: b) → rt_group (f r) = rt_group r → route_ok (f r) →
  let s' := set_routes (alter (set_val (f r)) l (routes s)) s in
  update_route (Some l) (on_route f) s = Ok (tt, s') ∧ routes_ok s' (a ++ (l, f r) :: b).
Proof.
  intros H Eg Hf. pose proof (route_cell _ _ _ _ _ H) as Hl. split.
  - rewrite (update_route_at _ _ _ _ Hl). do 3 f_equal. apply alter_ext.
    intros n. rewrite Hl. by intros [= <-].
  - by eapply routes_ok_set.
Qed.

Lemma load_route_ok s a l r b :
  routes_ok s (a ++ (l, r) :: b) →
  load_route (Some l) s = Ok (Node r (first_loc b None) (last_loc None a), s).
Proof. intros H. by apply load_route_at, route_cell. Qed.

Lemma cell_route_ok s a l r b : routes_ok s (a ++ (l, r) :: b) → route_ok r.
Proof.
  intros H. pose proof (ro_routes _ _ H) as Hr. rewrite Forall_app, Forall_cons in Hr. tauto.
Qed.

Lemma join_leave_cell s l n j :
  routes s !! l = Some n → upstream_ok s →
  wp F (join_leave_at (Some l) j)
    (λ _ s', ∃ s1, aside s s1 ∧ s' = set_routes (alter (set_val (told j (nval n))) l (routes s)) s1) s.
Proof.
  intros H Hu. unfold join_leave_at. eapply wp_step; [by apply load_route_at|].
  eapply wp_seq; [by apply sendJoinLeaveUpstream_ok|]. intros r' s1 [-> Ha].
  unfold wp. rewrite (update_route_at l n) by by rewrite (as_routes _ _ Ha).
  exists s1. by rewrite (as_routes _ _ Ha).
Qed.

Lemma join_leave_at_ok s a l r b j :
  routes_ok s (a ++ (l, r) :: b) → upstream_ok s →
  wp F (join_leave_at (Some l) j)
    (λ _ s', astride s s' ∧ routes_ok s' (a ++ (l, told j r) :: b)) s.
Proof.
  intros H Hu. eapply wp_mono; [eapply join_leave_cell; [by eapply route_cell|done]|].
  intros [] s' (s1 & Ha & ->). cbn [nval]. split; [by destruct Ha|].
  rewrite <-(as_routes _ _ Ha). apply routes_ok_set with r.
  - by eapply routes_ok_aside.
  - apply told_group.
  - eapply told_ok, cell_route_ok, H.
Qed.

Lemma set_listener_ok s a l r b ifx :
  routes_ok s (a ++ (l, r) :: b) → 0 ≤ ifx < 32 →
  let s' := set_routes (alter (set_val (listened ifx r)) l (routes s)) s in
  set_listener (Some l) ifx s = Ok (tt, s') ∧ routes_ok s' (a ++ (l, listened ifx r) :: b).
Proof.
  intros H Hi. unfold set_listener. rewrite (bind_Ok _ _ _ _ _ (load_route_ok _ _ _ _ _ H)).
  cbn [nval]. rewrite !BIT_SET_ok by done. rewrite !bind_of_res.
  refine (update_value_ok s a l r b (λ r0, with_ageVifBits (Z.lor (rt_ageVifBits r) (2 ^ ifx))
    (with_vifBits (Z.lor (rt_vifBits r) (2 ^ ifx)) r0)) H eq_refl _).
  apply (listened_ok ifx r); [lia|]. by eapply cell_route_ok.
Qed.

Lemma reload_kernel_ok s a l r b :
  routes_ok s (a ++ (l, r) :: b) → wp F (reload_kernel (Some l)) (λ _ s', aside s s') s.
Proof.
  intros H. unfold reload_kernel. eapply wp_step; [by eapply load_route_ok|].
  apply (runs_bind (R := aside)); apply _.
Qed.

(** ** insertRoute *)

(** The route that insertRoute finds or makes, with the listener. *)
Definition fresh_rt (conf : Config) (grp : Z) : RouteTable :=
  Route grp 0 0 ROUTESTATE_NOTJOINED 0 (i32 (robustnessValue conf)) 0.
Definition heard (ifx : Z) (r : RouteTable) : RouteTable :=
  if 0 <=? ifx then listened ifx r else r.

Lemma heard_ok ifx r : route_ok r → route_ok (heard ifx r).
Proof.
  intros H. unfold heard. destruct (Z.leb_spec 0 ifx); [by apply listened_ok|done].
Qed.
Lemma heard_group ifx r : rt_group (heard ifx r) = rt_group r.
Proof. unfold heard. by destruct (0 <=? ifx). Qed.

Lemma new_route_ok s cs grp ifx :
  routes_ok s cs → grp ∉ rgroups cs → IN_MULTICAST (ntohl grp) = true → ifx < 32 →
  wp F (new_route grp ifx) (λ p s', astride s s' ∧ ∃ a l b, cs = a ++ b ∧ p = Some l ∧
    routes_ok s' (a ++ (l, heard ifx (fresh_rt (commonConfig s) grp)) :: b)) s.
Proof.
  intros H Hg Hm Hi. unfold new_route, heard. apply wp_gets.
  set (r0 := fresh_rt (commonConfig s) grp).
  set (r1 := if 0 <=? ifx then with_vifBits (2 ^ ifx) r0 else r0).
  assert (route_ok r1 ∧ rt_group r1 = grp) as [Hr1 Eg1].
  { unfold r1. destruct (Z.leb_spec 0 ifx); [|done]. split; [|done].
    split_and!; [done|simpl; apply Z.pow_nonneg; lia|done]. }
  apply wp_step with (a := rt_vifBits r1) (s' := s).
  { unfold r1. destruct (Z.leb_spec 0 ifx); [|done]. by rewrite BIT_SET_ok by lia. }
  apply wp_step with (a := fresh (dom (routes s)))
    (s' := set_routes (<[fresh (dom (routes s)) := Node r1 None None]> (routes s)) s).
  { unfold malloc, r1. do 3 f_equal. by destruct (0 <=? ifx). }
  set (l := fresh (dom (routes s))).
  destruct (link_route_ok s cs l r1) as (a & b & p & h & -> & E & H1);
    [done|apply is_fresh|done|by rewrite Eg1|].
  rewrite Eg1 in E. eapply wp_step; [exact E|]. set (s1 := set_routing_table p (set_routes h s)).
  apply wp_seq with (λ _ s', astride s s' ∧ routes_ok s' (a ++ (l, heard ifx r0) :: b)).
  2: { intros [] s' [Ha H']. apply wp_ret. split; [done|]. by exists a, l, b. }
  unfold when, heard, r1 in *. clear r1 E. destruct (Z.leb_spec 0 ifx); [|by apply wp_ret].
  destruct (set_listener_ok s1 a l _ b ifx H1) as [E2 H2]; [lia|].
  eapply wp_step; [exact E2|]. eapply wp_mono; [by eapply reload_kernel_ok|].
  intros [] s3 Ha. split; [by destruct Ha|].
  replace (listened ifx r0) with (listened ifx (with_vifBits (2 ^ ifx) r0)).
  - by eapply routes_ok_aside.
  - unfold listened. simpl. by rewrite Z.lor_diag.
Qed.

Lemma update_listener_ok s a l r b ifx :
  routes_ok s (a ++ (l, r) :: b) → 0 ≤ ifx < 32 →
  wp F (update_listener (Some l) ifx)
    (λ _ s', astride s s' ∧ routes_ok s' (a ++ (l, listened ifx r) :: b)) s.
Proof.
  intros H Hi. unfold update_listener. destruct (set_listener_ok s a l r b ifx H Hi) as [E H1].
  eapply wp_step; [exact E|]. eapply wp_step; [by eapply load_route_ok|].
  unfold when. destruct (negb _); [|by apply wp_ret].
  eapply wp_mono; [by eapply reload_kernel_ok|]. intros [] s2 Ha. split; [by destruct Ha|].
  by eapply routes_ok_aside.
Qed.

(** The route of the group, or a new one. *)
Definition route_of (conf : Config) (grp : Z) (t : list RouteTable) : RouteTable :=
  default (fresh_rt conf grp) (find (has_group grp) t).
(** The route that insertRoute leaves: joined, if it has listeners. *)
Definition inserted (conf : Config) (grp ifx : Z) (t : list RouteTable) : RouteTable :=
  let r := heard ifx (route_of conf grp t) in
  if rt_upstrState r =? ROUTESTATE_JOINED then r else told true r.

Lemma route_of_group conf grp t : rt_group (route_of conf grp t) = grp.
Proof.
  unfold route_of. destruct (find _ t) eqn:E; [|done]. apply find_some in E as [_ E].
  by apply Z.eqb_eq.
Qed.
Lemma inserted_group conf grp ifx t : rt_group (inserted conf grp ifx t) = grp.
Proof.
  unfold inserted. destruct (_ =? _); rewrite ?told_group, heard_group; apply route_of_group.
Qed.

(** The end of insertRoute on the route that has been found or made. *)
Lemma join_route_ok s a l r b :
  routes_ok s (a ++ (l, r) :: b) → upstream_ok s →
  wp F (n ← load_route (Some l);
        when (negb (rt_upstrState (nval n) =? ROUTESTATE_JOINED)) (join_leave_at (Some l) true);;
        mret 1)
    (λ z s', z = 1 ∧ astride s s' ∧ routes_ok s' (a ++ (l,
       if rt_upstrState r =? ROUTESTATE_JOINED then r else told true r) :: b)) s.
Proof.
  intros H Hu. eapply wp_step; [by eapply load_route_ok|]. cbn [nval]. unfold when.
  destruct (_ =? _); cbn [negb]; [by eapply wp_step; [done|]; apply wp_ret|].
  eapply wp_seq; [by apply join_leave_at_ok|]. intros [] s1 [Ha H1]. by apply wp_ret.
Qed.

(** The report of a listener on [ifx] for the group [grp]. *)
Definition spec_insert (conf : Config) (grp ifx : Z) (t : list RouteTable) : list RouteTable :=
  if IN_MULTICAST (ntohl grp) && (ifx <? 32) then placed (inserted conf grp ifx t) t else t.

Lemma insertRoute_ok s cs grp ifx :
  routes_ok s cs → upstream_ok s →
  wp F (insertRoute grp ifx) (λ z s', astride s s' ∧
    z = Z.b2z (IN_MULTICAST (ntohl grp) && (ifx <? 32)) ∧
    ∃ cs', routes_ok s' cs' ∧ cs'.*2 = spec_insert (commonConfig s) grp ifx cs.*2) s.
Proof.
  intros H Hu. unfold insertRoute, spec_insert, MAX_MC_VIFS.
  destruct (IN_MULTICAST (ntohl grp)) eqn:Hm; cbn [negb andb];
    [|by apply wp_ret; split; [|split; [|exists cs]]].
  destruct (Z.leb_spec 32 ifx) as [Hi|Hi]; [rewrite (proj2 (Z.ltb_ge _ _)) by lia|
    rewrite (proj2 (Z.ltb_lt _ _)) by lia].
  { apply wp_ret. split; [done|]. split; [done|]. by exists cs. }
  eapply wp_step; [by apply findRoute_ok|]. set (r := route_of (commonConfig s) grp cs.*2).
  apply wp_seq with (λ p s', astride s s' ∧ ∃ a l b m, cs.*2 = a.*2 ++ m ++ b.*2 ∧
    p = Some l ∧ Forall (λ x, rt_group x = grp) m ∧
    routes_ok s' (a ++ (l, heard ifx r) :: b)).
  - destruct (find_route_cell grp cs) as [[-> Hg]|(a & l & w & b & -> & -> & <-)].
    + eapply wp_mono; [by apply new_route_ok|]. intros p s1 (Ha & a & l & b & -> & -> & H1).
      split; [done|]. exists a, l, b, []. split; [by rewrite fmap_app|]. split; [done|].
      split; [done|]. unfold r, route_of. by rewrite (route_absent _ _ Hg).
    + assert (r = w) as -> by (unfold r, route_of; by rewrite (proj2 (found_route_at _ _ _ _ _ H))).
      apply wp_seq with (λ _ s', astride s s' ∧ routes_ok s' (a ++ (l, heard ifx w) :: b)).
      { unfold when, heard. destruct (Z.leb_spec 0 ifx); [by apply update_listener_ok|by apply wp_ret]. }
      intros [] s1 [Ha H1]. apply wp_ret. split; [done|]. exists a, l, b, [w].
      split; [by rewrite fmap_app|]. split; [done|]. split; [by repeat constructor|done].
  - intros p s1 (Ha & a & l & b & m & Ecs & -> & Hmm & H1).
    eapply wp_mono; [apply join_route_ok; [done|by eapply upstream_ok_astride]|].
    intros z s2 (-> & Ha2 & H2). split; [by transitivity s1|]. split; [done|].
    eexists. split; [exact H2|]. symmetry. rewrite Ecs at 2.
    apply (placed_at a l (inserted (commonConfig s) grp ifx cs.*2) b m); [apply H2|].
    by rewrite inserted_group.
Qed.

(** ** activateRoute *)
Lemma activateRoute_ok s cs grp origin :
  routes_ok s cs → upstream_ok s →
  wp F (activateRoute grp origin) (λ _ s', astride s s' ∧ ∃ cs', routes_ok s' cs') s.
Proof.
  intros H Hu. unfold activateRoute. eapply wp_step; [by apply findRoute_ok|].
  apply wp_seq with (λ p s1, astride s s1 ∧ ∃ cs1, routes_ok s1 cs1 ∧
    (p = None ∨ ∃ a l r b, p = Some l ∧ cs1 = a ++ (l, r) :: b)).
  - destruct (find_route_cell grp cs) as [[-> Hg]|(a & l & r & b & -> & -> & _)].
    2: { apply wp_ret. split; [done|]. eexists. split; [done|]. right. by exists a, l, r, b. }
    eapply wp_seq; [by apply insertRoute_ok|]. intros z s1 (Ha & _ & cs1 & H1 & _).
    unfold wp. rewrite (findRoute_ok grp cs1 s1 H1). split; [done|]. exists cs1. split; [done|].
    destruct (find_route_cell grp cs1) as [[-> _]|(a & l & r & b & -> & -> & _)]; [by left|].
    right. by exists a, l, r, b.
  - intros p s1 (Ha & cs1 & H1 & [->|(a & l & r & b & -> & ->)]).
    { apply wp_ret. split; [done|]. by exists cs1. }
    apply wp_seq with (λ _ s2, astride s s2 ∧ ∃ r', routes_ok s2 (a ++ (l, r') :: b)).
    { unfold when. destruct (0 <? origin); [|by apply wp_ret; split; [|exists r]].
      destruct (update_value_ok s1 a l r b (with_origin origin)) as [E H2]; [done|done| |].
      { exact (cell_route_ok _ _ _ _ _ H1). }
      unfold wp. rewrite E. split; [by destruct Ha|]. by eexists. }
    intros [] s2 (Ha2 & r' & H2). eapply wp_step; [by eapply load_route_ok|]. cbn [nval].
    destruct (0 <? _); [|apply wp_ret; split; [done|by eexists]].
    eapply wp_mono; [apply kernel_runs|]. intros z s3 Ha3.
    split; [transitivity s2; [done|by apply aside_astride]|]. eexists. exact (routes_ok_aside _ _ _ Ha3 H2).
Qed.

(** ** removeRoute *)
Lemma removeRoute_ok s a l r b :
  routes_ok s (a ++ (l, r) :: b) → upstream_ok s →
  wp F (removeRoute (Some l)) (λ z s', z = 1 ∧ astride s s' ∧ routes_ok s' (a ++ b) ∧
    routes s' !! l = None) s.
Proof.
  intros H Hu. unfold removeRoute. apply wp_gets. eapply wp_step; [by eapply load_route_ok|].
  eapply wp_seq; [apply kernel_runs|]. intros z s1 Ha1. cbn [nval].
  pose proof (routes_ok_aside _ _ _ Ha1 H) as H1.
  pose proof (upstream_ok_aside _ _ Ha1 Hu) as Hu1.
  apply wp_seq with (λ _ s2, astride s s2 ∧ ∃ r', routes_ok s2 (a ++ (l, r') :: b)).
  { unfold when. destruct (_ || _).
    - eapply wp_mono; [by apply join_leave_at_ok|]. intros [] s2 [Ha H2].
      split; [transitivity s1; [by apply aside_astride|done]|]. by eexists.
    - apply wp_ret. split; [by apply aside_astride|]. by exists r. }
  intros [] s2 (Ha & r' & H2). eapply wp_step; [by eapply unlink_route_ok|].
  set (h := relink _ _ _ _ _). set (s3 := set_routing_table _ _).
  assert (∃ n, routes s3 !! l = Some n) as [n Hn].
  { change (routes s3) with h. apply elem_of_dom. unfold h. rewrite relink_dom.
    apply elem_of_dom. eexists. by eapply route_cell. }
  eapply wp_step; [by apply (free_route_at l n)|]. apply wp_ret.
  split; [done|]. split; [by destruct Ha|]. split; [|simpl; apply lookup_delete_eq].
  exact (routes_ok_remove _ _ _ _ _ H2).
Qed.

(** ** setRouteLastMemberMode *)
Definition checking (n : Z) (r : RouteTable) : RouteTable :=
  with_ageValue (i32 n) (with_state ROUTESTATE_CHECK_LAST_MEMBER r).
Definition spec_last_member (conf : Config) (grp : Z) (t : list RouteTable) : list RouteTable :=
  (λ r, if has_group grp r then checking (lastMemberQueryCount conf) r else r) <$> t.

Lemma spec_last_member_absent conf g t : g ∉ rt_group <$> t → spec_last_member conf g t = t.
Proof.
  intros Ht. unfold spec_last_member. rewrite <-(list_fmap_id t) at 2. apply list_fmap_ext.
  intros i x Hx. unfold has_group. rewrite (proj2 (Z.eqb_neq _ _)); [done|]. intros E. apply Ht.
  rewrite <-E. apply list_elem_of_fmap_2. by eapply list_elem_of_lookup_2.
Qed.

Lemma spec_last_member_at s a l r b conf :
  routes_ok s (a ++ (l, r) :: b) →
  spec_last_member conf (rt_group r) (a ++ (l, r) :: b).*2 =
    (a ++ (l, checking (lastMemberQueryCount conf) r) :: b).*2.
Proof.
  intros H. pose proof (sorted_NoDup _ (ro_sorted _ _ H)) as Hnd. unfold rgroups in Hnd.
  rewrite !fmap_app, !fmap_cons in Hnd. apply NoDup_app in Hnd as (_ & Ha & Hnd).
  apply NoDup_cons in Hnd as [Hb _].
  pose proof (spec_last_member_absent conf (rt_group r) a.*2) as Ea.
  pose proof (spec_last_member_absent conf (rt_group r) b.*2 Hb) as Eb.
  unfold spec_last_member in *. rewrite !fmap_app, !fmap_cons, Eb, Ea.
  - cbn [snd]. unfold has_group. by rewrite Z.eqb_refl.
  - intros Hin. apply (Ha _ Hin). by constructor.
Qed.

Lemma setRouteLastMemberMode_ok s gs cs grp :
  groups_ok s gs → routes_ok s cs → upstream_ok s →
  wp F (setRouteLastMemberMode grp) (λ _ s', astride s s' ∧ ∃ cs', routes_ok s' cs' ∧
    cs'.*2 = spec_last_member (commonConfig s) grp cs.*2) s.
Proof.
  intros Hg H Hu. unfold setRouteLastMemberMode. apply wp_gets.
  eapply wp_step; [by apply findRoute_ok|].
  destruct (find_route_cell grp cs) as [[-> Hn]|(a & l & r & b & -> & -> & <-)].
  { apply wp_ret. split; [done|]. exists cs. split; [done|].
    by rewrite spec_last_member_absent. }
  eapply wp_step; [by eapply load_route_ok|]. cbn [nval].
  apply wp_seq with (λ _ s1, astride s s1 ∧ ∃ st, routes_ok s1 (a ++ (l, with_state st r) :: b)).
  { assert (with_state (rt_upstrState r) r = r) as Er by by destruct r.
    assert (∃ st, told false r = with_state st r) as [st Est].
    { unfold told. destruct (_ =? _); [by exists (rt_upstrState r)|by eexists]. }
    unfold when. destruct (_ && _);
      [|by apply wp_ret; split; [|exists (rt_upstrState r); rewrite Er]].
    eapply wp_step; [by apply all_member_leaved_ok|].
    destruct (forallb _ _); [|by apply wp_ret; split; [|exists (rt_upstrState r); rewrite Er]].
    eapply wp_mono; [by apply join_leave_at_ok|]. intros [] s1 [Ha H1]. split; [done|].
    exists st. by rewrite <-Est. }
  intros [] s1 (Ha & st & H1).
  destruct (update_value_ok s1 a l _ b (checking (lastMemberQueryCount (commonConfig s))) H1)
    as [E H2]; [done|exact (cell_route_ok _ _ _ _ _ H1)|].
  unfold wp. unfold checking at 1 in E. rewrite E. split; [by destruct Ha|]. eexists.
  split; [exact H2|]. by rewrite (spec_last_member_at s).
Qed.

(** ** clearAllRoutes *)
Lemma clear_routes_ok fuel cs pp s :
  seg (routes s) pp cs None → NoDup cs.*1 → dom (routes s) = list_to_set cs.*1 →
  upstream_ok s → (length cs < fuel)%nat →
  wp F (clear_routes fuel (first_loc cs None)) (λ _ s', astride s s' ∧ routes s' = ∅) s.
Proof.
  revert cs pp s. induction fuel as [|fuel IH]; intros [|[l r] cs] pp s Hs Hnd Hd Hu Hf;
    simpl in Hf; try lia; cbn [clear_routes first_loc].
  { apply wp_ret. split; [done|]. by apply dom_empty_iff_L. }
  destruct Hs as [Hl Hs]. rewrite fmap_cons in Hnd. apply NoDup_cons in Hnd as [Hnl Hnd].
  eapply wp_step; [by apply load_route_at|]. eapply wp_seq; [apply kernel_runs|].
  intros z s1 Ha1. eapply wp_seq.
  { apply (join_leave_cell _ l); [by rewrite (as_routes _ _ Ha1)|exact (upstream_ok_aside _ _ Ha1 Hu)]. }
  intros [] s2 (s3 & Ha3 & ->). cbn [nval nnext]. rewrite (as_routes _ _ Ha1).
  eapply wp_step.
  { eapply free_route_at. simpl. by rewrite lookup_alter_eq, Hl. }
  eapply wp_mono; [apply (IH cs (Some l)); [|done| | |lia]|].
  - simpl. eapply seg_frame; [|exact Hs]. intros k Hk.
    rewrite lookup_delete_ne, lookup_alter_ne by (by intros ->). done.
  - simpl. rewrite dom_delete_L, dom_alter_L, Hd. cbn [fst] in Hnl. set_solver.
  - eapply upstream_ok_same; [| |exact Hu]; simpl; [by rewrite (as_ifvc _ _ Ha3), (as_ifvc _ _ Ha1)|].
    by rewrite (as_upstream _ _ Ha3), (as_upstream _ _ Ha1).
  - intros [] s4 [Ha4 E4]. split; [|done]. transitivity s1; [by apply aside_astride|].
    transitivity s3; [by apply aside_astride|]. by destruct Ha4.
Qed.

Lemma clearAllRoutes_ok s cs :
  routes_ok s cs → upstream_ok s →
  wp F clearAllRoutes (λ _ s', astride s s' ∧ routes_ok s' []) s.
Proof.
  intros H Hu. unfold clearAllRoutes, route_fuel. do 2 apply wp_gets.
  pose proof (ro_dll _ _ H) as [Hnd Hs Hh _]. rewrite Hh. eapply wp_seq.
  { apply (clear_routes_ok _ _ None); [done|done|apply H|done|].
    pose proof (route_fuel_enough _ _ H). lia. }
  intros [] s1 [Ha E]. unfold wp. simpl. split; [by destruct Ha|].
  split; simpl; [|by rewrite E, dom_empty_L|constructor|constructor].
  split; [constructor|done|done|done].
Qed.
End steps.
