(* ===== verification/IgmpInv.v ===== *)
(** * The invariant of the IGMP proxy

    [igmp_ok]: there is an upstream interface, and the tables of groups and routes
    are well formed.  [Keeps F m] states that [m] preserves it, ends, and has no
    fault other than those of [F]; the instances follow the structure of the code. *)
From S2P Require Import Prelude CLib Heap System Bytes Genconfig SystemApi LibEnds.
From S2P Require Import Callout Igmp McSwitch RouteTable IgmpProxy.
From S2P Require Import IgmpFrame McInv McOps McGroups RouteInv RouteOps.

Section invariant.
Context {MC : Multicast}.

Definition members_ok (s : igmpd) : Prop := ∃ gs, groups_ok s gs ∧ Forall ports_ok gs.
Record tables_ok (s : igmpd) (cs : rcells) : Prop := {
  to_upstream : upstream_ok s;
  to_members : members_ok s;
  to_routes : routes_ok s cs
}.
Definition igmp_ok (s : igmpd) : Prop := ∃ cs, tables_ok s cs.

Class Keeps {A} (F : fault → Prop) (m : M igmpd A) : Prop :=
  keeps s : igmp_ok s → wp F m (λ _ s', igmp_ok s') s.

Lemma tables_ok_aside s s' cs : aside s s' → tables_ok s cs → tables_ok s' cs.
Proof.
  intros Ha [Hu (gs & Hg & Hp) Hr]. split.
  - by eapply upstream_ok_aside.
  - exists gs. split; [by eapply groups_ok_aside|done].
  - by eapply routes_ok_aside.
Qed.
(** A step of the switch support, and a step of the routing table. *)
Lemma tables_ok_beside s s' cs gs :
  beside s s' → groups_ok s' gs → Forall ports_ok gs → tables_ok s cs → tables_ok s' cs.
Proof.
  intros Hb Hg Hp [Hu _ Hr]. split; [by eapply upstream_ok_beside|by exists gs|].
  by eapply routes_ok_beside.
Qed.
Lemma tables_ok_astride s s' cs cs' :
  astride s s' → routes_ok s' cs' → tables_ok s cs → tables_ok s' cs'.
Proof.
  intros Ha Hr [Hu (gs & Hg & Hp) _]. split; [by eapply upstream_ok_astride| |done].
  exists gs. split; [by eapply groups_ok_astride|done].
Qed.

(** The fields that the invariant is about. *)
Lemma tables_ok_same s s' cs :
  ifvc s' = ifvc s → upStreamVif s' = upStreamVif s → groups s' = groups s →
  group_members s' = group_members s → group_list s' = group_list s → routes s' = routes s →
  routing_table s' = routing_table s → tables_ok s cs → tables_ok s' cs.
Proof.
  intros E1 E2 E3 E4 E5 E6 E7 [Hu (gs & Hg & Hp) Hr].
  split; [by eapply upstream_ok_same| |by eapply routes_ok_same].
  exists gs. split; [|done]. destruct Hg. by split; rewrite ?E3, ?E4, ?E5.
Qed.

Section structure.
Context {F : fault → Prop}.
#[export] Instance keeps_ret {A} (a : A) : Keeps F (mret a : M igmpd A).
Proof. intros s H. by apply wp_ret. Qed.
#[export] Instance keeps_gets {A} (f : igmpd → A) : Keeps F (gets f).
Proof. by intros s H. Qed.
#[export] Instance keeps_bind {A B} (m : M igmpd A) (f : A → M igmpd B) :
  Keeps F m → (∀ a, Keeps F (f a)) → Keeps F (m ≫= f).
Proof.
  intros Hm Hf s H. eapply wp_seq; [by apply Hm|]. intros a s' Hs. by apply Hf.
Qed.
#[export] Instance keeps_when b (m : M igmpd unit) : Keeps F m → Keeps F (when b m).
Proof. intros Hm. destruct b; [done|apply keeps_ret]. Qed.
#[export] Instance keeps_if {A} (b : bool) (m m' : M igmpd A) :
  Keeps F m → Keeps F m' → Keeps F (if b then m else m').
Proof. by destruct b. Qed.
#[export] Instance keeps_option {A B} (o : option A) (f : A → M igmpd B) (m : M igmpd B) :
  (∀ a, Keeps F (f a)) → Keeps F m → Keeps F (match o with Some a => f a | None => m end).
Proof. by destruct o. Qed.
#[export] Instance keeps_pair {A B C} (p : A * B) (f : A → B → M igmpd C) :
  (∀ a b, Keeps F (f a b)) → Keeps F (let '(a, b) := p in f a b).
Proof. by destruct p. Qed.
Lemma keeps_aside {A} (m : M igmpd A) : Runs F aside m → Keeps F m.
Proof.
  intros Hm s [cs H]. eapply wp_mono; [apply Hm|]. intros a s' Ha. exists cs.
  exact (tables_ok_aside _ _ _ Ha H).
Qed.
Lemma keeps_modify f :
  (∀ s cs, tables_ok s cs → tables_ok (f s) cs) → Keeps F (modify f).
Proof. intros Hf s [cs H]. exists cs. by apply Hf. Qed.
End structure.

(** ** What packets do *)
Section packets.
Context {IF : Interfaces} {F : fault → Prop} `{!Safe F}.

#[export] Instance keeps_ask {A} (f : nat → A) : Keeps F (ask f).
Proof. apply keeps_aside, _. Qed.
#[export] Instance keeps_of_res {A} (r : res A) : ResRuns F r → Keeps F (of_res r : M igmpd A).
Proof. intros. apply keeps_aside, _. Qed.
#[export] Instance keeps_ilib {A} (m : M sys A) : Runs F anyhow m → Keeps F (ilib m).
Proof. intros. apply keeps_aside, _. Qed.
#[export] Instance keeps_sendIgmp a b c d e f : Keeps F (sendIgmp a b c d e f).
Proof. apply keeps_aside, _. Qed.
#[export] Instance keeps_setTimer delay a : Keeps F (timer_setTimer delay a : M igmpd Z).
Proof.
  unfold timer_setTimer. apply keeps_bind; [apply _|]. intros c.
  apply keeps_bind; [|apply _]. apply keeps_modify. intros s cs. by apply tables_ok_same.
Qed.
#[export] Instance keeps_recv packet : Keeps F (recv_packet packet).
Proof. apply keeps_aside. unfold recv_packet. apply _. Qed.
#[export] Instance keeps_by_address src : Keeps F (getIfByAddress src).
Proof. unfold getIfByAddress. apply _. Qed.

#[export] Instance keeps_insert_multicast_ip m u : Keeps F (insert_multicast_ip m u).
Proof.
  intros s [cs H]. destruct (to_members _ _ H) as (gs & Hg & Hp).
  eapply wp_mono; [by apply insert_multicast_ip_ok|]. intros _ s' (Hb & gs' & Hg' & Hp' & _).
  exists cs. eapply tables_ok_beside; eauto.
Qed.
#[export] Instance keeps_remove_member m u w : Keeps F (remove_member m u w).
Proof.
  intros s [cs H]. destruct (to_members _ _ H) as (gs & Hg & Hp).
  eapply wp_mono; [by apply remove_member_ok|]. intros _ s' (Hb & gs' & Hg' & Hp' & _).
  exists cs. eapply tables_ok_beside; eauto.
Qed.
#[export] Instance keeps_insertRoute grp ifx : Keeps F (insertRoute grp ifx).
Proof.
  intros s [cs H]. eapply wp_mono; [eapply insertRoute_ok; apply H|].
  intros z s' (Ha & _ & cs' & H' & _). exists cs'. by eapply tables_ok_astride.
Qed.
#[export] Instance keeps_activateRoute grp o : Keeps F (activateRoute grp o).
Proof.
  intros s [cs H]. eapply wp_mono; [eapply activateRoute_ok; apply H|].
  intros z s' (Ha & cs' & H'). exists cs'. by eapply tables_ok_astride.
Qed.
#[export] Instance keeps_last_member_mode grp : Keeps F (setRouteLastMemberMode grp).
Proof.
  intros s [cs H]. destruct (to_members _ _ H) as (gs & Hg & Hp).
  eapply wp_mono; [eapply setRouteLastMemberMode_ok; [exact Hg|apply H|apply H]|].
  intros z s' (Ha & cs' & H' & _). exists cs'. by eapply tables_ok_astride.
Qed.
#[export] Instance keeps_router_port src : Keeps F (update_router_port src).
Proof.
  intros s [cs H]. destruct (to_members _ _ H) as (gs & Hg & Hp).
  eapply wp_mono; [by eapply update_router_port_ok|]. intros z s' Ha.
  exists cs. exact (tables_ok_aside _ _ _ Ha H).
Qed.

#[export] Instance keeps_accept_report src grp : Keeps F (acceptGroupReport src grp).
Proof. unfold acceptGroupReport. apply _. Qed.

(** The query that a leave sends does not age the route. *)
Lemma keeps_first_query grp vif : Keeps F (sendGroupSpecificMemberQuery (GroupVif grp vif false)).
Proof. unfold sendGroupSpecificMemberQuery. cbn [gv_started gv_group gv_vifAddr]. apply _. Qed.
#[local] Existing Instance keeps_first_query.
#[export] Instance keeps_accept_leave src grp : Keeps F (acceptLeaveMessage src grp).
Proof. unfold acceptLeaveMessage. apply _. Qed.
#[export] Instance rd32_runs buf i : ResRuns F (rd32 buf i).
Proof. unfold rd32. apply _. Qed.
#[export] Instance keeps_acceptIgmp n : Keeps F (acceptIgmp n).
Proof. unfold acceptIgmp. apply _. Qed.
End packets.

(** ** What the timers do *)
Section timers.
Context {IF : Interfaces}.

Lemma route_ok_age n r : route_ok r → route_ok (age_activity n r).
Proof.
  intros (Hm & Hv & Ha). unfold age_activity. cbn [with_ageValue rt_ageVifBits rt_ageActivity rt_vifBits].
  destruct (_ && _); [destruct (_ =? _); done|].
  destruct (0 <? _); [|done]. destruct (negb _); [|done].
  split_and!; [done| |done]. simpl. by apply Z.lor_nonneg.
Qed.
Lemma age_group n r : rt_group (age_activity n r) = rt_group r.
Proof.
  unfold age_activity. cbn [with_ageValue rt_ageVifBits rt_ageActivity rt_vifBits].
  destruct (_ && _); [by destruct (_ =? _)|]. destruct (0 <? _); [|done]. by destruct (negb _).
Qed.

Lemma tables_ok_value s a l r b f :
  tables_ok s (a ++ (l, r) :: b) → rt_group (f r) = rt_group r → route_ok (f r) →
  ∃ s', update_route (Some l) (on_route f) s = Ok (tt, s') ∧ tables_ok s' (a ++ (l, f r) :: b).
Proof.
  intros H Eg Hf. destruct (update_value_ok s a l r b f (to_routes _ _ H) Eg Hf) as [E H'].
  eexists. split; [exact E|]. eapply tables_ok_astride; [|exact H'|exact H]. done.
Qed.

(** The route stays where it is, or the write behind its removal faults. *)
Lemma internAgeRoute_ok s a l r b :
  tables_ok s (a ++ (l, r) :: b) →
  wp any_fault (internAgeRoute (Some l)) (λ _ s', ∃ r', tables_ok s' (a ++ (l, r') :: b)) s.
Proof.
  intros H. unfold internAgeRoute. apply wp_gets. set (n := robustnessValue _).
  assert (route_ok r) as Hr by (eapply cell_route_ok, H).
  destruct (tables_ok_value s a l r b (age_activity n) H (age_group n r)) as (s1 & E1 & H1);
    [by apply route_ok_age|].
  eapply wp_step; [exact E1|]. eapply wp_step; [eapply load_route_ok, H1|]. cbn [nval].
  set (r1 := age_activity n r) in *.
  apply wp_seq with (λ _ s2, (∃ r2, tables_ok s2 (a ++ (l, r2) :: b)) ∨ routes s2 !! l = None).
  - destruct (rt_ageValue r1 =? 0); [|by apply wp_ret; left; exists r1].
    apply wp_seq with (λ _ s2, (∃ r2, tables_ok s2 (a ++ (l, r2) :: b)) ∨ routes s2 !! l = None);
      [|by intros [] s2 Hs2; apply wp_ret].
    unfold age_expired. eapply wp_step; [eapply load_route_ok, H1|]. cbn [nval].
    destruct (0 <? rt_ageActivity r1).
    + eapply wp_seq; [apply kernel_runs|]. intros z s2 Ha2.
      pose proof (tables_ok_aside _ _ _ Ha2 H1) as H2.
      destruct (tables_ok_value s2 a l r1 b
        (λ r, with_ageActivity 0 (with_ageValue (rt_ageActivity r) r)) H2) as (s3 & E3 & H3);
        [done|by eapply (route_ok_age n)|].
      unfold wp. rewrite E3. left. by eexists.
    + destruct (to_members _ _ H1) as (gs & Hg & Hp).
      eapply wp_seq; [by apply remove_multicast_ip_ok|]. intros [] s2 (Hb & gs2 & Hg2 & Hp2 & _).
      assert (tables_ok s2 (a ++ (l, r1) :: b)) as H2 by (eapply tables_ok_beside; eauto).
      eapply wp_seq; [eapply removeRoute_ok; apply H2|]. intros z s3 (_ & _ & _ & Hl).
      apply wp_ret. by right.
  - intros z s2 [[r2 H2]|Hl].
    + destruct (tables_ok_value s2 a l r2 b (with_ageVifBits 0) H2) as (s3 & E3 & H3); [done| |].
      { destruct (cell_route_ok _ _ _ _ _ (to_routes _ _ H2)) as (? & ? & ?). by split_and!. }
      eapply wp_step; [exact E3|]. apply wp_ret. by eexists.
    + apply wp_bind. unfold wp, update_route, update, load, mbind, M_bind. simpl. by rewrite Hl.
Qed.

#[export] Instance keeps_lastMember grp : Keeps any_fault (lastMemberGroupAge grp).
Proof.
  intros s [cs H]. unfold lastMemberGroupAge. eapply wp_step; [eapply findRoute_ok, H|].
  destruct (find_route_cell grp cs) as [[-> _]|(a & l & r & b & -> & -> & _)];
    [by apply wp_ret; exists cs|].
  eapply wp_step; [eapply load_route_ok, H|].
  destruct (_ =? _); [|by apply wp_ret; exists (a ++ (l, r) :: b)].
  eapply wp_seq; [by eapply internAgeRoute_ok|]. intros z s1 (r' & H1). apply wp_ret. by eexists.
Qed.
#[export] Instance keeps_specific_query gv : Keeps any_fault (sendGroupSpecificMemberQuery gv).
Proof. unfold sendGroupSpecificMemberQuery. apply _. Qed.

Lemma sweap_routes_ok fuel s a b :
  tables_ok s (a ++ b) → (length b < fuel)%nat →
  wp any_fault (sweap_routes fuel (first_loc b None)) (λ _ s', igmp_ok s') s.
Proof.
  revert s a b. induction fuel as [|fuel IH]; intros s a [|[l r] b] H Hf; simpl in Hf; try lia;
    cbn [sweap_routes first_loc]; [by apply wp_ret; eexists|].
  eapply wp_step; [eapply load_route_ok, H|]. cbn [nval nnext].
  destruct (to_members _ _ H) as (gs & Hg & Hp).
  eapply wp_seq; [by apply sweap_no_report_members_ok|].
  intros sweap s1 (gs1 & Hb & Hg1 & _ & Hp1).
  assert (tables_ok s1 (a ++ (l, r) :: b)) as H1 by (eapply tables_ok_beside; eauto).
  apply wp_seq with (λ _ s2, ∃ a', tables_ok s2 (a' ++ b)).
  - unfold when. destruct sweap.
    + eapply wp_seq; [eapply removeRoute_ok; apply H1|]. intros z s2 (_ & Ha & H2 & _).
      apply wp_ret. exists a. by eapply tables_ok_astride.
    + apply wp_ret. exists (a ++ [(l, r)]). by rewrite <-app_assoc.
  - intros [] s2 (a' & H2). apply (IH s2 a'); [done|lia].
Qed.

Lemma age_routes_ok fuel s a b :
  tables_ok s (a ++ b) → (length b < fuel)%nat →
  wp any_fault (age_routes fuel (first_loc b None)) (λ _ s', igmp_ok s') s.
Proof.
  revert s a b. induction fuel as [|fuel IH]; intros s a [|[l r] b] H Hf; simpl in Hf; try lia;
    cbn [age_routes first_loc]; [by apply wp_ret; eexists|].
  eapply wp_step; [eapply load_route_ok, H|]. cbn [nval nnext].
  apply wp_seq with (λ _ s1, ∃ r', tables_ok s1 (a ++ (l, r') :: b)).
  - unfold when. destruct (negb _); [|by apply wp_ret; exists r].
    eapply wp_seq; [by eapply internAgeRoute_ok|]. intros z s1 (r' & H1). apply wp_ret. by exists r'.
  - intros [] s1 (r' & H1). apply (IH s1 (a ++ [(l, r')])); [by rewrite <-app_assoc|lia].
Qed.

#[export] Instance ends_anyhow {A} (m : M sys A) : Ends m → Runs any_fault anyhow m.
Proof. intros Hm s. exact (Hm s). Qed.
#[export] Instance keeps_findRoute grp : Keeps any_fault (findRoute grp).
Proof.
  intros s [cs H]. unfold wp. rewrite (findRoute_ok grp cs s (to_routes _ _ H)). by exists cs.
Qed.
#[export] Instance keeps_join_leave r j : Keeps any_fault (sendJoinLeaveUpstream r j).
Proof.
  intros s [cs H]. eapply wp_mono; [apply sendJoinLeaveUpstream_ok, H|]. intros r' s' [_ Ha].
  exists cs. by eapply tables_ok_aside.
Qed.
#[export] Instance keeps_by_name n : Keeps any_fault (getIfByName n).
Proof. unfold getIfByName. apply _. Qed.
#[export] Instance keeps_kernel r act : Keeps any_fault (internUpdateKernelRoute r act).
Proof. apply keeps_aside, _. Qed.

Lemma gc_loop_ok fuel content bits :
  (length content < fuel)%nat → Keeps any_fault (gc_loop fuel content bits).
Proof.
  revert content bits. induction fuel as [|fuel IH]; intros content bits Hl; [lia|].
  cbn [gc_loop]. destruct (fgets 128 content) as [[buf rest]|] eqn:E; [|apply _].
  apply fgets_shorter in E; [|lia].
  assert (∀ bits, Keeps any_fault (gc_loop fuel rest bits)) by (intros; apply IH; lia).
  destruct (strtok _ (cstr buf)) as [[w|] saved]; [|apply _].
  apply keeps_bind; [apply _|]. intros grp. apply keeps_if; [apply _|].
  apply keeps_bind; [apply _|]. intros [p|]; [apply _|].
  destruct (strtok _ saved) as [[o|] ?]; apply _.
Qed.
#[export] Instance keeps_gc : Keeps any_fault ipmrcache_gc.
Proof.
  unfold ipmrcache_gc. apply keeps_bind; [apply _|]. intros [content|]; [|apply _].
  apply gc_loop_ok. lia.
Qed.

#[export] Instance keeps_age_active : Keeps any_fault ageActiveRoutes.
Proof.
  intros s [cs H]. unfold ageActiveRoutes, route_fuel. do 2 apply wp_gets.
  pose proof (to_routes _ _ H) as Hr. rewrite (dll_head _ _ _ _ (ro_dll _ _ Hr)).
  eapply wp_seq; [apply (sweap_routes_ok _ _ []); [done|]|].
  { pose proof (route_fuel_enough _ _ Hr). lia. }
  intros [] s1 [cs1 H1]. do 2 apply wp_gets.
  pose proof (to_routes _ _ H1) as Hr1. rewrite (dll_head _ _ _ _ (ro_dll _ _ Hr1)).
  eapply wp_seq; [apply (age_routes_ok _ _ []); [done|]|].
  { pose proof (route_fuel_enough _ _ Hr1). lia. }
  intros [] s2 H2. by apply keeps_gc.
Qed.

#[export] Instance keeps_general_loop n l : Keeps any_fault (general_loop n l).
Proof. induction l; cbn [general_loop]; apply _. Qed.
#[export] Instance keeps_set_conf c : Keeps any_fault (modify (set_conf c)).
Proof. apply keeps_modify. intros s cs. by apply tables_ok_same. Qed.
#[export] Instance keeps_general_query : Keeps any_fault sendGeneralMembershipQuery.
Proof. unfold sendGeneralMembershipQuery. apply _. Qed.
#[export] Instance keeps_query_members : Keeps any_fault query_specific_members.
Proof.
  intros s [cs H]. destruct (to_members _ _ H) as (gs & Hg & Hp).
  eapply wp_mono; [by apply query_specific_members_ok|]. intros [] s' (gs' & Hb & Hg' & _ & Hp').
  exists cs. eapply tables_ok_beside; eauto.
Qed.
#[export] Instance keeps_action a : Keeps any_fault (run_action a).
Proof. destruct a; cbn [run_action]; apply _. Qed.

(** ** The main loop *)
#[export] Instance keeps_expired due : Keeps any_fault (call_expired run_action due).
Proof. induction due; cbn [call_expired]; apply _. Qed.
#[export] Instance keeps_set_timeouts c : Keeps any_fault (modify (cset c) : M igmpd unit).
Proof. apply keeps_modify. intros s cs. by apply tables_ok_same. Qed.
#[export] Instance keeps_age_queue z : Keeps any_fault (age_callout_queue run_action z).
Proof. unfold age_callout_queue. apply _. Qed.
#[export] Instance keeps_nextTimer : Keeps any_fault (timer_nextTimer : M igmpd Z).
Proof. unfold timer_nextTimer. apply _. Qed.

Lemma normalize_bound fuel sec usec :
  usec ≤ 1000000 * (Z.of_nat fuel + 1) → (normalize fuel sec usec).2 ≤ 1000000.
Proof.
  revert sec usec. induction fuel as [|fuel IH]; intros sec usec H; simpl; [lia|].
  destruct (Z.ltb_spec 1000000 usec); [apply IH; lia|simpl; lia].
Qed.
Lemma normalized_bound sec usec : (normalized sec usec).2 ≤ 1000000.
Proof.
  unfold normalized. pose proof (normalize_bound (Z.to_nat (usec / 1000000)) sec usec) as H.
  destruct (normalize _ _ _) as [sec' usec']. simpl in H.
  pose proof (Z.div_mod usec 1000000 ltac:(lia)). pose proof (Z.mod_pos_bound usec 1000000).
  assert (usec' ≤ 1000000) by (apply H; lia).
  destruct (Z.ltb_spec usec' 0); simpl; lia.
Qed.
(** No second has passed when the clock stands still. *)
Lemma normalized_still usec : usec ≤ 1000000 → (normalized 0 usec).1 ≤ 0.
Proof.
  intros H. unfold normalized.
  assert (∀ fuel, normalize fuel 0 usec = (0, usec)) as ->.
  { intros [|fuel]; simpl; [done|]. by rewrite (proj2 (Z.ltb_ge _ _)) by lia. }
  by destruct (usec <? 0).
Qed.

(** The rounds that the readings of the clock can cause. *)
Definition rounds (clock : list (Z * Z)) : nat := Nat.max 2 (S (length clock)).

Lemma handle_timeouts_still fuel secs clock last usec :
  clock = [] ∨ clock = [last] → usec ≤ 1000000 → (1 ≤ fuel)%nat →
  Keeps any_fault (handle_timeouts fuel secs None clock last usec).
Proof.
  intros Hc Hu Hf. destruct fuel as [|fuel]; [lia|]. cbn [handle_timeouts].
  assert (match clock with [] => (last, []) | [t] => (t, [t]) | t :: u :: r => (t, u :: r) end
          = (last, clock)) as -> by (by destruct Hc as [->| ->]).
  rewrite !Z.sub_diag, Z.add_0_r. pose proof (normalized_still usec Hu) as Hs.
  destruct (normalized 0 usec) as [sec usec']. simpl in Hs.
  apply keeps_bind; [apply _|]. intros _. rewrite (proj2 (Z.ltb_ge _ _)) by lia. apply _.
Qed.

Lemma handle_timeouts_ok fuel secs clock last usec :
  (rounds clock ≤ fuel)%nat → Keeps any_fault (handle_timeouts fuel secs None clock last usec).
Proof.
  revert secs clock last usec. unfold rounds.
  induction fuel as [|fuel IH]; intros secs clock last usec Hf; [lia|]. cbn [handle_timeouts].
  destruct clock as [|t [|u clock]]; simpl in Hf.
  - destruct (normalized _ _) as [sec usec'] eqn:E. apply keeps_bind; [apply _|]. intros _.
    pose proof (normalized_bound (last.1 - last.1) (usec + (last.2 - last.2))) as Hb.
    rewrite E in Hb. destruct (0 <? sec); [|apply _].
    apply handle_timeouts_still; [by left|done|lia].
  - destruct (normalized _ _) as [sec usec'] eqn:E. apply keeps_bind; [apply _|]. intros _.
    pose proof (normalized_bound (t.1 - last.1) (usec + (t.2 - last.2))) as Hb.
    rewrite E in Hb. destruct (0 <? sec); [|apply _].
    apply handle_timeouts_still; [by right|done|lia].
  - destruct (normalized _ _) as [sec usec']. apply keeps_bind; [apply _|]. intros _.
    destruct (0 <? sec); [|apply _]. apply IH. simpl. lia.
Qed.
#[export] Instance keeps_timeouts secs now clock last usec :
  Keeps any_fault (handle_timeouts (length clock + 3) secs now clock last usec).
Proof.
  destruct now as [t|]; [|apply handle_timeouts_ok; unfold rounds; lia].
  rewrite (Nat.add_comm _ 3). cbn [handle_timeouts Nat.add].
  destruct (normalized _ _) as [sec usec']. apply keeps_bind; [apply _|]. intros _.
  destruct (0 <? sec); [|apply _]. apply (handle_timeouts_ok (S (S (length clock)))).
  unfold rounds. lia.
Qed.

#[export] Instance keeps_fail {A} e : Keeps any_fault (fail e : M igmpd A).
Proof. by intros s H. Qed.
#[export] Instance keeps_pass v i : Keeps any_fault (proxy_pass v i).
Proof.
  unfold proxy_pass. apply keeps_if; [apply _|]. apply keeps_bind; [apply _|]. intros secs.
  apply keeps_bind; [apply _|]. intros timeout.
  destruct (in_select i) as [| |[packet|]]; apply _.
Qed.
#[export] Instance keeps_loop v ins : Keeps any_fault (proxy_loop v ins).
Proof. revert v. induction ins; intros v; cbn [proxy_loop]; apply _. Qed.
#[export] Instance keeps_run start ins : Keeps any_fault (igmpProxyRun start ins).
Proof. unfold igmpProxyRun. apply _. Qed.

#[export] Instance keeps_free_callouts : Keeps any_fault (free_all_callouts : M igmpd unit).
Proof. apply keeps_modify. intros s cs. by apply tables_ok_same. Qed.
End timers.

(** igmpProxyCleanUp leaves no block behind. *)
Lemma igmpProxyCleanUp_ok {F : fault → Prop} `{!Safe F} s :
  igmp_ok s →
  wp F igmpProxyCleanUp (λ _ s', c_queue (timeouts s') = [] ∧ routes_ok s' [] ∧ groups_ok s' []) s.
Proof.
  intros [cs H]. unfold igmpProxyCleanUp. eapply wp_step; [done|].
  set (s1 := cset _ s). assert (tables_ok s1 cs) as H1 by (by apply (tables_ok_same s)).
  eapply wp_seq; [eapply clearAllRoutes_ok; apply H1|]. intros [] s2 [Ha2 H2].
  pose proof (tables_ok_astride _ _ _ _ Ha2 H2 H1) as Ht2.
  eapply wp_step; [done|]. set (s3 := set_effects _ s2).
  assert (tables_ok s3 []) as H3 by (by apply (tables_ok_same s2)).
  destruct (to_members _ _ H3) as (gs & Hg & _).
  eapply wp_seq; [by eapply remove_all_groups_ok|]. intros [] s4 [Hb4 H4].
  eapply wp_mono; [apply ilib_runs, _|]. intros z s5 Ha5. split_and!.
  - rewrite (as_timeouts _ _ Ha5), (be_timeouts _ _ Hb4). change (timeouts s3) with (timeouts s2).
    by rewrite (at_timeouts _ _ Ha2).
  - eapply routes_ok_aside; [exact Ha5|]. eapply routes_ok_beside; [exact Hb4|]. apply H3.
  - exact (groups_ok_aside _ _ _ Ha5 H4).
Qed.
End invariant.
