(* ===== verification/IgmpWire.v ===== *)
(** * igmp.c and rttable.c: what the proxy hands to the kernel

    The packet that sendIgmp sends and its checksum, and the forwarding entry that
    internUpdateKernelRoute installs. *)
From S2P Require Import Prelude CLib Heap System Bytes Genconfig SystemApi Callout Igmp McSwitch.
From S2P Require Import RouteTable IgmpFrame.

(** ** inetChksum *)

(** The complement of a sum of 16-bit words, folded twice. *)
Definition fold_carries (sum : Z) : Z :=
  let sum := sum / 65536 + sum mod 65536 in sum + sum / 65536.

Lemma inetChksum_fold addr sum :
  add_words addr 0 = sum → 0 ≤ sum < 2 ^ 31 - 2 ^ 17 →
  inetChksum addr = 65535 - fold_carries sum mod 65536.
Proof.
  intros Hs Hr. unfold inetChksum, fold_carries, u16. rewrite Hs. clear Hs.
  change (Z.land sum 0xffff) with (Z.land sum (Z.ones 16)). rewrite Z.land_ones, !Z.shiftr_div_pow2 by lia.
  change (2 ^ 16) with 65536.
  rewrite (i32_id (sum / 65536 + _)) by (Z.to_euclidean_division_equations; lia).
  set (x := sum / 65536 + sum mod 65536).
  assert (0 ≤ x < 98304) as Hx by (unfold x; Z.to_euclidean_division_equations; lia).
  rewrite i32_id by (Z.to_euclidean_division_equations; lia).
  replace (Z.lnot (x + x / 65536)) with (- (x + x / 65536) - 1) by (unfold Z.lnot; lia).
  set (y := x + x / 65536). symmetry. apply Z.mod_unique with (q := - (y / 65536) - 1).
  - left. pose proof (Z.mod_pos_bound y 65536). lia.
  - pose proof (Z.div_mod y 65536). lia.
Qed.

Lemma fold_sum_at q m :
  0 ≤ m < 65536 → fold_carries (65536 * q + m) = q + m + (q + m) / 65536.
Proof.
  intros Hm. unfold fold_carries.
  replace ((65536 * q + m) / 65536) with q by (apply Z.div_unique with m; lia).
  by replace ((65536 * q + m) mod 65536) with m by (apply Z.mod_unique with q; lia).
Qed.

(** The sum of a message with the complement of its sum. *)
Lemma fold_sum_verifies s :
  0 ≤ s < 196608 →
  fold_carries (s + (65535 - fold_carries s mod 65536)) = 65535.
Proof.
  intros Hs. set (q := s / 65536). set (m := s mod 65536).
  assert (s = 65536 * q + m) as Es by (apply Z.div_mod; lia).
  assert (0 ≤ m < 65536) as Hm by (apply Z.mod_pos_bound; lia).
  assert (0 ≤ q < 3) as Hq by lia. rewrite Es, fold_sum_at by done.
  destruct (Z.lt_ge_cases (q + m) 65536).
  - rewrite (Z.div_small (q + m)), Z.add_0_r, (Z.mod_small (q + m)) by lia.
    replace (65536 * q + m + _) with (65536 * q + (65535 - q)) by lia.
    rewrite fold_sum_at by lia. rewrite Z.div_small; lia.
  - replace ((q + m) / 65536) with 1 by (apply Z.div_unique with (q + m - 65536); lia).
    replace ((q + m + 1) mod 65536) with (q + m + 1 - 65536)
      by (apply Z.mod_unique with 1; lia).
    replace (65536 * q + m + _) with (65536 * (q + 1) + (65534 - q)) by lia.
    rewrite fold_sum_at by lia. rewrite Z.div_small; lia.
Qed.

Local Ltac split_bytes :=
  unfold is_bytes in *;
  repeat match goal with H : Forall _ (_ :: _) |- _ => apply Forall_cons in H as [? H] end.

Local Ltac join_bytes :=
  repeat (apply Forall_cons_2; [first [done | unfold is_byte; lia]|]); by apply Forall_nil_2.

Definition words (a b : Z) : Z := a + 256 * b.

(** The IGMP message that buildIgmp writes. *)
Definition igmp_message (type code group ck : Z) : bytes :=
  [u8 type; u8 code] ++ le_bytes 2 ck ++ le_bytes 4 group.

Lemma add_words_8 a b c d e f g h :
  is_bytes [a; b; c; d; e; f; g; h] →
  add_words [a; b; c; d; e; f; g; h] 0 = words a b + words c d + words e f + words g h.
Proof.
  intros Hb. split_bytes.
  unfold is_byte in *. unfold words. cbn [add_words].
  rewrite (i32_id (0 + _)) by lia. rewrite (i32_id (0 + _ + _)) by lia.
  rewrite (i32_id (0 + _ + _ + _)) by lia. rewrite i32_id by lia. lia.
Qed.

Lemma igmp_message_verifies type code group :
  inetChksum (igmp_message type code group (inetChksum (igmp_message type code group 0))) = 0.
Proof.
  unfold igmp_message. pose proof (le_bytes_is_bytes 4 group) as Hg.
  pose proof (le_bytes_length 4 group) as Hl.
  destruct (le_bytes 4 group) as [|e [|f [|g [|h [|]]]]]; try done. clear Hl.
  set (a := u8 type). set (b := u8 code).
  assert (is_byte a) as Ha by (apply Z.mod_pos_bound; lia).
  assert (is_byte b) as Hb by (apply Z.mod_pos_bound; lia).
  set (s := words a b + words e f + words g h).
  split_bytes.
  assert (0 ≤ s < 196608) as Hs by (unfold s, words, is_byte in *; lia).
  assert (inetChksum ([a; b] ++ le_bytes 2 0 ++ [e; f; g; h]) = 65535 - fold_carries s mod 65536) as ->.
  { apply inetChksum_fold; [|lia]. change ([a; b] ++ le_bytes 2 0 ++ [e; f; g; h])
      with [a; b; 0; 0; e; f; g; h]. rewrite add_words_8; [unfold s, words; lia|].
    join_bytes. }
  set (ck := 65535 - fold_carries s mod 65536).
  assert (0 ≤ ck < 65536) as Hck by (pose proof (Z.mod_pos_bound (fold_carries s) 65536); lia).
  pose proof (of_le_bytes 2 ck) as Eck. pose proof (le_bytes_is_bytes 2 ck) as Hc.
  pose proof (le_bytes_length 2 ck) as Hl.
  destruct (le_bytes 2 ck) as [|c [|d [|]]]; try done. clear Hl.
  rewrite Z.mod_small in Eck by (simpl; lia). simpl in Eck.
  apply Forall_cons in Hc as [Hc Hd]. apply Forall_cons in Hd as [Hd _].
  rewrite (inetChksum_fold _ (s + ck)); [|..|lia].
  - unfold ck. by rewrite fold_sum_verifies.
  - cbn [app]. rewrite add_words_8; [unfold s, words; lia|].
    join_bytes.
Qed.

(** ** sendIgmp *)
Lemma blit_at a x b src n :
  length x = length src → Z.of_nat (length src) = n →
  blit (a ++ x ++ b) (Z.of_nat (length a)) src n = Ok (a ++ src ++ b).
Proof.
  intros Hx Hn. unfold blit. rewrite !length_app.
  destruct (_ || _) eqn:E; [rewrite !orb_true_iff, !Z.ltb_lt in E; lia|].
  f_equal. rewrite !Nat2Z.id. rewrite take_app_length.
  rewrite (take_ge src) by lia.
  replace (Z.to_nat (Z.of_nat (length a) + n)) with (length (a ++ x)) by (rewrite length_app; lia).
  by rewrite (app_assoc a x b), drop_app_length.
Qed.
Lemma wr_at a x b v : wr (a ++ x :: b) (Z.of_nat (length a)) v = Ok (a ++ v :: b).
Proof.
  unfold wr. rewrite length_app. simpl.
  destruct (_ || _) eqn:E; [rewrite !orb_true_iff, Z.ltb_lt, Z.leb_le in E; lia|].
  rewrite Nat2Z.id. by rewrite insert_app_r_alt, Nat.sub_diag by lia.
Qed.

Lemma bind_res {S A B} (f : A → M S B) r a σ : r = Ok a → (of_res r ≫= f) σ = f a σ.
Proof. by intros ->. Qed.

(** The header of the packet, from the bytes that initIgmp has left. *)
Definition igmp_ip_header (src dst : Z) (b : bytes) : bytes :=
  take 2 b ++ [0; 28] ++ take 4 (drop 4 b) ++
  [if IN_MULTICAST (ntohl dst) then curttl else MAXTTL] ++ take 3 (drop 9 b) ++
  le_bytes 4 src ++ le_bytes 4 dst.

Lemma buildIgmp_ok src dst type code group s h r :
  send_buf s = h ++ r → length h = 28%nat →
  buildIgmp src dst type code group 0 s =
    Ok (tt, set_send_buf (igmp_ip_header src dst h ++
      igmp_message type code group (inetChksum (igmp_message type code group 0)) ++ r) s).
Proof.
  intros E Hh. unfold buildIgmp. rewrite bind_gets, E. clear E.
  do 28 (destruct h as [|? h]; [done|]). destruct h; [|done]. clear Hh.
  rename z into b0, z0 into b1, z1 into b2, z2 into b3, z3 into b4, z4 into b5, z5 into b6,
    z6 into b7, z7 into b8, z8 into b9, z9 into b10, z10 into b11, z11 into b12, z12 into b13,
    z13 into b14, z14 into b15, z15 into b16, z16 into b17, z17 into b18, z18 into b19,
    z19 into b20, z20 into b21, z21 into b22, z22 into b23, z23 into b24, z24 into b25,
    z25 into b26, z26 into b27.
  set (ttl := if IN_MULTICAST (ntohl dst) then curttl else MAXTTL).
  set (a := le_bytes 4 src). set (d := le_bytes 4 dst). set (g := le_bytes 4 group).
  rewrite (bind_res _ _ _ _ (blit_at [b0; b1; b2; b3; b4; b5; b6; b7; b8; b9; b10; b11] [b12; b13; b14; b15] ([b16; b17; b18; b19; b20; b21; b22; b23; b24; b25; b26; b27] ++ r) a 4 eq_refl eq_refl)).
  rewrite (bind_res _ _ _ _ (blit_at ([b0; b1; b2; b3; b4; b5; b6; b7; b8; b9; b10; b11] ++ a) [b16; b17; b18; b19] ([b20; b21; b22; b23; b24; b25; b26; b27] ++ r) d 4 eq_refl eq_refl)).
  rewrite (bind_res _ _ _ _ (blit_at [b0; b1] [b2; b3] ([b4; b5; b6; b7; b8; b9; b10; b11] ++ a ++ d ++ [b20; b21; b22; b23; b24; b25; b26; b27] ++ r) [0; 28] 2 eq_refl eq_refl)).
  rewrite (bind_res _ _ _ _ (wr_at ([b0; b1] ++ [0; 28] ++ [b4; b5; b6; b7]) b8 ([b9; b10; b11] ++ a ++ d ++ [b20; b21; b22; b23; b24; b25; b26; b27] ++ r) ttl)).
  set (hd := [b0; b1] ++ [0; 28] ++ [b4; b5; b6; b7] ++ [ttl] ++ [b9; b10; b11] ++ a ++ d).
  rewrite (bind_res _ _ _ _ (wr_at hd b20 ([b21; b22; b23; b24; b25; b26; b27] ++ r) (u8 type))).
  rewrite (bind_res _ _ _ _ (wr_at (hd ++ [u8 type]) b21 ([b22; b23; b24; b25; b26; b27] ++ r) (u8 code))).
  rewrite (bind_res _ _ _ _ (blit_at (hd ++ [u8 type; u8 code] ++ [b22; b23]) [b24; b25; b26; b27] r g 4 eq_refl eq_refl)).
  rewrite (bind_res _ _ _ _ (blit_at (hd ++ [u8 type; u8 code]) [b22; b23] (g ++ r) [0; 0] 2 eq_refl eq_refl)).
  change (take _ (drop 20 _)) with (igmp_message type code group 0).
  set (ck := inetChksum _).
  rewrite (bind_res _ _ _ _ (blit_at (hd ++ [u8 type; u8 code]) [0; 0] (g ++ r) (le_bytes 2 ck) 2
    eq_refl eq_refl)).
  done.
Qed.

Lemma sendIgmp_ok src dst type code group s h r :
  send_buf s = h ++ r → length h = 28%nat →
  ∃ s', sendIgmp src dst type code group 0 s = Ok (tt, s') ∧
    effects s' = effects s ++ [SendPacket
      (if IN_MULTICAST (ntohl dst) then Some src else None)
      (IN_MULTICAST (ntohl dst) && (negb (type =? IGMP_DVMRP) || (dst =? allhosts_group))) dst
      (igmp_ip_header src dst h ++
       igmp_message type code group (inetChksum (igmp_message type code group 0)))].
Proof.
  intros E Hh. unfold sendIgmp. rewrite (bind_Ok _ _ _ _ _ (buildIgmp_ok _ _ _ _ _ _ _ _ E Hh)).
  rewrite bind_gets. eexists. split; [reflexivity|]. cbn [effects set_effects send_buf set_send_buf].
  set (m := igmp_message _ _ _ _). do 3 f_equal. rewrite app_assoc, take_app_length'; [done|].
  unfold igmp_ip_header, m. do 28 (destruct h as [|? h]; [done|]). reflexivity.
Qed.

(** ** internUpdateKernelRoute *)

(** The interface forwards: it is not the upstream one, and has a listener. *)
Definition forwards (vifBits : Z) (Dp : IfDesc) : bool :=
  negb (if_state Dp =? IF_STATE_UPSTREAM) && Z.testbit vifBits (if_index Dp).
Definition index_of (Dp : IfDesc) : nat := Z.to_nat (if_index Dp).

Lemma BIT_TST_testbit x n : 0 ≤ n < 32 → BIT_TST x n = Ok (Z.testbit x n).
Proof.
  intros Hn. unfold BIT_TST, bit.
  rewrite (proj2 (Z.leb_le _ _)), (proj2 (Z.ltb_lt _ _)) by lia. simpl. unfold mret, res_ret. f_equal.
  destruct (Z.testbit x n) eqn:E.
  - apply negb_true_iff, Z.eqb_neq. intros H0. apply (f_equal (λ z, Z.testbit z n)) in H0.
    rewrite Z.land_spec, E, Z.pow2_bits_true, Z.testbit_0_l in H0 by lia. done.
  - apply negb_false_iff, Z.eqb_eq. apply Z.bits_inj'. intros i Hi.
    rewrite Z.land_spec, Z.testbit_0_l. destruct (decide (i = n)) as [->|Hne]; [by rewrite E|].
    by rewrite Z.pow2_bits_false, andb_false_r by lia.
Qed.

Lemma ttl_loop_ok bits l iv ttl :
  length ttl = 32%nat → Forall (λ Dp, 0 ≤ if_index Dp < 32) l → NoDup (index_of <$> l) →
  ∃ iv' ttl', ttl_loop bits l iv ttl = Ok (iv', ttl') ∧ length ttl' = 32%nat ∧
    (∀ Dp, Dp ∈ l → ttl' !! index_of Dp =
       if forwards bits Dp then Some (if_threshold Dp) else ttl !! index_of Dp) ∧
    (∀ i, i ∉ index_of <$> l → ttl' !! i = ttl !! i) ∧
    iv' = foldl (λ v Dp, if if_state Dp =? IF_STATE_UPSTREAM then Some (if_index Dp) else v) iv l.
Proof.
  revert iv ttl. induction l as [|D l IH]; intros iv ttl Hlen Hl Hnd.
  { exists iv, ttl. split_and!; [done..|set_solver|done|done]. }
  apply Forall_cons in Hl as [HD Hl]. rewrite fmap_cons in Hnd. apply NoDup_cons in Hnd as [Hi Hnd].
  cbn [ttl_loop].
  assert (∃ ttl1 iv1, ttl_loop bits (D :: l) iv ttl = ttl_loop bits l iv1 ttl1 ∧
    length ttl1 = 32%nat ∧ (∀ i, i ≠ index_of D → ttl1 !! i = ttl !! i) ∧
    ttl1 !! index_of D = (if forwards bits D then Some (if_threshold D) else ttl !! index_of D) ∧
    iv1 = (if if_state D =? IF_STATE_UPSTREAM then Some (if_index D) else iv))
    as (ttl1 & iv1 & E & Hlen1 & Hne & Heq & Eiv).
  { cbn [ttl_loop]. unfold forwards. destruct (if_state D =? IF_STATE_UPSTREAM).
    { by exists ttl, (Some (if_index D)). }
    rewrite BIT_TST_testbit by done. simpl. destruct (Z.testbit bits (if_index D)).
    2: { by exists ttl, iv. }
    exists (<[index_of D := if_threshold D]> ttl), iv. split.
    - unfold wr. destruct (_ || _) eqn:Eb; [rewrite orb_true_iff, Z.ltb_lt, Z.leb_le in Eb; lia|].
      done.
    - split; [by rewrite length_insert|]. split; [intros; by apply list_lookup_insert_ne|].
      split; [|done]. apply list_lookup_insert_eq. unfold index_of. lia. }
  destruct (IH iv1 ttl1 Hlen1 Hl Hnd) as (iv' & ttl' & E' & Hlen' & Hin & Hout & Eiv').
  cbn [ttl_loop] in E. exists iv', ttl'. rewrite E. split_and!; [done|done| | |].
  - intros Dp [->|HDp]%elem_of_cons; [by rewrite Hout|]. rewrite Hin by done.
    destruct (forwards bits Dp); [done|]. apply Hne. intros Ei. apply Hi. rewrite <-Ei.
    by apply list_elem_of_fmap_2.
  - intros i [Hi1 Hi2]%not_elem_of_cons. rewrite Hout by done. by apply Hne.
  - simpl. by rewrite <-Eiv.
Qed.
