(* ===== verification/IgmpSteady.v ===== *)
(** * What only a bad pointer can stop

    The numbers that the proxy shifts by and the names it copies, [in_range]: as
    long as they keep to their bounds and nobody holds the locks of the switch,
    the functions below stop at no fault but the use of NULL or of a freed block.
    [Steady] states it for a computation from every state that is in range, with
    the instances along the structure of the code. *)
From S2P Require Import Prelude CLib Heap System Bytes Genconfig SystemApi SettingsSpec LibEnds.
From S2P Require Import Callout Igmp McSwitch RouteTable IgmpFrame.

Definition known_port (m : group_member) : Prop :=
  gm_port_num m = 255 ∨ 0 ≤ gm_port_num m < 32.

(** [L]: the locks that are held. *)
Record in_range `{!Multicast} (L : gset str) (s : igmpd) : Prop := {
  ir_vifs : Forall (λ Dp, 0 ≤ if_index Dp < 32 ∧ (length (if_Name Dp) < 16)%nat) (ifvc s);
  ir_upstream : u32 (upStreamVif s) ≤ MAX_IF;
  ir_router : igmp_router_port s < 32;
  ir_wan : 0 ≤ hw_wan_port < 32;
  ir_ports : map_Forall (λ _, known_port) (group_members s);
  ir_locks : locks (env (ios s)) = L
}.

(** The locks that mc_switch.c and salsa2.c take are free. *)
Class Unlocked (L : gset str) : Prop :=
  unlocked : lock_name (lit "switch") ∉ L ∧ lock_name MCGROUP_FILE ∉ L.

Section steady.
Context {MC : Multicast}.
Implicit Types (L : gset str) (s : igmpd).

Definition steady_to {A} L L' (m : M igmpd A) : Prop := ∀ s, in_range L s →
  match m s with
  | Ok (_, s') => in_range L' s'
  | Fault e => ¬ memory_safe e
  | NoFuel => True
  end.
Class Steady {A} L (m : M igmpd A) : Prop := steady : steady_to L L m.

(** With a proof that pointers are used well, the run ends with a result. *)
Lemma steady_ok {A} L (m : M igmpd A) Q s :
  Steady L m → in_range L s → wp memory_safe m Q s →
  ∃ a s', m s = Ok (a, s') ∧ in_range L s' ∧ Q a s'.
Proof.
  intros Hm Hr Hw. specialize (Hm s Hr). unfold wp in Hw.
  destruct (m s) as [[a s']|e|]; [by eauto|done|done].
Qed.

(** ** Along the code *)
Lemma steady_to_bind {A B} L1 L2 L3 (m : M igmpd A) (f : A → M igmpd B) :
  steady_to L1 L2 m → (∀ a, steady_to L2 L3 (f a)) → steady_to L1 L3 (m ≫= f).
Proof.
  intros Hm Hf s Hs. specialize (Hm s Hs). unfold mbind, M_bind.
  destruct (m s) as [[a s']|e|]; [by apply Hf|done|done].
Qed.

(** What a look at the state gives is in range. *)
Lemma steady_look {A B} L (g : igmpd → A) (f : A → M igmpd B) :
  (∀ s, in_range L s → Steady L (f (g s))) → Steady L (gets g ≫= f).
Proof. intros Hf s Hs. rewrite bind_gets. by apply Hf. Qed.
Lemma steady_member {B} L p (f : group_member → M igmpd B) :
  (∀ m, known_port m → Steady L (f m)) → Steady L (load_member p ≫= f).
Proof.
  intros Hf s Hs. unfold mbind, M_bind, load_member, load.
  destruct p as [l|]; [|by intros []]. simpl.
  destruct (group_members s !! l) as [m|] eqn:E; [|by intros []].
  apply Hf; [|done]. by eapply ir_ports in E.
Qed.

#[export] Instance steady_ret {A} L (a : A) : Steady L (mret a : M igmpd A).
Proof. by intros s. Qed.
#[export] Instance steady_nofuel {A} L : Steady L (nofuel : M igmpd A).
Proof. by intros s. Qed.
#[export] Instance steady_null {A} L : Steady L (fail NullDeref : M igmpd A).
Proof. intros s _. simpl. by intros []. Qed.
#[export] Instance steady_gets {A} L (f : igmpd → A) : Steady L (gets f).
Proof. by intros s. Qed.
#[export] Instance steady_bind {A B} L (m : M igmpd A) (f : A → M igmpd B) :
  Steady L m → (∀ a, Steady L (f a)) → Steady L (m ≫= f).
Proof. apply steady_to_bind. Qed.
#[export] Instance steady_when L b (m : M igmpd unit) : Steady L m → Steady L (when b m).
Proof. intros Hm. destruct b; [done|apply steady_ret]. Qed.
#[export] Instance steady_if {A} L (b : bool) (m m' : M igmpd A) :
  Steady L m → Steady L m' → Steady L (if b then m else m').
Proof. by destruct b. Qed.
#[export] Instance steady_option {A B} L (o : option A) (f : A → M igmpd B) (m : M igmpd B) :
  (∀ a, Steady L (f a)) → Steady L m →
  Steady L (match o with Some a => f a | None => m end).
Proof. by destruct o. Qed.
Lemma steady_of_res {A} L (r : res A) :
  match r with Ok _ => True | Fault _ => False | NoFuel => True end → Steady L (of_res r).
Proof. intros Hr s Hs. unfold of_res. by destruct r. Qed.

(** A change of fields that [in_range] does not look at. *)
Lemma steady_modify L f :
  (∀ s, ifvc (f s) = ifvc s ∧ upStreamVif (f s) = upStreamVif s ∧
     igmp_router_port (f s) = igmp_router_port s ∧
     group_members (f s) = group_members s ∧ ios (f s) = ios s) → Steady L (modify f).
Proof.
  intros Hf s []. simpl. destruct (Hf s) as (E1 & E2 & E3 & E4 & E5).
  split; rewrite ?E1, ?E2, ?E3, ?E4, ?E5; done.
Qed.
#[export] Instance steady_group_list L p : Steady L (modify (set_group_list p)).
Proof. by apply steady_modify. Qed.
#[export] Instance steady_routing_table L p : Steady L (modify (set_routing_table p)).
Proof. by apply steady_modify. Qed.
#[export] Instance steady_set_mgroup L i e : Steady L (set_mgroup i e).
Proof. by apply steady_modify. Qed.
#[export] Instance steady_emit L e : Steady L (emit e).
Proof. by apply steady_modify. Qed.

(** ** Blocks *)
#[export] Instance steady_load_group L p : Steady L (load_group p).
Proof.
  intros s Hs. unfold load_group, load. destruct p as [l|]; [simpl|by intros []].
  destruct (groups s !! l); [done|by intros []].
Qed.
#[export] Instance steady_load_member L p : Steady L (load_member p).
Proof.
  intros s Hs. unfold load_member, load. destruct p as [l|]; [simpl|by intros []].
  destruct (group_members s !! l); [done|by intros []].
Qed.
#[export] Instance steady_load_route L p : Steady L (load_route p).
Proof.
  intros s Hs. unfold load_route, load. destruct p as [l|]; [simpl|by intros []].
  destruct (routes s !! l); [done|by intros []].
Qed.
#[export] Instance steady_update_group L p f : Steady L (update_group p f).
Proof.
  intros s []. unfold update_group, update, load, store, mbind, M_bind.
  destruct p as [l|]; [simpl|by intros []].
  destruct (groups s !! l) eqn:E; [simpl; rewrite E; by split|by intros []].
Qed.
#[export] Instance steady_update_route L p f : Steady L (update_route p f).
Proof.
  intros s []. unfold update_route, update, load, store, mbind, M_bind.
  destruct p as [l|]; [simpl|by intros []].
  destruct (routes s !! l) eqn:E; [simpl; rewrite E; by split|by intros []].
Qed.
#[export] Instance steady_update_next L p q : Steady L (update_member p (with_member_next q)).
Proof.
  intros s []. unfold update_member, update, load, store, mbind, M_bind.
  destruct p as [l|]; [simpl|by intros []].
  destruct (group_members s !! l) as [m|] eqn:E; [simpl; rewrite E|by intros []].
  split; try done. apply map_Forall_insert_2; [|done]. by eapply (ir_ports0 l m).
Qed.
#[export] Instance steady_free_group L p : Steady L (free_group p).
Proof.
  intros s []. unfold free_group, free. destruct p as [l|]; [simpl|by split].
  destruct (groups s !! l); [by split|by intros []].
Qed.
#[export] Instance steady_free_route L p : Steady L (free_route p).
Proof.
  intros s []. unfold free_route, free. destruct p as [l|]; [simpl|by split].
  destruct (routes s !! l); [by split|by intros []].
Qed.
#[export] Instance steady_free_member L p : Steady L (free_member p).
Proof.
  intros s []. unfold free_member, free. destruct p as [l|]; [simpl|by split].
  destruct (group_members s !! l); [|by intros []]. split; try done.
  by apply map_Forall_delete.
Qed.

(** ** The library, and the sections under a lock *)
Lemma steady_to_ilib {A} L L' (m : M sys A) :
  (∀ o, locks (env o) = L →
     match m o with Ok (_, o') => locks (env o') = L' | Fault _ => False | NoFuel => True end) →
  steady_to L L' (ilib m).
Proof.
  intros Hm s []. unfold ilib. specialize (Hm (ios s)).
  destruct (m (ios s)) as [[a o]|e|]; [|by destruct Hm|done]. split; auto.
Qed.
#[export] Instance steady_fopen_w L p : Steady L (ilib (fopen_w p)).
Proof.
  apply steady_to_ilib. intros o Ho. unfold fopen_w. rewrite bind_gets. by destruct (bool_decide _).
Qed.
#[export] Instance steady_fprintf L p t : Steady L (ilib (fprintf p t)).
Proof. by apply steady_to_ilib. Qed.
#[export] Instance steady_system L c : Steady L (ilib (system c)).
Proof. by apply steady_to_ilib. Qed.

Definition held (fd : option str) L : gset str :=
  match fd with Some n => {[n]} ∪ L | None => L end.
Definition not_held (fd : option str) L : Prop :=
  match fd with Some n => n ∉ L | None => True end.

Lemma steady_unlock fd L : not_held fd L → steady_to (held fd L) L (ilib (unlock_file fd)).
Proof.
  intros Hn. apply steady_to_ilib. intros o Ho. destruct fd as [n|]; [|done].
  simpl in *. rewrite Ho. set_solver.
Qed.
Lemma steady_lock {A} L f (k : option str → M igmpd A) :
  lock_name f ∉ L → (∀ fd, not_held fd L → steady_to (held fd L) L (k fd)) →
  Steady L (ilib (lock_file f) ≫= k).
Proof.
  intros Hf Hk s Hs. unfold mbind, M_bind, ilib, lock_file.
  rewrite bind_gets. destruct (bool_decide (lock_name f ∈ unwritable _)).
  { apply (Hk None); [done|]. destruct s. exact Hs. }
  unfold on_env. erewrite bind_Ok by reflexivity. cbn beta.
  rewrite bool_decide_false by (destruct Hs; congruence).
  erewrite bind_Ok by reflexivity. apply (Hk (Some (lock_name f)) Hf).
  destruct Hs as [? ? ? ? ? <-]. by split.
Qed.
Lemma steady_locked {A} L f (m : M igmpd A) :
  lock_name f ∉ L → (∀ L', Steady L' m) →
  Steady L (fd ← ilib (lock_file f); m;; ilib (unlock_file fd)).
Proof.
  intros Hf Hm. apply steady_lock; [done|]. intros fd Hfd.
  eapply steady_to_bind; [apply Hm|]. intros _. by apply steady_unlock.
Qed.
End steady.

(** ** The functions of mc_switch.c *)
Section groups.
Context {MC : Multicast}.
Implicit Types L : gset str.

Lemma bit_in_range n : 0 ≤ n < 32 → bit n = Ok (2 ^ n).
Proof. intros Hn. unfold bit. by rewrite (proj2 (Z.leb_le _ _)), (proj2 (Z.ltb_lt _ _)) by lia. Qed.

#[export] Instance steady_updateMacTable L `{!Unlocked L} e : Steady L (updateMacTable e).
Proof.
  unfold updateMacTable. apply steady_lock; [apply unlocked|]. intros fd Hfd.
  eapply steady_to_bind; [unfold get_mgroup_index; apply steady; apply _|]. intros midx.
  eapply steady_to_bind; [|intros _; by apply steady_unlock].
  apply steady_if; [|apply _]. apply steady_look. intros s Hs.
  apply steady_bind; [|apply _]. apply steady_of_res.
  destruct (Z.leb_spec 0 (igmp_router_port s)); [|done].
  unfold BIT_SET. rewrite bit_in_range by (destruct Hs; lia). done.
Qed.

#[export] Instance steady_write_members L fuel p : Steady L (write_members fuel p).
Proof. revert p. induction fuel; intros p; cbn [write_members]; apply _. Qed.
#[export] Instance steady_write_groups L fuel p : Steady L (write_groups fuel p).
Proof. revert p. induction fuel; intros p; cbn [write_groups]; apply _. Qed.
#[export] Instance steady_write_entry L `{!Unlocked L} : Steady L write_entry.
Proof.
  unfold write_entry. apply steady_lock; [apply unlocked|]. intros fd Hfd.
  eapply steady_to_bind; [apply steady; apply _|]. intros fp.
  destruct (negb fp); [by apply steady_unlock|].
  do 2 (eapply steady_to_bind; [apply steady; apply _|]; intros ?).
  eapply steady_to_bind; [apply steady; apply _|]. intros _. by apply steady_unlock.
Qed.

#[export] Instance steady_find_entry_loop L fuel a b c p :
  Steady L (find_entry_loop fuel a b c p).
Proof. revert p. induction fuel; intros p; cbn [find_entry_loop]; apply _. Qed.
#[export] Instance steady_find_entry L m : Steady L (find_entry m).
Proof. unfold find_entry, group_fuel. apply _. Qed.

#[export] Instance steady_port_map_loop L fuel p z : Steady L (port_map_loop fuel p z).
Proof.
  revert p z. induction fuel as [|fuel IH]; intros p z; cbn [port_map_loop]; [apply _|].
  destruct p as [l|]; [|apply _]. intros s Hs.
  pose proof (ir_wan _ _ Hs) as Hw. revert s Hs. apply steady_member. intros m Hm.
  destruct (Z.eqb_spec (gm_port_num m) 255).
  - apply steady_bind; [|apply _]. apply steady_of_res. by rewrite bit_in_range.
  - destruct Hm as [|Hm]; [done|]. apply steady_bind; [|intros b; apply IH].
    apply steady_of_res. by rewrite bit_in_range.
Qed.
#[export] Instance steady_update_group_port_map L `{!Unlocked L} e :
  Steady L (update_group_port_map e).
Proof. unfold update_group_port_map, member_fuel. apply _. Qed.

#[export] Instance steady_remove_loop L fuel u a p : Steady L (remove_loop fuel u a p).
Proof. revert p. induction fuel; intros p; cbn [remove_loop]; apply _. Qed.
#[export] Instance steady_remove_member L `{!Unlocked L} m u w : Steady L (remove_member m u w).
Proof. unfold remove_member, member_fuel. apply _. Qed.

#[export] Instance steady_free_members L fuel p : Steady L (free_members fuel p).
Proof. revert p. induction fuel; intros p; cbn [free_members]; apply _. Qed.
#[export] Instance steady_unlink_group L fuel e p : Steady L (unlink_group fuel e p).
Proof. revert p. induction fuel; intros p; cbn [unlink_group]; apply _. Qed.
#[export] Instance steady_remove_multicast_ip L `{!Unlocked L} m :
  Steady L (remove_multicast_ip m).
Proof. unfold remove_multicast_ip, remove_all_members, group_fuel, member_fuel. apply _. Qed.
End groups.

(** ** The functions of rttable.c *)
Section routes.
Context {MC : Multicast}.
Implicit Types L : gset str.

Lemma ttl_loop_in_range bits l iv ttl :
  Forall (λ Dp, 0 ≤ if_index Dp < 32 ∧ (length (if_Name Dp) < 16)%nat) l → length ttl = 32%nat →
  ∃ r, ttl_loop bits l iv ttl = Ok r.
Proof.
  intros Hl. revert iv ttl. induction Hl as [|Dp l [Hi _] _ IH]; intros iv ttl Ht; cbn [ttl_loop].
  { by eexists. }
  destruct (if_state Dp =? IF_STATE_UPSTREAM); [by apply IH|].
  unfold BIT_TST. rewrite bit_in_range by done. cbn [mbind res_bind mret res_ret].
  destruct (negb _); [|by apply IH].
  unfold wr. rewrite (proj2 (Z.ltb_ge _ _)), (proj2 (Z.leb_gt _ _)) by lia.
  apply IH. by rewrite length_insert.
Qed.
#[export] Instance steady_kernel L r b : Steady L (internUpdateKernelRoute r b).
Proof.
  unfold internUpdateKernelRoute. apply steady_look. intros s Hs.
  apply steady_bind.
  - apply steady_of_res. by destruct (ttl_loop_in_range (rt_vifBits r) (ifvc s) None
      (replicate 32 0)) as [? ->]; [destruct Hs| |].
  - intros [iv ttl]. unfold addMRoute, delMRoute. apply _.
Qed.

Lemma forward_cmd_short op name grp :
  (length op ≤ 2)%nat → (length name < 16)%nat → (length (forward_cmd op name grp) < 200)%nat.
Proof.
  intros Ho Hn. pose proof (addr_short grp) as Ha. unfold forward_cmd.
  rewrite !length_app. set (x := length (inet_ntoa grp)) in *. simpl. lia.
Qed.
Lemma steady_forward L op Dp grp :
  (length op ≤ 2)%nat → (length (if_Name Dp) < 16)%nat → Steady L (forward_rule op (Some Dp) grp).
Proof.
  intros Ho Hn. unfold forward_rule. apply steady_bind; [|apply _].
  intros s Hs. rewrite strcpy_ok by by apply forward_cmd_short. done.
Qed.
Lemma steady_interface {A} L ix (f : option IfDesc → M igmpd A) :
  ix ≤ MAX_IF →
  Steady L (f None) → (∀ Dp, (length (if_Name Dp) < 16)%nat → Steady L (f (Some Dp))) →
  Steady L (getIfByIx ix ≫= f).
Proof.
  intros Hi Hn Hf s Hs. unfold getIfByIx. rewrite bind_assoc, bind_gets.
  rewrite (proj2 (Z.ltb_ge _ _)) by done. rewrite bind_ret.
  destruct (ifvc s !! Z.to_nat ix) as [Dp|] eqn:E; [|by apply Hn]. apply Hf; [|done].
  by eapply (Forall_lookup_1 _ _ _ _ (ir_vifs _ _ Hs)) in E as [_ ?].
Qed.
#[export] Instance steady_sendJoinLeave L r b : Steady L (sendJoinLeaveUpstream r b).
Proof.
  unfold sendJoinLeaveUpstream. apply steady_look. intros s Hs.
  apply steady_interface; [by destruct Hs|apply _|]. intros Dp Hn.
  pose proof (λ op H, steady_forward L op Dp (rt_group r) H Hn) as Hf.
  assert (Steady L (forward_rule (lit "-I") (Some Dp) (rt_group r))) by (apply Hf; simpl; lia).
  assert (Steady L (forward_rule (lit "-D") (Some Dp) (rt_group r))) by (apply Hf; simpl; lia).
  unfold joinMcGroup, leaveMcGroup. apply _.
Qed.
#[export] Instance steady_join_leave_at L p b : Steady L (join_leave_at p b).
Proof. unfold join_leave_at. apply _. Qed.
#[export] Instance steady_unlink_route L p : Steady L (unlink_route p).
Proof. unfold unlink_route. apply _. Qed.
#[export] Instance steady_removeRoute L p : Steady L (removeRoute p).
Proof. unfold removeRoute. apply _. Qed.
#[export] Instance steady_age_expired L `{!Unlocked L} p : Steady L (age_expired p).
Proof. unfold age_expired. apply _. Qed.
#[export] Instance steady_internAgeRoute L `{!Unlocked L} p : Steady L (internAgeRoute p).
Proof. unfold internAgeRoute. apply _. Qed.
End routes.
