(* ===== verification/IgmpAge.v ===== *)
(** * rttable.c and mc_switch.c: ageing

    The rounds of ageing of a route that nobody reports any more, and the two
    places where ageing uses a block that it has freed. *)
From S2P Require Import Prelude CLib Heap System Bytes Genconfig SystemApi LibEnds.
From S2P Require Import Callout Igmp McSwitch RouteTable IgmpProxy.
From S2P Require Import IgmpFrame McInv McOps McGroups RouteInv RouteOps IgmpInv IgmpSteady.

(** Nobody has reported the route since the last round. *)
Definition silent (r : RouteTable) : Prop := rt_ageVifBits r = 0 ∧ rt_ageActivity r = 0.

Lemma age_silent n r : silent r → age_activity n r = with_ageValue (i32 (rt_ageValue r - 1)) r.
Proof. intros [E1 E2]. unfold age_activity. simpl. by rewrite E1, E2. Qed.

Section ageing.
Context {MC : Multicast}.

(** A round in which the counter does not reach zero. *)
Lemma internAgeRoute_round s a l r b :
  tables_ok s (a ++ (l, r) :: b) →
  let r1 := age_activity (robustnessValue (commonConfig s)) r in
  rt_ageValue r1 ≠ 0 →
  ∃ s', internAgeRoute (Some l) s = Ok (0, s') ∧ commonConfig s' = commonConfig s ∧
    tables_ok s' (a ++ (l, with_ageVifBits 0 r1) :: b).
Proof.
  intros H r1 Hv. pose proof (to_routes _ _ H) as Hr. unfold internAgeRoute. rewrite bind_gets.
  assert (route_ok r1) as Hr1 by (eapply route_ok_age, cell_route_ok, Hr).
  destruct (update_value_ok s a l r b (age_activity (robustnessValue (commonConfig s))) Hr)
    as [E1 H1]; [apply age_group|done|].
  rewrite (bind_Ok _ _ _ _ _ E1), (bind_Ok _ _ _ _ _ (load_route_ok _ _ _ _ _ H1)).
  cbn [nval]. fold r1. rewrite (proj2 (Z.eqb_neq _ _)) by done. erewrite bind_Ok by done.
  destruct (update_value_ok _ a l _ b (with_ageVifBits 0) H1) as [E2 H2].
  { done. }
  { fold r1. destruct Hr1 as (? & ? & ?). by split_and!. }
  rewrite (bind_Ok _ _ _ _ _ E2). eexists. split; [done|]. split; [done|].
  eapply tables_ok_astride; [|exact H2|exact H]. done.
Qed.

Fixpoint age_times (k : nat) (croute : ptr) : M igmpd unit :=
  match k with
  | O => mret tt
  | S k => internAgeRoute croute;; age_times k croute
  end.

(** The counter of a silent route goes down by one in each round. *)
Lemma age_times_ok k s a l r b :
  tables_ok s (a ++ (l, r) :: b) → silent r → Z.of_nat k < rt_ageValue r < 2 ^ 31 →
  ∃ s', age_times k (Some l) s = Ok (tt, s') ∧ commonConfig s' = commonConfig s ∧
    tables_ok s' (a ++ (l, with_ageValue (rt_ageValue r - Z.of_nat k) r) :: b).
Proof.
  revert s r. induction k as [|k IH]; intros s r H Hs Hk.
  { exists s. split; [done|]. split; [done|]. rewrite Z.sub_0_r. by destruct r. }
  pose proof (internAgeRoute_round s a l r b H) as Hr. cbv zeta in Hr.
  rewrite (age_silent _ _ Hs), i32_id in Hr by lia.
  destruct Hr as (s1 & E1 & Ec1 & H1); [simpl; lia|].
  set (r1 := with_ageVifBits 0 _) in H1.
  destruct (IH s1 r1 H1) as (s2 & E2 & Ec2 & H2); [by destruct Hs|simpl; lia|].
  exists s2. cbn [age_times]. rewrite (bind_Ok _ _ _ _ _ E1). split; [done|].
  split; [congruence|]. replace (with_ageValue _ r) with
    (with_ageValue (rt_ageValue r1 - Z.of_nat k) r1); [done|].
  destruct Hs as [Ha _]. unfold r1. destruct r. simpl in *. subst.
  unfold with_ageValue. simpl. f_equal. lia.
Qed.

#[export] Instance steady_age_times L `{!Unlocked L} k p : Steady L (age_times k p).
Proof. induction k; cbn [age_times]; apply _. Qed.

(** The route of an expired counter is freed. *)
Lemma age_expired_ok s a l r b :
  tables_ok s (a ++ (l, r) :: b) → rt_ageActivity r = 0 →
  wp memory_safe (age_expired (Some l)) (λ _ s', routes s' !! l = None) s.
Proof.
  intros H Ea. unfold age_expired. eapply wp_step; [eapply load_route_ok, H|]. cbn [nval].
  rewrite Ea. cbn match. destruct (to_members _ _ H) as (gs & Hg & Hp).
  eapply wp_seq; [by apply remove_multicast_ip_ok|]. intros [] s2 (Hb & gs2 & Hg2 & Hp2 & _).
  pose proof (tables_ok_beside _ _ _ _ Hb Hg2 (Hp2 Hp) H) as H2.
  eapply wp_seq; [eapply removeRoute_ok; apply H2|]. intros z s3 (_ & _ & _ & Hl).
  by apply wp_ret.
Qed.

(** When it reaches zero, the route is removed and then written to. *)
Lemma internAgeRoute_expires L `{!Unlocked L} s a l r b :
  tables_ok s (a ++ (l, r) :: b) → in_range L s → silent r → rt_ageValue r = 1 →
  internAgeRoute (Some l) s = Fault Dangling.
Proof.
  intros H Hr Hs Hv. unfold internAgeRoute. rewrite bind_gets. set (n := robustnessValue _).
  destruct (tables_ok_value s a l r b (age_activity n) H (age_group n r)) as (s1 & E1 & H1);
    [eapply route_ok_age, cell_route_ok, H|].
  rewrite age_silent, Hv in H1 by done. change (i32 (1 - 1)) with 0 in H1.
  pose proof (steady_update_route L (Some l) (on_route (age_activity n)) s Hr) as Hr1.
  rewrite E1 in Hr1.
  rewrite (bind_Ok _ _ _ _ _ E1). erewrite bind_Ok by (eapply load_route_ok, H1). cbn [nval].
  change (rt_ageValue _ =? 0) with true. cbn match. rewrite bind_assoc.
  destruct (steady_ok L (age_expired (Some l)) (λ _ s', routes s' !! l = None) s1)
    as ([] & s2 & E2 & _ & Hl); [apply _|done|eapply age_expired_ok; [exact H1|apply Hs]|].
  rewrite (bind_Ok _ _ _ _ _ E2), bind_ret.
  unfold mbind, M_bind, update_route, update, load, mbind, M_bind. simpl. by rewrite Hl.
Qed.

(** ** The sweep of silent members *)

(** The member that is removed is the one whose key is given. *)
Lemma dropped_is s a c b c' s' z l v :
  groups_ok s (a ++ c :: b) → groups_ok s' (a ++ c' :: b) → gc_ms c = z ++ [(l, v)] →
  dropped (gm_key v) c c' → group_members s' !! l = None.
Proof.
  intros H H' E [[Hk _]|(x & k & w & y & hm & E1 & Hw & E2 & Eh & _)].
  { destruct Hk. rewrite views_keys, E, !fmap_app. set_solver. }
  pose proof (go_uniq _ _ H) as Hu. rewrite Forall_app, Forall_cons in Hu.
  destruct Hu as (_ & Hu & _). rewrite E1, fmap_app, fmap_cons, fmap_app, fmap_cons in Hu.
  apply NoDup_app in Hu as (_ & _ & Hu). apply NoDup_cons in Hu as [Hu _].
  destruct y as [|[k' w'] y _] using rev_ind.
  - pose proof E1 as E3. rewrite E in E3. apply app_inj_2 in E3 as [_ [= -> ->]]; [|done].
    exact (freed_dropped _ _ _ _ _ _ _ _ _ _ _ H H' E1 E2 Eh).
  - rewrite E, app_comm_cons, app_assoc in E1. apply app_inj_2 in E1 as [_ [= -> ->]]; [|done].
    destruct Hu. cbn [snd]. rewrite Hw, !fmap_app. set_solver.
Qed.

Lemma sweap_last_member L `{!Unlocked L} fuel mip s a c b z y l v :
  groups_ok s (a ++ c :: b) → in_range L s →
  gc_ms c = z ++ y ++ [(l, v)] → (length y < fuel)%nat →
  gc_key c = group_key (ntohl mip) → gm_key v = member_key (ntohl mip) (gm_ip_addr v) →
  Forall (λ m, gm_has_report m.2 ≠ 0) y → gm_has_report v = 0 →
  sweap_members fuel mip (first_loc (y ++ [(l, v)]) None) s = Fault Dangling.
Proof.
  intros H Hr. revert fuel z.
  induction y as [|[k m] y IH]; intros [|fuel] z E Hf Hc Hk Hy Hv; simpl in Hf;
    try lia; destruct (groups_ok_cell _ _ _ _ H) as (_ & _ & _ & Hs & _);
    rewrite E in Hs; destruct (sls_lookup _ _ _ _ _ _ _ Hs) as [Hl Hn];
    cbn [sweap_members app first_loc]; rewrite (bind_Ok _ _ _ _ _ (load_member_at _ _ _ Hl)).
  - rewrite Hv, Hn. cbn [Z.eqb first_loc]. rewrite bind_assoc.
    pose proof (remove_member_at (F := memory_safe) s a c b _ (gm_ip_addr v) false H Hc) as Hw.
    destruct (steady_ok L _ _ _ _ Hr Hw) as ([] & s1 & E1 & _ & _ & c' & H1 & _ & Hd & _).
    rewrite <-Hk in Hd. apply (dropped_is s a c b c' s1 z l v H H1 E) in Hd as Hl1.
    rewrite (bind_Ok _ _ _ _ _ E1), bind_ret. unfold mbind, M_bind, load_member, load. simpl.
    by rewrite Hl1.
  - apply Forall_cons in Hy as [Hm Hy]. simpl in Hm. rewrite (proj2 (Z.eqb_neq _ _)) by done.
    rewrite bind_ret, bind_assoc, (bind_Ok _ _ _ _ _ (load_member_at _ _ _ Hl)), bind_ret, Hn.
    apply (IH fuel (z ++ [(k, m)])); try done; [by rewrite <-app_assoc|lia].
Qed.

(** The group address as the sweep puts it together. *)
Definition group_mip (c : gcell) : Z :=
  craft_mip (g_a0 (gc_val c)) (g_a1 (gc_val c)) (g_a2 (gc_val c)) (g_a3 (gc_val c)).

Lemma sweap_last_group L `{!Unlocked L} fuel ip s x a c b y l v :
  groups_ok s (x ++ a ++ c :: b) → in_range L s → (length a < fuel)%nat →
  Forall (λ d, group_mip d ≠ ip) a → group_mip c = ip →
  gc_ms c = y ++ [(l, v)] →
  gc_key c = group_key (ntohl ip) → gm_key v = member_key (ntohl ip) (gm_ip_addr v) →
  Forall (λ m, gm_has_report m.2 ≠ 0) y → gm_has_report v = 0 →
  sweap_groups fuel ip (first_loc (gc_pair <$> a ++ c :: b) None) s = Fault Dangling.
Proof.
  intros H Hr Hf Ha Hip E Hc Hk Hy Hv. revert fuel x H Hf.
  induction Ha as [|d a Hd _ IH]; intros [|fuel] x H Hf; simpl in Hf; try lia;
    cbn [app fmap list_fmap first_loc gc_pair sweap_groups];
    erewrite bind_Ok by (by eapply load_group_ok); unfold member_fuel; rewrite bind_gets.
  - change (craft_mip _ _ _ _) with (group_mip c). rewrite Hip, Z.eqb_refl. cbn match.
    unfold when. destruct (groups_ok_cell _ _ _ _ H) as (_ & _ & -> & _). rewrite E.
    pose proof (member_fuel_enough _ _ _ _ H) as Hm. rewrite E, length_app in Hm. simpl in Hm.
    unfold mbind, M_bind. by erewrite (sweap_last_member L _ _ _ _ _ _ []) by (done || lia).
  - change (craft_mip _ _ _ _) with (group_mip d).
    rewrite (proj2 (Z.eqb_neq ip _)) by done. cbn [when]. rewrite bind_ret.
    erewrite bind_Ok by (by eapply load_group_ok). cbn match.
    destruct (groups_ok_cell _ _ _ _ H) as (_ & -> & _).
    apply (IH fuel (x ++ [d])); [by rewrite <-app_assoc|lia].
Qed.
End ageing.
