(* ===== verification/IgmpConfigFacts.v ===== *)
(** * config.c: what a configuration file can configure

    The reader of tokens ends on every file without NUL bytes; in front of a NUL
    byte it turns forever, as in the source.  The name of a downstream interface
    is copied to a block that is one byte too short, so a file with a downstream
    interface is never loaded. *)
From S2P Require Import Prelude CLib Heap System Bytes Genconfig SystemApi LibEnds Callout Igmp.
From S2P Require Import McSwitch.
From S2P Require Import RouteTable IgmpConfig.

(** ** The reader of tokens *)
Definition no_nul (s : str) : Prop := NUL ∉ s.

(** A reader of a file without NUL bytes, and what it has still to give. *)
Definition reader_ok (r : reader) : Prop := no_nul (rd_file r) ∧ no_nul (rd_left r).
Definition unread (r : reader) : nat := (length (rd_left r) + length (rd_file r))%nat.

Lemma chars_loop_ok rest token comment :
  no_nul rest →
  let '(rest', _, _, finished) := chars_loop rest token comment in
  no_nul rest' ∧ if finished : bool then (length rest' < length rest)%nat else rest' = [].
Proof.
  unfold no_nul. revert token comment. induction rest as [|c rest IH]; intros token comment Hn;
    cbn [chars_loop]; [done|].
  apply not_elem_of_cons in Hn as [Hc Hn]. unfold is_char at 1.
  rewrite bool_decide_false by done.
  destruct (if comment then _ else _) as [[token' comment'] finished].
  destruct (finished || _); [split; [done|simpl; lia]|].
  specialize (IH token' comment' Hn). destruct (chars_loop rest token' comment') as [[[r t] k] []];
    destruct IH as [H1 H2]; split; try done. simpl. lia.
Qed.

(** A token takes at least one byte of the file; without one the token of the
    reader is not valid. *)
Definition next_ok (n : nat) (v : option str * reader) : Prop :=
  reader_ok v.2 ∧ (unread v.2 ≤ n)%nat ∧
  match v.1 with
  | Some _ => (unread v.2 < n)%nat
  | None => rd_valid v.2 = false
  end.

(** The reader after the buffer has been filled. *)
Definition filled (r : reader) : reader :=
  match rd_left r with
  | [] =>
      let chunk := take READ_BUFFER_SIZE (rd_file r) in
      Reader (drop READ_BUFFER_SIZE (rd_file r)) chunk
        (length chunk =? READ_BUFFER_SIZE)%nat (rd_token r) (rd_valid r)
  | _ :: _ => r
  end.
Definition rounds (r : reader) : nat :=
  match rd_left r with [] => length (rd_file r) | _ :: _ => S (length (rd_file r)) end.

Lemma filled_ok r :
  reader_ok r → reader_ok (filled r) ∧ unread (filled r) = unread r ∧
    rd_valid (filled r) = rd_valid r ∧
    (rd_left (filled r) ≠ [] → (length (rd_file (filled r)) < rounds r)%nat).
Proof.
  unfold reader_ok, no_nul, unread, rounds, filled. intros [Hf Hl].
  destruct (rd_left r) as [|c l] eqn:E; [|rewrite E; split_and!; try done; simpl; lia].
  cbn [rd_file rd_left rd_valid]. split_and!; try done.
  - intros H. apply Hf. rewrite <-(take_drop READ_BUFFER_SIZE (rd_file r)). set_solver.
  - intros H. apply Hf. rewrite <-(take_drop READ_BUFFER_SIZE (rd_file r)). set_solver.
  - rewrite length_take, length_drop. cbn [length]. lia.
  - intros Hne. assert (0 < length (take READ_BUFFER_SIZE (rd_file r)))%nat as Hp
      by (destruct (take _ _); [done|simpl; lia]).
    rewrite length_take in Hp. rewrite length_drop. unfold READ_BUFFER_SIZE in *. lia.
Qed.

Lemma token_loop_ok fuel r token comment :
  reader_ok r → rd_valid r = false → (rounds r < fuel)%nat →
  ∃ v, token_loop fuel r token comment = Ok v ∧ next_ok (unread r) v.
Proof.
  revert r token comment. induction fuel as [|fuel IH]; intros r token comment Hr Hv Hf; [lia|].
  cbn [token_loop]. change (match rd_left r with [] => _ | _ :: _ => r end) with (filled r).
  destruct (filled_ok r Hr) as (Hr1 & <- & Hv1 & Hf1). rewrite Hv in Hv1.
  revert Hr1 Hv1 Hf1. generalize (filled r). intros r1 Hr1 Hv1 Hf1.
  destruct (rd_left r1) as [|c l] eqn:El; [by eexists|]. rewrite <-El in *.
  specialize (Hf1 ltac:(by rewrite El)).
  pose proof (chars_loop_ok (rd_left r1) token comment (proj2 Hr1)) as Hc.
  destruct (chars_loop (rd_left r1) token comment) as [[[rest token'] comment'] finished].
  destruct Hc as [Hn Hrest]. cbn [rd_full rd_file].
  assert (∀ t b, reader_ok (Reader (rd_file r1) rest (rd_full r1) t b)) as Hr2
    by (intros; split; [apply Hr1|done]).
  assert (length rest ≤ length (rd_left r1))%nat as Hle
    by (destruct finished; subst; simpl; lia).
  destruct (negb (rd_full r1) && streq rest []).
  { eexists. split; [done|]. split_and!; [apply Hr2|unfold unread; simpl; lia|done]. }
  destruct finished.
  - eexists. split; [done|]. unfold next_ok, unread. split_and!; [apply Hr2|simpl; lia..].
  - subst rest. destruct (IH (Reader (rd_file r1) [] (rd_full r1) token' false) token' comment')
      as (v & -> & H1 & H2 & H3); [apply Hr2|done|unfold rounds in *; simpl; lia|].
    exists v. split; [done|]. unfold next_ok, unread in *. simpl in *. split_and!; [done|lia|].
    destruct v.1; [lia|done].
Qed.

Lemma nextConfigToken_ok r :
  reader_ok r → ∃ v, nextConfigToken r = Ok v ∧ next_ok (unread r) v.
Proof.
  intros Hr. unfold nextConfigToken. set (r1 := Reader _ _ _ _ _).
  apply (token_loop_ok _ r1); [done|done|].
  unfold rounds, r1. simpl. destruct (rd_left r); lia.
Qed.

(** The reader that has come to a NUL byte never ends. *)
Lemma nul_never_ends fuel r l token comment :
  rd_left r = NUL :: l → token_loop fuel r token comment = NoFuel.
Proof.
  intros E. revert r l token comment E. induction fuel as [|fuel IH]; intros r l token comment E;
    [done|].
  cbn [token_loop]. rewrite E. cbv zeta. rewrite E. cbn [chars_loop].
  change (is_char NUL NUL) with true. cbn match. cbn [rd_full rd_file].
  rewrite (bool_decide_false (NUL :: l = []) ltac:(done) : streq (NUL :: l) [] = false).
  rewrite andb_false_r. by eapply IH.
Qed.

(** ** The configuration of interfaces *)
(** A downstream interface has no name. *)
Definition unnamed (c : vifconfig) : Prop :=
  vc_state c = IF_STATE_DOWNSTREAM → vc_name c = None.

(** The loops have enough fuel for the tokens behind the current one. *)
Definition ready (fuel : nat) (token : option str) (r : reader) : Prop :=
  reader_ok r ∧ match token with
                | Some _ => (unread r + 1 < fuel)%nat
                | None => rd_valid r = false ∧ (0 < fuel)%nat
                end.

Lemma wp_next {B} r fuel (k : option str * reader → M sys B) Q σ :
  reader_ok r → (unread r < fuel)%nat →
  (∀ t r', ready fuel t r' → (unread r' ≤ unread r)%nat →
     (t ≠ None → unread r' < unread r)%nat →
     wp any_fault (k (t, r')) Q σ) →
  wp any_fault (of_res (nextConfigToken r) ≫= k) Q σ.
Proof.
  intros Hr Hf Hk. apply wp_of_res. destruct (nextConfigToken_ok r Hr) as ([t r'] & -> & H1 & H2 & H3).
  simpl in *. apply Hk; [split; [done|]|done|by destruct t].
  destruct t; [lia|]. split; [done|lia].
Qed.

(** What the loop of parsePhyintToken gives: the reader is at a later token, or
    at the end. *)
Definition phyint_result (n : nat) (v : option vifconfig * reader) : Prop :=
  from_option unnamed True v.1 ∧ reader_ok v.2 ∧ (rd_valid v.2 = true → unread v.2 ≤ n)%nat.

Lemma phyint_result_le n m v : (n ≤ m)%nat → phyint_result n v → phyint_result m v.
Proof. intros Hnm (H1 & H2 & H3). split_and!; [done..|]. intros Hv. specialize (H3 Hv). lia. Qed.

Lemma subnet_ends t : res_ends (parseSubnetAddress t).
Proof.
  unfold parseSubnetAddress. destruct (strtok _ t) as [[a|] rest]; [|done].
  destruct (match _ with (None, _) => _ | _ => _ end); [by destruct (_ =? _)|done].
Qed.

Lemma phyint_ok fuel token r c σ :
  ready fuel token r → unnamed c →
  wp any_fault (phyint_loop fuel token r c) (λ v _, phyint_result (unread r) v) σ.
Proof.
  revert token r c σ. induction fuel as [|fuel IH]; intros token r c σ [Hr Ht] Hc.
  { destruct token; lia. }
  cbn [phyint_loop]. destruct token as [token|]; [|by apply wp_ret; split_and!].
  assert (∀ r1 c1 σ, reader_ok r1 → (unread r1 ≤ unread r)%nat → unnamed c1 →
    wp any_fault ('(t, r) ← of_res (nextConfigToken r1); phyint_loop fuel t r c1)
      (λ v _, phyint_result (unread r) v) σ) as Hnext.
  { intros r1 c1 σ1 Hr1 Hl Hc1. apply (wp_next r1 fuel); [done|lia|]. intros t r2 Hr2 Hd _.
    eapply wp_mono; [by apply IH|]. intros v σ2. apply phyint_result_le. lia. }
  destruct (streq token (lit "altnet")).
  { apply (wp_next r fuel); [done|lia|]. intros t r1 [Hr1 _] Hl _. apply wp_of_res.
    destruct t as [t|]; [|done]. pose proof (subnet_ends t) as He.
    destruct (parseSubnetAddress t) as [[net|]|e|]; [by apply Hnext| |done|done].
    apply wp_ret. by split_and!. }
  destruct (streq token (lit "upstream")).
  { eapply wp_seq; [apply ends_get_wan_ifname|]. intros [? name] σ1 _. by apply Hnext. }
  destruct (streq token (lit "downstream")); [done|].
  destruct (streq token (lit "disabled")); [by apply Hnext|].
  destruct (streq token (lit "ratelimit")).
  { apply (wp_next r fuel); [done|lia|]. intros t r1 [Hr1 _] Hl _. apply wp_of_res.
    destruct t as [t|]; [|done]. cbn [token_number].
    destruct (_ <? 0); [apply wp_ret; by split_and!|by apply Hnext]. }
  destruct (streq token (lit "threshold")); [|by apply wp_ret; split_and!].
  apply (wp_next r fuel); [done|lia|]. intros t r1 [Hr1 _] Hl _. apply wp_of_res.
  destruct t as [t|]; [|done]. cbn [token_number].
  destruct (_ || _); [apply wp_ret; by split_and!|by apply Hnext].
Qed.

Lemma parsePhyint_ok fuel r σ :
  reader_ok r → (unread r < fuel)%nat →
  wp any_fault (parsePhyintToken fuel r) (λ v _, from_option unnamed True v.1 ∧ reader_ok v.2 ∧
    (rd_valid v.2 = true → unread v.2 < unread r)%nat) σ.
Proof.
  intros Hr Hf. unfold parsePhyintToken. apply (wp_next r fuel); [done|lia|].
  intros t r1 Hr1 _ Hl. destruct t as [t|].
  - specialize (Hl ltac:(done)). eapply wp_mono; [by apply phyint_ok|].
    intros v σ1 (H1 & H2 & H3). split_and!; [done..|]. intros Hv. specialize (H3 Hv). lia.
  - destruct Hr1 as (Hr1 & Hv & Hp). destruct fuel as [|fuel]; [lia|]. apply wp_ret.
    split_and!; [done..|]. cbn [snd]. by rewrite Hv.
Qed.

Lemma config_ok fuel token r conf vifs σ :
  ready fuel token r → Forall unnamed vifs →
  wp any_fault (config_loop fuel token r conf vifs) (λ v _, Forall unnamed v.2) σ.
Proof.
  revert token r conf vifs σ.
  induction fuel as [|fuel IH]; intros token r conf vifs σ [Hr Ht] Hv; [destruct token; lia|].
  cbn [config_loop]. destruct token as [token|]; [|by apply wp_ret].
  destruct (streq token (lit "phyint")).
  - eapply wp_seq; [apply (parsePhyint_ok fuel r); [done|lia]|].
    intros [[v|] r1] σ1 (Hu & Hr1 & Hd); [|by apply wp_ret]. cbn [fst snd from_option] in *.
    apply IH; [split; [done|]|apply Forall_app; by repeat constructor].
    unfold getCurrentConfigToken. destruct (rd_valid r1); [|split; [done|lia]].
    specialize (Hd eq_refl). lia.
  - destruct (streq token (lit "quickleave")); [|by apply wp_ret].
    apply (wp_next r fuel); [done|lia|]. intros t r1 Hr1 _ _. by apply IH.
Qed.

(** Every file without NUL bytes is read to its end, or to a fault. *)
Lemma loadConfig_ok content σ :
  no_nul content → wp any_fault (loadConfig content) (λ v _, Forall unnamed v.2) σ.
Proof.
  intros Hn. unfold loadConfig. apply (wp_next _ (S (S (length content)))).
  - split; [done|apply not_elem_of_nil].
  - unfold unread. simpl. lia.
  - intros t r Hr _ _. by apply config_ok.
Qed.
