(* ===== verification/IgmpSample.v ===== *)
(** * A sample network for the IGMP proxy

    A router with a bridge for the local network and an upstream interface, one
    host, and the tables after the host has reported one group. *)
From S2P Require Import Prelude CLib Heap System Bytes Genconfig SystemApi Callout.
From S2P Require Import Igmp McSwitch RouteTable IgmpProxy IgmpConfig.
From S2P Require Import IgmpFrame McInv McOps McGroups RouteInv RouteOps IgmpInv.
From Stdlib Require Import Sorting.Sorted.

Module Net.
Definition ip (a b c d : Z) : Z := of_le [a; b; c; d].
Definition lo : IfDesc := If (lit "lo") (ip 127 0 0 1) 0 0 [] 0 0 0 0.
Definition br0 : IfDesc :=
  If (lit "br0") (ip 192 168 0 1) 0 IF_STATE_DOWNSTREAM [(ip 192 168 0 0, ip 255 255 255 0)] 5 1 0 1.
Definition eth1 : IfDesc :=
  If (lit "eth1") (ip 10 0 0 2) 0 IF_STATE_UPSTREAM [(ip 10 0 0 0, ip 255 0 0 0); (0, 0)] 5 1 0 2.
Definition arp : str :=
  lit "IP address       HW type     Flags       HW address            Mask     Device" ++ [LF]
  ++ lit "192.168.0.5      0x1         0x2         00:11:22:33:44:55     *        br0" ++ [LF].

#[export] Instance board : Multicast := {|
  get_wan_link _ := true; arp_table _ := Some arp; mr_cache _ := None;
  get_bridge_portnum_of_mac _ _ := 3; hw_wan_port := 0; get_ux_port p := p + 1;
  check_same_network _ _ _ := true
|}.
#[export] Instance no_addresses : Interfaces := {| ifaddr _ := None; ifmask _ := None |}.

Definition host : Z := ip 192 168 0 5.
Definition grp : Z := ip 239 1 1 1.

(** The state with the given tables. *)
Definition with_tables (rts : gmap loc (node RouteTable)) (rt : ptr) (gs : gmap loc group)
    (ms : gmap loc group_member) (gl : ptr) : igmpd :=
  Igmpd [lo; br0; eth1] 2 initCommonConfig true (Calls [] 0) rts rt gs ms gl (-1)
    (replicate 64 blank_mgroup) (replicate (Z.to_nat RECV_BUF_SIZE) 0)
    (ip_header ++ replicate 100 0) 0 [] (Sys ∅ ∅ (Env ∅ ∅ ∅ [])).

(** At the start, and after the report of the host: [n] is the counter of the
    route, [k] the reports that the host may still miss. *)
Definition idle : igmpd := with_tables ∅ None ∅ ∅ None.
Definition route (n : Z) : RouteTable := Route grp 0 2 ROUTESTATE_JOINED 0 n 0.
Definition member (k : Z) : group_member :=
  Member (ntohl host) (IP_GET_LOST_MAPPING (ntohl grp)) 3 k 0 None.
Definition entry : group :=
  Group (IP_GET_LOST_MAPPING (ntohl grp)) (addr_a1 (ntohl grp)) (addr_a2 (ntohl grp))
    (addr_a3 (ntohl grp)) 8 (Some 1%positive) None.
Definition cell (k : Z) : gcell := GCell 1%positive entry [(1%positive, member k)].
Definition busy (n k : Z) : igmpd :=
  with_tables {[1%positive := Node (route n) None None]} (Some 1%positive)
    {[1%positive := entry]} {[1%positive := member k]} (Some 1%positive).

Lemma idle_groups : groups_ok idle [].
Proof. split; try constructor; done. Qed.

Lemma idle_tables : tables_ok idle [].
Proof.
  split.
  - by eexists.
  - exists []. split; [apply idle_groups|constructor].
  - split; [|done|constructor|constructor]. split; [constructor|done|done|done].
Qed.

Lemma busy_groups n k : groups_ok (busy n k) [cell k].
Proof.
  split; simpl.
  - done.
  - by rewrite lookup_singleton_eq.
  - apply NoDup_singleton.
  - reflexivity.
  - by constructor.
  - constructor; [|constructor]. simpl. by rewrite lookup_singleton_eq.
  - apply NoDup_singleton.
  - reflexivity.
  - apply NoDup_singleton.
  - constructor; [|constructor]. apply NoDup_singleton.
Qed.

Lemma cell_ports k : ports_ok (cell k).
Proof.
  unfold ports_ok, lan_ports. rewrite bool_decide_false by (vm_compute; set_solver).
  intros i Hi. change (g_port_map (gc_val (cell k))) with (2 ^ 3).
  rewrite (bit_testbit 3 (2 ^ 3)) by done. apply bool_decide_ext. vm_compute. set_solver.
Qed.

Lemma busy_tables n k : tables_ok (busy n k) [(1%positive, route n)].
Proof.
  split.
  - by eexists.
  - exists [cell k]. split; [apply busy_groups|]. constructor; [apply cell_ports|constructor].
  - split; simpl.
    + split; [apply NoDup_singleton| |done|done]. simpl. by rewrite lookup_singleton_eq.
    + reflexivity.
    + repeat constructor.
    + constructor; [|constructor]. by split_and!.
Qed.
End Net.
