(* ===== verification/IgmpProps.v ===== *)
(** * The IGMP proxy: properties

    The theorems about the whole proxy, with the facts that put the lemmas of the
    components together, and their instances at the sample network of
    [IgmpSample]. *)
From S2P Require Import Prelude CLib Heap System Bytes Genconfig SystemApi LibEnds.
From S2P Require Import Callout CalloutSpec Igmp McSwitch RouteTable IgmpProxy IgmpConfig.
From S2P Require Import IgmpFrame McInv McOps McGroups McSpec RouteInv RouteOps IgmpInv IgmpWire.
From S2P Require Import IgmpSteady IgmpAge IgmpConfigFacts IgmpSample.

(** ** Reports and leaves *)



Section handlers.
Context {MC : Multicast} {F : fault → Prop} `{!Safe F}.




End handlers.

(** The interface of the upstream router in a forwarding entry. *)
Lemma last_upstream l1 Dp l2 iv :
  if_state Dp = IF_STATE_UPSTREAM → Forall (λ D, if_state D ≠ IF_STATE_UPSTREAM) l2 →
  foldl (λ v D, if if_state D =? IF_STATE_UPSTREAM then Some (if_index D) else v) iv
    (l1 ++ Dp :: l2) = Some (if_index Dp).
Proof.
  intros HD Hl. rewrite foldl_app. simpl. rewrite HD, Z.eqb_refl.
  generalize (Some (if_index Dp)). intros v. induction Hl as [|D l2 HD' _ IH]; [done|]. simpl.
  by rewrite (proj2 (Z.eqb_neq _ _)) by done.
Qed.

(** ** The theorems *)
Section theorems.
Context {MC : Multicast} {IF : Interfaces}.

(** C3: whatever packets, signals and clock readings the passes of the main loop
    get, igmpProxyRun ends them, and unless it faults the tables are well formed
    afterwards: the lists of groups, members and routes are linked correctly and
    own every block of the heap, groups and members are unique, the map of ports
    of a group has the ports of its members, the routes are sorted by group.
    igmpProxyCleanUp then frees every block and every timeout. *)
Theorem igmp_daemon_ok s start ins :
  igmp_ok s →
  wp any_fault (igmpProxyRun start ins) (λ _ s1, igmp_ok s1 ∧
    wp memory_safe igmpProxyCleanUp (λ _ s2,
      c_queue (timeouts s2) = [] ∧ routes_ok s2 [] ∧ groups_ok s2 []) s1) s.
Proof.
  intros H. eapply wp_mono; [by apply keeps_run|]. intros v s1 H1. split; [done|].
  by apply igmpProxyCleanUp_ok.
Qed.

(** C13: no received packet makes the proxy use a NULL or dangling pointer, and
    the tables are well formed after it. *)
Theorem acceptIgmp_safe s packet :
  igmp_ok s →
  wp memory_safe (n ← recv_packet packet; acceptIgmp n) (λ _ s', igmp_ok s') s.
Proof. apply (keeps_bind _ _ _ _ s). Qed.

(** C4: the group table of mc_switch.c, linked lists of groups and members in the
    heap, implements the directory of hosts: after any sequence of reports, leaves
    and removals of groups it holds for every group the hosts of the directory,
    and the map of ports has exactly the ports of these hosts, or all ports of the
    local network when the port of one of them is not known. *)
Theorem mc_table_refines s gs ops :
  groups_ok s gs → Forall ports_ok gs →
  wp memory_safe (run_ops ops) (λ _ s', ∃ gs', groups_ok s' gs' ∧ Forall ports_ok gs' ∧
    hosts_of gs' = foldl dir_op (hosts_of gs) ops) s.
Proof. apply run_ops_ok. Qed.



(** C12: the queue of timeouts, a list of differences, implements absolute
    deadlines: after any sequence of calls with times that an int holds, every
    call has given the result of the specification, and the timers called are
    those that were due, in the order of their times. *)
Theorem timers_refine {A} (cs : list (timer_call A)) :
  Forall call_ok cs →
  ∃ σ', timer_ops cs (Calls [] 0, []) = Ok ((spec_ops (DS 0 0 [] []) cs).1, σ') ∧
    represents σ' (spec_ops (DS 0 0 [] []) cs).2.
Proof. by apply timer_ops_refine. Qed.

(** C21: the forwarding entry that the kernel gets has the threshold of an
    interface exactly when the interface has a listener and is not the upstream
    one, and zero for all others; packets are expected from the upstream
    interface. *)
Theorem kernel_route_ttls s r :
  Forall (λ Dp, 0 ≤ if_index Dp < 32) (ifvc s) → NoDup (index_of <$> ifvc s) →
  ∃ iv ttl s', internUpdateKernelRoute r true s = Ok (1, s') ∧
    effects s' = effects s ++ [AddMRoute (MRoute (rt_originAddr r) (rt_group r) iv ttl)] ∧
    length ttl = 32%nat ∧
    (∀ Dp, Dp ∈ ifvc s → ttl !! index_of Dp =
       Some (if forwards (rt_vifBits r) Dp then if_threshold Dp else 0)) ∧
    (∀ i, (i < 32)%nat → i ∉ index_of <$> ifvc s → ttl !! i = Some 0) ∧
    (∀ l1 Dp l2, ifvc s = l1 ++ Dp :: l2 → if_state Dp = IF_STATE_UPSTREAM →
       Forall (λ D, if_state D ≠ IF_STATE_UPSTREAM) l2 → iv = Some (if_index Dp)).
Proof.
  intros Hi Hnd.
  destruct (ttl_loop_ok (rt_vifBits r) (ifvc s) None (replicate 32 0) eq_refl Hi Hnd)
    as (iv & ttl & E & Hlen & Hin & Hout & Eiv).
  unfold internUpdateKernelRoute. rewrite bind_gets, (bind_res _ _ _ _ E).
  eexists iv, ttl, _. split; [reflexivity|]. split; [done|]. split; [done|].
  assert (∀ i, (i < 32)%nat → replicate 32 0 !! i = Some 0) as Hrep.
  { intros i Hlt. by apply lookup_replicate. }
  split; [|split].
  - intros Dp HD. rewrite Hin by done. destruct (forwards _ Dp); [done|]. apply Hrep.
    rewrite Forall_forall in Hi. specialize (Hi Dp HD). unfold index_of. simpl in Hi. lia.
  - intros i Hlt Hn. rewrite Hout by done. by apply Hrep.
  - intros l1 Dp l2 El HD Hl. rewrite Eiv, El. by apply last_upstream.
Qed.

(** C31: the IGMP packets that the proxy sends are well formed: an IP header of 20
    bytes with the two addresses, then the type, the code, a checksum that
    verifies, and the group. *)
Theorem igmp_packet_verifies s src dst type code group :
  (28 ≤ length (send_buf s))%nat →
  ∃ s' iface loop hdr ck, sendIgmp src dst type code group 0 s = Ok (tt, s') ∧
    effects s' = effects s ++
      [SendPacket iface loop dst (hdr ++ igmp_message type code group ck)] ∧
    length hdr = 20%nat ∧ take 4 (drop 12 hdr) = le_bytes 4 src ∧ drop 16 hdr = le_bytes 4 dst ∧
    inetChksum (igmp_message type code group ck) = 0.
Proof.
  intros Hl. destruct (sendIgmp_ok src dst type code group s (take 28 (send_buf s))
    (drop 28 (send_buf s))) as (s' & E & Ee).
  - by rewrite take_drop.
  - rewrite length_take. lia.
  - eexists s', _, _, _, _. split; [exact E|]. split; [exact Ee|].
    assert (length (take 28 (send_buf s)) = 28%nat) as Hh by (rewrite length_take; lia).
    revert Hh. generalize (take 28 (send_buf s)). intros h Hh.
    do 28 (destruct h as [|? h]; [done|]). split; [reflexivity|]. split; [reflexivity|].
    split; [reflexivity|]. apply igmp_message_verifies.
Qed.

(** C34: the counter of a route that nobody reports goes down by one in every
    round of ageing, so that it expires after exactly as many rounds as it has
    left.  In that round internAgeRoute removes the route and then writes to its
    freed block: the run stops at that use of a dangling pointer, and at nothing
    else, when every interface has a virtual interface and a name of at most 15
    characters, the numbers of the switch ports are known ([in_range]) and nobody
    holds the locks of the switch and of its file ([Unlocked]). *)
Theorem silent_route_expires L s a l r b :
  Unlocked L → in_range L s →
  tables_ok s (a ++ (l, r) :: b) → silent r → 0 < rt_ageValue r < 2 ^ 31 →
  (∀ k, Z.of_nat k < rt_ageValue r →
     ∃ s', age_times k (Some l) s = Ok (tt, s') ∧
       tables_ok s' (a ++ (l, with_ageValue (rt_ageValue r - Z.of_nat k) r) :: b)) ∧
  (age_times (Z.to_nat (rt_ageValue r - 1)) (Some l);; internAgeRoute (Some l)) s
    = Fault Dangling.
Proof.
  intros HL Hr H Hs Hv. split.
  - intros k Hk. destruct (age_times_ok k s a l r b H Hs) as (s' & E & _ & H'); [lia|]. eauto.
  - set (k := Z.to_nat _).
    destruct (age_times_ok k s a l r b H Hs) as (s' & E & _ & H'); [lia|].
    pose proof (steady_age_times L k (Some l) s Hr) as Hr'. rewrite E in Hr'.
    rewrite (bind_Ok _ _ _ _ _ E).
    apply (internAgeRoute_expires L s' a l _ b H' Hr'); [by destruct Hs|simpl; lia].
Qed.

(** C36: when the last member of the list of a group has not answered any query
    any more, and the members in front of it have, sweap_no_report_members removes
    it and then follows the link in its freed block: the sweep stops at that use of
    a dangling pointer, and at nothing else, when the numbers of the interfaces and
    of the switch ports are in range ([in_range]) and nobody holds the locks of the
    switch and of its file ([Unlocked]). *)
Theorem swept_member_dangling L s a c b y l v :
  Unlocked L → in_range L s →
  groups_ok s (a ++ c :: b) → Forall (λ d, group_mip d ≠ group_mip c) a →
  gc_ms c = y ++ [(l, v)] → gc_key c = group_key (ntohl (group_mip c)) →
  gm_key v = member_key (ntohl (group_mip c)) (gm_ip_addr v) →
  Forall (λ m, gm_has_report m.2 ≠ 0) y → gm_has_report v = 0 →
  sweap_no_report_members (group_mip c) s = Fault Dangling.
Proof.
  intros HL Hr H Ha E Hc Hk Hy Hv. unfold sweap_no_report_members, group_fuel.
  rewrite !bind_gets, (go_head _ _ H).
  pose proof (group_fuel_enough _ _ H) as Hf. rewrite length_fmap, length_app in Hf.
  simpl in Hf. unfold mbind, M_bind.
  by erewrite (sweap_last_group L _ _ s [] a c b y l v) by (done || lia).
Qed.

(** C37: no configuration file without NUL bytes configures a downstream
    interface by name: the run of loadConfig ends, with a fault or with interfaces
    of which none that is downstream has a name, and where it comes to the word
    "downstream" of an interface the copy of the name overflows its block by the
    terminating NUL. *)
Theorem downstream_never_loads content σ :
  no_nul content →
  wp any_fault (loadConfig content) (λ '(_, _, vifs) _,
    Forall (λ v, vc_state v = IF_STATE_DOWNSTREAM → vc_name v = None) vifs) σ ∧
  ∀ fuel r c, phyint_loop (S fuel) (Some (lit "downstream")) r c σ = Fault Overflow.
Proof.
  intros Hn. split; [|done].
  eapply wp_mono; [by apply loadConfig_ok|]. by intros [[ok conf] vifs] σ' Hv.
Qed.
End theorems.

(** ** The theorems at the sample network *)
Import Net.

Lemma igmp_daemon_ok_witness :
  wp any_fault (igmpProxyRun (0, 0) [PassIn false (SelectPacket None) []; PassIn true SelectTimeout []])
    (λ _ s1, igmp_ok s1 ∧ wp memory_safe igmpProxyCleanUp (λ _ s2,
      c_queue (timeouts s2) = [] ∧ routes_ok s2 [] ∧ groups_ok s2 []) s1) idle.
Proof. apply igmp_daemon_ok. exists []. exact idle_tables. Defined.

Lemma acceptIgmp_safe_witness :
  wp memory_safe (n ← recv_packet (ip_header ++ [22; 0; 0; 0; 239; 1; 1; 1]); acceptIgmp n)
    (λ _ s', igmp_ok s') idle.
Proof. apply acceptIgmp_safe. exists []. exact idle_tables. Defined.

Lemma mc_table_refines_witness :
  wp memory_safe (run_ops [Report (ntohl grp) (ntohl host); Leave (ntohl grp) (ntohl host)])
    (λ _ s', ∃ gs', groups_ok s' gs' ∧ Forall ports_ok gs' ∧
      hosts_of gs' = [(group_key (ntohl grp), [])]) idle.
Proof.
  apply (mc_table_refines idle [] [Report (ntohl grp) (ntohl host); Leave (ntohl grp) (ntohl host)]).
  - exact idle_groups.
  - constructor.
Defined.



Lemma timers_refine_witness :
  ∃ σ', timer_ops [SetTimer 5 AgeActiveRoutes; SetTimer 3 QuerySpecificMembers; Elapse 4; NextTimer]
      (Calls [] 0, []) = Ok ([1; 2; 0; 1], σ') ∧
    represents σ' (DS 4 2 [Due 5 1 AgeActiveRoutes] [QuerySpecificMembers]).
Proof.
  apply (timers_refine [SetTimer 5 AgeActiveRoutes; SetTimer 3 QuerySpecificMembers; Elapse 4; NextTimer]).
  repeat constructor; simpl; unfold INT_MAX; lia.
Defined.

Lemma kernel_route_ttls_witness :
  ∃ iv ttl s', internUpdateKernelRoute (route 3) true idle = Ok (1, s') ∧
    effects s' = [AddMRoute (MRoute 0 grp iv ttl)] ∧ ttl !! 1%nat = Some 1 ∧ ttl !! 2%nat = Some 0 ∧
    iv = Some 2.
Proof.
  destruct (kernel_route_ttls idle (route 3)) as (iv & ttl & s' & E & Ee & _ & Hin & _ & Hiv).
  - repeat constructor; simpl; lia.
  - apply (bool_decide_unpack _). vm_compute. reflexivity.
  - exists iv, ttl, s'. split; [exact E|]. split; [exact Ee|]. split; [|split].
    + apply (Hin br0). simpl. set_solver.
    + apply (Hin eth1). simpl. set_solver.
    + apply (Hiv [lo; br0] eth1 []); [reflexivity|reflexivity|constructor].
Defined.

Lemma igmp_packet_verifies_witness :
  ∃ s' iface loop hdr ck, sendIgmp (ip 192 168 0 1) grp IGMP_MEMBERSHIP_QUERY 50 grp 0 idle = Ok (tt, s') ∧
    effects s' = [SendPacket iface loop grp (hdr ++ igmp_message IGMP_MEMBERSHIP_QUERY 50 grp ck)] ∧
    length hdr = 20%nat ∧ take 4 (drop 12 hdr) = [192; 168; 0; 1] ∧ drop 16 hdr = [239; 1; 1; 1] ∧
    inetChksum (igmp_message IGMP_MEMBERSHIP_QUERY 50 grp ck) = 0.
Proof.
  apply (igmp_packet_verifies idle (ip 192 168 0 1) grp IGMP_MEMBERSHIP_QUERY 50 grp).
  apply Nat.leb_le. vm_compute. reflexivity.
Defined.

Lemma busy_in_range n k : in_range ∅ (busy n k).
Proof.
  split; simpl.
  - repeat constructor; simpl; lia.
  - vm_compute. discriminate.
  - lia.
  - lia.
  - apply map_Forall_singleton. right. simpl. lia.
  - reflexivity.
Qed.
Lemma nothing_locked : Unlocked ∅.
Proof. split; apply not_elem_of_empty. Qed.

Lemma silent_route_expires_witness :
  (age_times 2 (Some 1%positive);; internAgeRoute (Some 1%positive)) (busy 3 10) = Fault Dangling.
Proof.
  destruct (silent_route_expires ∅ (busy 3 10) [] 1 (route 3) []) as [_ H].
  - exact nothing_locked.
  - exact (busy_in_range 3 10).
  - exact (busy_tables 3 10).
  - split; reflexivity.
  - simpl. lia.
  - exact H.
Defined.

Lemma swept_member_dangling_witness :
  group_mip (cell 0) = grp ∧ sweap_no_report_members grp (busy 3 0) = Fault Dangling.
Proof.
  split; [reflexivity|].
  apply (swept_member_dangling ∅ (busy 3 0) [] (cell 0) [] [] 1 (member 0)).
  - exact nothing_locked.
  - exact (busy_in_range 3 0).
  - exact (busy_groups 3 0).
  - constructor.
  - reflexivity.
  - reflexivity.
  - reflexivity.
  - constructor.
  - reflexivity.
Defined.

(** The file that the product ships, and one without a direction. *)
Definition shipped_conf : str :=
  lit "quickleave" ++ [LF] ++ lit "phyint upstream  ratelimit 0  threshold 1" ++ [LF]
  ++ lit "     altnet 0.0.0.0/0" ++ [LF] ++ lit "phyint downstream  ratelimit 0  threshold 1"
  ++ [LF; LF].
Definition plain_conf : str := lit "phyint threshold 1" ++ [LF; LF].

Lemma downstream_never_loads_witness :
  loadConfig shipped_conf (ios idle) = Fault Overflow ∧
  ∃ vifs, loadConfig plain_conf (ios idle) = Ok ((true, initCommonConfig, vifs), ios idle) ∧
    length vifs = 1%nat ∧ Forall (λ v, vc_state v = IF_STATE_DOWNSTREAM → vc_name v = None) vifs.
Proof.
  split; [vm_compute; reflexivity|]. eexists. split; [vm_compute; reflexivity|].
  split; [reflexivity|].
  destruct (downstream_never_loads plain_conf (ios idle)) as [H _].
  - apply (bool_decide_unpack (no_nul plain_conf)). vm_compute. reflexivity.
  - exact H.
Defined.
